(* ===== verification/_CoqProject ===== *)
-Q . S2P
Prelude.v
Context.v
Message.v
Queue.v
Outbox.v
StorageConsumer.v
GoStrings.v
Parsing.v
GoSort.v
Sql.v
Persistence.v
Table.v
MessageStorage.v
Migration.v
Http.v
HttpParser.v
HttpServer.v
Idk.v
Bus.v
Worker.v
Lazy.v
Listener.v
User.v
UserHandlers.v
UserRepo.v
Database.v
EventOutbox.v
UserProfile.v
UserProfileSql.v
EventDelivery.v
Container.v
UserRoutes.v
SignIn.v
ProfileRoutes.v
RemoteUsers.v
Acknowledged.v
Services.v
Wiring.v
StorageDelivery.v
