(* ===== verification/Prelude.v ===== *)
(** * Formal model of go-service-template

    The repository is a template of Go services: the libraries under src/pkg
    (messaging with a transactional outbox, SQL transactions and migrations,
    HTTP servers and clients, workers, idempotency keys), two services built
    from them (users in src/internal/user, profiles in
    src/internal/userprofile) and four programs in src/cmd that wire them.

    ** How the code is read

    A Go function is a function of the effect monad [M W] of this file: it
    returns, panics, blocks for ever or, where the code loops without a bound,
    runs out of fuel; [W] is the state of its environment, and
    [get_obj]/[modify_obj] reach a mutable object beside it.  An [error] is
    [option error] with wrapping and [errors.Is]; a [(T, error)] is [result T].
    [defer], [recover] and the named results a deferred function overwrites
    are written out.  Goroutines that share memory are step relations
    (StorageConsumer, Worker, the protocols of Queue, the locks of Sql), proved
    by induction on the runs.  What is not under src/ - drivers, the SQL
    server, brokers, resty, gorilla/mux, encoding/json, hashes, the tables of
    Unicode - is a type class of operations; a second class of laws says what
    the code relies on, and an instance shows that the laws can hold.

    ** The files

    Libraries:
    - Context: the values kept in a [context.Context]; pkg/time/clock.go,
      pkg/log, pkg/observability, pkg/auth/auth.go.
    - Message: the data and interfaces of pkg/message (message.go, broker.go).
    - Queue: pkg/message/listenerqueue.go.
    - Outbox: pkg/message/outbox.go.
    - StorageConsumer: pkg/message/storageconsumer.go.
    - Listener: pkg/message/listener.go, metadata.go, buslistener.go.
    - Bus: pkg/message/topic.go, subscriber.go, serializer.go, busproducer.go,
      event.go, task.go.
    - GoStrings, Parsing: the functions of Go's standard library the parsers
      use; pkg/strings/utils.go and pkg/env.
    - GoSort, Sql: pkg/sql/transaction.go, lock.go, context.go; sorting.
    - Persistence: pkg/persistence/transaction.go, and that pkg/sql implements
      it.
    - Table: what the statements of the query builder mean on the rows of a
      table - the specification the repositories are proved against.
    - MessageStorage: pkg/sql/messagestorage.go.
    - Migration: pkg/sql/migration.go, internal/pkg/cmd/sqlmigration.go, the
      sources in messagestorage.go, idempotencykey.go and src/data/sql.
    - Database: pkg/sql/database.go and its configuration.
    - Idk: pkg/idk/service.go, pkg/sql/idempotencykey.go.
    - Http, HttpParser, HttpServer: pkg/http (handler.go, context.go,
      options.go, auth.go, logging.go, metrics.go, observability.go; parser.go;
      server.go, client.go), internal/pkg/http/authtoken.go, internal/pkg/auth.
    - Worker: pkg/worker, pkg/cmd/run.go and term.go.
    - Lazy: pkg/lazy/loader.go, pkg/event/event.go.

    Services:
    - User, UserHandlers, UserRepo: internal/user (domain, app; infra/http;
      infra/sql).
    - UserProfile, UserProfileSql: internal/userprofile, and the service over a
      database.

    Composition:
    - EventOutbox: internal/user/container.go, the events of the users through
      the bus producer into the message storage.
    - EventDelivery: internal/userprofile/container.go, the events from a
      consumer through the bus listener into the profile service.
    - Acknowledged: what that listener tells the broker, and when.
    - Container: internal/pkg/cmd/container.go and httpclient.go, the HTTP
      server with its middlewares and the routes of both services.
    - UserRoutes, SignIn, ProfileRoutes: every route of the two services
      through that server - reading and deleting users; registration,
      authentication and verification; profiles.
    - RemoteUsers: internal/userprofile/infra/user/http, the profile service's
      client answered by the user service's server over a network.
    - Services: the two services as one system, their requests and deliveries
      overlapping.
    - StorageDelivery: the messages of a storage through the storage consumer's
      worker, the listener's loop and its goroutines, as the program
      src/cmd/message-handler-worker runs them; progress, disturbances and
      cancellation are three kinds of its steps.
    - Wiring: the lazy loaders of all containers and the four programs of
      src/cmd, with [Close].

    ** What the theorems show

    - The event of a deleted user, end to end: a deletion commits the marked
      user and the message of its event together or not at all
      ([EventOutbox.user_Delete_outbox]); the outbox sends every due message
      once, in order, and deletes only what the broker accepted
      ([Outbox.outbox_drains], [Outbox.outbox_deletes_only_sent]); the listener
      runs every handler of a message, with its retries, and acknowledges it
      with the result of all of them ([Listener.processMessage_acks]); however often the message is delivered,
      the profile is removed at most once
      ([EventDelivery.event_removes_profile_once]), and the broker is told that
      the message is handled only when it is removed
      ([Acknowledged.acknowledged_after_removal]).
    - Delivery: in every interleaving of the storage consumer and a listener,
      whatever fails, no message is lost, none is handled by two goroutines at a
      time, and one is deleted only after its handlers succeeded
      ([StorageDelivery.delivery_at_least_once]); a run ends once failures end,
      and then every message that was due is handled and deleted, unless an
      acknowledgement met one of the two races of the storage consumer
      ([StorageDelivery.due_messages_delivered]; [races_stop_delivery] runs both
      races in this system).  [acknowledge_is_steps] links its steps to the
      functions of Queue and StorageConsumer.
    - Requests, end to end: the routes and which of them need a token, and what
      each answers through the whole server and leaves behind
      ([Container.routes_protected], [UserRoutes.delete_user_over_http],
      [SignIn.sign_in_over_http], [ProfileRoutes.profile_over_http]).
    - The system ([Services]): every request and delivery of the two services,
      with any others at work while it waits for an answer of the user service,
      is a run of [sys_step]s - a transaction of the user service, an answer to
      an update, the storing of a profile, the handling of an event - and in
      every state these reach a profile is of an active user, or of one whose
      deletion is still to be handled, or was stored by an update that the
      deletion overtook, or two events have one idempotency key
      ([services_stay_consistent]).  [profile_outlives_user] runs an update that
      is overtaken.  The only gaps between two accesses of shared data outside
      of a transaction are the calls of the user service, so these are where
      others act ([amid]); that a transaction is atomic is the promise of the
      database ([Persistence.TransactionSpec]).
    - Programs: the lazily wired start of each program equals its effects in a
      row; a program that returns or panics leaves no database open, and a job
      that panics in its goroutine ends the process with status 2 and without
      [Close] ([Wiring]).
    - Data: transactions are atomic and return their locks and connections,
      sorted locks do not deadlock, migrations run once and in order and each in
      a transaction of its own, read off the transactions the database saw
      ([Migration.recorded_DB]), a key is inserted once, the storages and repositories refine their specifications ([Sql],
      [Migration], [MessageStorage], [Idk], [UserRepo], [UserProfileSql],
      [Database]).
    - Concurrency: the processing queues, the storage consumer and the worker
      pool keep their invariants in every interleaving, the pool drains; the
      storage consumer has two runs in which its worker sleeps for ever
      ([Queue], [StorageConsumer], [Worker]).
    - Parsing, responses and serialization: types and round trips ([Parsing],
      [Bus]), the status, headers and body a handler sends, with net/http's rules
      for informational, bodiless and invalid statuses ([Http]), the client's
      response codes ([HttpServer]).

    ** Fuel and bounds

    - Loops over text ([runes], the trimming functions) have the length of the
      text as fuel, and each step consumes at least a byte.
    - The outbox, the consumer's and the listener's loops take fuel as an
      argument; a theorem that they finish gives an amount that is enough:
      [outbox_drains] more than the due messages divided by the batch size,
      [processMessage_success] one round.  The safety theorems hold for every
      fuel.
    - A run of StorageDelivery has at most [weight] steps of its first state
      plus 41 for each failure, new message or signal: every step of progress
      lowers [weight], a disturbance adds at most 40.
    - Loading nests as deep as the longest chain of loaders; [wiring_fuel], 16,
      exceeds it in every program, as [programs_start_in_order] shows by
      computing the plans.
    - Machine integers are [Z] with their ranges where the code can leave them
      ([Parsing], the time stamps and durations); identifiers are opaque
      numbers.

    ** Not modelled

    - The signals of the operating system ([TermSignals] of pkg/cmd/term.go):
      which of a signal and the context comes first is an event of
      [TermSignalAwaiter] ([Worker]).
    - pkg/metric (an interface with a stub), pkg/persistence/stub.go and
      pkg/observability/stub.go: nothing but empty functions.
    - pkg/strings/case.go: calls of a library, the parameters [Kebab] and
      [ScreamingSnake].
    - The converters goverter generates from the converter.go interfaces: they
      copy fields, as the definitions that use them do.
    - [slices.SortFunc] and [sort.Slice] are an insertion sort; that they sort
      the caller's slice in place is not modelled (no caller reads it again).
      [CommitOffset] gets the message's own pointer where Go passes one to a
      copy; a strategy of the repository sees the same fields.
    - Responses to HEAD requests, whose bodies net/http drops.
    - A [DELETE] that commits and then reports an error: in StorageDelivery a
      failed one deletes nothing.
    - The handlers of a message run one after the other in an order the pool
      chooses ([JobOrder]); Go runs them concurrently.
    - The text squirrel renders for a statement, net/http's sockets, the
      contents of a JSON text - but for its strings, which are coerced to valid
      UTF-8 ([Bus.MessageJSONLaws]) -, a broker's internals.
    - pkg/task/task.go declares types only; tasks are produced and handled as
      the messages of [Bus] and [Listener]. *)
From stdpp Require Export base gmap sets list strings sorting.
From Stdlib Require Export ZArith Lia.

(** ** Identifiers and time

    [uuid.UUID] is a 128-bit value compared by equality only; [uuid.Nil] is
    zero.  [time.Time] is an instant in nanoseconds and [time.Duration] a
    number of nanoseconds. *)
Abbreviation uuid := N (only parsing).
Definition uuid_Nil : uuid := 0%N.
Abbreviation time := Z (only parsing).
Abbreviation duration := Z (only parsing).
Definition time_Second : duration := (1000000000)%Z.
Definition time_Minute : duration := (60 * time_Second)%Z.
Definition time_Hour : duration := (60 * time_Minute)%Z.

(** ** Go errors

    A package-level [errors.New] is a sentinel with an identity; an error made
    on the spot has none; [fmt.Errorf] with [%w] verbs wraps its operands.  The
    [error] interface is [option error], [None] being [nil]. *)
Inductive error :=
| ErrSentinel (id : string)
| ErrText (msg : string)
| ErrWrap (msg : string) (inner : list error).

Fixpoint error_has (target : string) (e : error) : bool :=
  match e with
  | ErrSentinel id => String.eqb id target
  | ErrText _ => false
  | ErrWrap _ inner => existsb (error_has target) inner
  end.

(** [errors.Is(err, target)]; a [nil] target is only matched by a [nil]
    error. *)
Definition errors_Is (err : option error) (target : option string) : bool :=
  match err, target with
  | None, None => true
  | Some e, Some t => error_has t e
  | _, _ => false
  end.

(** [fmt.Errorf("msg: %w", e)] *)
Definition Errorf (msg : string) (e : error) : error := ErrWrap msg [e].

Definition context_Canceled : string := "context.Canceled".

(** A [(T, error)] result whose value is not used when the error is set. *)
Inductive result (A : Type) :=
| Ok (a : A)
| Err (e : error).
Arguments Ok {A} a.
Arguments Err {A} e.

Definition result_err {A} (r : result A) : option error :=
  match r with Ok _ => None | Err e => Some e end.

(** ** Effects

    A Go statement either returns, panics, blocks forever (a send on a full
    channel nobody drains) or, for a loop modelled with fuel, runs out of it.
    The world [W] is the state the environment keeps. *)
Inductive outcome (A : Type) :=
| Ret (a : A)
| Panic (msg : string)
| Blocked
| OutOfFuel.
Arguments Ret {A} a.
Arguments Panic {A} msg.
Arguments Blocked {A}.
Arguments OutOfFuel {A}.

Definition M (W A : Type) : Type := W → outcome A * W.

Definition M_bind_def {W A B : Type} (f : A → M W B) (m : M W A) : M W B :=
  λ w, match m w with
       | (Ret a, w') => f a w'
       | (Panic s, w') => (Panic s, w')
       | (Blocked, w') => (Blocked, w')
       | (OutOfFuel, w') => (OutOfFuel, w')
       end.

#[export] Instance M_ret (W : Type) : MRet (M W) := λ A a w, (Ret a, w).
#[export] Instance M_bind (W : Type) : MBind (M W) := λ A B f m, M_bind_def f m.

Definition panic {W A : Type} (msg : string) : M W A := λ w, (Panic msg, w).
Definition block {W A : Type} : M W A := λ w, (Blocked, w).
Definition out_of_fuel {W A : Type} : M W A := λ w, (OutOfFuel, w).
Definition get {W : Type} : M W W := λ w, (Ret w, w).
Definition put {W : Type} (w' : W) : M W unit := λ _, (Ret tt, w').
Definition modify {W : Type} (f : W → W) : M W unit := λ w, (Ret tt, f w).

(** [defer func() { recover() ... }()]: the handler runs on a panic only. *)
Definition recover {W A : Type} (m : M W A) (h : string → M W A) : M W A :=
  λ w, match m w with
       | (Panic s, w') => h s w'
       | r => r
       end.

(** [defer d()] without recovery: [d] runs on return and on panic. *)
Definition deferring {W A : Type} (m : M W A) (d : M W unit) : M W A :=
  λ w, match m w with
       | (Ret a, w') => (d ≫= λ _, mret a) w'
       | (Panic s, w') => (d ≫= λ _, panic s) w'
       | r => r
       end.

(** [for _, x := range xs { body(x) }] without an early exit. *)
Fixpoint for_each {W A : Type} (body : A → M W unit) (xs : list A) : M W unit :=
  match xs with
  | [] => mret tt
  | x :: xs' => body x ≫= λ _, for_each body xs'
  end.

(** A Go object [Q] beside the rest of the world. *)
Definition on_env {Q W A : Type} (m : M W A) : M (Q * W) A :=
  λ '(q, w), let '(r, w') := m w in (r, (q, w')).
Definition get_obj {Q W : Type} : M (Q * W) Q := λ '(q, w), (Ret q, (q, w)).
Definition modify_obj {Q W : Type} (f : Q → Q) : M (Q * W) unit := λ '(q, w), (Ret tt, (f q, w)).

(** ** Tactics *)

(** Opens the effect monad. *)
Ltac unfold_M :=
  unfold mbind, mret, M_bind, M_ret, M_bind_def, get, put, modify, get_obj, modify_obj, panic, block, out_of_fuel in *.
Ltac case_match_eqn E :=
  match goal with
  | |- context [ match ?x with _ => _ end ] => destruct x eqn:E
  | H : context [ match ?x with _ => _ end ] |- _ => destruct x eqn:E
  end.

Lemma M_bind_Ret_inv {W A B : Type} (m : M W A) (f : A → M W B) w b w' :
  (m ≫= f) w = (Ret b, w') → ∃ a w1, m w = (Ret a, w1) ∧ f a w1 = (Ret b, w').
Proof.
  unfold mbind, M_bind, M_bind_def. destruct (m w) as [[a|s| |] w1]; naive_solver.
Qed.

Lemma M_bind_Ret {W A B : Type} (m : M W A) (f : A → M W B) w a w1 :
  m w = (Ret a, w1) → (m ≫= f) w = f a w1.
Proof. unfold mbind, M_bind, M_bind_def. by intros ->. Qed.

Lemma M_bind_Panic {W A B : Type} (m : M W A) (f : A → M W B) w s w1 :
  m w = (Panic s, w1) → (m ≫= f) w = (Panic s, w1).
Proof. unfold mbind, M_bind, M_bind_def. by intros ->. Qed.

Lemma M_bind_Blocked {W A B : Type} (m : M W A) (f : A → M W B) w w1 :
  m w = (Blocked, w1) → (m ≫= f) w = (Blocked, w1).
Proof. unfold mbind, M_bind, M_bind_def. by intros ->. Qed.

Lemma M_bind_assoc {W A B C : Type} (m : M W A) (f : A → M W B) (g : B → M W C) w :
  ((m ≫= f) ≫= g) w = (m ≫= λ a, f a ≫= g) w.
Proof.
  unfold mbind, M_bind, M_bind_def. by destruct (m w) as [[a|s| |] w1].
Qed.

Lemma M_ret_bind {W A B : Type} (a : A) (f : A → M W B) w :
  ((mret a : M W A) ≫= f) w = f a w.
Proof. done. Qed.

Lemma on_env_inv {Q W A : Type} (m : M W A) (q q' : Q) (w w' : W) r :
  on_env m (q, w) = (r, (q', w')) → q' = q ∧ m w = (r, w').
Proof. unfold on_env. destruct (m w). naive_solver. Qed.

Lemma error_has_wrap msg e t : error_has t (Errorf msg e) = error_has t e.
Proof. simpl. by rewrite orb_false_r. Qed.

Lemma size_remove {A} `{Countable A} (x : A) (X : gset A) :
  x ∈ X → size X = S (size (X ∖ {[x]})).
Proof.
  intros Hx. rewrite size_difference, size_singleton by set_solver.
  assert (size X ≠ 0) as Hn; [|lia].
  intros Hz%size_empty_inv. set_solver.
Qed.

Lemma size_union_nonzero {A} `{Countable A} (x : A) (X : gset A) : size ({[x]} ∪ X) ≠ 0.
Proof. intros Hz%size_empty_inv. set_solver. Qed.

(** Rule induction on runs: an invariant of the steps holds of what is
    reachable. *)
Lemma inv_rtc {S : Type} (step : S → S → Prop) (I : S → Prop) s s' :
  (∀ a b, I a → step a b → I b) → I s → rtc step s s' → I s'.
Proof. intros Hstep HI Hr. induction Hr; eauto. Qed.

Lemma string_length_app a b : String.length (a +:+ b) = String.length a + String.length b.
Proof. induction a as [|c a IH]; simpl; [done|]. by rewrite IH. Qed.

Lemma filter_all {A} (P : A → Prop) `{!∀ x, Decision (P x)} (l : list A) : (∀ x, P x) → filter P l = l.
Proof. intros Hp. induction l as [|x l IH]; [done|]. by rewrite filter_cons, decide_True, IH. Qed.

Lemma filter_none {A} (P : A → Prop) `{!∀ x, Decision (P x)} (l : list A) : (∀ x, x ∈ l → ¬ P x) → filter P l = [].
Proof.
  intros Hp. induction l as [|x l IH]; [done|]. rewrite filter_cons, decide_False by (apply Hp; set_solver).
  apply IH. set_solver.
Qed.

Lemma string_app_assoc a b c : (a +:+ b) +:+ c = a +:+ (b +:+ c).
Proof.
  induction a as [|x a IH]; [done|].
  change (String.String x ((a +:+ b) +:+ c) = String.String x (a +:+ (b +:+ c))). by rewrite IH.
Qed.

Lemma filter_fmap_pull {A B} (f : A → B) (P : B → Prop) (Q : A → Prop)
    `{!∀ x, Decision (P x), !∀ x, Decision (Q x)} (l : list A) :
  (∀ x, P (f x) ↔ Q x) → filter P (f <$> l) = f <$> filter Q l.
Proof.
  intros Hpq. induction l as [|x l IH]; [done|]. rewrite fmap_cons, !filter_cons, IH.
  specialize (Hpq x). destruct (decide (P (f x))), (decide (Q x)); naive_solver.
Qed.

Lemma bool_is_true (b : bool) : b ↔ b = true.
Proof. by destruct b. Qed.

(** ** Invariants of effects

    [keeps J m]: when [m] returns from a world with [J], the world it leaves has
    [J].  The database [keeps] proves this of programs by their structure. *)

Definition keeps {W A : Type} (J : W → Prop) (m : M W A) : Prop := ∀ w a w', J w → m w = (Ret a, w') → J w'.

Create HintDb keeps.

Section keeps.
Context {W : Type} (J : W → Prop).

Lemma keeps_ret {A} (a : A) : keeps J (mret a).
Proof. by intros w a' w' HJ [= _ <-]. Qed.
Lemma keeps_bind {A B} (m : M W A) (f : A → M W B) : keeps J m → (∀ a, keeps J (f a)) → keeps J (m ≫= f).
Proof. intros Hm Hf w b w' HJ (a & w1 & H1 & H2)%M_bind_Ret_inv. eapply Hf, H2. by eapply Hm. Qed.
Lemma keeps_panic {A} msg : keeps J (panic msg : M W A).
Proof. intros w a w' _ H. by inversion H. Qed.
Lemma keeps_block {A} : keeps J (block : M W A).
Proof. intros w a w' _ H. by inversion H. Qed.
Lemma keeps_fuel {A} : keeps J (out_of_fuel : M W A).
Proof. intros w a w' _ H. by inversion H. Qed.
Lemma keeps_get : keeps J get.
Proof. by intros w a w' HJ [= _ <-]. Qed.

(** Beside an object, the world only. *)
Lemma keeps_on_env {Q A} (m : M W A) : keeps J m → keeps (W := Q * W) (λ s, J s.2) (on_env m).
Proof. intros Hm [q w] a [q' w'] HJ [_ H]%on_env_inv. by eapply Hm. Qed.
Lemma keeps_get_obj {Q} : keeps (λ s : Q * W, J s.2) get_obj.
Proof. by intros [q w] a w' HJ [= _ <-]. Qed.
Lemma keeps_modify_obj {Q} (f : Q → Q) : keeps (λ s : Q * W, J s.2) (modify_obj f).
Proof. by intros [q w] a w' HJ [= _ <-]. Qed.
End keeps.

#[export] Hint Resolve keeps_ret keeps_bind keeps_panic keeps_block keeps_fuel keeps_get keeps_on_env keeps_get_obj
  keeps_modify_obj : keeps.

(** A panic that is recovered may be in any world, so only a handler that
    cannot panic is kept by this rule. *)
Lemma keeps_recover {W A : Type} (J : W → Prop) (m : M W A) (h : string → M W A) :
  (∀ w, J w → J (m w).2) → (∀ s, keeps J (h s)) → keeps J (recover m h).
Proof.
  intros Hm Hh w a w' HJ H. unfold recover in H. specialize (Hm w HJ).
  destruct (m w) as [[a'|s| |] w1]; cbn in Hm; [by injection H as _ <-|exact (Hh s w1 a w' Hm H)|done|done].
Qed.

(** Opens the matches of a program and applies the database. *)
Ltac solve_keeps :=
  repeat first
    [ solve [eauto with keeps]
    | match goal with
      | |- keeps _ (_ ≫= _) => apply keeps_bind
      | |- keeps _ (match ?x with _ => _ end) => destruct x
      | |- ∀ _, _ => intros ?
      | |- keeps _ (λ _, _) => idtac
      end ].

(** An operation that leaves [J] as it is, however it ends. *)
Definition steady {W A : Type} (J : W → Prop) (m : M W A) : Prop := ∀ w, J w → J (m w).2.

Create HintDb steady.

Section steady.
Context {W : Type} (J : W → Prop).

Lemma steady_ret {A} (a : A) : steady J (mret a).
Proof. by intros w. Qed.
Lemma steady_bind {A B} (m : M W A) (f : A → M W B) : steady J m → (∀ a, steady J (f a)) → steady J (m ≫= f).
Proof.
  intros Hm Hf w HJ. specialize (Hm w HJ). unfold mbind, M_bind, M_bind_def. destruct (m w) as [[a|s| |] w1]; try exact Hm. by apply Hf.
Qed.
Lemma steady_panic {A} msg : steady J (panic msg : M W A).
Proof. by intros w. Qed.
Lemma steady_deferring {A} (m : M W A) d : steady J m → steady J d → steady J (deferring m d).
Proof.
  intros Hm Hd w HJ. specialize (Hm w HJ). unfold deferring. destruct (m w) as [[a|s| |] w1]; try exact Hm; cbn in Hm;
    unfold_M; specialize (Hd w1 Hm); by destruct (d w1) as [[]].
Qed.
Lemma steady_on_env {Q A} (m : M W A) : steady J m → steady (W := Q * W) (λ s, J s.2) (on_env m).
Proof. intros Hm [q w] HJ. specialize (Hm w HJ). unfold on_env. by destruct (m w). Qed.
End steady.

#[export] Hint Resolve steady_ret steady_bind steady_panic steady_deferring steady_on_env : steady.

(** Opens the matches of a program and applies the database. *)
Ltac solve_steady :=
  repeat first
    [ solve [eauto with steady]
    | match goal with
      | |- steady _ (_ ≫= _) => apply steady_bind
      | |- steady _ (deferring _ _) => apply steady_deferring
      | |- steady _ (match ?x with _ => _ end) => destruct x
      | |- ∀ _, _ => intros ?
      end ].
