(* ===== verification/Context.v ===== *)
(** The values the program stores in a [context.Context] and the functions
    that read and write them: the clock, the observer, the logger's context
    fields and the authentication slot. *)
From S2P Require Import Prelude.

(** ** Principals (internal/pkg/auth, pkg/auth) *)

Definition ServiceName := string.

(** The internal [Principal] struct: three pointers, of which the code sets
    one. *)
Record Principal := mkPrincipal {
  UserID : option uuid;
  AdminUserID : option string;
  PServiceName : option ServiceName;
}.

Definition PrincipalTypeUser : string := "user".
Definition PrincipalTypeAdminUser : string := "adminUser".
Definition PrincipalTypeService : string := "service".

(** [Principal.Type] *)
Definition Principal_Type (p : Principal) : string :=
  match UserID p, AdminUserID p, PServiceName p with
  | Some _, _, _ => PrincipalTypeUser
  | None, Some _, _ => PrincipalTypeAdminUser
  | None, None, Some _ => PrincipalTypeService
  | None, None, None => "unknown"
  end.

(** [Principal.ID]; [uuid_String] is [uuid.UUID.String]. *)
Definition Principal_ID (uuid_String : uuid → string) (p : Principal) : option string :=
  match UserID p, AdminUserID p, PServiceName p with
  | Some u, _, _ => Some (uuid_String u)
  | None, Some a, _ => Some a
  | None, None, s => s
  end.

(** The dynamic type of a value of the interface [auth.Principal]: the
    internal struct, or another implementation that is only known by its
    type and id. *)
Inductive AnyPrincipal :=
| InternalPrincipal (p : Principal)
| ForeignPrincipal (type : string) (id : option string).

(** [auth.Auth[T]]: a pointer to a principal. *)
Record Auth (T : Type) := mkAuth { AuthPrincipal : option T }.
Arguments mkAuth {T} _.
Arguments AuthPrincipal {T} _.

Definition Auth_IsAuthenticated {T} (a : Auth T) : bool :=
  match AuthPrincipal a with Some _ => true | None => false end.

(** ** The context *)

(** [txData] and [updateLock] of pkg/sql; a transaction or a connection is
    known by its handle. *)
Record txData := mkTxData { tx_client : nat; tx_instanceID : string }.
Record updateLock := mkUpdateLock { forUpdate : bool; skipLocked : bool }.

(** A value of a logging field: the logger only stores it. *)
Abbreviation Fields := (list (string * string)) (only parsing).

(** One optional slot per context key of the program.  [ctx_scope] names the
    cancellation scope the context belongs to; whether it is cancelled is a
    state of the world. *)
Record context := mkContext {
  ctx_scope : nat;
  ctx_conn : option nat;
  ctx_tx : option txData;
  ctx_lock : option updateLock;
  ctx_auth : option (Auth AnyPrincipal);
  ctx_http_meta : option nat;
  ctx_route : option string;
  ctx_msg_meta : option nat;
  ctx_log_fields : option Fields;
  ctx_observed : gmap string string;
  ctx_now : option time;
}.

Definition context_Background : context :=
  mkContext 0 None None None None None None None None ∅ None.

Definition with_conn (c : nat) (ctx : context) : context :=
  mkContext (ctx_scope ctx) (Some c) (ctx_tx ctx) (ctx_lock ctx) (ctx_auth ctx)
    (ctx_http_meta ctx) (ctx_route ctx) (ctx_msg_meta ctx) (ctx_log_fields ctx)
    (ctx_observed ctx) (ctx_now ctx).
Definition with_tx (t : txData) (ctx : context) : context :=
  mkContext (ctx_scope ctx) (ctx_conn ctx) (Some t) (ctx_lock ctx) (ctx_auth ctx)
    (ctx_http_meta ctx) (ctx_route ctx) (ctx_msg_meta ctx) (ctx_log_fields ctx)
    (ctx_observed ctx) (ctx_now ctx).
Definition with_lock (l : updateLock) (ctx : context) : context :=
  mkContext (ctx_scope ctx) (ctx_conn ctx) (ctx_tx ctx) (Some l) (ctx_auth ctx)
    (ctx_http_meta ctx) (ctx_route ctx) (ctx_msg_meta ctx) (ctx_log_fields ctx)
    (ctx_observed ctx) (ctx_now ctx).
Definition with_auth (a : Auth AnyPrincipal) (ctx : context) : context :=
  mkContext (ctx_scope ctx) (ctx_conn ctx) (ctx_tx ctx) (ctx_lock ctx) (Some a)
    (ctx_http_meta ctx) (ctx_route ctx) (ctx_msg_meta ctx) (ctx_log_fields ctx)
    (ctx_observed ctx) (ctx_now ctx).
Definition with_http_meta (l : nat) (ctx : context) : context :=
  mkContext (ctx_scope ctx) (ctx_conn ctx) (ctx_tx ctx) (ctx_lock ctx) (ctx_auth ctx)
    (Some l) (ctx_route ctx) (ctx_msg_meta ctx) (ctx_log_fields ctx)
    (ctx_observed ctx) (ctx_now ctx).
Definition with_msg_meta (l : nat) (ctx : context) : context :=
  mkContext (ctx_scope ctx) (ctx_conn ctx) (ctx_tx ctx) (ctx_lock ctx) (ctx_auth ctx)
    (ctx_http_meta ctx) (ctx_route ctx) (Some l) (ctx_log_fields ctx)
    (ctx_observed ctx) (ctx_now ctx).
Definition with_log_fields (f : Fields) (ctx : context) : context :=
  mkContext (ctx_scope ctx) (ctx_conn ctx) (ctx_tx ctx) (ctx_lock ctx) (ctx_auth ctx)
    (ctx_http_meta ctx) (ctx_route ctx) (ctx_msg_meta ctx) (Some f)
    (ctx_observed ctx) (ctx_now ctx).
Definition with_observed (k v : string) (ctx : context) : context :=
  mkContext (ctx_scope ctx) (ctx_conn ctx) (ctx_tx ctx) (ctx_lock ctx) (ctx_auth ctx)
    (ctx_http_meta ctx) (ctx_route ctx) (ctx_msg_meta ctx) (ctx_log_fields ctx)
    (<[k := v]> (ctx_observed ctx)) (ctx_now ctx).
Definition with_now (t : time) (ctx : context) : context :=
  mkContext (ctx_scope ctx) (ctx_conn ctx) (ctx_tx ctx) (ctx_lock ctx) (ctx_auth ctx)
    (ctx_http_meta ctx) (ctx_route ctx) (ctx_msg_meta ctx) (ctx_log_fields ctx)
    (ctx_observed ctx) (Some t).

(** ** pkg/time: the adjustable clock.  [now] is what [time.Now()] returns. *)

Definition Clock_Now (now : time) (ctx : context) : time :=
  match ctx_now ctx with Some t => t | None => now end.
Definition Clock_Set (ctx : context) (t : time) : context := with_now t ctx.
Definition Clock_Freeze (now : time) (ctx : context) : context :=
  match ctx_now ctx with Some _ => ctx | None => Clock_Set ctx now end.

(** ** pkg/log *)

Inductive Level := LevelDisabled | LevelDebug | LevelInfo | LevelWarn | LevelError.
#[export] Instance Level_eq_dec : EqDecision Level.
Proof. solve_decision. Defined.

(** [slogLevelMap]; the zero value of a level that is not in the map. *)
Definition slogLevel (l : Level) : Z :=
  match l with LevelDebug => -4 | LevelInfo => 0 | LevelWarn => 4 | LevelError => 8 | LevelDisabled => 0 end%Z.

(** Where [slog] writes its records. *)
Class LogSink (W : Type) := emit : Level → Fields → string → M W unit.

(** A logger made by [New]: the stub of the disabled level, or the least level
    that is written and the fields collected by [With]. *)
Inductive Logger := StubLogger | SlogLogger (min : Level) (fields : Fields).

Definition log_New (level : Level) : Logger :=
  if decide (level = LevelDisabled) then StubLogger else SlogLogger level [].

Definition logger_With (l : Logger) (fields : Fields) : Logger :=
  match l with StubLogger => StubLogger | SlogLogger min fs => SlogLogger min (fs ++ fields) end.
Definition logger_WithField (l : Logger) (name v : string) : Logger := logger_With l [(name, v)].

(** The text of an error is not modelled: [error_Error] stands for
    [err.Error()]. *)
Definition logger_WithError (error_Error : error → string) (l : Logger) (err : option error) : Logger :=
  match err with None => l | Some e => logger_With l [("error", error_Error e)] end.

(** Fields carried by a context. *)
Definition getContextFields (ctx : context) : Fields :=
  match ctx_log_fields ctx with Some f => f | None => [] end.
Definition setContextFields (ctx : context) (fields : Fields) : context :=
  match fields with [] => ctx | _ => with_log_fields fields ctx end.
Definition logger_WithContext (l : Logger) (ctx : context) (fields : Fields) : context :=
  match l, fields with
  | StubLogger, _ | _, [] => ctx
  | SlogLogger _ _, _ => setContextFields ctx (getContextFields ctx ++ fields)
  end.

(** [Debug], [Info], [Warn], [Error] and the rest of [Log]: reading a value of
    a [nil] context is a nil dereference; a record below the least level is
    not written. *)
Definition nilDereference : string := "invalid memory address or nil pointer dereference".
Definition logger_write {W : Type} `{!LogSink W} (l : Logger) (ctx : option context) (level : Level) (msg : string) : M W unit :=
  match l with
  | StubLogger => mret tt
  | SlogLogger min fs =>
      match ctx with
      | None => panic nilDereference
      | Some c => if (slogLevel min <=? slogLevel level)%Z then emit level (fs ++ getContextFields c) msg else mret tt
      end
  end.
Definition logger_Log {W : Type} `{!LogSink W} (l : Logger) (ctx : option context) (level : Level) (msg : string) : M W unit :=
  if decide (level = LevelDisabled) then mret tt else logger_write l ctx level msg.

(** Where counters and durations go (pkg/metric is an interface). *)
Class Metrics (W : Type) := Increment : Fields → string → M W unit.

(** ** pkg/observability: the observer *)

Definition FieldRequestID : string := "requestID".

Record observer := mkObserver { obs_logger : Logger; loggingFields : gset string }.

(** [New] with the options; without [WithFieldsLogging] no field is logged. *)
Definition WithFieldsLogging (logger : Logger) (fields : list string) (o : observer) : observer :=
  mkObserver logger (list_to_set fields).
Definition observability_New (opts : list (observer → observer)) : observer :=
  foldl (λ o opt, opt o) (mkObserver StubLogger ∅) opts.

Definition observer_Field (o : observer) (ctx : context) (field : string) : string :=
  match ctx_observed ctx !! field with Some v => v | None => "" end.

Definition observer_WithField (o : observer) (ctx : context) (field value : string) : context :=
  if String.eqb value "" then ctx
  else
    let ctx := with_observed field value ctx in
    if decide (field ∈ loggingFields o)
    then logger_WithContext (obs_logger o) ctx [(field, value)]
    else ctx.

(** ** pkg/auth: the authentication slot *)

(** The type argument [T] of [WithAuthentication] and [GetAuthentication]:
    how a [T] is converted to the interface [auth.Principal] and what the type
    assertion back gives. *)
Class PrincipalImpl (T : Type) := {
  to_any : T → AnyPrincipal;
  assert_any : AnyPrincipal → option T;
}.

(** Laws of a type argument: asserting the type a value was converted from
    succeeds. *)
Class PrincipalImplLaws (T : Type) `{!PrincipalImpl T} : Prop :=
  assert_to_any : ∀ p : T, assert_any (to_any p) = Some p.

#[export] Instance AnyPrincipal_impl : PrincipalImpl AnyPrincipal :=
  {| to_any p := p; assert_any p := Some p |}.
#[export] Instance Principal_impl : PrincipalImpl Principal :=
  {| to_any := InternalPrincipal;
     assert_any p := match p with InternalPrincipal q => Some q | _ => None end |}.

Definition WithAuthentication {T} `{!PrincipalImpl T} (ctx : context) (a : Auth T) : context :=
  with_auth (mkAuth (to_any <$> AuthPrincipal a)) ctx.

Definition GetAuthentication {T} `{!PrincipalImpl T} (ctx : context) : option (Auth T) :=
  match ctx_auth ctx with
  | None => None
  | Some a =>
      match AuthPrincipal a with
      | None => Some (mkAuth None)
      | Some p =>
          match assert_any p with
          | None => None
          | Some q => Some (mkAuth (Some q))
          end
      end
  end.

Definition errAuthenticationNotFound : error := ErrText "authentication not found".

Definition IsAuthenticated (ctx : context) : result bool :=
  match ctx_auth ctx with
  | None => Err errAuthenticationNotFound
  | Some a => Ok (Auth_IsAuthenticated a)
  end.

(** ** Lemmas *)

#[export] Instance AnyPrincipal_laws : PrincipalImplLaws AnyPrincipal.
Proof. done. Qed.
#[export] Instance Principal_laws : PrincipalImplLaws Principal.
Proof. done. Qed.

Lemma GetAuthentication_with {T} `{!PrincipalImpl T, !PrincipalImplLaws T} ctx (a : Auth T) :
  GetAuthentication (WithAuthentication ctx a) = Some a.
Proof.
  destruct a as [[p|]]; unfold GetAuthentication, WithAuthentication; simpl; [|done].
  by rewrite assert_to_any.
Qed.

Lemma IsAuthenticated_with {T} `{!PrincipalImpl T} ctx (a : Auth T) :
  IsAuthenticated (WithAuthentication ctx a) = Ok (Auth_IsAuthenticated a).
Proof. by destruct a as [[p|]]. Qed.

(** The fields a logger adds to a context. *)
Definition added_fields (l : Logger) (f : Fields) : Fields := match l with StubLogger => [] | SlogLogger _ _ => f end.

Lemma getContextFields_WithContext l ctx f :
  getContextFields (logger_WithContext l ctx f) = getContextFields ctx ++ added_fields l f.
Proof.
  unfold logger_WithContext, setContextFields.
  destruct l as [|min fs]; [by rewrite app_nil_r|]. destruct f as [|x f]; [by rewrite app_nil_r|].
  destruct (getContextFields ctx ++ x :: f) eqn:E; [|done].
  by destruct (getContextFields ctx).
Qed.

Lemma observed_WithContext l ctx f : ctx_observed (logger_WithContext l ctx f) = ctx_observed ctx.
Proof.
  unfold logger_WithContext, setContextFields.
  destruct l, f; try done. by destruct (getContextFields ctx ++ _).
Qed.

Lemma msg_meta_WithContext l ctx f : ctx_msg_meta (logger_WithContext l ctx f) = ctx_msg_meta ctx.
Proof.
  unfold logger_WithContext, setContextFields.
  destruct l, f; try done. by destruct (getContextFields ctx ++ _).
Qed.

(** With a context, logging writes one record or does nothing. *)
Lemma logger_Log_ctx {W} `{!LogSink W} l ctx level msg (w : W) :
  logger_Log l (Some ctx) level msg w = (Ret tt, w) ∨
  ∃ fields, logger_Log l (Some ctx) level msg w = emit level fields msg w.
Proof.
  unfold logger_Log, logger_write. destruct (decide _); [by left|]. destruct l as [|min fs]; [by left|].
  destruct (_ <=? _)%Z; [right; by eexists|by left].
Qed.

(** A context without a transaction or a connection of its own: all the values
    the program adds to one besides those two leave it so. *)
Definition plain (ctx : context) : Prop := ctx_tx ctx = None ∧ ctx_conn ctx = None.

Lemma plain_WithContext l ctx f : plain ctx → plain (logger_WithContext l ctx f).
Proof. unfold logger_WithContext, setContextFields. intros Hp. destruct l, f; try done. by destruct (getContextFields ctx ++ _). Qed.
Lemma plain_msg_meta p ctx : plain ctx → plain (with_msg_meta p ctx).
Proof. done. Qed.
Lemma plain_WithField o ctx field v : plain ctx → plain (observer_WithField o ctx field v).
Proof. intros Hp. unfold observer_WithField. repeat case_match; try done. by apply plain_WithContext. Qed.
#[export] Hint Resolve plain_WithContext plain_msg_meta plain_WithField : keeps.

(** ** Theorems *)

(** The principal stored by [WithAuthentication] is what
    [GetAuthentication] returns at the same type, an anonymous authentication
    included; [IsAuthenticated] agrees with it; and reading an authentication
    made for the interface at the internal type fails exactly when the dynamic
    type is another one. *)
Theorem authentication_roundtrip ctx (a : Auth Principal) (b : Auth AnyPrincipal) :
  GetAuthentication (WithAuthentication ctx a) = Some a ∧
  GetAuthentication (T := AnyPrincipal) (WithAuthentication ctx a) =
    Some (mkAuth (InternalPrincipal <$> AuthPrincipal a)) ∧
  IsAuthenticated (WithAuthentication ctx a) = Ok (Auth_IsAuthenticated a) ∧
  (GetAuthentication (T := Principal) (WithAuthentication ctx b) = None ↔
   ∃ ty id, AuthPrincipal b = Some (ForeignPrincipal ty id)).
Proof.
  split_and!.
  - apply GetAuthentication_with.
  - destruct a as [[p|]]; done.
  - apply IsAuthenticated_with.
  - destruct b as [[[p|ty id]|]]; cbn; naive_solver.
Qed.

(** [observer.WithField] makes exactly its own field readable (an empty
    value changes nothing), and adds the field to the logger's context fields,
    after the ones already there, when the observer logs it. *)
Theorem observer_WithField_spec o ctx field value :
  (∀ f, observer_Field o (observer_WithField o ctx field value) f =
        if decide (value ≠ "" ∧ f = field) then value else observer_Field o ctx f) ∧
  getContextFields (observer_WithField o ctx field value) =
    getContextFields ctx ++
      (if decide (value ≠ "" ∧ field ∈ loggingFields o) then added_fields (obs_logger o) [(field, value)] else []).
Proof.
  unfold observer_WithField, observer_Field.
  destruct (String.eqb_spec value "") as [->|Hv].
  { split; [intros f|]; rewrite decide_False by tauto; [done|]. by rewrite app_nil_r. }
  split.
  - intros f. case_decide as Hd; rewrite ?observed_WithContext; simpl;
      rewrite lookup_insert; repeat case_decide; naive_solver.
  - destruct (decide (field ∈ loggingFields o)) as [Hin|Hin].
    + rewrite decide_True by done. by rewrite getContextFields_WithContext.
    + rewrite decide_False by tauto. by rewrite app_nil_r.
Qed.
