(* ===== verification/Message.v ===== *)
(** The data of pkg/message: messages, consumer messages, metadata. *)
From S2P Require Import Prelude Context.

Abbreviation Topic := string (only parsing).
Abbreviation Subscriber := string (only parsing).
Abbreviation bytes := string (only parsing).

Record Message := mkMessage {
  msg_ID : uuid;
  msg_Topic : Topic;
  msg_Key : string;
  msg_Payload : bytes;
}.

(** [*ConsumerMessage]: [cm_ptr] is the identity of the pointer. *)
Record ConsumerMessage := mkConsumerMessage {
  cm_ptr : nat;
  cm_Context : context;
  cm_Message : Message;
}.

Abbreviation Metadata := (gmap string string) (only parsing).

(** The methods of a value of the interface [StructuredMessage], with the name
    of its dynamic type ([reflect.TypeOf]) and what [json.Marshal] sees of
    it. *)
Record StructuredMessage := mkStructured {
  sm_reflectType : string;
  sm_ID : uuid;
  sm_Type : string;
  sm_AggregateID : uuid;
  sm_Value : string;
}.

#[export] Instance Message_eq_dec : EqDecision Message.
Proof. solve_decision. Defined.

(** ** Storage, broker and acknowledgement interfaces (storage.go, broker.go) *)

Record StorageSpecification := mkSpec {
  IDsExcluded : list uuid;
  Topics : list Topic;
  ScheduledAtBefore : time;
  Limit : Z;
}.

(** What [Lock] returns: the locked context and the release function, or an
    error with the context that came with it ([None] is a [nil] context). *)
Inductive lockResult (W : Type) :=
| Locked (ctx : context) (release : M W (option error))
| LockFailed (ctx : option context) (e : error).
Arguments Locked {W} _ _.
Arguments LockFailed {W} _ _.

Class Storage (W : Type) := {
  Lock : context → list string → M W (lockResult W);
  Find : context → StorageSpecification → M W (result (list Message));
  Store : context → time → list Message → M W (option error);
  Delete : context → Topic → list uuid → M W (option error);
}.

Class Producer (W : Type) := Produce : context → Message → M W (option error).

Class CommitOffsetStrategy (W : Type) := CommitOffset : context → ConsumerMessage → M W (option error).
Class AckStrategy (W : Type) := Ack : context → ConsumerMessage → M W (option error).
Class AckNackStrategy (W : Type) := {
  AckNack_Ack : context → ConsumerMessage → M W (option error);
  Nack : context → ConsumerMessage → M W (option error);
}.

(** The clock the environment keeps: [time.Now()]. *)
Class HasClock (W : Type) := time_Now : M W time.

(** ** Retrying (github.com/cenkalti/backoff)

    The library is a parameter: [Retry ctx op] runs [op] until it returns
    [nil] or a permanent error, or the policy or the context stops it. *)
Class Backoff (W : Type) := Retry : context → M W (option error) → M W (option error).

(** [backoff.Permanent(err)], and what [errors.As] finds of it. *)
Definition permanentTag : string := "backoff.PermanentError".
Definition backoff_Permanent (e : error) : error := ErrWrap permanentTag [e].
Definition as_permanent (e : error) : option error :=
  match e with
  | ErrWrap msg [e'] => if String.eqb msg permanentTag then Some e' else None
  | _ => None
  end.

(** The documented behaviour the code relies on.  [attempts op w r w']: from
    [w], [op] is run one or more times, every run but the last failing with an
    error that is not permanent, and [r] is the outcome of the last run. *)
Inductive attempts {W : Type} (op : M W (option error)) : W → outcome (option error) → W → Prop :=
| attempts_last w r w' : op w = (r, w') → attempts op w r w'
| attempts_again w e w1 r w' :
    op w = (Ret (Some e), w1) → as_permanent e = None → attempts op w1 r w' → attempts op w r w'.

Class BackoffLaws (W : Type) `{!Backoff W} : Prop := {
  retry_success ctx op (w w' : W) : op w = (Ret None, w') → Retry ctx op w = (Ret None, w');
  retry_permanent ctx op (w w' : W) e e' :
    op w = (Ret (Some e), w') → as_permanent e = Some e' → Retry ctx op w = (Ret (Some e'), w');
  retry_nil ctx op (w w' : W) :
    Retry ctx op w = (Ret None, w') → attempts op w (Ret None) w';
  retry_error ctx op (w w' : W) e :
    Retry ctx op w = (Ret (Some e), w') → ∃ e', attempts op w (Ret (Some e')) w';
}.

(** Retrying keeps what the operation keeps. *)
Lemma retry_keeps {V} `{!Backoff V, !BackoffLaws V} (I : V → Prop) ctx (op : M V (option error)) : keeps I op → keeps I (Retry ctx op).
Proof.
  intros Hop w r w' HI H.
  assert (∃ r', attempts op w (Ret r') w') as [r' Hat].
  { destruct r as [e|]; [apply retry_error in H as [e' H]; by exists (Some e')|apply retry_nil in H; by exists None]. }
  clear H. remember (Ret r') as o eqn:Ho. induction Hat as [w o w' H|w e w1 o w' H _ _ IH]; subst; [by eapply Hop|].
  apply IH; [|done]. by eapply Hop.
Qed.

(** A policy that never retries keeps the laws. *)
Definition stopBackOff (W : Type) : Backoff W := λ _ op,
  err ← op;
  mret (match err with
        | Some e => Some (default e (as_permanent e))
        | None => None
        end).

Lemma stopBackOff_laws W : @BackoffLaws W (stopBackOff W).
Proof.
  split; unfold Retry, stopBackOff; unfold_M.
  - by intros _ op w w' ->.
  - intros _ op w w' e e' -> He. cbn. by rewrite He.
  - intros _ op w w'. destruct (op w) as [[[e|]|s| |] w1] eqn:E; intros H; simplify_eq. by apply attempts_last.
  - intros _ op w w' e. destruct (op w) as [[[e'|]|s| |] w1] eqn:E; intros H; simplify_eq. exists e'. by apply attempts_last.
Qed.
