(* ===== verification/Queue.v ===== *)
(** pkg/message/listenerqueue.go: the processing queues that bound the number
    of messages a listener works on and acknowledge them to the broker. *)
From S2P Require Import Prelude Context Message.

(** [ListenerProcessingQueue]: the world keeps the queue. *)
Class ListenerProcessingQueue (W : Type) := {
  ProcessingTokens : W → nat;
  AddProcessing : ConsumerMessage → M W (option error);
  AcknowledgeResult : context → ConsumerMessage → option error → M W (option error);
}.

Definition ErrNegativeAckNotSupported : string := "message.ErrNegativeAckNotSupported".
Definition errQueueFull : error := ErrText "processing queue is full".

(** ** Shared pieces *)

Definition clampSize (maxSize : Z) : nat := Z.to_nat (if maxSize <? 1 then 1 else maxSize)%Z.

(** ** Commit-offset queue *)

Record listenerMessage := mkListenerMessage {
  lm_Message : ConsumerMessage;
  lm_Processed : bool;
}.

(** [coq_tokens] tokens are buffered in a channel of capacity [coq_cap];
    [coq_qcap] is the capacity of the slice. *)
Record commitOffsetQueue := mkCommitOffsetQueue {
  coq_tokens : nat;
  coq_cap : nat;
  coq_queue : list listenerMessage;
  coq_qcap : nat;
}.

Definition NewCommitOffsetQueue (maxSize : Z) : commitOffsetQueue :=
  let n := clampSize maxSize in mkCommitOffsetQueue n n [] n.

Definition coq_set_queue (l : list listenerMessage) (q : commitOffsetQueue) : commitOffsetQueue :=
  mkCommitOffsetQueue (coq_tokens q) (coq_cap q) l (coq_qcap q).

Definition commitOffset_AddProcessing {W : Type} (msg : ConsumerMessage) :
    M (commitOffsetQueue * W) (option error) :=
  λ '(q, w),
    if decide (length (coq_queue q) = coq_qcap q) then (Ret (Some errQueueFull), (q, w))
    else (Ret None, (coq_set_queue (coq_queue q ++ [mkListenerMessage msg false]) q, w)).

(** [q.processingTokens <- struct{}{}]: blocks, holding the mutex, when the
    buffer is full. *)
Definition commitOffset_sendToken {W : Type} : M (commitOffsetQueue * W) unit :=
  λ '(q, w),
    if decide (coq_tokens q < coq_cap q)
    then (Ret tt, (mkCommitOffsetQueue (S (coq_tokens q)) (coq_cap q) (coq_queue q) (coq_qcap q), w))
    else (Blocked, (q, w)).

Fixpoint commitOffset_sendTokens {W : Type} (n : nat) : M (commitOffsetQueue * W) unit :=
  match n with
  | O => mret tt
  | S n' => commitOffset_sendToken ≫= λ _, commitOffset_sendTokens n'
  end.

(** First loop: mark every entry holding this pointer. *)
Definition mark_processed (msg : ConsumerMessage) (l : list listenerMessage) : list listenerMessage :=
  (λ e, if Nat.eqb (cm_ptr (lm_Message e)) (cm_ptr msg)
        then mkListenerMessage (lm_Message e) true else e) <$> l.

(** Second loop: index and value of the last entry of the processed prefix;
    [acc] is what the entries seen so far gave, [i] the index reached. *)
Fixpoint last_processed (l : list listenerMessage) (i : nat) (acc : option (nat * ConsumerMessage)) :
    option (nat * ConsumerMessage) :=
  match l with
  | e :: l' => if lm_Processed e then last_processed l' (S i) (Some (i, lm_Message e)) else acc
  | [] => acc
  end.

(** Third loop: [q[i] = q[i+count]] for the first [n] indices from [i]. *)
Fixpoint shift_left (count i n : nat) (l : list listenerMessage) : list listenerMessage :=
  match n with
  | O => l
  | S n' =>
      shift_left count (S i) n'
        (match l !! (i + count)%nat with Some e => <[i := e]> l | None => l end)
  end.

Arguments commitOffset_sendTokens : simpl never.

Definition commitOffset_AcknowledgeResult {W : Type} `{!CommitOffsetStrategy W}
    (ctx : context) (msg : ConsumerMessage) (res : option error) :
    M (commitOffsetQueue * W) (option error) :=
  match res with
  | Some e => mret (Some (ErrWrap "commit offset" [ErrSentinel ErrNegativeAckNotSupported; e]))
  | None =>
      '(q, w) ← get;
      let marked := mark_processed msg (coq_queue q) in
      _ ← put (coq_set_queue marked q, w);
      match last_processed marked 0 None with
      | None => mret None
      | Some (i, lastMsg) =>
          err ← on_env (CommitOffset ctx lastMsg);
          match err with
          | Some e => mret (Some (Errorf "commit offset" e))
          | None =>
              let processedItemsCount := S i in
              '(q, w) ← get;
              let rest := (length (coq_queue q) - processedItemsCount)%nat in
              _ ← put (coq_set_queue (take rest (shift_left processedItemsCount 0 rest (coq_queue q))) q, w);
              _ ← commitOffset_sendTokens processedItemsCount;
              mret None
          end
      end
  end.

#[export] Instance commitOffsetQueue_impl (W : Type) `{!CommitOffsetStrategy W} :
    ListenerProcessingQueue (commitOffsetQueue * W) :=
  {| ProcessingTokens := λ '(q, _), coq_tokens q;
     AddProcessing := commitOffset_AddProcessing;
     AcknowledgeResult := commitOffset_AcknowledgeResult |}.

(** ** Ack/nack queue *)

(** The map keyed by pointers is the set of their identities. *)
Record ackNackQueue := mkAckNackQueue {
  anq_maxSize : nat;
  anq_tokens : nat;
  anq_cap : nat;
  anq_queue : gset nat;
}.

Definition NewAckNackQueue (maxSize : Z) : ackNackQueue :=
  let n := clampSize maxSize in mkAckNackQueue n n n ∅.

Definition ackNack_AddProcessing {W : Type} (msg : ConsumerMessage) :
    M (ackNackQueue * W) (option error) :=
  λ '(q, w),
    if decide (size (anq_queue q) = anq_maxSize q) then (Ret (Some errQueueFull), (q, w))
    else if decide (cm_ptr msg ∈ anq_queue q)
    then (Ret (Some (ErrText "message already in queue")), (q, w))
    else (Ret None, (mkAckNackQueue (anq_maxSize q) (anq_tokens q) (anq_cap q)
                       ({[cm_ptr msg]} ∪ anq_queue q), w)).

(** The critical section at the end of [AcknowledgeResult]. *)
Definition ackNack_release {W : Type} (msg : ConsumerMessage) : M (ackNackQueue * W) unit :=
  λ '(q, w),
    let queue := anq_queue q ∖ {[cm_ptr msg]} in
    if decide (anq_tokens q < anq_cap q)
    then (Ret tt, (mkAckNackQueue (anq_maxSize q) (S (anq_tokens q)) (anq_cap q) queue, w))
    else (Blocked, (mkAckNackQueue (anq_maxSize q) (anq_tokens q) (anq_cap q) queue, w)).

Definition ackNack_AcknowledgeResult {W : Type} `{!AckNackStrategy W}
    (ctx : context) (msg : ConsumerMessage) (res : option error) :
    M (ackNackQueue * W) (option error) :=
  err ← match res with
        | None => err ← on_env (AckNack_Ack ctx msg); mret (Errorf "ack" <$> err)
        | Some _ => err ← on_env (Nack ctx msg); mret (Errorf "nack" <$> err)
        end;
  match err with
  | Some e => mret (Some e)
  | None => _ ← ackNack_release msg; mret None
  end.

#[export] Instance ackNackQueue_impl (W : Type) `{!AckNackStrategy W} :
    ListenerProcessingQueue (ackNackQueue * W) :=
  {| ProcessingTokens := λ '(q, _), anq_tokens q;
     AddProcessing := ackNack_AddProcessing;
     AcknowledgeResult := ackNack_AcknowledgeResult |}.

(** ** Ack queue: a wrapper of the ack/nack queue around a broker that cannot
    nack. *)

Definition nackNotSupportedAdapter (W : Type) `{!AckStrategy W} : AckNackStrategy W :=
  {| AckNack_Ack := Ack;
     Nack := λ _ _, mret (Some (ErrSentinel ErrNegativeAckNotSupported)) |}.

Definition NewAckQueue (maxSize : Z) : ackNackQueue := NewAckNackQueue maxSize.

Definition ackQueue_AcknowledgeResult {W : Type} `{!AckStrategy W}
    (ctx : context) (msg : ConsumerMessage) (res : option error) :
    M (ackNackQueue * W) (option error) :=
  match res with
  | Some e => mret (Some (ErrWrap "ack" [ErrSentinel ErrNegativeAckNotSupported; e]))
  | None => @ackNack_AcknowledgeResult W (nackNotSupportedAdapter W) ctx msg None
  end.

Definition ackQueue_impl (W : Type) `{!AckStrategy W} :
    ListenerProcessingQueue (ackNackQueue * W) :=
  {| ProcessingTokens := λ '(q, _), anq_tokens q;
     AddProcessing := ackNack_AddProcessing;
     AcknowledgeResult := ackQueue_AcknowledgeResult |}.

(** ** The protocol the listener follows

    A worker takes a token, adds a message, and acknowledges it (possibly many
    times, with any broker outcome).  [held] counts tokens taken and not yet
    turned into a queue entry. *)

Inductive coq_step {W : Type} `{!CommitOffsetStrategy W} :
    nat * (commitOffsetQueue * W) → nat * (commitOffsetQueue * W) → Prop :=
| coq_take h q w t :
    coq_tokens q = S t →
    coq_step (h, (q, w)) (S h, (mkCommitOffsetQueue t (coq_cap q) (coq_queue q) (coq_qcap q), w))
| coq_add h s m err s' :
    commitOffset_AddProcessing m s = (Ret err, s') →
    coq_step (S h, s) (h, s')
| coq_ack h s ctx m res o s' :
    commitOffset_AcknowledgeResult ctx m res s = (o, s') →
    coq_step (h, s) (h, s')
| coq_env h q w w' : coq_step (h, (q, w)) (h, (q, w')).

Inductive anq_step {W : Type} `{!AckNackStrategy W} :
    nat * (ackNackQueue * W) → nat * (ackNackQueue * W) → Prop :=
| anq_take h q w t :
    anq_tokens q = S t →
    anq_step (h, (q, w)) (S h, (mkAckNackQueue (anq_maxSize q) t (anq_cap q) (anq_queue q), w))
| anq_add h s m s' :
    ackNack_AddProcessing m s = (Ret None, s') →
    anq_step (S h, s) (h, s')
| anq_ack h q w ctx m res o s' :
    cm_ptr m ∈ anq_queue q →
    ackNack_AcknowledgeResult ctx m res (q, w) = (o, s') →
    anq_step (h, (q, w)) (h, s')
| anq_env h q w w' : anq_step (h, (q, w)) (h, (q, w')).

(** Every slot is a buffered token, a held token or an entry. *)
Definition coq_inv (n : nat) {W : Type} (s : nat * (commitOffsetQueue * W)) : Prop :=
  let '(h, (q, _)) := s in
  coq_cap q = n ∧ coq_qcap q = n ∧ coq_tokens q + h + length (coq_queue q) = n.

Definition anq_inv (n : nat) {W : Type} (s : nat * (ackNackQueue * W)) : Prop :=
  let '(h, (q, _)) := s in
  anq_cap q = n ∧ anq_maxSize q = n ∧ anq_tokens q + h + size (anq_queue q) = n.

(** Reference definition: the length of the longest processed prefix. *)
Fixpoint processed_prefix (l : list listenerMessage) : nat :=
  match l with
  | e :: l' => if lm_Processed e then S (processed_prefix l') else 0
  | [] => 0
  end.

(** Reference for [commitOffset_AcknowledgeResult]: commit the last entry of
    the processed prefix, then drop the prefix and release its tokens. *)
Definition commitOffset_ref {W : Type} `{!CommitOffsetStrategy W}
    (ctx : context) (msg : ConsumerMessage) (res : option error) :
    M (commitOffsetQueue * W) (option error) :=
  λ '(q, w),
    match res with
    | Some e =>
        (Ret (Some (ErrWrap "commit offset" [ErrSentinel ErrNegativeAckNotSupported; e])), (q, w))
    | None =>
        let marked := mark_processed msg (coq_queue q) in
        let n := processed_prefix marked in
        match (if decide (0 < n) then marked !! (n - 1) else None) with
        | None => (Ret None, (coq_set_queue marked q, w))
        | Some e =>
            match CommitOffset ctx (lm_Message e) w with
            | (Ret None, w') =>
                (Ret None, (mkCommitOffsetQueue (coq_tokens q + n) (coq_cap q) (drop n marked) (coq_qcap q), w'))
            | (Ret (Some err), w') => (Ret (Some (Errorf "commit offset" err)), (coq_set_queue marked q, w'))
            | (Panic s, w') => (Panic s, (coq_set_queue marked q, w'))
            | (Blocked, w') => (Blocked, (coq_set_queue marked q, w'))
            | (OutOfFuel, w') => (OutOfFuel, (coq_set_queue marked q, w'))
            end
        end
    end.

(** What the broker is asked for the result of the handlers. *)
Definition broker_call {W} `{!AckNackStrategy W} (ctx : context) (m : ConsumerMessage) (res : option error) : M W (option error) :=
  match res with None => AckNack_Ack ctx m | Some _ => Nack ctx m end.

(** ** A broker that records what it is asked to acknowledge *)

#[local] Instance recording_commit : CommitOffsetStrategy (list nat) :=
  λ _ m w, (Ret None, w ++ [cm_ptr m]).
#[local] Instance recording_ack : AckNackStrategy (list nat) :=
  {| AckNack_Ack := λ _ m w, (Ret None, w ++ [cm_ptr m]); Nack := λ _ _ w, (Ret None, w) |}.

Definition sample_msg (n : nat) : ConsumerMessage :=
  mkConsumerMessage n context_Background (mkMessage (N.of_nat n) "topic" "" "").
Definition sample_commit_queue : commitOffsetQueue :=
  mkCommitOffsetQueue 1 4
    [mkListenerMessage (sample_msg 1) false; mkListenerMessage (sample_msg 2) true;
     mkListenerMessage (sample_msg 3) false] 4.

(** ** Lemmas: the loops *)

Lemma processed_prefix_le l : processed_prefix l ≤ length l.
Proof. induction l as [|e l IH]; simpl; [lia|]. destruct (lm_Processed e); lia. Qed.

Lemma processed_prefix_all l i e :
  l !! i = Some e → i < processed_prefix l → lm_Processed e = true.
Proof.
  revert i. induction l as [|x l IH]; intros i Hi Hlt; simpl in *; [lia|].
  destruct (lm_Processed x) eqn:Ex; [|lia].
  destruct i; simplify_eq/=; [done|]. apply (IH i); [done|lia].
Qed.

Lemma last_processed_spec l i acc :
  last_processed l i acc =
    match processed_prefix l with
    | O => acc
    | S n => e ← l !! n; Some (i + n, lm_Message e)
    end.
Proof.
  revert i acc. induction l as [|e l IH]; intros i acc; simpl; [done|].
  destruct (lm_Processed e); [|done]. rewrite IH.
  destruct (processed_prefix l) as [|n] eqn:En; simpl.
  - by rewrite Nat.add_0_r.
  - rewrite <- Nat.add_succ_comm. by simpl.
Qed.

Lemma shift_left_lookup c n i l j :
  i + n + c = length l →
  shift_left c i n l !! j =
    if decide (i ≤ j < i + n) then l !! (j + c) else l !! j.
Proof.
  revert i l. induction n as [|n IH]; intros i l Hlen; simpl.
  { rewrite decide_False by lia. done. }
  destruct (l !! (i + c)) as [e|] eqn:Ee.
  2:{ apply lookup_ge_None in Ee. lia. }
  rewrite IH by (rewrite length_insert; lia).
  destruct (decide (j = i)) as [->|Hji].
  - rewrite decide_False by lia. rewrite decide_True by lia.
    rewrite list_lookup_insert_eq by lia. by rewrite Ee.
  - rewrite (list_lookup_insert_ne l i j) by done.
    repeat case_decide; try lia; [|done].
    by rewrite list_lookup_insert_ne by lia.
Qed.

Lemma shift_left_drop c l :
  c ≤ length l → take (length l - c) (shift_left c 0 (length l - c) l) = drop c l.
Proof.
  intros Hc. apply list_eq. intros j.
  rewrite lookup_drop, lookup_take, shift_left_lookup by lia.
  repeat case_decide; try lia; [by rewrite Nat.add_comm|].
  symmetry. apply lookup_ge_None. lia.
Qed.

Lemma sendTokens_run {W} n q (w : W) :
  coq_tokens q + n ≤ coq_cap q →
  commitOffset_sendTokens n (q, w) =
    (Ret tt, (mkCommitOffsetQueue (coq_tokens q + n) (coq_cap q) (coq_queue q) (coq_qcap q), w)).
Proof.
  revert q. induction n as [|n IH]; intros q Hn; unfold commitOffset_sendTokens; fold (@commitOffset_sendTokens W).
  { destruct q. simpl. by rewrite Nat.add_0_r. }
  unfold_M; unfold commitOffset_sendToken.
  rewrite decide_True by lia. rewrite IH by (simpl; lia). simpl.
  by rewrite Nat.add_succ_r.
Qed.

Lemma mark_processed_length m l : length (mark_processed m l) = length l.
Proof. apply length_fmap. Qed.

(** ** Lemmas: the operations *)

Lemma commitOffset_AcknowledgeResult_eq {W} `{!CommitOffsetStrategy W} ctx msg res q (w : W) :
  coq_tokens q + length (coq_queue q) ≤ coq_cap q →
  commitOffset_AcknowledgeResult ctx msg res (q, w) = commitOffset_ref ctx msg res (q, w).
Proof.
  intros Hroom. destruct res as [e|]; [done|].
  unfold commitOffset_AcknowledgeResult, commitOffset_ref.
  unfold_M; simpl.
  set (marked := mark_processed msg (coq_queue q)).
  pose proof (processed_prefix_le marked) as Hle.
  assert (Hlen : length marked = length (coq_queue q)) by apply mark_processed_length.
  rewrite last_processed_spec.
  destruct (processed_prefix marked) as [|n] eqn:En; simpl; [done|].
  rewrite Nat.sub_0_r.
  destruct (marked !! n) as [e|] eqn:Ee; simpl; [|done].
  destruct (CommitOffset ctx (lm_Message e) w) as [[[err|]|s| |] w'] eqn:Ec; try done.
  rewrite shift_left_drop by (simpl; lia).
  rewrite sendTokens_run by (simpl; lia). done.
Qed.

Lemma commitOffset_ref_sum {W} `{!CommitOffsetStrategy W} ctx msg res q (w : W) o q' w' :
  commitOffset_ref ctx msg res (q, w) = (o, (q', w')) →
  coq_cap q' = coq_cap q ∧ coq_qcap q' = coq_qcap q ∧
  coq_tokens q' + length (coq_queue q') = coq_tokens q + length (coq_queue q).
Proof.
  pose proof (processed_prefix_le (mark_processed msg (coq_queue q))) as Hle.
  pose proof (mark_processed_length msg (coq_queue q)) as Hlen.
  unfold commitOffset_ref. destruct res; [naive_solver|].
  destruct (if decide _ then _ else _) as [e|]; [|intros; simplify_eq/=; lia].
  destruct (CommitOffset _ _ _) as [[[err|]|s| |] w1]; intros; simplify_eq/=;
    rewrite ?length_drop; lia.
Qed.

Lemma coq_inv_new {W} maxSize (w : W) :
  coq_inv (clampSize maxSize) (0, (NewCommitOffsetQueue maxSize, w)).
Proof. simpl. lia. Qed.

Lemma coq_inv_step {W} `{!CommitOffsetStrategy W} n (s s' : nat * (commitOffsetQueue * W)) :
  coq_inv n s → coq_step s s' → coq_inv n s'.
Proof.
  intros Hinv Hstep. destruct Hstep as [h q w t Ht|h [q w] m err s' Hadd|h [q w] ctx m res o s' Hack|h q w w'];
    destruct Hinv as (Hc & Hq & Hsum).
  - simpl. split_and!; [done..|lia].
  - simpl in *. case_decide; [lia|].
    simplify_eq/=. rewrite length_app. simpl. lia.
  - rewrite commitOffset_AcknowledgeResult_eq in Hack by lia.
    destruct s' as [q' w']. apply commitOffset_ref_sum in Hack. simpl in *. lia.
  - done.
Qed.

Lemma anq_inv_new {W} maxSize (w : W) :
  anq_inv (clampSize maxSize) (0, (NewAckNackQueue maxSize, w)).
Proof.
  unfold anq_inv, NewAckNackQueue. cbn [anq_cap anq_maxSize anq_tokens anq_queue].
  rewrite size_empty. lia.
Qed.

Lemma ackNack_AcknowledgeResult_inv {W} `{!AckNackStrategy W} ctx m res q (w : W) o q' w' :
  ackNack_AcknowledgeResult ctx m res (q, w) = (o, (q', w')) →
  (q' = q ∧ o ≠ Ret None) ∨
  (o = Ret None ∧ ackNack_release m (q, w') = (Ret tt, (q', w'))) ∨
  (o = Blocked ∧ ackNack_release m (q, w') = (Blocked, (q', w'))).
Proof.
  unfold ackNack_AcknowledgeResult, on_env, ackNack_release; unfold_M.
  intros H. destruct res as [e|];
    [destruct (Nack ctx m w) as [[[err|]|s| |] w1]
    |destruct (AckNack_Ack ctx m w) as [[[err|]|s| |] w1]]; simpl in H; simplify_eq/=;
    try (left; split; [done|by intros ?]);
    right; revert H; case_decide; intros; simplify_eq/=; auto.
Qed.

Lemma anq_inv_step {W} `{!AckNackStrategy W} n (s s' : nat * (ackNackQueue * W)) :
  anq_inv n s → anq_step s s' → anq_inv n s'.
Proof.
  intros Hinv Hstep. destruct Hstep as [h q w t Ht|h [q w] m s' Hadd|h q w ctx m res o [q' w'] Hin Hack|h q w w'];
    destruct Hinv as (Hc & Hq & Hsum).
  - simpl. split_and!; [done..|lia].
  - simpl in *. do 2 (case_decide; [done|]). simplify_eq/=.
    rewrite size_union, size_singleton by set_solver. lia.
  - assert (Hsz : size (anq_queue q) = S (size (anq_queue q ∖ {[cm_ptr m]})))
      by (by apply size_remove).
    apply ackNack_AcknowledgeResult_inv in Hack as [[-> _]|[[_ Hr]|[_ Hr]]]; [done|..];
      simpl in *; case_decide; simplify_eq/=; lia.
  - done.
Qed.

Lemma ackNack_accepted {W} `{!AckNackStrategy W} ctx m res q (w w' : W) : broker_call ctx m res w = (Ret None, w') →
  ackNack_AcknowledgeResult ctx m res (q, w) =
    match ackNack_release m (q, w') with (Ret _, s) => (Ret None, s) | (Panic e, s) => (Panic e, s) | (Blocked, s) => (Blocked, s) | (OutOfFuel, s) => (OutOfFuel, s) end.
Proof. unfold broker_call, ackNack_AcknowledgeResult, on_env; unfold_M. by destruct res; intros ->. Qed.

Lemma ackNack_refused {W} `{!AckNackStrategy W} ctx m res q e (w w' : W) : broker_call ctx m res w = (Ret (Some e), w') →
  ∃ e', ackNack_AcknowledgeResult ctx m res (q, w) = (Ret (Some e'), (q, w')) ∧ ∀ t, error_has t e' = error_has t e.
Proof.
  unfold broker_call, ackNack_AcknowledgeResult, on_env; unfold_M. destruct res; intros ->; eexists; (split; [done|]); intros t; apply error_has_wrap.
Qed.

(** ** Theorems *)

(** C16.  [commitOffsetQueue.AcknowledgeResult] equals its reference whenever
    the channel has room for the entries of the queue: a failed handler result
    is refused without touching the queue; otherwise the message is marked and,
    when the marked queue starts with [n > 0] processed entries, the last of
    them is committed; a broker error keeps the marked queue and releases
    nothing; a commit drops exactly those [n] entries, by the in-place shift,
    and releases [n] tokens; with an unprocessed head the broker is not
    called.  The committed message is the last of a run of processed entries at
    the front, so no unprocessed message precedes a committed offset. *)
Theorem commitOffset_AcknowledgeResult_spec {W} `{!CommitOffsetStrategy W}
    ctx msg res (q : commitOffsetQueue) (w : W)
    (Hroom : coq_tokens q + length (coq_queue q) ≤ coq_cap q) :
  commitOffset_AcknowledgeResult ctx msg res (q, w) = commitOffset_ref ctx msg res (q, w) ∧
  (let marked := mark_processed msg (coq_queue q) in
   ∀ i e, i < processed_prefix marked → marked !! i = Some e →
     lm_Processed e = true ∧
     (lm_Processed <$> coq_queue q !! i = Some true ∨ cm_ptr (lm_Message e) = cm_ptr msg)).
Proof.
  split; [by apply commitOffset_AcknowledgeResult_eq|].
  intros marked i e Hi He. split; [by eapply processed_prefix_all|].
  assert (Hp : lm_Processed e = true) by by eapply processed_prefix_all.
  subst marked. unfold mark_processed in He. rewrite list_lookup_fmap in He.
  destruct (coq_queue q !! i) as [e0|]; [|done]. simpl in *. simplify_eq/=.
  case_match_eqn E; simpl in *; [right; by apply Nat.eqb_eq|left; by rewrite Hp].
Qed.

(** C17.  In every run of the listener protocol on a new commit-offset queue
    the number of buffered tokens, tokens held and queued messages adds up to
    the maximal size; hence a worker that holds a token can always add its
    message, at most [max(maxSize, 1)] messages are in the queue, and
    acknowledging returns whenever the broker does: no send on the token
    channel ever blocks the mutex. *)
Theorem commitOffset_protocol_safe {W} `{!CommitOffsetStrategy W} maxSize (w0 : W) h q w
    (Hbroker : ∀ ctx m w, ∃ e w', CommitOffset ctx m w = (Ret e, w'))
    (Hrun : rtc coq_step (0, (NewCommitOffsetQueue maxSize, w0)) (h, (q, w))) :
  length (coq_queue q) ≤ Z.to_nat (Z.max maxSize 1) ∧
  (0 < h → ∀ m, ∃ s', commitOffset_AddProcessing m (q, w) = (Ret None, s')) ∧
  (∀ ctx m res, ∃ e s', commitOffset_AcknowledgeResult ctx m res (q, w) = (Ret e, s')).
Proof.
  assert (Hinv : coq_inv (clampSize maxSize) (h, (q, w))).
  { eapply (inv_rtc coq_step); [|apply coq_inv_new|exact Hrun]. intros; by eapply coq_inv_step. }
  destruct Hinv as (Hc & Hq & Hsum). split_and!.
  - unfold clampSize in Hsum. destruct (Z.ltb_spec maxSize 1); lia.
  - intros Hh m. simpl. rewrite decide_False by lia. eauto.
  - intros ctx m res. rewrite commitOffset_AcknowledgeResult_eq by lia. unfold commitOffset_ref.
    destruct res; [eauto|]. destruct (if decide _ then _ else _) as [e|]; [|eauto].
    destruct (Hbroker ctx (lm_Message e) w) as ([err|] & w' & ->); eauto.
Qed.

(** C18. The ack/nack queue under the same protocol, every acknowledged
    message being in the queue.  Buffered tokens, held tokens and queued
    messages add up to the maximal size.  So the queue is bounded; who holds a
    token can add a message that is not in it; the broker's [Ack] or [Nack] is
    called as the result of the handlers says, when it accepts the message
    leaves the queue and one token is returned without blocking, and when it
    refuses nothing changes.  An accepted acknowledgement of a message that is
    not in the queue - a second one - returns a token too many when one is
    missing from the channel, and otherwise, with nothing held and nothing
    queued, blocks for ever. *)
Theorem ackNack_protocol_safe {W} `{!AckNackStrategy W} maxSize (w0 : W) h q w
    (Hrun : rtc anq_step (0, (NewAckNackQueue maxSize, w0)) (h, (q, w))) :
  let n := Z.to_nat (Z.max maxSize 1) in
  anq_tokens q + h + size (anq_queue q) = n ∧
  (0 < h → ∀ m, cm_ptr m ∉ anq_queue q →
     ∃ q', ackNack_AddProcessing m (q, w) = (Ret None, (q', w)) ∧ anq_queue q' = {[cm_ptr m]} ∪ anq_queue q ∧
       anq_tokens q' = anq_tokens q) ∧
  (∀ ctx m res w', cm_ptr m ∈ anq_queue q → broker_call ctx m res w = (Ret None, w') →
     ∃ q', ackNack_AcknowledgeResult ctx m res (q, w) = (Ret None, (q', w')) ∧
       anq_queue q' = anq_queue q ∖ {[cm_ptr m]} ∧ anq_tokens q' + h + size (anq_queue q') = n) ∧
  (∀ ctx m res e w', broker_call ctx m res w = (Ret (Some e), w') →
     ∃ e', ackNack_AcknowledgeResult ctx m res (q, w) = (Ret (Some e'), (q, w')) ∧ ∀ t, error_has t e' = error_has t e) ∧
  (∀ ctx m res w', cm_ptr m ∉ anq_queue q → broker_call ctx m res w = (Ret None, w') →
     (anq_tokens q < n → ∃ q', ackNack_AcknowledgeResult ctx m res (q, w) = (Ret None, (q', w')) ∧
        anq_tokens q' + h + size (anq_queue q') = S n) ∧
     (h = 0 → anq_queue q = ∅ → fst (ackNack_AcknowledgeResult ctx m res (q, w)) = Blocked)).
Proof.
  intros n. assert (Hinv : anq_inv n (h, (q, w))).
  { assert (Hn : n = clampSize maxSize) by (unfold n, clampSize; destruct (Z.ltb_spec maxSize 1); lia). rewrite Hn.
    eapply (inv_rtc anq_step); [|apply anq_inv_new|exact Hrun]. intros; by eapply anq_inv_step. }
  clearbody n. destruct Hinv as (Hc & Hq & Hsum). split_and!; [done|..].
  - intros Hh m Hm. simpl. rewrite !decide_False by (done || lia). by eexists.
  - intros ctx m res w' Hm Ha. pose proof (size_remove _ _ Hm). rewrite (ackNack_accepted _ _ _ _ _ _ Ha). unfold ackNack_release.
    rewrite decide_True by lia. eexists. split; [done|]. cbn. split; [done|lia].
  - intros ctx m res e w' Ha. by apply ackNack_refused.
  - intros ctx m res w' Hm Ha. rewrite (ackNack_accepted _ _ _ _ _ _ Ha). unfold ackNack_release.
    assert (Hsame : anq_queue q ∖ {[cm_ptr m]} = anq_queue q) by set_solver. split.
    + intros Ht. rewrite decide_True by lia. eexists. split; [done|]. cbn. rewrite Hsame. lia.
    + intros Hh He. rewrite He, size_empty in Hsum. by rewrite decide_False by lia.
Qed.

(**  The wrapper for brokers without negative acknowledgement: a failed
    result is refused with an error that [errors.Is] recognises and that wraps
    the result, whatever the broker would say, and leaves queue and broker
    untouched; a successful one is the ack/nack queue's. *)
Theorem ackQueue_AcknowledgeResult_spec {W} `{!AckStrategy W} ctx m res (q : ackNackQueue) (w : W) :
  match res with
  | Some e =>
      ∃ e', ackQueue_AcknowledgeResult ctx m res (q, w) = (Ret (Some e'), (q, w)) ∧
        error_has ErrNegativeAckNotSupported e' ∧
        (∀ t, error_has t e → error_has t e')
  | None =>
      ackQueue_AcknowledgeResult ctx m res (q, w) =
        match Ack ctx m w with
        | (Ret (Some e), w') => (Ret (Some (Errorf "ack" e)), (q, w'))
        | (Ret None, w') => (ackNack_release m ≫= λ _, mret None) (q, w')
        | (Panic s, w') => (Panic s, (q, w'))
        | (Blocked, w') => (Blocked, (q, w'))
        | (OutOfFuel, w') => (OutOfFuel, (q, w'))
        end
  end.
Proof.
  destruct res as [e|].
  - eexists. split; [done|]. split; [done|]. intros t Ht. simpl.
    apply orb_True. right. by rewrite orb_false_r.
  - unfold ackQueue_AcknowledgeResult, ackNack_AcknowledgeResult; unfold_M. simpl.
    by destruct (Ack ctx m w) as [[[err|]|s| |] w'].
Qed.

(** ** Witnesses *)

(** Acknowledging message 1 commits message 2, which was done before. *)
Lemma commitOffset_AcknowledgeResult_spec_witness :
  commitOffset_AcknowledgeResult context_Background (sample_msg 1) None (sample_commit_queue, []) =
    (Ret None, (mkCommitOffsetQueue 3 4 [mkListenerMessage (sample_msg 3) false] 4, [2])).
Proof.
  rewrite (proj1 (commitOffset_AcknowledgeResult_spec context_Background (sample_msg 1) None
    sample_commit_queue [] ltac:(vm_compute; lia))).
  reflexivity.
Defined.

Lemma commitOffset_protocol_safe_witness :
  ∃ s', commitOffset_AddProcessing (sample_msg 7)
    (mkCommitOffsetQueue 1 2 [] 2, [] : list nat) = (Ret None, s').
Proof.
  refine (proj1 (proj2 (commitOffset_protocol_safe 2 [] 1 (mkCommitOffsetQueue 1 2 [] 2) [] _ _)) _ _).
  - intros ctx m w. do 2 eexists. reflexivity.
  - eapply rtc_l; [|apply rtc_refl]. by apply (coq_take 0 (NewCommitOffsetQueue 2) [] 1).
  - lia.
Defined.

(** Nobody has taken a token: an acknowledgement blocks.  After a message was
    added, its negative acknowledgement takes it out. *)
Definition one_queued : ackNackQueue := mkAckNackQueue 1 0 1 {[7]}.
Lemma ackNack_protocol_safe_witness :
  fst (ackNack_AcknowledgeResult context_Background (sample_msg 7) None (NewAckNackQueue 0, [])) = Blocked ∧
  ∃ q', ackNack_AcknowledgeResult context_Background (sample_msg 7) (Some (ErrText "no")) (one_queued, []) = (Ret None, (q', [])) ∧
    anq_queue q' = {[7]} ∖ {[7]} ∧ anq_tokens q' + 0 + size (anq_queue q') = 1.
Proof.
  split.
  - refine (proj2 (proj2 (proj2 (proj2 (proj2 (ackNack_protocol_safe 0 [] 0 (NewAckNackQueue 0) [] _))))
      context_Background (sample_msg 7) None [7] _ _) _ _); [apply rtc_refl|apply not_elem_of_empty|reflexivity..].
  - refine (proj1 (proj2 (proj2 (ackNack_protocol_safe 1 [] 0 one_queued [] _))) context_Background (sample_msg 7) (Some (ErrText "no")) [] _ _);
      [|apply (bool_decide_unpack _); vm_compute; exact I|reflexivity].
    eapply rtc_l; [by apply (anq_take 0 (NewAckNackQueue 1) [] 0)|].
    eapply rtc_l; [apply (anq_add 0 _ (sample_msg 7)); reflexivity|]. apply rtc_refl.
Defined.
