(* ===== verification/Outbox.v ===== *)
(** pkg/message/outbox.go: the worker that moves stored messages to the
    broker. *)
From S2P Require Import Prelude Context Message.

Definition defaultOutboxBatchSize : Z := 100.

(** ** Data *)

(** The exported fields of [OutboxImpl]; storage and producer are the classes
    of the world.  A hook gets the context the variable [ctx] holds, [nil]
    included. *)
Record OutboxImpl (W : Type) := mkOutbox {
  BatchSize : Z;
  OnInternalError : list (option context → error → M W unit);
  OnFoundMessages : list (option context → list Message → option error → M W unit);
  OnSentMessage : list (option context → Message → option error → M W unit);
  OnDeletedMessage : list (option context → Message → option error → M W unit);
}.
Arguments mkOutbox {W} _ _ _ _ _.
Arguments BatchSize {W} _.
Arguments OnInternalError {W} _.
Arguments OnFoundMessages {W} _.
Arguments OnSentMessage {W} _.
Arguments OnDeletedMessage {W} _.

Definition NewOutbox {W : Type} (opts : list (OutboxImpl W → OutboxImpl W)) : OutboxImpl W :=
  foldl (λ o opt, opt o) (mkOutbox defaultOutboxBatchSize [] [] [] []) opts.

Section outbox.
Context {W : Type} `{!Storage W, !Producer W, !HasClock W}.

(** The deferred function: it assigns the named result [err]. *)
Definition releaseDeferred (o : OutboxImpl W) (ctx : context) (releaseLock : M W (option error)) :
    M W (option error) :=
  err ← releaseLock;
  match err with
  | Some e =>
      _ ← for_each (λ fn, fn (Some ctx) (Errorf "release storage lock" e)) (OnInternalError o);
      mret (Some e)
  | None => mret None
  end.

(** The loop over the messages found; [None] when it runs to its end. *)
Fixpoint sendMessages (o : OutboxImpl W) (ctx : context) (msgs : list Message) : M W (option error) :=
  match msgs with
  | [] => mret None
  | msg :: msgs' =>
      err ← Produce ctx msg;
      _ ← for_each (λ fn, fn (Some ctx) msg err) (OnSentMessage o);
      match err with
      | Some e => mret (Some (Errorf "send message" e))
      | None =>
          err ← Delete ctx (msg_Topic msg) [msg_ID msg];
          _ ← for_each (λ fn, fn (Some ctx) msg err) (OnDeletedMessage o);
          match err with
          | Some e => mret (Some (Errorf "delete sent message" e))
          | None => sendMessages o ctx msgs'
          end
      end
  end.

(** What [processBatch] does while it holds the lock, up to its [return]. *)
Definition processLocked (o : OutboxImpl W) (ctx : context) : M W (bool * option error) :=
  now ← time_Now;
  found ← Find ctx (mkSpec [] [] now (BatchSize o));
  let msgs := match found with Ok ms => ms | Err _ => [] end in
  _ ← for_each (λ fn, fn (Some ctx) msgs (result_err found)) (OnFoundMessages o);
  match found with
  | Err e => mret (false, Some (Errorf "get messages to send" e))
  | Ok msgs =>
      if decide (length msgs = 0) then mret (true, None)
      else
        err ← sendMessages o ctx msgs;
        match err with
        | Some e => mret (false, Some e)
        | None => mret (bool_decide (Z.of_nat (length msgs) < BatchSize o)%Z, None)
        end
  end.

(** A body with named results [(allProcessed, err)] and a deferred function
    that assigns [err]. *)
Definition deferOverwriting (body : M W (bool * option error)) (deferred : M W (option error)) :
    M W (bool * option error) :=
  λ w, match body w with
       | (Ret (allProcessed, _), w') => (err ← deferred; mret (allProcessed, err)) w'
       | (Panic s, w') => (_ ← deferred; panic s) w'
       | r => r
       end.

(** [processBatch]: the deferred function runs after the [return] set the
    named results, and overwrites [err]. *)
Definition processBatch (o : OutboxImpl W) (ctx : context) : M W (bool * option error) :=
  l ← Lock ctx [];
  match l with
  | LockFailed octx e =>
      let err := Errorf "get storage lock" e in
      _ ← for_each (λ fn, fn octx err) (OnInternalError o);
      mret (false, Some err)
  | Locked ctx releaseLock => deferOverwriting (processLocked o ctx) (releaseDeferred o ctx releaseLock)
  end.

(** The function handed to [backoff.Retry]; the loop has no bound of its own,
    [fuel] counts its iterations. *)
Fixpoint processAll (fuel : nat) (o : OutboxImpl W) (ctx : context) : M W (option error) :=
  match fuel with
  | O => out_of_fuel
  | S fuel' =>
      '(allProcessed, err) ← processBatch o ctx;
      match err with
      | Some e => mret (Some e)
      | None => if (allProcessed : bool) then mret None else processAll fuel' o ctx
      end
  end.

Definition process `{!Backoff W} (fuel : nat) (o : OutboxImpl W) (ctx : context) : M W unit :=
  _ ← Retry ctx (processAll fuel o ctx); mret tt.
End outbox.

(** ** The wake-up channel (capacity 1) and the worker's loop *)

(** [processChan] holds a token or not. *)
Definition Process (processChan : bool) : bool := true.

(** One iteration of the worker's [select]: [None] when it blocks.  With both
    cases ready the runtime picks one, [prefersToken] says which. *)
Inductive workerEvent := RunProcess | WorkerStops (e : string).
Definition worker_select (prefersToken : bool) (processChan : bool) (ctxErr : option string) :
    option (workerEvent * bool) :=
  match processChan, ctxErr with
  | true, None => Some (RunProcess, false)
  | false, Some e => Some (WorkerStops e, false)
  | true, Some e => if prefersToken then Some (RunProcess, false) else Some (WorkerStops e, true)
  | false, None => None
  end.

(** ** Options *)

Section options.
Context {W : Type} `{!LogSink W, !Metrics W} (error_Error : error → string).
Context (uuid_String : uuid → string).

Definition WithOutboxLogging (logger : Logger) (infoLevel errorLevel : Level) (o : OutboxImpl W) : OutboxImpl W :=
  let logError l err ctx msg := logger_Log (logger_WithError error_Error l err) ctx errorLevel msg in
  mkOutbox (BatchSize o)
    (OnInternalError o ++ [λ ctx err, logError logger (Some err) ctx "message outbox internal error"])
    (OnFoundMessages o ++
       [λ ctx _ err, match err with
                     | Some _ => logError logger err ctx "message outbox internal error"
                     | None => mret tt
                     end])
    (OnSentMessage o ++
       [λ ctx msg err,
          let logger := logger_With logger [("messageID", uuid_String (msg_ID msg))] in
          match err with
          | Some _ => logError logger err ctx "outbox message sending failed"
          | None => logger_Log logger ctx infoLevel "outbox message sent successfully"
          end])
    (OnDeletedMessage o ++
       [λ ctx msg err,
          let logger := logger_With logger [("messageID", uuid_String (msg_ID msg))] in
          match err with
          | Some e => logError logger (Some (Errorf "delete message from storage" e)) ctx "message outbox internal error"
          | None => logger_Log logger ctx infoLevel "outbox message deleted from storage successfully"
          end]).

Definition success_label (err : option error) : string * string :=
  ("success", match err with None => "true" | Some _ => "false" end).

Definition WithOutboxMetrics (o : OutboxImpl W) : OutboxImpl W :=
  mkOutbox (BatchSize o)
    (OnInternalError o ++ [λ _ _, Increment [] "msg_outbox_internal_error_total"])
    (OnFoundMessages o ++
       [λ _ _ err, match err with
                   | Some _ => Increment [] "msg_outbox_internal_error_total"
                   | None => mret tt
                   end])
    (OnSentMessage o ++
       [λ _ msg err, Increment [success_label err; ("topic", msg_Topic msg)] "msg_outbox_producer_sending_attempts_total"])
    (OnDeletedMessage o ++
       [λ _ msg err, Increment [success_label err; ("topic", msg_Topic msg)] "msg_outbox_producer_delete_from_storage_attempts_total"]).
End options.

(** ** Recording the calls to the broker and the deletes *)

Inductive event :=
| EvSend (m : Message) (ok : bool)
| EvDelete (topic : Topic) (ids : list uuid) (ok : bool).

Definition lift {W A : Type} (m : M W A) : M (W * list event) A :=
  λ '(w, tr), let '(r, w') := m w in (r, (w', tr)).

Definition recorded {W : Type} (ev : bool → event) (m : M W (option error)) :
    M (W * list event) (option error) :=
  λ '(w, tr), match m w with
              | (Ret err, w') => (Ret err, (w', tr ++ [ev (bool_decide (err = None))]))
              | (r, w') => (r, (w', tr))
              end.

#[local] Instance traced_storage (W : Type) `{!Storage W} : Storage (W * list event) :=
  {| Lock := λ ctx keys '(w, tr),
       match Lock ctx keys w with
       | (Ret (Locked c rel), w') => (Ret (Locked c (lift rel)), (w', tr))
       | (Ret (LockFailed c e), w') => (Ret (LockFailed c e), (w', tr))
       | (Panic s, w') => (Panic s, (w', tr))
       | (Blocked, w') => (Blocked, (w', tr))
       | (OutOfFuel, w') => (OutOfFuel, (w', tr))
       end;
     Find := λ ctx spec, lift (Find ctx spec);
     Store := λ ctx at_ ms, lift (Store ctx at_ ms);
     Delete := λ ctx t ids, recorded (EvDelete t ids) (Delete ctx t ids) |}.
#[local] Instance traced_producer (W : Type) `{!Producer W} : Producer (W * list event) :=
  λ ctx m, recorded (EvSend m) (Produce ctx m).
#[local] Instance traced_clock (W : Type) `{!HasClock W} : HasClock (W * list event) := lift time_Now.

Definition traced_outbox {W : Type} (o : OutboxImpl W) : OutboxImpl (W * list event) :=
  mkOutbox (BatchSize o)
    ((λ fn c e, lift (fn c e)) <$> OnInternalError o)
    ((λ fn c ms e, lift (fn c ms e)) <$> OnFoundMessages o)
    ((λ fn c m e, lift (fn c m e)) <$> OnSentMessage o)
    ((λ fn c m e, lift (fn c m e)) <$> OnDeletedMessage o).

(** Every delete directly follows the successful send of the same message. *)
Inductive sends_before_deletes : list event → Prop :=
| sbd_nil : sends_before_deletes []
| sbd_send m ok tr : sends_before_deletes tr → sends_before_deletes (EvSend m ok :: tr)
| sbd_pair m ok tr :
    sends_before_deletes tr →
    sends_before_deletes (EvSend m true :: EvDelete (msg_Topic m) [msg_ID m] ok :: tr).

(** An action only extends the trace, by a good segment. *)
Definition extends {W A : Type} (m : M (W * list event) A) : Prop :=
  ∀ w tr r w' tr', m (w, tr) = (r, (w', tr')) →
    ∃ seg, tr' = tr ++ seg ∧ sends_before_deletes seg.

(** An action run right after the successful send of [m]. *)
Definition after_send {W A : Type} (m : Message) (c : M (W * list event) A) : Prop :=
  ∀ w tr r w' tr', c (w, tr) = (r, (w', tr')) →
    ∃ seg, tr' = tr ++ seg ∧ sends_before_deletes (EvSend m true :: seg).

(** An action that records nothing. *)
Definition silent {W A : Type} (c : M (W * list event) A) : Prop :=
  ∀ w tr r w' tr', c (w, tr) = (r, (w', tr')) → tr' = tr.

(** ** Abstract specification: a list of due messages and a list of sent ones *)

Class OutboxSpec (W : Type) `{!Storage W, !Producer W, !HasClock W}
    (pending sent : W → list Message) : Prop := {
  spec_lock ctx w : ∃ ctx' rel w', Lock ctx [] w = (Ret (Locked ctx' rel), w') ∧
    pending w' = pending w ∧ sent w' = sent w ∧
    ∀ w1, ∃ w2, rel w1 = (Ret None, w2) ∧ pending w2 = pending w1 ∧ sent w2 = sent w1;
  spec_now w : ∃ t w', time_Now w = (Ret t, w') ∧ pending w' = pending w ∧ sent w' = sent w;
  spec_find ctx now b w : (0 < b)%Z →
    ∃ w', Find ctx (mkSpec [] [] now b) w = (Ret (Ok (take (Z.to_nat b) (pending w))), w') ∧
      pending w' = pending w ∧ sent w' = sent w;
  spec_produce ctx m w :
    ∃ w', Produce ctx m w = (Ret None, w') ∧ pending w' = pending w ∧ sent w' = sent w ++ [m];
  spec_delete ctx m w :
    ∃ w', Delete ctx (msg_Topic m) [msg_ID m] w = (Ret None, w') ∧
      pending w' = filter (λ m', ¬ (msg_Topic m' = msg_Topic m ∧ msg_ID m' = msg_ID m)) (pending w) ∧
      sent w' = sent w;
}.

Definition message_key (m : Message) : Topic * uuid := (msg_Topic m, msg_ID m).

(** ** An in-memory environment *)

Record memWorld := mkMem { mem_pending : list Message; mem_sent : list Message }.

#[local] Instance mem_storage : Storage memWorld :=
  {| Lock := λ ctx _ w, (Ret (Locked ctx (mret None)), w);
     Find := λ _ spec w, (Ret (Ok (take (Z.to_nat (Limit spec)) (mem_pending w))), w);
     Store := λ _ _ ms w, (Ret None, mkMem (mem_pending w ++ ms) (mem_sent w));
     Delete := λ _ t ids w,
       (Ret None, mkMem (filter (λ m, ¬ (msg_Topic m = t ∧ msg_ID m ∈ ids)) (mem_pending w)) (mem_sent w)) |}.
#[local] Instance mem_producer : Producer memWorld :=
  λ _ m w, (Ret None, mkMem (mem_pending w) (mem_sent w ++ [m])).
#[local] Instance mem_clock : HasClock memWorld := λ w, (Ret 0%Z, w).

(** The same with a broker that is down, and with a storage whose lock fails
    as pkg/sql's does: with a [nil] context. *)
Definition failing_producer : Producer memWorld := λ _ _ w, (Ret (Some (ErrText "broker is down")), w).
Definition unlockable_storage : Storage memWorld :=
  {| Lock := λ _ _ w, (Ret (LockFailed None (ErrText "connection refused")), w);
     Find := Find; Store := Store; Delete := Delete |}.
#[local] Instance mem_log : LogSink memWorld := λ _ _ _ w, (Ret tt, w).

Definition sample_message (n : nat) : Message := mkMessage (N.of_nat n) "topic" "" "".

Definition sample_run : outcome (option error) * (memWorld * list event) :=
  processAll 3 (traced_outbox (mkOutbox 2 [] [] [] [])) context_Background
    (mkMem (sample_message <$> [1; 2; 3]) [], []).

(** ** Lemmas: traces *)

Lemma sbd_app a b :
  sends_before_deletes a → sends_before_deletes b → sends_before_deletes (a ++ b).
Proof. intros Ha Hb. induction Ha; simpl; [done|by constructor..]. Qed.

Lemma sbd_lookup tr i t ids ok :
  sends_before_deletes tr → tr !! i = Some (EvDelete t ids ok) →
  ∃ j m, i = S j ∧ tr !! j = Some (EvSend m true) ∧ t = msg_Topic m ∧ ids = [msg_ID m].
Proof.
  intros Htr. revert i. induction Htr as [|m ok' tr Htr IH|m ok' tr Htr IH]; intros i Hi; [done|..].
  - destruct i as [|i]; [done|]. apply IH in Hi as (j & m' & -> & Hj & ? & ?). by exists (S j), m'.
  - destruct i as [|[|i]]; simplify_eq/=; [by exists 0, m|].
    apply IH in Hi as (j & m' & -> & Hj & ? & ?). by exists (S (S j)), m'.
Qed.

Section trace.
Context {W : Type}.
Implicit Types A B : Type.

Lemma extends_bind {A B} (m : M (W * list event) A) (f : A → M (W * list event) B) :
  extends m → (∀ a, extends (f a)) → extends (m ≫= f).
Proof.
  intros Hm Hf w tr r w' tr'. unfold_M.
  destruct (m (w, tr)) as [[a|s| |] [w1 tr1]] eqn:E;
    destruct (Hm _ _ _ _ _ E) as (s1 & -> & Hs1); intros H; simplify_eq; eauto.
  destruct (Hf _ _ _ _ _ _ H) as (s2 & -> & Hs2). exists (s1 ++ s2).
  split; [by rewrite app_assoc|by apply sbd_app].
Qed.

Lemma silent_extends {A} (c : M (W * list event) A) : silent c → extends c.
Proof.
  intros Hc w tr r w' tr' H. rewrite (Hc _ _ _ _ _ H).
  exists []. rewrite app_nil_r. split; [done|constructor].
Qed.

Lemma silent_ret {A} (a : A) : silent (mret a : M (W * list event) A).
Proof. intros w tr r w' tr' H. unfold_M. by simplify_eq. Qed.

Lemma silent_panic {A} s : silent (panic s : M (W * list event) A).
Proof. intros w tr r w' tr' H. unfold_M. by simplify_eq. Qed.

Lemma silent_lift {A} (c : M W A) : silent (lift c).
Proof. intros w tr r w' tr' H. unfold lift in H. destruct (c w). by simplify_eq. Qed.

Lemma silent_bind {A B} (c : M (W * list event) A) (f : A → M (W * list event) B) :
  silent c → (∀ a, silent (f a)) → silent (c ≫= f).
Proof.
  intros Hc Hf w tr r w' tr'. unfold_M.
  destruct (c (w, tr)) as [[a|s| |] [w1 tr1]] eqn:E; rewrite (Hc _ _ _ _ _ E);
    intros H; simplify_eq; eauto. by apply Hf in H.
Qed.

Lemma silent_for_each {A} (f : A → M (W * list event) unit) (l : list A) :
  (∀ a, a ∈ l → silent (f a)) → silent (for_each f l).
Proof.
  induction l as [|a l IH]; intros Hf; simpl; [apply silent_ret|].
  apply silent_bind; [apply Hf; by constructor|]. intros _. apply IH. intros b Hb. apply Hf. by constructor.
Qed.

Lemma extends_recorded_delete m (d : M W (option error)) k :
  (∀ e : option error, extends (k e : M (W * list event) (option error))) →
  after_send m (recorded (EvDelete (msg_Topic m) [msg_ID m]) d ≫= k).
Proof.
  intros Hk w tr r w' tr'. unfold_M. unfold recorded.
  assert (Hone : sends_before_deletes [EvSend m true]) by (do 2 constructor).
  destruct (d w) as [[e|s| |] w1]; simpl; intros H; simplify_eq;
    [|by exists []; rewrite app_nil_r..].
  destruct (Hk e _ _ _ _ _ H) as (seg & -> & Hseg). eexists. rewrite <- app_assoc. split; [done|].
  by constructor.
Qed.

Lemma after_send_bind {A B} m (c : M (W * list event) A) (f : A → M (W * list event) B) :
  silent c → (∀ a, after_send m (f a)) → after_send m (c ≫= f).
Proof.
  intros Hc Hf w tr r w' tr'. unfold_M.
  assert (Hone : sends_before_deletes [EvSend m true]) by (do 2 constructor).
  destruct (c (w, tr)) as [[a|s| |] [w1 tr1]] eqn:E; rewrite (Hc _ _ _ _ _ E);
    intros H; simplify_eq; [by apply Hf in H|by exists []; rewrite app_nil_r..].
Qed.

(** A send and what follows it. *)
Lemma extends_send m (snd : M W (option error)) (k : option error → M (W * list event) (option error)) :
  (∀ e, extends (k (Some e))) → after_send m (k None) →
  extends (recorded (EvSend m) snd ≫= k).
Proof.
  intros Hsome Hnone w tr r w' tr'. unfold_M. unfold recorded.
  destruct (snd w) as [[[e|]|s| |] w1]; simpl; intros H; simplify_eq;
    [| |by exists []; rewrite app_nil_r; split; [|constructor]..].
  - destruct (Hsome e _ _ _ _ _ H) as (seg & -> & Hseg). exists (EvSend m false :: seg).
    rewrite <- app_assoc. split; [done|by constructor].
  - destruct (Hnone _ _ _ _ _ H) as (seg & -> & Hseg). exists (EvSend m true :: seg).
    by rewrite <- app_assoc.
Qed.

Context `{!Storage W, !Producer W, !HasClock W}.

Lemma extends_sendMessages (o : OutboxImpl W) ctx msgs :
  extends (sendMessages (traced_outbox o) ctx msgs).
Proof.
  induction msgs as [|m msgs IH]; simpl; [apply silent_extends, silent_ret|].
  assert (Hsent : ∀ e, silent (for_each (λ fn, fn (Some ctx) m e) (OnSentMessage (traced_outbox o)))).
  { intros e. apply silent_for_each. intros fn (g & -> & _)%list_elem_of_fmap. apply silent_lift. }
  assert (Hdel : ∀ e, silent (for_each (λ fn, fn (Some ctx) m e) (OnDeletedMessage (traced_outbox o)))).
  { intros e. apply silent_for_each. intros fn (g & -> & _)%list_elem_of_fmap. apply silent_lift. }
  apply extends_send.
  - intros e. apply silent_extends, silent_bind; [apply Hsent|intros; apply silent_ret].
  - apply after_send_bind; [apply Hsent|intros _]. apply extends_recorded_delete. intros e.
    apply extends_bind; [apply silent_extends, Hdel|intros _].
    destruct e; [apply silent_extends, silent_ret|apply IH].
Qed.

Lemma extends_processBatch (o : OutboxImpl W) ctx : extends (processBatch (traced_outbox o) ctx).
Proof.
  assert (Hint : ∀ c e, silent (for_each (λ fn, fn c e) (OnInternalError (traced_outbox o)))).
  { intros c e. apply silent_for_each. intros fn (g & -> & _)%list_elem_of_fmap. apply silent_lift. }
  assert (Hrel : ∀ c rel, silent (releaseDeferred (traced_outbox o) c (lift rel))).
  { intros c rel. apply silent_bind; [apply silent_lift|].
    intros [e|]; [|apply silent_ret]. apply silent_bind; [apply Hint|intros; apply silent_ret]. }
  assert (Hbody : ∀ c, extends (processLocked (traced_outbox o) c)).
  { intros c. apply extends_bind; [apply silent_extends, silent_lift|intros now].
    apply extends_bind; [apply silent_extends, silent_lift|intros found].
    apply extends_bind.
    { apply silent_extends, silent_for_each. intros fn (g & -> & _)%list_elem_of_fmap. apply silent_lift. }
    intros _. destruct found as [ms|e]; [|apply silent_extends, silent_ret].
    case_decide; [apply silent_extends, silent_ret|].
    apply extends_bind; [apply extends_sendMessages|intros [e|]; apply silent_extends, silent_ret]. }
  assert (Hdefer : ∀ c rel, extends (deferOverwriting (processLocked (traced_outbox o) c)
      (releaseDeferred (traced_outbox o) c (lift rel)))).
  { intros c rel w tr r w' tr'. unfold deferOverwriting.
    destruct (processLocked (traced_outbox o) c (w, tr)) as [[[b e]|s| |] [w1 tr1]] eqn:E;
      destruct (Hbody c _ _ _ _ _ E) as (s1 & -> & Hs1); intros H; simplify_eq; eauto.
    - apply silent_bind in H as ->; eauto. intros; apply silent_ret.
    - apply silent_bind in H as ->; eauto. intros; apply silent_panic. }
  intros w tr r w' tr'. unfold processBatch. unfold_M. simpl.
  destruct (Lock ctx [] w) as [[[c rel|c e]|s| |] w1]; intros H; simplify_eq;
    [by apply Hdefer in H| |by exists []; rewrite app_nil_r; split; [|constructor]..].
  eapply (silent_extends (for_each _ _ ≫= λ _, mret _)); [|exact H].
  apply silent_bind; [apply Hint|intros; apply silent_ret].
Qed.

Lemma extends_processAll fuel (o : OutboxImpl W) ctx : extends (processAll fuel (traced_outbox o) ctx).
Proof.
  induction fuel as [|fuel IH]; simpl.
  { intros w tr r w' tr' H. unfold_M. simplify_eq. exists []. rewrite app_nil_r. split; [done|constructor]. }
  apply extends_bind; [apply extends_processBatch|intros [b [e|]]]; [apply silent_extends, silent_ret|].
  destruct b; [apply silent_extends, silent_ret|apply IH].
Qed.
End trace.

(** ** Lemmas: draining *)

Section drain.
Context {W : Type} `{!Storage W, !Producer W, !HasClock W} {pending sent : W → list Message}.
Context `{!OutboxSpec W pending sent}.

(** A hook that returns and leaves messages alone. *)
Definition harmless (c : M W unit) : Prop :=
  ∀ w, ∃ w', c w = (Ret tt, w') ∧ pending w' = pending w ∧ sent w' = sent w.

Definition hooks_harmless (o : OutboxImpl W) : Prop :=
  (∀ fn c ms e, fn ∈ OnFoundMessages o → harmless (fn c ms e)) ∧
  (∀ fn c m e, fn ∈ OnSentMessage o → harmless (fn c m e)) ∧
  (∀ fn c m e, fn ∈ OnDeletedMessage o → harmless (fn c m e)).

Lemma harmless_for_each {A} (f : A → M W unit) l :
  (∀ a, a ∈ l → harmless (f a)) → harmless (for_each f l).
Proof.
  induction l as [|a l IH]; intros Hf w; simpl; [by eexists|].
  destruct (Hf a ltac:(by constructor) w) as (w1 & H1 & Hp1 & Hs1).
  destruct (IH ltac:(intros b Hb; apply Hf; by constructor) w1) as (w2 & H2 & Hp2 & Hs2).
  exists w2. rewrite (M_bind_Ret _ _ _ _ _ H1), H2. split; [done|]. by rewrite Hp2, Hs2.
Qed.

Lemma filter_other_keys m (l : list Message) :
  message_key m ∉ message_key <$> l →
  filter (λ m', ¬ (msg_Topic m' = msg_Topic m ∧ msg_ID m' = msg_ID m)) l = l.
Proof.
  induction l as [|x l IH]; intros Hm; simpl; [done|].
  rewrite fmap_cons, not_elem_of_cons in Hm. destruct Hm as [Hx Hl].
  rewrite filter_cons_True, IH; [done|done|].
  intros [Ht Hi]. apply Hx. unfold message_key. by rewrite Ht, Hi.
Qed.

Lemma sendMessages_drains o ctx msgs rest w :
  hooks_harmless o → pending w = msgs ++ rest → NoDup (message_key <$> msgs ++ rest) →
  ∃ w', sendMessages o ctx msgs w = (Ret None, w') ∧ pending w' = rest ∧ sent w' = sent w ++ msgs.
Proof.
  intros (Hf & Hs & Hd). revert w. induction msgs as [|m msgs IH]; intros w Hp Hnd; simpl.
  { exists w. by rewrite app_nil_r. }
  apply NoDup_cons in Hnd as [Hm Hnd].
  destruct (spec_produce ctx m w) as (w1 & H1 & Hp1 & Hs1).
  destruct (harmless_for_each (λ fn, fn (Some ctx) m None) (OnSentMessage o)
    ltac:(intros; by apply Hs) w1) as (w2 & H2 & Hp2 & Hs2).
  destruct (spec_delete ctx m w2) as (w3 & H3 & Hp3 & Hs3).
  destruct (harmless_for_each (λ fn, fn (Some ctx) m None) (OnDeletedMessage o)
    ltac:(intros; by apply Hd) w3) as (w4 & H4 & Hp4 & Hs4).
  destruct (IH w4) as (w5 & H5 & Hp5 & Hs5); [|done|].
  { rewrite Hp4, Hp3, Hp2, Hp1, Hp. simpl. rewrite filter_cons_False by tauto.
    by apply filter_other_keys. }
  exists w5. rewrite (M_bind_Ret _ _ _ _ _ H1), (M_bind_Ret _ _ _ _ _ H2),
    (M_bind_Ret _ _ _ _ _ H3), (M_bind_Ret _ _ _ _ _ H4), H5.
  split_and!; [done|done|]. rewrite Hs5, Hs4, Hs3, Hs2, Hs1, <- app_assoc. done.
Qed.

(** One batch sends the first [BatchSize] due messages. *)
Lemma processBatch_drains o ctx w :
  hooks_harmless o → (0 < BatchSize o)%Z → NoDup (message_key <$> pending w) →
  let b := Z.to_nat (BatchSize o) in
  ∃ w', processBatch o ctx w = (Ret (bool_decide (length (pending w) < b), None), w') ∧
    pending w' = drop b (pending w) ∧ sent w' = sent w ++ take b (pending w).
Proof.
  intros Hh Hb Hnd b.
  destruct (spec_lock ctx w) as (c & rel & w1 & Hl & Hp1 & Hs1 & Hrel).
  unfold processBatch. rewrite (M_bind_Ret _ _ _ _ _ Hl). unfold deferOverwriting, processLocked.
  destruct (spec_now w1) as (now & w2 & Hn & Hp2 & Hs2). rewrite (M_bind_Ret _ _ _ _ _ Hn).
  destruct (spec_find c now (BatchSize o) w2 Hb) as (w3 & Hf & Hp3 & Hs3). rewrite (M_bind_Ret _ _ _ _ _ Hf).
  assert (Hpend : pending w2 = pending w) by congruence. rewrite Hpend. fold b.
  destruct (harmless_for_each
    (λ fn, fn (Some c) (take b (pending w)) (result_err (Ok (take b (pending w))))) (OnFoundMessages o)
    ltac:(destruct Hh as [Hf0 _]; intros; by apply Hf0) w3) as (w4 & H4 & Hp4 & Hs4).
  rewrite (M_bind_Ret _ _ _ _ _ H4).
  pose proof (length_take (pending w) b) as Hlen.
  assert (Hdone : ∃ w5, (if decide (length (take b (pending w)) = 0) then mret (true, None)
      else
        err ← sendMessages o c (take b (pending w));
        match err with
        | Some e => mret (false, Some e)
        | None => mret (bool_decide (Z.of_nat (length (take b (pending w))) < BatchSize o)%Z, None)
        end : M W (bool * option error)) w4 = (Ret (bool_decide (length (pending w) < b), None), w5) ∧
      pending w5 = drop b (pending w) ∧ sent w5 = sent w ++ take b (pending w)).
  { case_decide as Hz.
    - exists w4. rewrite bool_decide_true by lia. split; [done|].
      rewrite (nil_length_inv _ Hz), app_nil_r, drop_ge by lia. split; [|congruence].
      apply nil_length_inv. rewrite Hp4, Hp3, Hp2, Hp1. lia.
    - destruct (sendMessages_drains o c (take b (pending w)) (drop b (pending w)) w4) as (w5 & H5 & Hp5 & Hs5);
        [done|rewrite take_drop; congruence|by rewrite take_drop|].
      exists w5. rewrite (M_bind_Ret _ _ _ _ _ H5). split_and!; [|done|rewrite Hs5; f_equal; congruence].
      unfold mret, M_ret. do 3 f_equal. apply bool_decide_ext. lia. }
  destruct Hdone as (w5 & -> & Hp5 & Hs5).
  destruct (Hrel w5) as (w6 & Hr & Hp6 & Hs6).
  exists w6. unfold releaseDeferred, mbind, M_bind, M_bind_def. rewrite Hr.
  split_and!; [done|congruence|congruence].
Qed.

Lemma processAll_drains o ctx fuel w :
  hooks_harmless o → (0 < BatchSize o)%Z → NoDup (message_key <$> pending w) →
  length (pending w) / Z.to_nat (BatchSize o) < fuel →
  ∃ w', processAll fuel o ctx w = (Ret None, w') ∧ pending w' = [] ∧ sent w' = sent w ++ pending w.
Proof.
  intros Hh Hb. revert w. induction fuel as [|fuel IH]; intros w Hnd Hfuel; simpl; [lia|].
  set (b := Z.to_nat (BatchSize o)) in *. assert (Hb0 : 0 < b) by lia.
  destruct (processBatch_drains o ctx w Hh Hb Hnd) as (w1 & H1 & Hp1 & Hs1). fold b in H1, Hp1, Hs1.
  rewrite (M_bind_Ret _ _ _ _ _ H1). case_bool_decide as Hlt.
  - exists w1. split; [done|]. rewrite Hp1, Hs1, drop_ge, take_ge by lia. done.
  - assert (Hdiv : length (drop b (pending w)) / b < fuel).
    { rewrite length_drop. replace (length (pending w)) with (length (pending w) - b + 1 * b) in Hfuel by lia.
      rewrite Nat.div_add in Hfuel by lia. lia. }
    destruct (IH w1) as (w2 & H2 & Hp2 & Hs2).
    + rewrite Hp1. rewrite <- (take_drop b (pending w)), fmap_app in Hnd. by apply NoDup_app in Hnd as (_ & _ & ?).
    + by rewrite Hp1.
    + exists w2. rewrite H2. split_and!; [done|done|]. rewrite Hs2, Hs1, Hp1, <- app_assoc.
      by rewrite take_drop.
Qed.
End drain.

(** ** Theorems *)

(** C10.  Draining.  With a storage and a broker that meet their contract, a
    positive batch size and harmless hooks, the loop of the outbox terminates:
    more fuel than [pending / batch size] is enough, and it then returns
    without error, every due message having been sent exactly once, in
    schedule order, and nothing left due. *)
Theorem outbox_drains {W} `{!Storage W, !Producer W, !HasClock W} {pending sent : W → list Message}
    `{!OutboxSpec W pending sent} (o : OutboxImpl W) ctx fuel w
    (Hhooks : hooks_harmless (pending := pending) (sent := sent) o) (Hbatch : (0 < BatchSize o)%Z)
    (Hkeys : NoDup (message_key <$> pending w))
    (Hfuel : length (pending w) / Z.to_nat (BatchSize o) < fuel) :
  ∃ w', processAll fuel o ctx w = (Ret None, w') ∧ pending w' = [] ∧ sent w' = sent w ++ pending w.
Proof. by apply processAll_drains. Qed.

(** C19.  At least once.  Whatever the storage, the broker and the hooks do
    (errors, panics, any number of batches), a message is deleted from the
    storage only directly after the broker accepted that very message. *)
Theorem outbox_deletes_only_sent {W} `{!Storage W, !Producer W, !HasClock W}
    (o : OutboxImpl W) ctx fuel w r w' tr
    (Hrun : processAll fuel (traced_outbox o) ctx (w, []) = (r, (w', tr))) :
  ∀ i t ids ok, tr !! i = Some (EvDelete t ids ok) →
    ∃ j m, i = S j ∧ tr !! j = Some (EvSend m true) ∧ t = msg_Topic m ∧ ids = [msg_ID m].
Proof.
  apply extends_processAll in Hrun as (seg & -> & Hseg). intros i t ids ok. by apply sbd_lookup.
Qed.

(** C20.  The deferred release overwrites the named result [err]: when the
    release succeeds, [processBatch] reports no error, whatever failed while
    the lock was held.  With a broker that rejects every message the retry
    loop therefore never sees an error: for every fuel it spins, and the
    configured backoff is not consulted. *)
Theorem outbox_hides_errors {W} `{!Storage W, !Producer W, !HasClock W} (b : Z)
    (Hlock : ∀ ctx w, ∃ c rel w', Lock ctx [] w = (Ret (Locked c rel), w') ∧
       ∀ w1, ∃ w2, rel w1 = (Ret None, w2))
    (Hnow : ∀ w, ∃ t w', time_Now w = (Ret t, w'))
    (Hfind : ∀ ctx spec w, ∃ r w', Find ctx spec w = (Ret r, w') ∧ r ≠ Ok [])
    (Hbroker : ∀ ctx m w, ∃ e w', Produce ctx m w = (Ret (Some e), w')) :
  let o := mkOutbox b [] [] [] [] in
  (∀ ctx w, ∃ w', processBatch o ctx w = (Ret (false, None), w')) ∧
  (∀ ctx fuel w, ∃ w', processAll fuel o ctx w = (OutOfFuel, w')).
Proof.
  intros o.
  assert (Hbatch : ∀ ctx w, ∃ w', processBatch o ctx w = (Ret (false, None), w')).
  { intros ctx w. destruct (Hlock ctx w) as (c & rel & w1 & Hl & Hrel).
    unfold processBatch. rewrite (M_bind_Ret _ _ _ _ _ Hl).
    destruct (Hnow w1) as (t & w2 & Hn). destruct (Hfind c (mkSpec [] [] t b) w2) as (r & w3 & Hf & Hr).
    assert (Hbody : ∃ err w4, processLocked o c w1 = (Ret (false, err), w4)).
    { unfold processLocked. rewrite (M_bind_Ret _ _ _ _ _ Hn). simpl. rewrite (M_bind_Ret _ _ _ _ _ Hf).
      destruct r as [[|m ms]|e]; [done| |by do 2 eexists].
      destruct (Hbroker c m w3) as (e & w4 & Hp). simpl. unfold_M. simpl. rewrite Hp. by do 2 eexists. }
    destruct Hbody as (err & w4 & Hbody). unfold deferOverwriting. rewrite Hbody.
    destruct (Hrel w4) as (w5 & Hr5). unfold releaseDeferred. unfold_M. rewrite Hr5. by eexists. }
  split; [done|]. intros ctx fuel. induction fuel as [|fuel IH]; intros w; simpl; [by eexists|].
  destruct (Hbatch ctx w) as (w1 & H1). rewrite (M_bind_Ret _ _ _ _ _ H1). apply IH.
Qed.

(**  A lock that fails with a [nil] context, as pkg/sql's does, makes the
    outbox's own error logging dereference it: with logging switched on,
    [processBatch] panics instead of returning the error to the retry loop;
    without hooks it returns the error. *)
Theorem outbox_lock_failure_panics {W} `{!Storage W, !Producer W, !HasClock W, !LogSink W, !Metrics W}
    error_Error uuid_String min fields infoLevel errorLevel (ctx : context) w w' e
    (Hlevel : errorLevel ≠ LevelDisabled)
    (Hlock : Lock ctx [] w = (Ret (LockFailed None e), w')) :
  processBatch (NewOutbox [WithOutboxLogging error_Error uuid_String (SlogLogger min fields) infoLevel errorLevel]) ctx w =
    (Panic nilDereference, w') ∧
  processBatch (NewOutbox []) ctx w = (Ret (false, Some (Errorf "get storage lock" e)), w').
Proof.
  unfold processBatch. rewrite !(M_bind_Ret _ _ _ _ _ Hlock). split; [|done].
  unfold_M. simpl. unfold logger_Log. by rewrite decide_False.
Qed.

(** ** Witnesses *)

#[local] Instance mem_spec : OutboxSpec memWorld mem_pending mem_sent.
Proof.
  split.
  - intros ctx w. do 3 eexists. split_and!; [done..|]. intros w1. by exists w1.
  - intros w. by do 2 eexists.
  - intros ctx now b w _. by eexists.
  - intros ctx m w. by eexists.
  - intros ctx m w. eexists. split_and!; [done| |done]. simpl.
    apply list_filter_iff. intros x. by rewrite list_elem_of_singleton.
Qed.

Lemma outbox_drains_witness :
  ∃ w', processAll 3 (mkOutbox 2 [] [] [] []) context_Background
    (mkMem (sample_message <$> [1; 2; 3; 4]) []) = (Ret None, w') ∧
    mem_pending w' = [] ∧ mem_sent w' = sample_message <$> [1; 2; 3; 4].
Proof.
  apply (outbox_drains (pending := mem_pending) (sent := mem_sent) (mkOutbox 2 [] [] [] [])).
  - split_and!; intros ? ? ? ? Hin; inversion Hin.
  - reflexivity.
  - vm_compute. repeat (apply NoDup_cons; split; [intros Hin; repeat (apply elem_of_cons in Hin as [Hin|Hin]; [discriminate|]); inversion Hin|]). apply NoDup_nil. exact I.
  - vm_compute. lia.
Defined.

Lemma outbox_deletes_only_sent_witness :
  ∃ j m, 3 = S j ∧ snd (snd sample_run) !! j = Some (EvSend m true) ∧
    "topic" = msg_Topic m ∧ [2%N] = [msg_ID m].
Proof.
  eapply (@outbox_deletes_only_sent memWorld _ _ _ (mkOutbox 2 [] [] [] []) context_Background 3
    (mkMem (sample_message <$> [1; 2; 3]) []) (fst sample_run) (fst (snd sample_run)) (snd (snd sample_run)));
    reflexivity.
Defined.

Lemma outbox_hides_errors_witness :
  ∃ w', @processBatch memWorld
    {| Lock := Lock; Find := λ _ _ w, (Ret (Ok [sample_message 1]), w); Store := Store; Delete := Delete |}
    failing_producer mem_clock (mkOutbox 10 [] [] [] []) context_Background (mkMem [] []) =
    (Ret (false, None), w').
Proof.
  refine (proj1 (@outbox_hides_errors memWorld
    {| Lock := Lock; Find := λ _ _ w, (Ret (Ok [sample_message 1]), w); Store := Store; Delete := Delete |}
    failing_producer mem_clock 10 _ _ _ _) _ _).
  - intros ctx w. do 3 eexists. split; [reflexivity|]. intros w1. by exists w1.
  - intros w. by do 2 eexists.
  - intros ctx spec w. do 2 eexists. split; [reflexivity|discriminate].
  - intros ctx m w. by do 2 eexists.
Defined.

Lemma outbox_lock_failure_panics_witness :
  @processBatch memWorld unlockable_storage mem_producer mem_clock
    (NewOutbox [WithOutboxLogging (λ _, "") (λ _, "") (SlogLogger LevelInfo []) LevelInfo LevelError])
    context_Background (mkMem [] []) = (Panic nilDereference, mkMem [] []).
Proof.
  apply (@outbox_lock_failure_panics memWorld unlockable_storage mem_producer mem_clock mem_log (λ _ _ w, (Ret tt, w))
    (λ _, "") (λ _, "") LevelInfo [] LevelInfo LevelError context_Background (mkMem [] []) (mkMem [] [])
    (ErrText "connection refused")); [discriminate|reflexivity].
Defined.
