(* ===== verification/StorageConsumer.v ===== *)
(** pkg/message/storageconsumer.go: the consumer that feeds stored messages to
    a listener through an unbuffered channel and waits until all of them are
    acknowledged. *)
From S2P Require Import Prelude Context Message.

Definition defaultStorageConsumerBatchSize : Z := 100.

(** ** Sequential part *)

Record storageConsumer (W : Type) := mkStorageConsumer {
  sc_topic : Topic;
  consumingBatchSize : Z;
  processingMessages : gset uuid;
  sc_processedCount : nat;
  processChan : bool;
  onMessageProcessing : list (context → Topic → Message → M W unit);
  onAcknowledge : list (context → Topic → Message → option error → M W unit);
  onMessageBatchProcessed : list (context → Topic → Z → option error → M W unit);
}.
Arguments mkStorageConsumer {W}.
Arguments sc_topic {W} _.
Arguments consumingBatchSize {W} _.
Arguments processingMessages {W} _.
Arguments sc_processedCount {W} _.
Arguments processChan {W} _.
Arguments onMessageProcessing {W} _.
Arguments onAcknowledge {W} _.
Arguments onMessageBatchProcessed {W} _.

Record StorageConsumerProviderImpl (W : Type) := mkProvider {
  ConsumingBatchSize : Z;
  OnMessageProcessing : list (context → Topic → Message → M W unit);
  OnAcknowledge : list (context → Topic → Message → option error → M W unit);
  OnMessageBatchProcessed : list (context → Topic → Z → option error → M W unit);
  consumers : gmap Topic (storageConsumer W);
}.
Arguments mkProvider {W}.
Arguments ConsumingBatchSize {W} _.
Arguments OnMessageProcessing {W} _.
Arguments OnAcknowledge {W} _.
Arguments OnMessageBatchProcessed {W} _.
Arguments consumers {W} _.

Definition NewStorageConsumerProvider {W}
    (opts : list (StorageConsumerProviderImpl W → StorageConsumerProviderImpl W)) :
    StorageConsumerProviderImpl W :=
  foldl (λ p opt, opt p) (mkProvider defaultStorageConsumerBatchSize [] [] [] ∅) opts.

Definition newStorageConsumer {W} (topic : Topic) (p : StorageConsumerProviderImpl W) : storageConsumer W :=
  mkStorageConsumer topic (ConsumingBatchSize p) ∅ 0 false
    (OnMessageProcessing p) (OnAcknowledge p) (OnMessageBatchProcessed p).

(** [Consumer]: one consumer per topic. *)
Definition Provider_Consumer {W} (p : StorageConsumerProviderImpl W) (topic : Topic) :
    result (StorageConsumerProviderImpl W) :=
  match consumers p !! topic with
  | Some _ => Err (ErrText "consumer for topic already exists, only one is supported at a time")
  | None =>
      Ok (mkProvider (ConsumingBatchSize p) (OnMessageProcessing p) (OnAcknowledge p)
            (OnMessageBatchProcessed p) (<[topic := newStorageConsumer topic p]> (consumers p)))
  end.

Definition consumer_Process {W} (c : storageConsumer W) : storageConsumer W :=
  mkStorageConsumer (sc_topic c) (consumingBatchSize c) (processingMessages c) (sc_processedCount c) true
    (onMessageProcessing c) (onAcknowledge c) (onMessageBatchProcessed c).

Definition Provider_Process {W} (p : StorageConsumerProviderImpl W) : StorageConsumerProviderImpl W :=
  mkProvider (ConsumingBatchSize p) (OnMessageProcessing p) (OnAcknowledge p)
    (OnMessageBatchProcessed p) (consumer_Process <$> consumers p).

Definition set_processing {W} (ids : gset uuid) (c : storageConsumer W) : storageConsumer W :=
  mkStorageConsumer (sc_topic c) (consumingBatchSize c) ids (size ids) (processChan c)
    (onMessageProcessing c) (onAcknowledge c) (onMessageBatchProcessed c).
Definition addToProcessing {W} (id : uuid) (c : storageConsumer W) : storageConsumer W :=
  set_processing ({[id]} ∪ processingMessages c) c.
Definition removeFromProcessing {W} (id : uuid) (c : storageConsumer W) : storageConsumer W :=
  set_processing (processingMessages c ∖ {[id]}) c.
Definition getProcessingMessageIDs {W} (c : storageConsumer W) : list uuid :=
  elements (processingMessages c).

(** The channel to the listener: [None] when the send happened, the context's
    error when it was done first; the wait until [processedCount] is zero, in
    which acknowledgements change the consumer; fresh pointers. *)
Class Delivery (W : Type) := {
  trySend : context → ConsumerMessage → M W (option error);
  waitAllProcessed : M (storageConsumer W * W) unit;
  newPointer : M W nat;
}.

Section consumer.
Context {W : Type} `{!Storage W, !HasClock W, !Delivery W}.

(** [Ack]: the consumer object is the first part of the world. *)
Definition consumer_Ack (ctx : context) (msg : ConsumerMessage) :
    M (storageConsumer W * W) (option error) :=
  c ← get_obj;
  err ← on_env (Delete ctx (msg_Topic (cm_Message msg)) [msg_ID (cm_Message msg)]);
  _ ← on_env (for_each (λ fn, fn ctx (sc_topic c) (cm_Message msg) err) (onAcknowledge c));
  match err with
  | Some e => mret (Some (Errorf "delete message from storage" e))
  | None => _ ← modify_obj (removeFromProcessing (msg_ID (cm_Message msg))); mret None
  end.

(** The loop over the messages found; [n] counts the deliveries so far. *)
Fixpoint deliverMessages (ctx : context) (msgs : list Message) (n : Z) :
    M (storageConsumer W * W) (Z * option error) :=
  match msgs with
  | [] => mret (n, None)
  | msg :: msgs' =>
      p ← on_env newPointer;
      done ← on_env (trySend ctx (mkConsumerMessage p ctx msg));
      match done with
      | Some e => mret (n, Some e)
      | None =>
          _ ← modify_obj (addToProcessing (msg_ID msg));
          c ← get_obj;
          _ ← on_env (for_each (λ fn, fn ctx (sc_topic c) msg) (onMessageProcessing c));
          deliverMessages ctx msgs' (n + 1)%Z
      end
  end.

(** Named results of [consumeStorageMessagesBatch]. *)
Abbreviation batchResult := (bool * Z * option error)%type.

Definition consumeLocked (ctx : context) : M (storageConsumer W * W) batchResult :=
  c ← get_obj;
  now ← on_env time_Now;
  found ← on_env (Find ctx (mkSpec (getProcessingMessageIDs c) [sc_topic c] now (consumingBatchSize c)));
  match found with
  | Err e => mret (false, 0%Z, Some (Errorf "find storage messages" e))
  | Ok msgs =>
      if decide (length msgs = 0) then mret (true, 0%Z, None)
      else
        '(n, stopped) ← deliverMessages ctx msgs 0;
        match stopped with
        | Some e => mret (true, n, Some e)
        | None =>
            _ ← waitAllProcessed;
            mret (bool_decide (Z.of_nat (length msgs) < consumingBatchSize c)%Z, n, None)
        end
  end.

(** The deferred function wraps the named result [err], which is [nil] in its
    branch, instead of [releaseErr]: fmt prints [%!w(<nil>)] and the error
    wraps nothing. *)
Definition errReleaseTopicLock : error := ErrText "release topic lock: %!w(<nil>)".

Definition deferRelease (releaseLock : M W (option error)) (body : M (storageConsumer W * W) batchResult) :
    M (storageConsumer W * W) batchResult :=
  λ s, match body s with
       | (Ret (all, n, err), s') =>
           (releaseErr ← on_env releaseLock;
            mret (all, n, match releaseErr, err with
                          | Some _, None => Some errReleaseTopicLock
                          | _, _ => err
                          end)) s'
       | (Panic p, s') => (_ ← on_env releaseLock; panic p) s'
       | r => r
       end.

Definition consumeStorageMessagesBatch (ctx : context) : M (storageConsumer W * W) batchResult :=
  c ← get_obj;
  l ← on_env (Lock ctx ["topic"; sc_topic c]);
  match l with
  | LockFailed _ e => mret (false, 0%Z, Some (Errorf "get topic lock" e))
  | Locked ctx releaseLock => deferRelease releaseLock (consumeLocked ctx)
  end.

(** The function handed to [backoff.Retry]; [fuel] bounds its loop. *)
Fixpoint consumeAll (fuel : nat) (ctx : context) : M (storageConsumer W * W) (option error) :=
  match fuel with
  | O => out_of_fuel
  | S fuel' =>
      '(all, n, err) ← consumeStorageMessagesBatch ctx;
      c ← get_obj;
      _ ← (if bool_decide (err ≠ None) || (0 <? n)%Z
           then on_env (for_each (λ fn, fn ctx (sc_topic c) n err) (onMessageBatchProcessed c))
           else mret tt);
      match err with
      | Some e => mret (Some e)
      | None => if (all : bool) then mret None else consumeAll fuel' ctx
      end
  end.

Definition consumeStorageMessages `{!Backoff (storageConsumer W * W)} (fuel : nat) (ctx : context) :
    M (storageConsumer W * W) unit :=
  _ ← Retry ctx (consumeAll fuel ctx); mret tt.
End consumer.

(** ** Options *)

Section options.
Context {W : Type} `{!LogSink W, !Metrics W} (error_Error : error → string) (uuid_String : uuid → string).
(** [ctx.Err()] *)
Context (ctx_Err : context → M W (option string)).

Definition WithStorageConsumerBatchSize (size : Z) (p : StorageConsumerProviderImpl W) : StorageConsumerProviderImpl W :=
  mkProvider size (OnMessageProcessing p) (OnAcknowledge p) (OnMessageBatchProcessed p) (consumers p).

Definition WithStorageConsumerLogging (logger : Logger) (infoLevel errorLevel : Level)
    (p : StorageConsumerProviderImpl W) : StorageConsumerProviderImpl W :=
  let fields topic msg := [("topic", topic); ("messageID", uuid_String (msg_ID msg))] in
  mkProvider (ConsumingBatchSize p)
    (OnMessageProcessing p ++
       [λ ctx topic msg, logger_Log (logger_With logger (fields topic msg)) (Some ctx) infoLevel
          "storage message is being processed"])
    (OnAcknowledge p ++
       [λ ctx topic msg err,
          let logger := logger_With logger (fields topic msg) in
          cerr ← ctx_Err ctx;
          match err with
          | Some _ =>
              if errors_Is err cerr then mret tt
              else logger_Log (logger_WithError error_Error logger err) (Some ctx) errorLevel
                     "failed to delete acknowledged message"
          | None => logger_Log logger (Some ctx) infoLevel "acknowledged message deleted from storage"
          end])
    (OnMessageBatchProcessed p ++
       [λ ctx _ _ err,
          match err with
          | None => mret tt
          | Some _ =>
              cerr ← ctx_Err ctx;
              if errors_Is err cerr then mret tt
              else logger_Log (logger_WithError error_Error logger err) (Some ctx) errorLevel
                     "failed to process storage messages to consume"
          end])
    (consumers p).

Definition WithStorageConsumerMetrics (p : StorageConsumerProviderImpl W) : StorageConsumerProviderImpl W :=
  mkProvider (ConsumingBatchSize p)
    (OnMessageProcessing p ++ [λ _ topic _, Increment [("topic", topic)] "msg_storage_consumer_processing_total"])
    (OnAcknowledge p ++
       [λ _ topic _ err,
          match err with
          | Some _ => Increment [("topic", topic)] "msg_storage_consumer_delete_acked_error_total"
          | None => Increment [("topic", topic)] "msg_storage_consumer_delete_acked_total"
          end])
    (OnMessageBatchProcessed p ++
       [λ _ topic _ err,
          match err with
          | None => mret tt
          | Some _ => Increment [("topic", topic)] "msg_storage_consumer_internal_errors_total"
          end])
    (consumers p).
End options.

(** ** The concurrent system: the consumer's worker, the listener's goroutines
    that acknowledge, and cancellation *)

(** Where the worker is in [consumeStorageMessagesBatch]: at the [select] with
    the messages still to hand over; after the channel rendezvous and before
    [addToProcessing]; about to test [processedCount != 0] with the condition's
    lock held; past the test and before [Wait] registered it; asleep in [Wait];
    returned ([false] when the context was done). *)
Inductive workerPC :=
| PSend (todo : list uuid)
| PAdd (id : uuid) (todo : list uuid)
| PCheck
| PWait
| PSleep
| PReturned (all : bool).

(** [st_inflight] messages are held by the listener, [st_removing] ones were
    deleted from the storage by [Ack] and wait for the mutex of
    [removeFromProcessing], [st_acked] ones are past it. *)
Record cstate := mkCState {
  st_pc : workerPC;
  st_processing : gset uuid;
  st_count : nat;
  st_inflight : gset uuid;
  st_removing : gset uuid;
  st_acked : gset uuid;
  st_deleted : gset uuid;
  st_cancelled : bool;
}.

Definition cinit (batch : list uuid) : cstate := mkCState (PSend batch) ∅ 0 ∅ ∅ ∅ ∅ false.

Definition set_pc (p : workerPC) (s : cstate) : cstate :=
  mkCState p (st_processing s) (st_count s) (st_inflight s) (st_removing s) (st_acked s)
    (st_deleted s) (st_cancelled s).

(** [Signal] wakes the worker only when it already sleeps in [Wait]; the waker
    holds the consumer's mutex and not the lock of the condition. *)
Definition signal (count : nat) (p : workerPC) : workerPC :=
  match p with
  | PSleep => match count with O => PCheck | S _ => PSleep end
  | _ => p
  end.

Inductive cstep : cstate → cstate → Prop :=
| cs_send s id todo :
    st_pc s = PSend (id :: todo) →
    cstep s (mkCState (PAdd id todo) (st_processing s) (st_count s) ({[id]} ∪ st_inflight s)
               (st_removing s) (st_acked s) (st_deleted s) (st_cancelled s))
| cs_send_done s id todo :
    st_pc s = PSend (id :: todo) → st_cancelled s = true →
    cstep s (set_pc (PReturned false) s)
| cs_add s id todo :
    st_pc s = PAdd id todo →
    cstep s (mkCState (PSend todo) ({[id]} ∪ st_processing s) (size ({[id]} ∪ st_processing s))
               (st_inflight s) (st_removing s) (st_acked s) (st_deleted s) (st_cancelled s))
| cs_sent s : st_pc s = PSend [] → cstep s (set_pc PCheck s)
| cs_check_zero s : st_pc s = PCheck → st_count s = 0 → cstep s (set_pc (PReturned true) s)
| cs_check_nonzero s : st_pc s = PCheck → st_count s ≠ 0 → cstep s (set_pc PWait s)
| cs_wait s : st_pc s = PWait → cstep s (set_pc PSleep s)
| cs_delete s id :
    id ∈ st_inflight s →
    cstep s (mkCState (st_pc s) (st_processing s) (st_count s) (st_inflight s ∖ {[id]})
               ({[id]} ∪ st_removing s) (st_acked s) ({[id]} ∪ st_deleted s) (st_cancelled s))
| cs_remove s id :
    id ∈ st_removing s →
    cstep s (mkCState (signal (size (st_processing s ∖ {[id]})) (st_pc s)) (st_processing s ∖ {[id]})
               (size (st_processing s ∖ {[id]})) (st_inflight s) (st_removing s ∖ {[id]}) ({[id]} ∪ st_acked s) (st_deleted s) (st_cancelled s))
| cs_cancel s :
    cstep s (mkCState (st_pc s) (st_processing s) (st_count s) (st_inflight s) (st_removing s)
               (st_acked s) (st_deleted s) true)
| cs_drop s id :
    st_cancelled s = true → id ∈ st_inflight s →
    cstep s (mkCState (st_pc s) (st_processing s) (st_count s) (st_inflight s ∖ {[id]}) (st_removing s)
               (st_acked s) (st_deleted s) (st_cancelled s)).

(** Messages the worker has not put into [processingMessages] yet. *)
Definition pc_todo (p : workerPC) : list uuid :=
  match p with PSend l => l | PAdd id l => id :: l | _ => [] end.

Definition counts (s : cstate) : Prop := st_count s = size (st_processing s).

Definition acks_deleted (s : cstate) : Prop :=
  st_removing s ⊆ st_deleted s ∧ st_acked s ⊆ st_deleted s.

Definition from_batch (batch : list uuid) (s : cstate) : Prop :=
  (∀ id, id ∈ pc_todo (st_pc s) → id ∈ batch) ∧
  (∀ id, id ∈ st_inflight s → id ∈ batch) ∧ (∀ id, id ∈ st_deleted s → id ∈ batch).

(** Until the context is done, a message is still to be handed over, in
    processing, or acknowledged; after a normal return it is acknowledged. *)
Definition accounted (batch : list uuid) (s : cstate) : Prop :=
  (st_pc s ≠ PReturned false →
   ∀ id, id ∈ batch → id ∈ pc_todo (st_pc s) ∨ id ∈ st_processing s ∨ id ∈ st_acked s) ∧
  (st_pc s = PReturned true → ∀ id, id ∈ batch → id ∈ st_acked s).

Definition cinv (batch : list uuid) (s : cstate) : Prop :=
  counts s ∧ acks_deleted s ∧ from_batch batch s ∧ accounted batch s.

Definition sleeps_forever (s : cstate) : Prop :=
  ∀ s', rtc cstep s s' → st_pc s' = PSleep.

(** ** A small environment *)

(** A world counting the listener's free slots: a send takes one; without a
    free slot the context is done first. *)
#[local] Instance slots_delivery : Delivery nat :=
  {| trySend := λ _ _ w, match w with O => (Ret (Some (ErrSentinel context_Canceled)), O) | S w' => (Ret None, w') end;
     waitAllProcessed := λ '(c, w), (Ret tt, (set_processing ∅ c, w));
     newPointer := λ w, (Ret w, w) |}.
#[local] Instance slots_storage : Storage nat :=
  {| Lock := λ ctx _ w, (Ret (Locked ctx (λ w, (Ret (Some (ErrSentinel "sql.ErrConnDone")), w))), w);
     Find := λ _ _ w, (Ret (Ok []), w);
     Store := λ _ _ _ w, (Ret None, w);
     Delete := λ _ _ _ w, (Ret None, w) |}.
#[local] Instance slots_clock : HasClock nat := λ w, (Ret 0%Z, w).

Definition sample_consumer : storageConsumer nat :=
  newStorageConsumer "topic" (NewStorageConsumerProvider []).
Definition sample_messages : list Message :=
  (λ n, mkMessage n "topic" "" "") <$> [1%N; 2%N; 3%N].

(** ** Lemmas *)

Lemma signal_todo n p : pc_todo (signal n p) = pc_todo p.
Proof. by destruct n, p. Qed.

Lemma signal_returned n p b : signal n p = PReturned b ↔ p = PReturned b.
Proof. by destruct n, p. Qed.

Ltac step_cases Hstep :=
  destruct Hstep; simpl in *; rewrite ?signal_todo, ?signal_returned;
  try match goal with E : st_pc _ = _ |- _ => rewrite E in *; simpl in * end.

Lemma cinv_init batch : cinv batch (cinit batch).
Proof.
  unfold cinv, counts, acks_deleted, from_batch, accounted. simpl.
  split_and!; try done; set_solver.
Qed.

Lemma counts_step s s' : counts s → cstep s s' → counts s'.
Proof. unfold counts. intros H Hstep. by step_cases Hstep. Qed.

Lemma acks_deleted_step s s' : acks_deleted s → cstep s s' → acks_deleted s'.
Proof. unfold acks_deleted. intros [H1 H2] Hstep. step_cases Hstep; split; set_solver. Qed.

Lemma from_batch_step batch s s' : from_batch batch s → cstep s s' → from_batch batch s'.
Proof.
  unfold from_batch. intros (H1 & H2 & H3) Hstep. step_cases Hstep; split_and!; try done;
    set_solver.
Qed.

Lemma accounted_step batch s s' :
  counts s → accounted batch s → cstep s s' → accounted batch s'.
Proof.
  unfold accounted. intros Hc [H1 H2] Hstep.
  step_cases Hstep; (split; [intros Hp x Hx|intros Hp x Hx]); try done; try (by apply H1); try (by apply H2).
  - destruct (H1 ltac:(done) x Hx) as [[->|?]%elem_of_cons|[?|?]]; set_solver.
  - destruct (H1 ltac:(done) x Hx) as [?%elem_of_nil|[?|?]]; [done|..|done].
    assert (st_processing s = ∅) as Hz by (apply leibniz_equiv, size_empty_inv; unfold counts in Hc; lia).
    set_solver.
  - destruct (decide (x = id)) as [->|Hne]; [set_solver|].
    destruct (H1 Hp x Hx) as [?|[?|?]]; set_solver.
  - apply elem_of_union_r. by apply H2.
Qed.

Lemma cinv_step batch s s' : cinv batch s → cstep s s' → cinv batch s'.
Proof.
  intros (H1 & H2 & H3 & H4) Hstep. split_and!;
    [by eapply counts_step|by eapply acks_deleted_step|by eapply from_batch_step|by eapply accounted_step].
Qed.

Lemma asleep_stays s s' :
  st_pc s = PSleep → st_inflight s = ∅ → st_removing s = ∅ → cstep s s' →
  st_pc s' = PSleep ∧ st_inflight s' = ∅ ∧ st_removing s' = ∅.
Proof.
  intros Hp Hi Hr Hstep. destruct Hstep; simpl in *; try congruence; try set_solver.
Qed.

Lemma asleep_forever s :
  st_pc s = PSleep → st_inflight s = ∅ → st_removing s = ∅ → sleeps_forever s.
Proof.
  intros Hp Hi Hr s' Hrun.
  apply (inv_rtc cstep (λ s, st_pc s = PSleep ∧ st_inflight s = ∅ ∧ st_removing s = ∅) s s');
    [|done|done]. intros a b (? & ? & ?) Hab. by eapply asleep_stays.
Qed.

(** Acknowledging one message of a sleeping worker. *)
Lemma ack_one s id :
  st_pc s = PSleep → st_processing s = st_inflight s ∪ st_removing s →
  id ∈ st_processing s → st_inflight s ## st_removing s →
  ∃ s', rtc cstep s s' ∧ st_processing s' = st_processing s ∖ {[id]} ∧
    st_processing s' = st_inflight s' ∪ st_removing s' ∧ st_inflight s' ## st_removing s' ∧
    st_count s' = size (st_processing s') ∧ st_pc s' = signal (size (st_processing s')) PSleep.
Proof.
  intros Hp Heq Hid Hdisj.
  assert (∃ s1, rtc cstep s s1 ∧ st_pc s1 = PSleep ∧ st_processing s1 = st_processing s ∧
    st_processing s1 = st_inflight s1 ∪ st_removing s1 ∧ st_inflight s1 ## st_removing s1 ∧
    id ∈ st_removing s1) as (s1 & Hr1 & Hp1 & Hpr1 & Heq1 & Hd1 & Hid1).
  { destruct (decide (id ∈ st_removing s)) as [Hin|Hnin]; [by exists s|].
    eexists. split; [apply rtc_once, (cs_delete s id); set_solver|]. simpl.
    split_and!; [done|done|rewrite Heq|set_solver|set_solver].
    apply set_eq. intros x. destruct (decide (x = id)); set_solver. }
  eexists. split; [eapply rtc_r; [exact Hr1|apply (cs_remove s1 id Hid1)]|]. simpl.
  rewrite Hpr1, Hp1. split_and!; [done| |set_solver|done|done].
  rewrite <- Hpr1, Heq1. set_solver.
Qed.

Lemma sleeping_finishes n s :
  size (st_processing s) = S n →
  st_pc s = PSleep → st_processing s = st_inflight s ∪ st_removing s →
  st_inflight s ## st_removing s →
  ∃ s', rtc cstep s s' ∧ st_pc s' = PReturned true ∧ st_processing s' = ∅.
Proof.
  revert s. induction n as [|n IH]; intros s Hn Hp Heq Hd;
    (destruct (size_pos_elem_of (st_processing s) ltac:(lia)) as [id Hid]);
    destruct (ack_one s id Hp Heq Hid Hd) as (s1 & Hr1 & Hpr1 & Heq1 & Hd1 & Hc1 & Hp1);
    assert (Hsz : size (st_processing s) = S (size (st_processing s1)))
      by (rewrite Hpr1; by apply size_remove).
  - assert (Hz : size (st_processing s1) = 0) by lia. rewrite Hz in Hp1, Hc1.
    exists (set_pc (PReturned true) s1). split_and!; [|done|].
    + eapply rtc_r; [exact Hr1|]. by apply cs_check_zero.
    + simpl. by apply leibniz_equiv, size_empty_inv.
  - assert (Hz : size (st_processing s1) = S n) by lia. rewrite Hz in Hp1.
    destruct (IH s1) as (s2 & Hr2 & Hp2 & Hpr2); [done..|].
    exists s2. split_and!; [by etrans|done|done].
Qed.

Section consumer_lemmas.
Context {W : Type} `{!Storage W, !HasClock W, !Delivery W}.

Lemma deliverMessages_inv ctx msgs n (c c' : storageConsumer W) (w w' : W) k stopped :
  deliverMessages ctx msgs n (c, w) = (Ret (k, stopped), (c', w')) →
  ∃ sent rest, msgs = sent ++ rest ∧ k = (n + Z.of_nat (length sent))%Z ∧
    (stopped = None ↔ rest = []) ∧
    processingMessages c' = processingMessages c ∪ list_to_set (msg_ID <$> sent).
Proof.
  revert n c w. induction msgs as [|m msgs IH]; intros n c w H; simpl in H.
  { unfold_M. simplify_eq. exists [], []. split_and!; [done|simpl; lia|done|set_solver]. }
  apply M_bind_Ret_inv in H as (p & [c1 w1] & Hp & H). apply on_env_inv in Hp as [-> _].
  apply M_bind_Ret_inv in H as (d & [c2 w2] & Hd & H). apply on_env_inv in Hd as [-> _].
  destruct d as [e|].
  { unfold_M. simplify_eq. exists [], (m :: msgs). split_and!; [done|simpl; lia|done|set_solver]. }
  apply M_bind_Ret_inv in H as (u & [c3 w3] & Hm & H). unfold modify_obj in Hm. simplify_eq/=.
  apply M_bind_Ret_inv in H as (c4 & [c5 w5] & Hg & H). unfold get_obj in Hg. simplify_eq/=.
  apply M_bind_Ret_inv in H as (u' & [c6 w6] & Hh & H). apply on_env_inv in Hh as [-> _].
  apply IH in H as (sent & rest & -> & -> & Hs & Hpr).
  exists (m :: sent), rest. split_and!; [done|simpl; lia|done|].
  rewrite Hpr. simpl. set_solver.
Qed.
End consumer_lemmas.

(** ** Theorems *)

(**  In every interleaving of the consumer's worker with acknowledgements,
    signals and cancellation: [processedCount] is the size of
    [processingMessages]; only messages of the batch are deleted; and when the
    batch is reported as processed (the worker returned without the context
    being done), every message of it has been acknowledged and deleted from
    the storage. *)
Theorem consumer_batch_acked batch s (Hrun : rtc cstep (cinit batch) s) :
  st_count s = size (st_processing s) ∧
  (∀ id, id ∈ st_deleted s → id ∈ batch) ∧
  (st_pc s = PReturned true → ∀ id, id ∈ batch → id ∈ st_acked s ∧ id ∈ st_deleted s).
Proof.
  assert (cinv batch s) as (Hc & [_ Hd] & (_ & _ & Hb) & [_ Hr]).
  { eapply (inv_rtc cstep); [|apply cinv_init|exact Hrun]. intros; by eapply cinv_step. }
  split_and!; [done|done|]. intros Hp id Hid. split; [by apply Hr|by apply Hd, Hr].
Qed.

(**  No deadlock on the intended schedule: when the worker sleeps and the
    messages in [processingMessages] are the ones still held by the listener,
    acknowledging them wakes the worker and the batch returns. *)
Theorem consumer_sleep_finishes s
    (Hpc : st_pc s = PSleep) (Hne : st_processing s ≠ ∅)
    (Hheld : st_processing s = st_inflight s ∪ st_removing s)
    (Hdisj : st_inflight s ## st_removing s) :
  ∃ s', rtc cstep s s' ∧ st_pc s' = PReturned true ∧ st_processing s' = ∅.
Proof.
  destruct (size (st_processing s)) as [|n] eqn:En.
  - apply size_empty_inv, leibniz_equiv in En. done.
  - by eapply sleeping_finishes.
Qed.

(** C21.  The race of [addToProcessing] with [Ack]: the message is handed over
    before it is put into [processingMessages], so an acknowledgement that is
    faster removes nothing and the message stays registered.  From there the
    worker sleeps for ever, holding the topic lock, although every message of
    the batch was acknowledged and deleted and nothing was cancelled. *)
Theorem consumer_ack_race id :
  ∃ s, rtc cstep (cinit [id]) s ∧ st_cancelled s = false ∧ st_deleted s = {[id]} ∧
    st_acked s = {[id]} ∧ st_processing s = {[id]} ∧ sleeps_forever s.
Proof.
  eexists. split.
  { eapply rtc_l; [by apply (cs_send _ id [])|]. eapply rtc_l; [apply (cs_delete _ id); simpl; set_solver|].
    eapply rtc_l; [apply (cs_remove _ id); simpl; set_solver|]. eapply rtc_l; [by eapply (cs_add _ id)|].
    eapply rtc_l; [by apply cs_sent|]. eapply rtc_l; [apply cs_check_nonzero; [done|]|].
    { cbn [st_count set_pc]. apply size_union_nonzero. }
    eapply rtc_l; [by apply cs_wait|]. apply rtc_refl. }
  simpl. split_and!; [done|set_solver..|]. apply asleep_forever; simpl; [done|set_solver..].
Qed.

(** C22.  The lost wake-up: [removeFromProcessing] signals without holding the
    condition's lock, so its signal can fall between the worker's test of
    [processedCount] and its [Wait]; the worker then sleeps for ever with
    nothing in processing. *)
Theorem consumer_lost_wakeup id :
  ∃ s, rtc cstep (cinit [id]) s ∧ st_cancelled s = false ∧ st_deleted s = {[id]} ∧
    st_processing s = ∅ ∧ st_count s = 0 ∧ sleeps_forever s.
Proof.
  eexists. split.
  { eapply rtc_l; [by apply (cs_send _ id [])|]. eapply rtc_l; [by eapply (cs_add _ id)|].
    eapply rtc_l; [by apply cs_sent|]. eapply rtc_l; [apply cs_check_nonzero; [done|]|].
    { cbn [st_count set_pc]. apply size_union_nonzero. }
    eapply rtc_l; [apply (cs_delete _ id); simpl; set_solver|].
    eapply rtc_l; [apply (cs_remove _ id); simpl; set_solver|].
    eapply rtc_l; [by apply cs_wait|]. apply rtc_refl. }
  cbn -[size union difference singleton empty]. split_and!; [done|set_solver|set_solver| |].
  - apply size_empty_iff. set_solver.
  - apply asleep_forever; simpl; [done|set_solver..].
Qed.

(**  Shutdown: a listener whose context is cancelled gives its message up
    without acknowledging it, and the wait for [processedCount] does not look
    at the context; the consumer's worker then never returns. *)
Theorem consumer_shutdown_hang id :
  ∃ s, rtc cstep (cinit [id]) s ∧ st_cancelled s = true ∧ st_deleted s = ∅ ∧ sleeps_forever s.
Proof.
  eexists. split.
  { eapply rtc_l; [by apply (cs_send _ id [])|]. eapply rtc_l; [by eapply (cs_add _ id)|].
    eapply rtc_l; [by apply cs_sent|]. eapply rtc_l; [apply cs_check_nonzero; [done|]|].
    { cbn [st_count set_pc]. apply size_union_nonzero. }
    eapply rtc_l; [by apply cs_wait|]. eapply rtc_l; [apply cs_cancel|].
    eapply rtc_l; [apply (cs_drop _ id); [done|simpl; set_solver]|]. apply rtc_refl. }
  simpl. split_and!; [done|done|]. apply asleep_forever; simpl; [done|set_solver..].
Qed.

(**  The delivery loop of a batch, however it ends: the messages handed to
    the listener are a prefix of the ones found, exactly these were added to
    [processingMessages], the count returned is their number, and something is
    left over exactly when the context was done before it could be sent. *)
Theorem consumer_deliver_prefix {W} `{!Delivery W} ctx msgs n (c c' : storageConsumer W) w w' k stopped
    (Hrun : deliverMessages ctx msgs n (c, w) = (Ret (k, stopped), (c', w'))) :
  ∃ sent rest, msgs = sent ++ rest ∧ k = (n + Z.of_nat (length sent))%Z ∧
    (stopped = None ↔ rest = []) ∧
    processingMessages c' = processingMessages c ∪ list_to_set (msg_ID <$> sent).
Proof. by eapply deliverMessages_inv. Qed.

(**  A failed release of the topic lock is reported, but with an error that
    wraps nothing: [errors.Is] recognises neither the release error nor
    anything else in it, whatever the release error is. *)
Theorem consumer_release_error_lost {W} `{!Storage W, !HasClock W, !Delivery W}
    ctx ctx' rel e (c c1 : storageConsumer W) w w1 w2 w3 all n
    (Hlock : Lock ctx ["topic"; sc_topic c] w = (Ret (Locked ctx' rel), w1))
    (Hbody : consumeLocked ctx' (c, w1) = (Ret (all, n, None), (c1, w2)))
    (Hrel : rel w2 = (Ret (Some e), w3)) :
  ∃ err, consumeStorageMessagesBatch ctx (c, w) = (Ret (all, n, Some err), (c1, w3)) ∧
    ∀ target, errors_Is (Some err) target = false.
Proof.
  exists errReleaseTopicLock. split; [|by intros [t|]].
  unfold consumeStorageMessagesBatch. unfold_M. unfold on_env at 1. rewrite Hlock. unfold deferRelease.
  rewrite Hbody. unfold_M. unfold on_env. by rewrite Hrel.
Qed.

(**  [Ack] deletes the message by topic and id; the message leaves
    [processingMessages] exactly when the storage deleted it, and a storage
    error is returned wrapped, the consumer unchanged, so that the listener
    retries. *)
Theorem consumer_Ack_spec {W} `{!Storage W} ctx msg (c : storageConsumer W) w err w'
    (Hhooks : onAcknowledge c = [])
    (Hdelete : Delete ctx (msg_Topic (cm_Message msg)) [msg_ID (cm_Message msg)] w = (Ret err, w')) :
  consumer_Ack ctx msg (c, w) =
    match err with
    | None => (Ret None, (removeFromProcessing (msg_ID (cm_Message msg)) c, w'))
    | Some e => (Ret (Some (Errorf "delete message from storage" e)), (c, w'))
    end ∧
  (∀ id, id ∈ processingMessages (removeFromProcessing (msg_ID (cm_Message msg)) c) ↔
     id ∈ processingMessages c ∧ id ≠ msg_ID (cm_Message msg)).
Proof.
  split; [|intros id; simpl; set_solver].
  unfold consumer_Ack. unfold_M. unfold on_env. rewrite Hdelete, Hhooks. by destruct err.
Qed.

(**  The provider hands out one consumer per topic: the first request for a
    topic registers a fresh consumer and leaves the others alone, a second one
    fails. *)
Theorem provider_one_consumer_per_topic {W} (p : StorageConsumerProviderImpl W) topic :
  match Provider_Consumer p topic with
  | Ok p' => consumers p !! topic = None ∧
      consumers p' = <[topic := newStorageConsumer topic p]> (consumers p) ∧
      is_Some (result_err (Provider_Consumer p' topic))
  | Err _ => is_Some (consumers p !! topic)
  end.
Proof.
  unfold Provider_Consumer. destruct (consumers p !! topic) as [c|] eqn:E; [by eexists|].
  simpl. rewrite lookup_insert_eq. by split_and!; [| |eexists].
Qed.

(** ** Witnesses *)

Lemma sample_batch_run : ∃ s, rtc cstep (cinit [5%N]) s ∧ st_pc s = PReturned true.
Proof.
  eexists. split.
  - eapply rtc_l; [by apply (cs_send _ 5%N [])|]. eapply rtc_l; [by eapply (cs_add _ 5%N)|].
    eapply rtc_l; [by apply cs_sent|]. eapply rtc_l; [apply (cs_delete _ 5%N); simpl; set_solver|].
    eapply rtc_l; [apply (cs_remove _ 5%N); simpl; set_solver|].
    eapply rtc_l; [apply cs_check_zero; [reflexivity|vm_compute; reflexivity]|apply rtc_refl].
  - reflexivity.
Qed.

Lemma consumer_batch_acked_witness :
  ∃ s, rtc cstep (cinit [5%N]) s ∧ st_pc s = PReturned true ∧ 5%N ∈ st_acked s ∧ 5%N ∈ st_deleted s.
Proof.
  destruct sample_batch_run as (s & Hrun & Hpc). exists s. split; [exact Hrun|]. split; [exact Hpc|].
  refine (proj2 (proj2 (consumer_batch_acked [5%N] s Hrun)) Hpc 5%N _). set_solver.
Defined.

Lemma consumer_sleep_finishes_witness :
  ∃ s', rtc cstep (mkCState PSleep {[5%N]} 1 {[5%N]} ∅ ∅ ∅ false) s' ∧ st_pc s' = PReturned true ∧
    st_processing s' = ∅.
Proof.
  apply (consumer_sleep_finishes (mkCState PSleep {[5%N]} 1 {[5%N]} ∅ ∅ ∅ false)); simpl;
    [reflexivity|discriminate|set_solver|set_solver].
Defined.

Lemma consumer_deliver_prefix_witness :
  ∃ sent rest, sample_messages = sent ++ rest ∧ 2%Z = (0 + Z.of_nat (length sent))%Z ∧
    (Some (ErrSentinel context_Canceled) = None ↔ rest = []) ∧
    processingMessages (set_processing {[1%N; 2%N]} sample_consumer) = processingMessages sample_consumer ∪ list_to_set (msg_ID <$> sent).
Proof.
  apply (consumer_deliver_prefix context_Background sample_messages 0 sample_consumer
    (set_processing {[1%N; 2%N]} sample_consumer) 2%nat 0%nat 2%Z (Some (ErrSentinel context_Canceled))).
  vm_compute. reflexivity.
Defined.

Lemma consumer_release_error_lost_witness :
  ∃ err, consumeStorageMessagesBatch context_Background (sample_consumer, 0) =
      (Ret (true, 0%Z, Some err), (sample_consumer, 0)) ∧
    ∀ target, errors_Is (Some err) target = false.
Proof.
  refine (consumer_release_error_lost context_Background context_Background
    (λ w, (Ret (Some (ErrSentinel "sql.ErrConnDone")), w)) (ErrSentinel "sql.ErrConnDone")
    sample_consumer sample_consumer 0 0 0 0 true 0%Z _ _ _); reflexivity.
Defined.

Lemma consumer_Ack_spec_witness :
  consumer_Ack context_Background (mkConsumerMessage 0 context_Background (mkMessage 5%N "topic" "" ""))
    (set_processing {[5%N]} sample_consumer, 0) =
    (Ret None, (removeFromProcessing 5%N (set_processing {[5%N]} sample_consumer), 0)).
Proof.
  refine (proj1 (consumer_Ack_spec context_Background
    (mkConsumerMessage 0 context_Background (mkMessage 5%N "topic" "" ""))
    (set_processing {[5%N]} sample_consumer) 0 None 0 _ _)); reflexivity.
Defined.
