(* ===== verification/GoStrings.v ===== *)
(** The functions of Go's [strings], [strconv] and [unicode/utf8] packages the
    code uses, on byte strings. *)
From S2P Require Import Prelude.
From Stdlib Require Import Ascii.

Abbreviation byte_list := (list ascii) (only parsing).
Definition to_bytes : string → list ascii := String.list_ascii_of_string.
Definition of_bytes : list ascii → string := String.string_of_list_ascii.
Definition byte_val (b : ascii) : N := N_of_ascii b.

(** ** Prefixes and suffixes *)

Fixpoint strip_prefix (p s : list ascii) : option (list ascii) :=
  match p, s with
  | [], _ => Some s
  | a :: p', b :: s' => if Ascii.eqb a b then strip_prefix p' s' else None
  | _ :: _, [] => None
  end.

Definition strip_suffix (p s : list ascii) : option (list ascii) :=
  match strip_prefix (rev p) (rev s) with Some r => Some (rev r) | None => None end.

Definition has_prefix (p s : list ascii) : bool :=
  match strip_prefix p s with Some _ => true | None => false end.

(** [strings.TrimSuffix] *)
Definition TrimSuffix (s suffix : string) : string :=
  match strip_suffix (to_bytes suffix) (to_bytes s) with Some r => of_bytes r | None => s end.

(** The part of a file name from its last dot: [filepath.Ext] of a name without
    a separator. *)
Fixpoint ext_rev (acc s : list ascii) : option (list ascii) :=
  match s with
  | [] => None
  | c :: s' => if Ascii.eqb c "."%char then Some (c :: acc) else ext_rev (c :: acc) s'
  end.
Definition filepath_Ext (name : string) : string :=
  match ext_rev [] (rev (to_bytes name)) with Some e => of_bytes e | None => "" end.

(** ** Join and Split *)

(** [strings.Join] *)
Fixpoint Join (elems : list string) (sep : string) : string :=
  match elems with
  | [] => ""
  | [e] => e
  | e :: elems' => e +:+ sep +:+ Join elems' sep
  end.

(** The bytes the first rune of a string takes ([utf8.DecodeRune]): one for
    ASCII and for invalid encodings. *)
Definition cont (lo hi : N) (b : ascii) : bool := ((lo <=? byte_val b) && (byte_val b <=? hi))%N.
Definition rune_width (s : list ascii) : nat :=
  match s with
  | [] => 0
  | a :: s' =>
      let v := byte_val a in
      if (v <? 0xC2)%N then 1
      else if (v <=? 0xDF)%N then
        match s' with b :: _ => if cont 0x80 0xBF b then 2 else 1 | _ => 1 end
      else if (v <=? 0xEF)%N then
        let lo := if (v =? 0xE0)%N then 0xA0%N else 0x80%N in
        let hi := if (v =? 0xED)%N then 0x9F%N else 0xBF%N in
        match s' with b :: c :: _ => if cont lo hi b && cont 0x80 0xBF c then 3 else 1 | _ => 1 end
      else if (v <=? 0xF4)%N then
        let lo := if (v =? 0xF0)%N then 0x90%N else 0x80%N in
        let hi := if (v =? 0xF4)%N then 0x8F%N else 0xBF%N in
        match s' with
        | b :: c :: d :: _ => if cont lo hi b && cont 0x80 0xBF c && cont 0x80 0xBF d then 4 else 1
        | _ => 1
        end
      else 1
  end.

(** The runes of a string, as the bytes they take; the fuel is the length. *)
Fixpoint runes_fuel (fuel : nat) (s : list ascii) : list (list ascii) :=
  match fuel, s with
  | S fuel', _ :: _ => take (rune_width s) s :: runes_fuel fuel' (drop (rune_width s) s)
  | _, _ => []
  end.
Definition runes (s : list ascii) : list (list ascii) := runes_fuel (length s) s.

(** A string coerced to valid UTF-8: each invalid byte becomes U+FFFD. *)
Definition replacement_rune : list ascii := [ascii_of_N 0xEF; ascii_of_N 0xBF; ascii_of_N 0xBD].
Definition valid_rune (r : list ascii) : list ascii :=
  match r with [b] => if (byte_val b <? 0x80)%N then [b] else replacement_rune | _ => r end.
Definition ToValidUTF8 (s : string) : string := of_bytes (concat (valid_rune <$> runes (to_bytes s))).
(** [utf8.ValidString] *)
Definition ValidString (s : string) : bool := String.eqb (ToValidUTF8 s) s.

(** [strings.Split] with a separator that is not empty: [acc] is the current
    piece, reversed, [skip] the bytes of a separator still to pass. *)
Fixpoint split_bytes (sep : list ascii) (skip : nat) (acc s : list ascii) : list (list ascii) :=
  match s with
  | [] => [rev acc]
  | c :: s' =>
      match skip with
      | S skip' => split_bytes sep skip' acc s'
      | O => if has_prefix sep s then rev acc :: split_bytes sep (pred (length sep)) [] s'
             else split_bytes sep 0 (c :: acc) s'
      end
  end.

(** [strings.Split]: with the empty separator, a piece per rune. *)
Definition Split (s sep : string) : list string :=
  match to_bytes sep with
  | [] => of_bytes <$> runes (to_bytes s)
  | sep => of_bytes <$> split_bytes sep 0 [] (to_bytes s)
  end.

(** ** Trimming *)

Definition byte (n : N) : ascii := ascii_of_N n.

(** The UTF-8 encodings of the runes [unicode.IsSpace] accepts. *)
Definition space_encodings : list (list ascii) :=
  ((λ n, [byte n]) <$> [0x09; 0x0A; 0x0B; 0x0C; 0x0D; 0x20]%N) ++
  ((λ n, [byte 0xC2; byte n]) <$> [0x85; 0xA0]%N) ++
  [[byte 0xE1; byte 0x9A; byte 0x80]] ++
  ((λ n, [byte 0xE2; byte 0x80; byte n]) <$>
     [0x80; 0x81; 0x82; 0x83; 0x84; 0x85; 0x86; 0x87; 0x88; 0x89; 0x8A; 0xA8; 0xA9; 0xAF]%N) ++
  [[byte 0xE2; byte 0x81; byte 0x9F]; [byte 0xE3; byte 0x80; byte 0x80]].

(** Removes one of the given encodings from the front. *)
Fixpoint strip_one (encs : list (list ascii)) (s : list ascii) : option (list ascii) :=
  match encs with
  | [] => None
  | e :: encs' => match strip_prefix e s with Some r => Some r | None => strip_one encs' s end
  end.
Fixpoint trim_left_fuel (fuel : nat) (encs : list (list ascii)) (s : list ascii) : list ascii :=
  match fuel with
  | O => s
  | S fuel' => match strip_one encs s with Some r => trim_left_fuel fuel' encs r | None => s end
  end.

(** Each round removes a byte, so the length is enough fuel. *)
Definition trim_left (encs : list (list ascii)) (s : list ascii) : list ascii :=
  trim_left_fuel (length s) encs s.
(** [DecodeLastRune] of a string that ends with a valid encoding is that
    encoding, so trimming at the end is trimming the reversed encodings of the
    reversed string. *)
Definition trim_right (encs : list (list ascii)) (s : list ascii) : list ascii :=
  rev (trim_left ((λ e, rev e) <$> encs) (rev s)).

(** [strings.TrimSpace] *)
Definition TrimSpace (s : string) : string :=
  of_bytes (trim_right space_encodings (trim_left space_encodings (to_bytes s))).

(** [strings.Trim(s, "/")] *)
Definition TrimSlash (s : string) : string :=
  of_bytes (trim_right [["/"%char]] (trim_left [["/"%char]] (to_bytes s))).

(** ** Case

    The ASCII fast paths of [strings.ToUpper] and [strings.ToLower]; on other
    strings the full tables of package [unicode], a parameter. *)
Definition is_ascii (s : list ascii) : bool := forallb (λ b, byte_val b <? 0x80)%N s.
Definition upper_byte (b : ascii) : ascii :=
  if cont 97 122 b then byte (byte_val b - 32) else b.
Definition lower_byte (b : ascii) : ascii :=
  if cont 65 90 b then byte (byte_val b + 32) else b.

Class UnicodeCase := { unicode_ToUpper : string → string; unicode_ToLower : string → string }.

Definition ToUpper `{!UnicodeCase} (s : string) : string :=
  if is_ascii (to_bytes s) then of_bytes (upper_byte <$> to_bytes s) else unicode_ToUpper s.
Definition ToLower `{!UnicodeCase} (s : string) : string :=
  if is_ascii (to_bytes s) then of_bytes (lower_byte <$> to_bytes s) else unicode_ToLower s.

(** ** Numbers *)

Definition ErrSyntax : error := ErrSentinel "strconv.ErrSyntax".
Definition ErrRange : error := ErrSentinel "strconv.ErrRange".
Definition max_uint64 : Z := (2 ^ 64 - 1)%Z.

Definition digit (b : ascii) : option Z :=
  if cont 48 57 b then Some (Z.of_N (byte_val b) - 48)%Z else None.

(** The loop of [strconv.ParseUint] in base ten: a number that reaches the
    cutoff or leaves the range ends it. *)
Fixpoint parse_uint_loop (maxVal n : Z) (s : list ascii) : result Z :=
  match s with
  | [] => Ok n
  | c :: s' =>
      match digit c with
      | None => Err ErrSyntax
      | Some d =>
          if (max_uint64 / 10 + 1 <=? n)%Z then Err ErrRange
          else if (maxVal <? n * 10 + d)%Z then Err ErrRange
          else parse_uint_loop maxVal (n * 10 + d) s'
      end
  end.
Definition ParseUint (bitSize : Z) (s : list ascii) : result Z :=
  match s with [] => Err ErrSyntax | _ => parse_uint_loop (2 ^ bitSize - 1) 0 s end.

(** [strconv.ParseInt(s, 10, bitSize)]; a range error of [ParseUint] leaves the
    largest value there and fails the range test below. *)
Definition ParseInt (bitSize : Z) (s : string) : result Z :=
  match to_bytes s with
  | [] => Err ErrSyntax
  | c :: s' =>
      let '(neg, digits) := if Ascii.eqb c "+"%char then (false, s')
                            else if Ascii.eqb c "-"%char then (true, s') else (false, c :: s') in
      match ParseUint bitSize digits with
      | Err e => Err e
      | Ok un =>
          if negb neg && (2 ^ (bitSize - 1) <=? un)%Z then Err ErrRange
          else if neg && (2 ^ (bitSize - 1) <? un)%Z then Err ErrRange
          else Ok (if neg then (- un)%Z else un)
      end
  end.

(** [strconv.Atoi]: its short path for small strings agrees with [ParseInt]. *)
Definition Atoi (s : string) : result Z := ParseInt 64 s.

Definition ParseBool (s : string) : result bool :=
  if existsb (String.eqb s) ["1"; "t"; "T"; "TRUE"; "true"; "True"] then Ok true
  else if existsb (String.eqb s) ["0"; "f"; "F"; "FALSE"; "false"; "False"] then Ok false
  else Err ErrSyntax.

(** ** Lemmas *)

Lemma of_to_bytes s : of_bytes (to_bytes s) = s.
Proof. apply String.string_of_list_ascii_of_string. Qed.
Lemma to_of_bytes l : to_bytes (of_bytes l) = l.
Proof. apply String.list_ascii_of_string_of_list_ascii. Qed.
Lemma to_bytes_app a b : to_bytes (a +:+ b) = to_bytes a ++ to_bytes b.
Proof. induction a as [|c a IH]; simpl; [done|]. f_equal. apply IH. Qed.
Lemma of_bytes_app a b : of_bytes (a ++ b) = of_bytes a +:+ of_bytes b.
Proof. unfold of_bytes. induction a as [|c a IH]; simpl; [done|]. by rewrite IH. Qed.
Lemma to_bytes_inj a b : to_bytes a = to_bytes b → a = b.
Proof. intros H. by rewrite <- (of_to_bytes a), H, of_to_bytes. Qed.

Lemma ValidString_spec s : ValidString s = true ↔ ToValidUTF8 s = s.
Proof. apply String.eqb_eq. Qed.

Lemma strip_prefix_Some p s r : strip_prefix p s = Some r ↔ s = p ++ r.
Proof.
  revert s. induction p as [|a p IH]; intros s; simpl; [naive_solver|].
  destruct s as [|b s]; [naive_solver|]. destruct (Ascii.eqb_spec a b); naive_solver.
Qed.

Lemma has_prefix_spec p s : has_prefix p s = true ↔ ∃ r, s = p ++ r.
Proof.
  unfold has_prefix. destruct (strip_prefix p s) as [r|] eqn:E.
  - apply strip_prefix_Some in E. naive_solver.
  - split; [done|]. intros [r Hr]. apply strip_prefix_Some in Hr. congruence.
Qed.

Lemma rev_rev {A} (l : list A) : rev (rev l) = l.
Proof. by rewrite rev_involutive. Qed.

Lemma strip_suffix_Some p s r : strip_suffix p s = Some r ↔ s = r ++ p.
Proof.
  unfold strip_suffix. split.
  - destruct (strip_prefix _ _) as [x|] eqn:E; [|done]. intros [= <-].
    apply strip_prefix_Some in E. by rewrite <- (rev_rev s), E, rev_app_distr, rev_rev.
  - intros ->. rewrite rev_app_distr. rewrite (proj2 (strip_prefix_Some _ _ (rev r))) by done.
    by rewrite rev_rev.
Qed.

Lemma TrimSuffix_spec s suffix : TrimSuffix (s +:+ suffix) suffix = s.
Proof.
  unfold TrimSuffix. rewrite to_bytes_app, (proj2 (strip_suffix_Some _ _ (to_bytes s))) by done.
  apply of_to_bytes.
Qed.

(** *** Trimming *)

Lemma strip_one_Some encs s r : strip_one encs s = Some r → ∃ e, e ∈ encs ∧ s = e ++ r.
Proof.
  induction encs as [|e encs IH]; simpl; [done|]. destruct (strip_prefix e s) as [x|] eqn:E.
  - intros [= <-]. apply strip_prefix_Some in E. exists e. set_solver.
  - intros H. destruct (IH H) as (e' & He & Hs). exists e'. set_solver.
Qed.

Lemma strip_one_None encs s : strip_one encs s = None ↔ ∀ e r, e ∈ encs → s ≠ e ++ r.
Proof.
  induction encs as [|e encs IH]; simpl; [set_solver|].
  destruct (strip_prefix e s) as [x|] eqn:E.
  - apply strip_prefix_Some in E. split; [done|]. intros H. exfalso. eapply H; [|done]. set_solver.
  - rewrite IH. split.
    + intros H e' r [->|He]%elem_of_cons Hs; [|by eapply H]. apply strip_prefix_Some in Hs. congruence.
    + intros H e' r He. apply H. set_solver.
Qed.

Lemma trim_left_fuel_spec encs fuel s :
  Forall (λ e, e ≠ []) encs → length s ≤ fuel →
  ∃ pre, Forall (λ e, e ∈ encs) pre ∧ s = concat pre ++ trim_left_fuel fuel encs s ∧
    strip_one encs (trim_left_fuel fuel encs s) = None.
Proof.
  intros Hne. revert s. induction fuel as [|fuel IH]; intros s Hf; simpl.
  - destruct s; simpl in Hf; [|lia]. exists []. split; [done|]. split; [done|].
    apply strip_one_None. intros e r He Hs. eapply Forall_forall in Hne; [|exact He].
    destruct e; [done|by simplify_eq/=].
  - destruct (strip_one encs s) as [r|] eqn:E; [|by exists []].
    apply strip_one_Some in E as (e & He & ->).
    assert (e ≠ []) as Hn by (by eapply Forall_forall in Hne). destruct (IH r) as (pre & Hp & Hr & Ho).
    { destruct e; [done|]. simpl in Hf. rewrite length_app in Hf. lia. }
    exists (e :: pre). split; [by constructor|]. split; [|done]. simpl. rewrite <- app_assoc. by f_equal.
Qed.

Lemma trim_left_spec encs s :
  Forall (λ e, e ≠ []) encs →
  ∃ pre, Forall (λ e, e ∈ encs) pre ∧ s = concat pre ++ trim_left encs s ∧ strip_one encs (trim_left encs s) = None.
Proof. intros. by apply trim_left_fuel_spec. Qed.

Lemma rev_concat (ls : list (list ascii)) : rev (concat ls) = concat (rev ((λ e, rev e) <$> ls)).
Proof.
  induction ls as [|l ls IH]; simpl; [done|].
  rewrite rev_app_distr, IH, concat_app. simpl. by rewrite app_nil_r.
Qed.

Definition ends_clean (encs : list (list ascii)) (s : list ascii) : Prop :=
  strip_one ((λ e, rev e) <$> encs) (rev s) = None.

Lemma ends_clean_spec encs s : ends_clean encs s ↔ ∀ e r, e ∈ encs → s ≠ r ++ e.
Proof.
  unfold ends_clean. rewrite strip_one_None. split.
  - intros H e r He ->. eapply (H (rev e) (rev r)); [by apply (list_elem_of_fmap_2 (λ e, rev e))|].
    apply rev_app_distr.
  - intros H e' r He Hs. apply list_elem_of_fmap in He as (e & -> & He).
    apply (H e (rev r) He). by rewrite <- (rev_rev s), Hs, rev_app_distr, rev_rev.
Qed.

Lemma trim_right_spec encs s :
  Forall (λ e, e ≠ []) encs →
  ∃ post, Forall (λ e, e ∈ encs) post ∧ s = trim_right encs s ++ concat post ∧ ends_clean encs (trim_right encs s).
Proof.
  intros Hne. destruct (trim_left_spec ((λ e, rev e) <$> encs) (rev s)) as (pre & Hp & Hs & Ho).
  { apply Forall_fmap. eapply Forall_impl; [exact Hne|]. intros e He. simpl. intros Hr. apply He. by rewrite <- (rev_rev e), Hr. }
  exists (rev ((λ e, rev e) <$> pre)). unfold trim_right, ends_clean. rewrite rev_rev. split_and!; [| |done].
  - apply Forall_rev, Forall_fmap. eapply Forall_impl; [exact Hp|].
    intros e' (e & -> & He)%list_elem_of_fmap. simpl. by rewrite rev_rev.
  - rewrite <- rev_concat, <- rev_app_distr, <- Hs. by rewrite rev_rev.
Qed.

Lemma trim_left_id encs s : strip_one encs s = None → trim_left encs s = s.
Proof. unfold trim_left. destruct (length s); simpl; [done|]. by intros ->. Qed.

Lemma trim_right_id encs s : ends_clean encs s → trim_right encs s = s.
Proof. unfold trim_right, ends_clean. intros H. rewrite (trim_left_id _ _ H). apply rev_rev. Qed.

(** Trimming both ends leaves a part that neither starts nor ends with one of
    the encodings, and takes away encodings only. *)
Lemma trim_both_spec encs s :
  Forall (λ e, e ≠ []) encs →
  ∃ pre post, let t := trim_right encs (trim_left encs s) in
    Forall (λ e, e ∈ encs) pre ∧ Forall (λ e, e ∈ encs) post ∧ s = concat pre ++ t ++ concat post ∧
    strip_one encs t = None ∧ ends_clean encs t.
Proof.
  intros Hne. destruct (trim_left_spec encs s Hne) as (pre & Hp & Hs & Ho).
  destruct (trim_right_spec encs (trim_left encs s) Hne) as (post & Hq & Ht & Hc).
  exists pre, post. cbv zeta. split_and!; [done|done|by rewrite <- Ht| |done].
  apply strip_one_None. intros e r He Heq. rewrite strip_one_None in Ho. eapply (Ho e (r ++ concat post) He).
  by rewrite Ht, Heq, app_assoc.
Qed.

Lemma space_encodings_nonempty : Forall (λ e, e ≠ []) space_encodings.
Proof. repeat constructor; done. Qed.

Lemma TrimSpace_idemp s : TrimSpace (TrimSpace s) = TrimSpace s.
Proof.
  destruct (trim_both_spec space_encodings (to_bytes s) space_encodings_nonempty) as (pre & post & _ & _ & _ & Ho & Hc).
  unfold TrimSpace. rewrite to_of_bytes. f_equal. by rewrite (trim_left_id _ _ Ho), (trim_right_id _ _ Hc).
Qed.

(** *** Join after Split *)

Fixpoint join_bytes (sep : list ascii) (ls : list (list ascii)) : list ascii :=
  match ls with
  | [] => []
  | [l] => l
  | l :: ls' => l ++ sep ++ join_bytes sep ls'
  end.

Lemma join_bytes_cons sep l ls : ls ≠ [] → join_bytes sep (l :: ls) = l ++ sep ++ join_bytes sep ls.
Proof. by destruct ls. Qed.

Lemma split_bytes_nonempty sep skip acc s : split_bytes sep skip acc s ≠ [].
Proof.
  revert skip acc. induction s as [|c s IH]; intros skip acc; simpl; [done|].
  destruct skip; [|apply IH]. destruct (has_prefix sep (c :: s)); [done|apply IH].
Qed.

Lemma split_bytes_skip sep skip acc s :
  skip ≤ length s → split_bytes sep skip acc s = split_bytes sep 0 acc (drop skip s).
Proof.
  revert s. induction skip as [|k IH]; intros s Hl; [by rewrite drop_0|].
  destruct s as [|c s]; simpl in *; [lia|]. apply IH. lia.
Qed.

Lemma split_bytes_join sep s acc : sep ≠ [] → join_bytes sep (split_bytes sep 0 acc s) = rev acc ++ s.
Proof.
  intros Hsep. remember (length s) as n eqn:Hn. revert s acc Hn.
  induction n as [n IH] using lt_wf_ind. intros s acc ->.
  destruct s as [|c s]; cbn [split_bytes]; [by rewrite app_nil_r|].
  destruct (has_prefix sep (c :: s)) eqn:E.
  - rewrite join_bytes_cons by apply split_bytes_nonempty. f_equal.
    apply has_prefix_spec in E as [r Hr]. destruct sep as [|a sep]; [done|]. simplify_eq/=.
    rewrite split_bytes_skip by (rewrite length_app; lia). rewrite drop_app_length.
    f_equal. f_equal. rewrite length_app in IH. by eapply IH; [|done]; lia.
  - rewrite (IH (length s)); [|simpl; lia|done]. simpl. by rewrite <- app_assoc.
Qed.

Lemma to_bytes_Join sep ls : to_bytes (Join (of_bytes <$> ls) sep) = join_bytes (to_bytes sep) ls.
Proof.
  induction ls as [|l ls IH]; simpl; [done|]. destruct ls as [|l' ls]; simpl; [apply to_of_bytes|].
  simpl in IH. rewrite !to_bytes_app, to_of_bytes. do 2 f_equal. exact IH.
Qed.

(** [strings.Join] undoes [strings.Split]. *)
Lemma Join_Split s sep : sep ≠ "" → Join (Split s sep) sep = s.
Proof.
  intros Hsep. apply to_bytes_inj. unfold Split. destruct (to_bytes sep) as [|a l] eqn:E.
  - exfalso. apply Hsep. by apply to_bytes_inj.
  - rewrite to_bytes_Join, E, split_bytes_join by done. done.
Qed.

(** *** Split after Join, with a one-byte separator no piece contains *)

Lemma has_prefix_char c b s : has_prefix [c] (b :: s) = Ascii.eqb c b.
Proof. unfold has_prefix. simpl. by destruct (Ascii.eqb c b). Qed.

Lemma split_bytes_piece c l acc rest :
  c ∉ l → split_bytes [c] 0 acc (l ++ rest) = split_bytes [c] 0 (rev l ++ acc) rest.
Proof.
  revert acc. induction l as [|b l IH]; intros acc Hc; simpl; [done|].
  rewrite has_prefix_char. destruct (Ascii.eqb_spec c b) as [->|_]; [set_solver|].
  rewrite IH by set_solver. by rewrite <- app_assoc.
Qed.

Lemma split_bytes_join_char c ls :
  ls ≠ [] → Forall (λ l, c ∉ l) ls → split_bytes [c] 0 [] (join_bytes [c] ls) = ls.
Proof.
  induction ls as [|l ls IH]; intros Hne Hf; [done|]. inversion Hf; subst. destruct ls as [|l' ls].
  - simpl. rewrite <- (app_nil_r l) at 1. rewrite split_bytes_piece by done. simpl. by rewrite app_nil_r, rev_rev.
  - rewrite join_bytes_cons by done. rewrite split_bytes_piece by done. cbn [app]. cbn [split_bytes].
    rewrite has_prefix_char, Ascii.eqb_refl. cbn [length pred]. rewrite IH by done. by rewrite app_nil_r, rev_rev.
Qed.

Lemma Split_Join ls c :
  ls ≠ [] → Forall (λ l, c ∉ to_bytes l) ls → Split (Join ls (of_bytes [c])) (of_bytes [c]) = ls.
Proof.
  intros Hne Hf. unfold Split. rewrite to_of_bytes.
  assert (Hls : of_bytes <$> (to_bytes <$> ls) = ls).
  { clear. induction ls as [|l ls IH]; [done|]. rewrite !fmap_cons, of_to_bytes. by f_equal. }
  rewrite <- Hls at 1. rewrite to_bytes_Join, to_of_bytes, split_bytes_join_char; [done|by destruct ls|].
  by apply Forall_fmap.
Qed.

(** Joining distinguishes lists whose elements lack the separator. *)
Lemma Join_inj ls ls' c :
  ls ≠ [] → ls' ≠ [] → Forall (λ l, c ∉ to_bytes l) ls → Forall (λ l, c ∉ to_bytes l) ls' →
  Join ls (of_bytes [c]) = Join ls' (of_bytes [c]) → ls = ls'.
Proof. intros Hn Hn' Hf Hf' Heq. rewrite <- (Split_Join ls c), <- (Split_Join ls' c) by done. by rewrite Heq. Qed.
