(* ===== verification/Parsing.v ===== *)
(** pkg/strings/utils.go and pkg/env: parsing of typed values. *)
From stdpp Require Import pretty.
From S2P Require Import Prelude GoStrings.
From Stdlib Require Import Ascii.

(** ** Types and values *)

(** The type arguments [SupportedValueParsingTypes] and, with [pt_pointer],
    [SupportedPointerParsingTypes]. *)
Inductive base_type := BBool | BInt | BUint | BFloat64 | BString | BTime | BDuration | BUUID.
Record parse_type := mkType { pt_pointer : bool; pt_base : base_type }.

#[export] Instance base_type_eq_dec : EqDecision base_type.
Proof. solve_decision. Defined.

(** What is left of the standard library and of google/uuid: floats, times,
    durations and UUIDs are parsed by parameters. *)
Class ParseLib := {
  float64 : Type;
  ParseFloat : string → result float64;
  time_RFC3339 : string → result time;
  time_RFC3339Nano : string → result time;
  ParseDuration : string → result duration;
  uuid_Parse : string → result uuid;
}.

(** Values of type [any]: with their dynamic types.  [VPtrAny] is a [*any]. *)
Inductive value `{!ParseLib} :=
| VBool (b : bool)
| VInt (z : Z)
| VUint64 (z : Z)
| VFloat64 (f : float64)
| VString (s : string)
| VTime (t : time)
| VDuration (d : duration)
| VUUID (u : uuid)
| VPtr (v : value)
| VPtrAny (v : value).

Section parsing.
Context `{!ParseLib}.

Definition base_has_type (b : base_type) (v : value) : bool :=
  match b, v with
  | BBool, VBool _ | BInt, VInt _ | BFloat64, VFloat64 _ | BString, VString _
  | BTime, VTime _ | BDuration, VDuration _ | BUUID, VUUID _ => true
  | _, _ => false
  end.
(** The type assertion [v.(T)]. *)
Definition has_type (T : parse_type) (v : value) : bool :=
  if pt_pointer T then match v with VPtr v' => base_has_type (pt_base T) v' | _ => false end
  else base_has_type (pt_base T) v.

Definition timeTimeParseError : string := "possible formats RFC3339 or RFC3339Nano or UnixTime".

(** [parseTimeImpl] *)
Definition parseTimeImpl (s : string) : result value :=
  match time_RFC3339 s with
  | Ok t => Ok (VTime t)
  | Err _ =>
      match time_RFC3339Nano s with
      | Ok t => Ok (VTime t)
      | Err _ =>
          match ParseInt 32 s with
          | Err _ => Err (ErrText timeTimeParseError)
          | Ok unixTime =>
              if (unixTime <? 0)%Z then Err (ErrText timeTimeParseError)
              else Ok (VTime (unixTime * time_Second)%Z)
          end
      end
  end.

(** [wrapWithPointer] at a concrete type and at [any]. *)
Definition wrapWithPointer (r : result value) : result value :=
  match r with Ok v => Ok (VPtr v) | Err e => Err e end.
Definition wrapWithPointer_any (r : result value) : result value :=
  match r with Ok v => Ok (VPtrAny v) | Err e => Err e end.

Definition result_map {A B} (f : A → B) (r : result A) : result B :=
  match r with Ok a => Ok (f a) | Err e => Err e end.

(** The [switch] of [ParseTypedValue]. *)
Definition parse_switch (T : parse_type) (s : string) : result value :=
  match pt_base T, pt_pointer T with
  | BBool, false => result_map VBool (ParseBool s)
  | BBool, true => wrapWithPointer (result_map VBool (ParseBool s))
  | BInt, false => result_map VInt (Atoi s)
  | BInt, true => wrapWithPointer (result_map VInt (Atoi s))
  | BUint, false => result_map VUint64 (ParseUint 64 (to_bytes s))
  | BUint, true => wrapWithPointer (result_map VUint64 (ParseUint 64 (to_bytes s)))
  | BFloat64, false => result_map VFloat64 (ParseFloat s)
  | BFloat64, true => wrapWithPointer (result_map VFloat64 (ParseFloat s))
  | BString, false => Ok (VString s)
  | BString, true => Ok (VPtr (VString s))
  | BTime, false => parseTimeImpl s
  | BTime, true => wrapWithPointer_any (parseTimeImpl s)
  | BDuration, false => result_map VDuration (ParseDuration s)
  | BDuration, true => wrapWithPointer (result_map VDuration (ParseDuration s))
  | BUUID, false => result_map VUUID (uuid_Parse s)
  | BUUID, true => wrapWithPointer (result_map VUUID (uuid_Parse s))
  end.

Definition interfaceConversion : string := "interface conversion".

Definition ParseTypedValue (T : parse_type) (s : string) : outcome (result value) :=
  match parse_switch T s with
  | Err e => Ret (Err (Errorf "convert to type" e))
  | Ok v => if has_type T v then Ret (Ok v) else Panic interfaceConversion
  end.

(** ** pkg/env: the world is the environment *)

Abbreviation env := (gmap string string) (only parsing).
Definition LookupEnv (key : string) : M env (option string) := λ w, (Ret (w !! key), w).
Definition parse_in_env (T : parse_type) (s : string) : M env (result value) := λ w, (ParseTypedValue T s, w).

Definition notFoundError : error := ErrText "env not found".
Definition invalidValueError (e : error) : error := Errorf "env is invalid" e.
Definition emptyListError : error := ErrText "env is empty".

Definition env_Parse (T : parse_type) (key : string) : M env (result value) :=
  str ← LookupEnv key;
  match str with
  | None => mret (Err notFoundError)
  | Some str =>
      r ← parse_in_env T str;
      mret (match r with Err e => Err (invalidValueError e) | Ok v => Ok v end)
  end.

(** [None] is the [nil] pointer. *)
Definition env_ParseOptional (T : parse_type) (key : string) : M env (result (option value)) :=
  str ← LookupEnv key;
  match str with
  | None => mret (Ok None)
  | Some str =>
      r ← parse_in_env T str;
      mret (match r with Err e => Err (invalidValueError e) | Ok v => Ok (Some v) end)
  end.

Fixpoint parse_pieces (T : parse_type) (pieces : list string) : M env (result (list value)) :=
  match pieces with
  | [] => mret (Ok [])
  | p :: pieces' =>
      let p := TrimSpace p in
      if String.eqb p "" then parse_pieces T pieces'
      else
        r ← parse_in_env T p;
        match r with
        | Err e => mret (Err (invalidValueError e))
        | Ok v =>
            r ← parse_pieces T pieces';
            mret (match r with Err e => Err e | Ok vs => Ok (v :: vs) end)
        end
  end.
Definition parseListImpl (T : parse_type) (value_ delimiter : string) : M env (result (list value)) :=
  parse_pieces T (Split value_ delimiter).

Definition env_ParseList (T : parse_type) (key delimiter : string) : M env (result (list value)) :=
  str ← LookupEnv key;
  match str with
  | None => mret (Err notFoundError)
  | Some str =>
      r ← parseListImpl T str delimiter;
      mret (match r with
            | Err e => Err e
            | Ok [] => Err emptyListError
            | Ok vs => Ok vs
            end)
  end.

Definition env_ParseListOptional (T : parse_type) (key delimiter : string) : M env (result (option (list value))) :=
  str ← LookupEnv key;
  match str with
  | None => mret (Ok None)
  | Some str =>
      r ← parseListImpl T str delimiter;
      mret (match r with Err e => Err e | Ok vs => Ok (Some vs) end)
  end.

(** [Must] panics with the error. *)
Definition env_Must {A} (error_Error : error → string) (m : M env (result A)) : M env A :=
  r ← m;
  match r with
  | Ok v => mret v
  | Err e => panic (error_Error (Errorf "parse environment" e))
  end.
End parsing.

(** ** Lemmas: decimal numbers *)

Fixpoint digits_value (n : Z) (ds : list ascii) : Z :=
  match ds with
  | [] => n
  | c :: ds' => digits_value (n * 10 + default 0%Z (digit c)) ds'
  end.
Definition is_digit (c : ascii) : Prop := is_Some (digit c).

Lemma digit_range c d : digit c = Some d → (0 <= d <= 9)%Z.
Proof.
  unfold digit, cont. destruct (_ && _) eqn:E; [|done]. intros [= <-].
  apply andb_true_iff in E as [H1%N.leb_le H2%N.leb_le]. lia.
Qed.

Lemma digits_value_ge n ds : (0 <= n)%Z → Forall is_digit ds → (n <= digits_value n ds)%Z.
Proof.
  intros Hn Hd. revert n Hn. induction Hd as [|c ds [d Hc] _ IH]; intros n Hn; simpl; [done|].
  rewrite Hc. simpl. pose proof (digit_range _ _ Hc). specialize (IH (n * 10 + d)%Z). lia.
Qed.

(** The loop computes the number or reports that it leaves the range. *)
Lemma parse_uint_loop_digits maxVal n ds :
  (maxVal <= max_uint64)%Z → (0 <= n <= maxVal)%Z → Forall is_digit ds →
  parse_uint_loop maxVal n ds = if (digits_value n ds <=? maxVal)%Z then Ok (digits_value n ds) else Err ErrRange.
Proof.
  intros Hmax Hn Hd. revert n Hn. induction Hd as [|c ds [d Hc] Hd IH]; intros n Hn; simpl.
  - by rewrite (proj2 (Z.leb_le _ _)) by lia.
  - rewrite Hc. simpl. pose proof (digit_range _ _ Hc) as Hr.
    pose proof (digits_value_ge (n * 10 + d) ds ltac:(lia) Hd) as Hge.
    destruct (Z.leb_spec (max_uint64 / 10 + 1) n) as [H1|H1].
    { rewrite (proj2 (Z.leb_gt _ _)); [done|]. unfold max_uint64 in *. change ((2 ^ 64 - 1) / 10)%Z with 1844674407370955161%Z in H1. lia. }
    destruct (Z.ltb_spec maxVal (n * 10 + d)) as [H2|H2].
    { rewrite (proj2 (Z.leb_gt _ _)); [done|]. lia. }
    apply IH. lia.
Qed.

Lemma digits_value_app n a b : digits_value n (a ++ b) = digits_value (digits_value n a) b.
Proof. revert n. induction a as [|c a IH]; intros n; simpl; [done|]. apply IH. Qed.

Lemma pretty_digit d : (d < 10)%N → digit (pretty_N_char d) = Some (Z.of_N d).
Proof.
  intros Hd. assert (d = 0 ∨ d = 1 ∨ d = 2 ∨ d = 3 ∨ d = 4 ∨ d = 5 ∨ d = 6 ∨ d = 7 ∨ d = 8 ∨ d = 9)%N as H by lia.
  by repeat (destruct H as [->|H]); [..|subst].
Qed.

Lemma pretty_N_go_digits x s : ∃ ds, pretty_N_go x s = of_bytes ds +:+ s ∧ Forall is_digit ds ∧ digits_value 0 ds = Z.of_N x.
Proof.
  revert s. induction (N.lt_wf_0 x) as [x _ IH]. intros s. destruct (decide (x = 0%N)) as [->|Hx].
  - exists []. by rewrite pretty_N_go_0.
  - rewrite pretty_N_go_step by lia. destruct (IH (x `div` 10)%N ltac:(apply N.div_lt; lia)
      (String (pretty_N_char (x `mod` 10)) s)) as (ds & Heq & Hd & Hv).
    pose proof (pretty_digit (x `mod` 10) ltac:(apply N.mod_lt; lia)) as Hc.
    exists (ds ++ [pretty_N_char (x `mod` 10)]). split; [|split].
    + by rewrite Heq, of_bytes_app, string_app_assoc.
    + apply Forall_app. split; [done|]. constructor; [by eexists|constructor].
    + rewrite digits_value_app, Hv. simpl. rewrite Hc. simpl. pose proof (N.div_mod x 10 ltac:(lia)). lia.
Qed.

Lemma ParseUint_pretty bits (n : N) :
  (1 <= bits <= 64)%Z →
  ParseUint bits (to_bytes (pretty n)) =
  if (Z.of_N n <=? 2 ^ bits - 1)%Z then Ok (Z.of_N n) else Err ErrRange.
Proof.
  intros Hb. assert (Hmax : (2 ^ bits - 1 <= max_uint64)%Z).
  { unfold max_uint64. pose proof (Z.pow_le_mono_r 2 bits 64 ltac:(lia) ltac:(lia)). lia. }
  assert (Hpos : (2 <= 2 ^ bits)%Z) by (change 2%Z with (2 ^ 1)%Z at 1; apply Z.pow_le_mono_r; lia).
  unfold pretty, pretty_N. destruct (decide (n = 0%N)) as [->|Hn].
  { change (to_bytes "0") with ["0"%char]. unfold ParseUint.
    rewrite parse_uint_loop_digits; [done|done|lia|]. repeat constructor. by eexists. }
  destruct (pretty_N_go_digits n "") as (ds & Heq & Hd & Hv).
  assert (Hds : to_bytes (pretty_N_go n "") = ds).
  { rewrite Heq, to_bytes_app, to_of_bytes. apply app_nil_r. }
  rewrite Hds. unfold ParseUint. destruct ds as [|c ds]; [simpl in Hv; lia|].
  rewrite parse_uint_loop_digits by (done || lia). by rewrite Hv.
Qed.

(** The first character of a decimal number is not a sign. *)
Lemma pretty_head (n : N) c s : to_bytes (pretty n) = c :: s → c ≠ "+"%char ∧ c ≠ "-"%char.
Proof.
  intros Hc. assert (is_Some (digit c)) as [d Hd].
  { unfold pretty, pretty_N in Hc. destruct (decide (n = 0%N)) as [->|Hn]; [by simplify_eq/=; eexists|].
    destruct (pretty_N_go_digits n "") as (ds & Heq & Hf & _).
    rewrite Heq, to_bytes_app, to_of_bytes in Hc. destruct ds; simplify_eq/=. by inversion Hf. }
  split; intros ->; discriminate Hd.
Qed.

Lemma ParseInt_nonneg bits (n : N) :
  (1 <= bits <= 64)%Z →
  ParseInt bits (pretty n) = if decide (Z.of_N n < 2 ^ (bits - 1))%Z then Ok (Z.of_N n) else Err ErrRange.
Proof.
  intros Hb. unfold ParseInt. pose proof (ParseUint_pretty bits n Hb) as Hu.
  assert (H2 : (2 ^ bits = 2 * 2 ^ (bits - 1))%Z) by (rewrite <- Z.pow_succ_r by lia; f_equal; lia).
  destruct (to_bytes (pretty n)) as [|c s] eqn:E.
  - exfalso. simpl in Hu. by destruct (_ <=? _)%Z.
  - destruct (pretty_head n c s E) as [Hp Hm]. destruct (Ascii.eqb_spec c "+"%char); [done|].
    destruct (Ascii.eqb_spec c "-"%char); [done|]. rewrite Hu.
    destruct (Z.leb_spec (Z.of_N n) (2 ^ bits - 1)); destruct (decide (Z.of_N n < 2 ^ (bits - 1))%Z) as [Hd|Hd];
      cbn [negb andb]; [|destruct (Z.leb_spec (2 ^ (bits - 1)) (Z.of_N n)); [done|lia]|lia|done].
    by destruct (Z.leb_spec (2 ^ (bits - 1)) (Z.of_N n)); [lia|].
Qed.

Lemma ParseInt_neg bits (n : N) :
  (1 <= bits <= 64)%Z →
  ParseInt bits ("-" +:+ pretty n) = if decide (- 2 ^ (bits - 1) <= - Z.of_N n)%Z then Ok (- Z.of_N n)%Z else Err ErrRange.
Proof.
  intros Hb. unfold ParseInt. rewrite to_bytes_app.
  assert (H2 : (2 ^ bits = 2 * 2 ^ (bits - 1))%Z) by (rewrite <- Z.pow_succ_r by lia; f_equal; lia).
  change (to_bytes "-" ++ to_bytes (pretty n)) with ("-"%char :: to_bytes (pretty n)). cbn iota beta.
  change (Ascii.eqb "-"%char "+"%char) with false. change (Ascii.eqb "-"%char "-"%char) with true. cbn iota beta.
  rewrite ParseUint_pretty by done.
  destruct (Z.leb_spec (Z.of_N n) (2 ^ bits - 1)); destruct (decide (- 2 ^ (bits - 1) <= - Z.of_N n)%Z) as [Hd|Hd];
    cbn [negb andb]; [|destruct (Z.ltb_spec (2 ^ (bits - 1)) (Z.of_N n)); [done|lia]|lia|done].
  by destruct (Z.ltb_spec (2 ^ (bits - 1)) (Z.of_N n)); [lia|].
Qed.

(** Parsing the decimal text of a number gives it back, or a range error. *)
Lemma ParseInt_pretty bits (z : Z) :
  (1 <= bits <= 64)%Z →
  ParseInt bits (pretty z) = if decide (- 2 ^ (bits - 1) <= z < 2 ^ (bits - 1))%Z then Ok z else Err ErrRange.
Proof.
  intros Hb. assert (Hpos : (0 < 2 ^ (bits - 1))%Z) by (apply Z.pow_pos_nonneg; lia).
  destruct z as [|p|p].
  - change (pretty 0%Z) with (pretty 0%N). rewrite ParseInt_nonneg by done. simpl Z.of_N.
    destruct (decide (_ < _)%Z), (decide (_ ∧ _)); try done; lia.
  - change (pretty (Z.pos p)) with (pretty (N.pos p)). rewrite ParseInt_nonneg by done. simpl Z.of_N.
    destruct (decide (_ < _)%Z), (decide (_ ∧ _)); try done; lia.
  - change (pretty (Z.neg p)) with ("-" +:+ pretty (N.pos p)). rewrite ParseInt_neg by done. simpl Z.of_N. simpl Z.opp.
    destruct (decide (_ <= _)%Z), (decide (_ ∧ _)); try done; lia.
Qed.

(** ** Theorems *)

(** The types whose case of the switch makes a value of another type. *)
Definition mistyped (T : parse_type) : Prop := pt_base T = BUint ∨ (pt_pointer T = true ∧ pt_base T = BTime).

(** C25. [ParseTypedValue] at every type: text that does not parse is an error;
    text that parses gives a value of the type asked for, except at [uint],
    [*uint] and [*time.Time], where the value made has another dynamic type
    and the type assertion panics on every valid text. *)
Theorem ParseTypedValue_types `{!ParseLib} (T : parse_type) (s : string) :
  match parse_switch T s with
  | Err e => ParseTypedValue T s = Ret (Err (Errorf "convert to type" e))
  | Ok v => (mistyped T → ParseTypedValue T s = Panic interfaceConversion) ∧
      (¬ mistyped T → ParseTypedValue T s = Ret (Ok v) ∧ has_type T v = true)
  end.
Proof.
  unfold ParseTypedValue. destruct (parse_switch T s) as [v|e] eqn:E; [|done].
  assert (Htime : ∀ v, parseTimeImpl s = Ok v → ∃ t, v = VTime t).
  { unfold parseTimeImpl. intros u Hu. repeat case_match; simplify_eq; by eexists. }
  destruct T as [ptr b]. unfold mistyped; simpl. unfold parse_switch in E; simpl in E.
  destruct b, ptr; unfold wrapWithPointer, wrapWithPointer_any, result_map in E; repeat case_match; simplify_eq/=;
    (split; [intros [|[]]; done || naive_solver|]); intros Hm; try (exfalso; naive_solver);
    try (destruct (Htime _ ltac:(eassumption)) as [? ->]); done.
Qed.

(** C26. Integers survive: at [int] and [*int] the decimal text of a number in
    the 64-bit range parses to that number and any other number is a range
    error; a Unix time, tried when the text is no RFC 3339 time, is accepted
    exactly from 0 to 2^31 - 1 seconds, so instants after January 2038
    cannot be given that way. *)
Theorem ParseTypedValue_int_roundtrip `{!ParseLib} (ptr : bool) (z : Z) :
  ParseTypedValue (mkType ptr BInt) (pretty z) =
    Ret (if decide (- 2 ^ 63 <= z < 2 ^ 63)%Z then Ok (if ptr then VPtr (VInt z) else VInt z)
         else Err (Errorf "convert to type" ErrRange)) ∧
  (∀ e e', time_RFC3339 (pretty z) = Err e → time_RFC3339Nano (pretty z) = Err e' →
     ParseTypedValue (mkType false BTime) (pretty z) =
       Ret (if decide (0 <= z < 2 ^ 31)%Z then Ok (VTime (z * time_Second)%Z)
            else Err (Errorf "convert to type" (ErrText timeTimeParseError)))).
Proof.
  split.
  - pose proof (ParseInt_pretty 64 z ltac:(lia)) as Hz. change (64 - 1)%Z with 63%Z in Hz.
    unfold ParseTypedValue, parse_switch, Atoi. cbn [pt_base pt_pointer].
    destruct ptr; rewrite Hz; by destruct (decide _).
  - intros e e' He He'. pose proof (ParseInt_pretty 32 z ltac:(lia)) as Hz. change (32 - 1)%Z with 31%Z in Hz.
    unfold ParseTypedValue, parse_switch, parseTimeImpl. cbn [pt_base pt_pointer]. rewrite He, He', Hz.
    destruct (decide (- 2 ^ 31 <= z < 2 ^ 31)%Z), (decide (0 <= z < 2 ^ 31)%Z); try lia.
    + rewrite (proj2 (Z.ltb_ge z 0)) by lia. done.
    + by rewrite (proj2 (Z.ltb_lt z 0)) by lia.
    + done.
Qed.

Lemma parse_pieces_strings `{!ParseLib} elems w :
  Forall (λ e, TrimSpace e = e ∧ e ≠ "") elems →
  parse_pieces (mkType false BString) elems w = (Ret (Ok (VString <$> elems)), w).
Proof.
  induction 1 as [|e elems [He Hne] _ IH]; [done|]. cbn [parse_pieces]. rewrite He.
  destruct (String.eqb_spec e ""); [done|]. unfold parse_in_env, ParseTypedValue. unfold_M. simpl. by rewrite IH.
Qed.

(** Lists in the environment: a non-empty list of strings, each trimmed, not
    empty and without the one-byte delimiter, joined with the delimiter, is
    what [ParseList] and [ParseListOptional] read back; a variable of spaces
    and delimiters only is an error for [ParseList] and the empty list for
    [ParseListOptional]; an unset variable is an error, or [nil]. *)
Theorem env_ParseList_roundtrip `{!ParseLib} (w : gmap string string) (key : string) (elems : list string) (c : ascii)
    (Hne : elems ≠ []) (Helems : Forall (λ e, TrimSpace e = e ∧ e ≠ "" ∧ c ∉ to_bytes e) elems) :
  let w1 := <[key := Join elems (of_bytes [c])]> w in
  env_ParseList (mkType false BString) key (of_bytes [c]) w1 = (Ret (Ok (VString <$> elems)), w1) ∧
  env_ParseListOptional (mkType false BString) key (of_bytes [c]) w1 = (Ret (Ok (Some (VString <$> elems))), w1) ∧
  (∀ T, env_ParseList T key (of_bytes [c]) (delete key w) = (Ret (Err notFoundError), delete key w) ∧
     env_ParseListOptional T key (of_bytes [c]) (delete key w) = (Ret (Ok None), delete key w)) ∧
  (∀ T blank, (∀ p, p ∈ Split blank (of_bytes [c]) → TrimSpace p = "") →
     env_ParseList T key (of_bytes [c]) (<[key := blank]> w) = (Ret (Err emptyListError), <[key := blank]> w)).
Proof.
  assert (Hsplit : Split (Join elems (of_bytes [c])) (of_bytes [c]) = elems).
  { apply Split_Join; [done|]. eapply Forall_impl; [exact Helems|]. naive_solver. }
  assert (Hp : ∀ w, parse_pieces (mkType false BString) elems w = (Ret (Ok (VString <$> elems)), w)).
  { intros w'. apply parse_pieces_strings. eapply Forall_impl; [exact Helems|]. naive_solver. }
  cbv zeta. split_and!.
  - unfold env_ParseList, LookupEnv, parseListImpl. unfold_M. rewrite lookup_insert_eq, Hsplit, Hp.
    by destruct elems.
  - unfold env_ParseListOptional, LookupEnv, parseListImpl. unfold_M. by rewrite lookup_insert_eq, Hsplit, Hp.
  - intros T. unfold env_ParseList, env_ParseListOptional, LookupEnv. unfold_M. by rewrite lookup_delete_eq.
  - intros T blank Hb. unfold env_ParseList, LookupEnv, parseListImpl. unfold_M. rewrite lookup_insert_eq.
    assert (Hnil : ∀ ps w, (∀ p, p ∈ ps → TrimSpace p = "") → parse_pieces T ps w = (Ret (Ok []), w)).
    { induction ps as [|p ps IH]; intros w' Hps; [done|]. cbn [parse_pieces]. rewrite Hps by set_solver.
      cbn. apply IH. set_solver. }
    by rewrite Hnil.
Qed.

(** ** Witnesses *)

(** A library that accepts nothing. *)
#[local] Instance no_lib : ParseLib := {|
  float64 := Z; ParseFloat := λ _, Err ErrSyntax; time_RFC3339 := λ _, Err ErrSyntax;
  time_RFC3339Nano := λ _, Err ErrSyntax; ParseDuration := λ _, Err ErrSyntax; uuid_Parse := λ _, Err ErrSyntax;
|}.

Lemma ParseTypedValue_types_witness :
  ParseTypedValue (mkType false BUint) "42" = Panic interfaceConversion ∧
  ParseTypedValue (mkType true BTime) "0" = Panic interfaceConversion.
Proof.
  split.
  - refine (proj1 (ParseTypedValue_types (mkType false BUint) "42") _). by left.
  - refine (proj1 (ParseTypedValue_types (mkType true BTime) "0") _). by right.
Defined.

Lemma ParseTypedValue_int_roundtrip_witness :
  ParseTypedValue (mkType false BTime) "2147483648" = Ret (Err (Errorf "convert to type" (ErrText timeTimeParseError))).
Proof.
  refine (proj2 (ParseTypedValue_int_roundtrip false 2147483648) ErrSyntax ErrSyntax _ _); reflexivity.
Defined.

Lemma env_ParseList_roundtrip_witness :
  env_ParseList (mkType false BString) "HOSTS" "," {["HOSTS" := "a,b c"]} =
    (Ret (Ok [VString "a"; VString "b c"]), {["HOSTS" := "a,b c"]}).
Proof.
  refine (proj1 (env_ParseList_roundtrip ∅ "HOSTS" ["a"; "b c"] ","%char _ _)); [discriminate|].
  repeat constructor; try (vm_compute; discriminate); vm_compute; intros Hin;
    repeat (apply elem_of_cons in Hin as [Hin|Hin]; [discriminate|]); inversion Hin.
Defined.
