(* ===== verification/GoSort.v ===== *)
(** Sorting by a string key, as Go's [sort] and [slices] packages do on short
    slices: both use an insertion sort on at most 12 elements. *)
From S2P Require Import Prelude.
From Stdlib Require Import Sorting.Sorted Structures.OrderedTypeEx.

Section sort.
Context {A : Type} (key : A → string).

Fixpoint insert_by (x : A) (l : list A) : list A :=
  match l with
  | [] => [x]
  | y :: l' => if String.ltb (key x) (key y) then x :: l else y :: insert_by x l'
  end.
Definition sort_by (l : list A) : list A := foldl (λ acc x, insert_by x acc) [] l.

Definition key_le_by (a b : A) : Prop := String.ltb (key b) (key a) = false.
End sort.

(** ** Lemmas *)

Lemma ltb_lt a b : String.ltb a b = true ↔ String_as_OT.lt a b.
Proof.
  rewrite <- String_as_OT.cmp_lt. unfold String.ltb. change (String_as_OT.cmp a b) with (String.compare a b).
  by destruct (String.compare a b).
Qed.

Lemma ltb_trans a b c : String.ltb a b = true → String.ltb b c = true → String.ltb a c = true.
Proof. rewrite !ltb_lt. apply String_as_OT.lt_trans. Qed.

Lemma ltb_total a b : String.ltb a b = false → String.ltb b a = false → a = b.
Proof.
  unfold String.ltb. rewrite (String.compare_antisym b a).
  destruct (String.compare a b) eqn:E; simpl; try done. intros _ _. by apply String.compare_eq_iff.
Qed.

Lemma ltb_asym a b : String.ltb a b = true → String.ltb b a = false.
Proof. unfold String.ltb. rewrite (String.compare_antisym b a). by destruct (String.compare a b). Qed.

Lemma ltb_irrefl a : String.ltb a a = false.
Proof. destruct (String.ltb a a) eqn:E; [|done]. pose proof (ltb_asym _ _ E). congruence. Qed.

Section sort_lemmas.
Context {A : Type} (key : A → string).
Implicit Types (a b c x y : A) (l : list A).

Lemma key_le_by_trans a b c : key_le_by key a b → key_le_by key b c → key_le_by key a c.
Proof.
  unfold key_le_by. intros Hab Hbc. destruct (String.ltb (key c) (key a)) eqn:E; [|done].
  destruct (String.ltb (key a) (key b)) eqn:E2.
  - rewrite <- Hbc. symmetry. by eapply ltb_trans.
  - pose proof (ltb_total _ _ E2 Hab) as Heq. rewrite Heq in E. congruence.
Qed.

Lemma insert_by_perm x l : insert_by key x l ≡ₚ x :: l.
Proof.
  induction l as [|y l IH]; simpl; [done|]. case_match; [done|]. rewrite IH. by constructor.
Qed.

Lemma insert_by_sorted x l : StronglySorted (key_le_by key) l → StronglySorted (key_le_by key) (insert_by key x l).
Proof.
  induction 1 as [|y l Hl IH Hy]; simpl; [repeat constructor|].
  destruct (String.ltb (key x) (key y)) eqn:E.
  - assert (Hxy : key_le_by key x y) by (by apply ltb_asym).
    constructor; [by constructor|]. constructor; [done|].
    eapply Forall_impl; [exact Hy|]. intros z Hz. by eapply key_le_by_trans.
  - constructor; [done|]. rewrite insert_by_perm. by constructor.
Qed.

Lemma sort_by_rev l x : sort_by key (l ++ [x]) = insert_by key x (sort_by key l).
Proof. unfold sort_by. by rewrite foldl_app. Qed.

Lemma sort_by_perm l : sort_by key l ≡ₚ l.
Proof.
  induction l as [|x l IH] using rev_ind; [done|].
  rewrite sort_by_rev, insert_by_perm, IH. by rewrite Permutation_app_comm.
Qed.

Lemma sort_by_sorted l : StronglySorted (key_le_by key) (sort_by key l).
Proof.
  induction l as [|x l IH] using rev_ind; [constructor|].
  rewrite sort_by_rev. by apply insert_by_sorted.
Qed.

Lemma sorted_lookup l i j a b :
  StronglySorted (key_le_by key) l → l !! i = Some a → l !! j = Some b →
  String.ltb (key a) (key b) = true → i < j.
Proof.
  intros Hs Hi Hj Hlt. destruct (decide (i < j)) as [|Hn]; [done|].
  assert (key_le_by key b a) as Hle; [|unfold key_le_by in Hle; congruence].
  destruct (decide (i = j)) as [->|Hne]; [simplify_eq; by apply ltb_asym|].
  assert (j < i) as Hji by lia. clear Hn Hne Hlt. revert i j Hi Hj Hji.
  induction Hs as [|x l Hl IH Hx]; intros i j Hi Hj Hji; [done|].
  destruct i as [|i]; [lia|]. destruct j as [|j]; simplify_eq/=.
  - eapply Forall_lookup_1 in Hx; done.
  - eapply IH; [done..|lia].
Qed.
End sort_lemmas.
