(* ===== verification/Sql.v ===== *)
(** pkg/sql (transaction.go, lock.go, database.go), pkg/persistence: statements,
    the client that routes them, transactions and advisory locks. *)
From S2P Require Import Prelude GoSort Context.
From Stdlib Require Import Sorting.Sorted.

(** ** Statements

    What the code hands to the statement builder or to the driver.  Building
    the text and running it are the database's part. *)
Inductive arg :=
| AUuid (u : uuid)
| AText (s : string)
| ATime (t : time)
| AInt (z : Z)
| ABool (b : bool)
| ANull.

#[export] Instance arg_eq_dec : EqDecision arg.
Proof. solve_decision. Defined.

Inductive cond :=
| CEq (col : string) (v : arg)
| CIn (col : string) (vs : list arg)
| CNotIn (col : string) (vs : list arg)
| CLt (col : string) (v : arg)
| CLtOrEq (col : string) (v : arg).

Record SelectBuilder := mkSelect {
  sel_cols : list string;
  sel_from : string;
  sel_where : list cond;
  sel_order : list string;
  sel_limit : option Z;
  sel_suffix : list string;
}.

Inductive stmt :=
| SSelect (q : SelectBuilder)
| SInsert (table : string) (cols : list string) (rows : list (list arg)) (suffix : string)
| SDelete (table : string) (where_ : list cond)
| SRaw (query : string) (args : list arg).

Definition sb_where (c : cond) (q : SelectBuilder) : SelectBuilder :=
  mkSelect (sel_cols q) (sel_from q) (sel_where q ++ [c]) (sel_order q) (sel_limit q) (sel_suffix q).
Definition sb_limit (n : Z) (q : SelectBuilder) : SelectBuilder :=
  mkSelect (sel_cols q) (sel_from q) (sel_where q) (sel_order q) (Some n) (sel_suffix q).
Definition sb_suffix (s : string) (q : SelectBuilder) : SelectBuilder :=
  mkSelect (sel_cols q) (sel_from q) (sel_where q) (sel_order q) (sel_limit q) (sel_suffix q ++ [s]).

(** ** The database (driver and server): a parameter *)

(** Where a statement runs. *)
Inductive target := OnTx (t : nat) | OnConn (c : nat) | OnDB.

Definition sql_ErrNoRows : string := "sql.ErrNoRows".

Class DB (W : Type) := {
  (** Error of [ToSql()] *)
  ToSql : stmt → option error;
  (** [ExecContext] and then [RowsAffected()] of its result *)
  db_exec : target → context → stmt → M W (result (result Z));
  (** [SelectContext]: all rows *)
  db_select : target → context → stmt → M W (result (list (list arg)));
  (** [GetContext]: one row, or an error that is [sql.ErrNoRows] *)
  db_get : target → context → stmt → M W (result (list arg));
  db_connx : context → M W (result nat);
  conn_close : nat → M W unit;
  (** [BeginTxx] on the pool or on a connection *)
  begin_tx : option nat → context → M W (result nat);
  tx_commit : nat → M W (option error);
  tx_rollback : nat → M W (option error);
}.

(** ** Locks (pkg/persistence/transaction.go) *)

Record PLock := mkLock { lock_Key : string; lock_Shared : bool }.
#[export] Instance PLock_eq_dec : EqDecision PLock.
Proof. solve_decision. Defined.

Definition SkipAlreadyLockedData : string := "skip_already_locked_data".

(** ** Lock ids (lock.go): FNV-1a, 64 bits, reinterpreted as [int64] *)

Definition two64 : Z := (2 ^ 64)%Z.
Definition fnv_offset64 : Z := 14695981039346656037%Z.
Definition fnv_prime64 : Z := 1099511628211%Z.

Definition fnv64a_byte (h : Z) (b : Ascii.ascii) : Z :=
  ((Z.lxor h (Z.of_N (Ascii.N_of_ascii b)) * fnv_prime64) mod two64)%Z.
Definition fnv64a (s : string) : Z := foldl fnv64a_byte fnv_offset64 (String.list_ascii_of_string s).

(** [int64(x)] of an unsigned 64-bit [x]. *)
Definition to_int64 (x : Z) : Z := (if x <? 2 ^ 63 then x else x - two64)%Z.

Definition getLockIDByName (name : string) : Z := to_int64 (fnv64a name).

(** ** Sorting the requested locks *)

(** [slices.SortFunc] with the keys compared bytewise. *)
Definition sort_locks (locks : list PLock) : list PLock := sort_by lock_Key locks.

(** ** The client (transaction.go) *)

Definition HasTransaction (ctx : context) : bool :=
  match ctx_tx ctx with Some _ => true | None => false end.

Section client.
Context {W : Type} `{!DB W}.

(** The routing all three methods of [transactionalClient] share: the
    context's transaction, else its connection, else the pool. *)
Definition route (ctx : context) : target :=
  match ctx_tx ctx, ctx_conn ctx with
  | Some t, _ => OnTx (tx_client t)
  | None, Some c => OnConn c
  | None, None => OnDB
  end.

Definition ExecContext (ctx : context) (q : stmt) : M W (result (result Z)) := db_exec (route ctx) ctx q.
Definition GetContext (ctx : context) (q : stmt) : M W (result (list arg)) := db_get (route ctx) ctx q.
Definition SelectContext (ctx : context) (q : stmt) : M W (result (list (list arg))) :=
  db_select (route ctx) ctx q.

(** [transactionalClient.WithinSingleConnection]: the context to use and the
    cancel function. *)
Definition WithinSingleConnection (ctx : context) : M W (result (context * M W unit)) :=
  if bool_decide (ctx_conn ctx ≠ None) || HasTransaction ctx then mret (Ok (ctx, mret tt))
  else
    conn ← db_connx ctx;
    match conn with
    | Err e => mret (Err e)
    | Ok c => mret (Ok (with_conn c ctx, conn_close c))
    end.

Definition Begin (ctx : context) : M W (result nat) := begin_tx (ctx_conn ctx) ctx.

(** ** Advisory locks (lock.go) *)

Definition advisory_query (query name : string) : stmt := SRaw query [AInt (getLockIDByName name)].

Definition xact_lock_query (shared : bool) : string :=
  if shared then "select pg_advisory_xact_lock_shared($1)" else "select pg_advisory_xact_lock($1)".

(** [tx.ExecContext] runs on the transaction whatever the context says. *)
Definition withTransactionLevelLock (ctx : context) (name : string) (shared : bool) (tx : nat) :
    M W (option error) :=
  r ← db_exec (OnTx tx) ctx (advisory_query (xact_lock_query shared) name);
  match r with
  | Err e => mret (Some (Errorf ("get lock for " +:+ name) e))
  | Ok _ => mret None
  end.

(** The release function scans the boolean [pg_advisory_unlock] returns;
    [unlocked] is that scan, and [cancelConn] is deferred. *)
Definition unlocked (row : list arg) : bool := bool_decide (row = [ABool true]).

Definition releaseSessionLock (ctx : context) (name : string) (cancelConn : M W unit) : M W (option error) :=
  deferring
    (r ← GetContext ctx (advisory_query "select pg_advisory_unlock($1)" name);
     match r with
     | Err e => mret (Some (Errorf ("release lock for " +:+ name) e))
     | Ok row =>
         if unlocked row then mret None
         else mret (Some (ErrText ("release lock for " +:+ name +:+ ": lock wasn't released")))
     end)
    cancelConn.

(** [withSessionLevelLock]; an error comes with a [nil] context. *)
Definition withSessionLevelLock (ctx : context) (name : string) :
    M W (result (context * M W (option error))) :=
  conn ← WithinSingleConnection ctx;
  match conn with
  | Err e => mret (Err (Errorf ("get connection for " +:+ name) e))
  | Ok (ctx, cancelConn) =>
      r ← ExecContext ctx (advisory_query "select pg_advisory_lock($1)" name);
      match r with
      | Err e => _ ← cancelConn; mret (Err (Errorf ("get lock for " +:+ name) e))
      | Ok _ => mret (Ok (ctx, releaseSessionLock ctx name cancelConn))
      end
  end.

(** ** Transactions *)

(** [transaction]: instance name and commit callback. *)
Record transaction := mkTransaction { t_id : string; t_onCommit : option (M W unit) }.

Definition NewTransaction (instanceName : string) (onCommit : option (M W unit)) : transaction :=
  mkTransaction instanceName onCommit.

(** Acquires the sorted locks one by one, stopping at the first error. *)
Fixpoint acquireLocks (ctx : context) (tx : nat) (locks : list PLock) : M W (option error) :=
  match locks with
  | [] => mret None
  | l :: locks' =>
      err ← withTransactionLevelLock ctx (lock_Key l) (lock_Shared l) tx;
      match err with
      | Some e => mret (Some e)
      | None => acquireLocks ctx tx locks'
      end
  end.

(** [defer func() { if err != nil { tx.Rollback() } }()]: on a panic the
    variable [err] still holds [nil] from the last assignment. *)
Definition rollbackOnError (tx : nat) (body : M W (option error)) : M W (option error) :=
  λ w, match body w with
       | (Ret (Some e), w') => (_ ← tx_rollback tx; mret (Some e)) w'
       | r => r
       end.

(** Everything after the transaction is there: locks, the function, and, for
    the outermost transaction, the commit. *)
Definition runWithin (t : transaction) (hasParentTx : bool) (tx : nat) (ctx : context)
    (fn : context → M W (option error)) (locks : list PLock) : M W (option error) :=
  err ← acquireLocks ctx tx (sort_locks locks);
  match err with
  | Some e => mret (Some e)
  | None =>
      err ← fn ctx;
      match err with
      | Some e => mret (Some e)
      | None =>
          if hasParentTx then mret None
          else
            err ← tx_commit tx;
            match err with
            | Some e => mret (Some (Errorf "commit transaction" e))
            | None =>
                _ ← (match t_onCommit t with Some f => f | None => mret tt end);
                mret None
            end
      end
  end.

(** The transaction of this instance the context already carries. *)
Definition parentTx (t : transaction) (ctx : context) : option nat :=
  match ctx_tx ctx with
  | Some stored => if String.eqb (tx_instanceID stored) (t_id t) then Some (tx_client stored) else None
  | None => None
  end.

Definition WithinContext (t : transaction) (ctx : context) (fn : context → M W (option error))
    (locks : list PLock) : M W (option error) :=
  match parentTx t ctx with
  | Some tx => runWithin t true tx ctx fn locks
  | None =>
      r ← begin_tx (ctx_conn ctx) ctx;
      match r with
      | Err e => mret (Some (Errorf "start db transaction" e))
      | Ok tx => rollbackOnError tx (runWithin t false tx (with_tx (mkTxData tx (t_id t)) ctx) fn locks)
      end
  end.
End client.

(** A captured variable beside the world: statements do not touch it. *)
Definition DB_beside (Q W : Type) `{!DB W} : DB (Q * W) :=
  {| ToSql := ToSql;
     db_exec := λ t c q, on_env (db_exec t c q);
     db_select := λ t c q, on_env (db_select t c q);
     db_get := λ t c q, on_env (db_get t c q);
     db_connx := λ c, on_env (db_connx c);
     conn_close := λ c, on_env (conn_close c);
     begin_tx := λ c ctx, on_env (begin_tx c ctx);
     tx_commit := λ t, on_env (tx_commit t);
     tx_rollback := λ t, on_env (tx_rollback t) |}.

(** [persistence.WithinTransactionWithResult]: the closure assigns the
    captured variable [result], which starts as [T]'s zero value. *)
Definition WithinTransactionWithResult {W T : Type} `{!DB W} (zero : T) (t : transaction (W := W)) (ctx : context)
    (fn : context → M W (T * option error)) (locks : list PLock) : M W (T * option error) :=
  λ w,
    let closure ctx := '(v, e) ← on_env (fn ctx); _ ← modify_obj (λ _, v); mret e in
    let t' := mkTransaction (t_id t) (on_env <$> t_onCommit t) in
    match @WithinContext (T * W) (DB_beside T W) t' ctx closure locks (zero, w) with
    | (Ret e, (res, w')) => (Ret (res, e), w')
    | (Panic s, (_, w')) => (Panic s, w')
    | (Blocked, (_, w')) => (Blocked, w')
    | (OutOfFuel, (_, w')) => (OutOfFuel, w')
    end.

(** ** Row locks *)

Definition IsUpdateLockRequested (ctx : context) : bool * bool * bool :=
  match ctx_lock ctx with
  | None => (false, false, false)
  | Some l => (true, forUpdate l, skipLocked l)
  end.

Definition LockUpdate (ctx : context) (exclusively : bool) (opts : list string) : context :=
  if negb (HasTransaction ctx) then ctx
  else
    let skip := existsb (String.eqb SkipAlreadyLockedData) opts in
    let '(lockRequested, hadExclusively, hadSkipLocked) := IsUpdateLockRequested ctx in
    if lockRequested && Bool.eqb hadExclusively exclusively && Bool.eqb hadSkipLocked skip then ctx
    else with_lock (mkUpdateLock exclusively skip) ctx.

Definition PrepareUpdateLockQuery (ctx : context) (qb : SelectBuilder) : SelectBuilder :=
  let '(ok, forUpdate, skipLocked) := IsUpdateLockRequested ctx in
  if negb ok then qb
  else
    let qb := sb_suffix (if forUpdate then "FOR UPDATE" else "FOR SHARE") qb in
    if skipLocked then sb_suffix "SKIP LOCKED" qb else qb.

(** ** What the code relies on of a database *)

(** Transactions: the committed state, and the working copy of each open
    transaction.  The statements that take a transaction-level lock change
    neither. *)
Class TxSpec (W S : Type) `{!DB W} (committed : W → S) (working : W → nat → option S) : Prop := {
  spec_begin c ctx w : ∃ r w', begin_tx c ctx w = (Ret r, w') ∧ committed w' = committed w ∧
    match r with
    | Ok t => working w t = None ∧ working w' t = Some (committed w) ∧
        ∀ t', t' ≠ t → working w' t' = working w t'
    | Err _ => ∀ t', working w' t' = working w t'
    end;
  spec_commit t w s : working w t = Some s → ∃ err w', tx_commit t w = (Ret err, w') ∧
    (∀ t', t' ≠ t → working w' t' = working w t') ∧
    match err with
    | None => committed w' = s ∧ working w' t = None
    | Some _ => committed w' = committed w
    end;
  spec_rollback t w : ∃ err w', tx_rollback t w = (Ret err, w') ∧ committed w' = committed w ∧
    working w' t = None ∧ ∀ t', t' ≠ t → working w' t' = working w t';
  spec_xact_lock t ctx shared name w : ∃ r w',
    db_exec (OnTx t) ctx (advisory_query (xact_lock_query shared) name) w = (Ret r, w') ∧
    committed w' = committed w ∧ ∀ t', working w' t' = working w t';
}.

(** A body that works in its own transaction only. *)
Definition stays_in {W S : Type} (committed : W → S) (working : W → nat → option S) (tx : nat)
    (body : M W (option error)) : Prop :=
  ∀ w r w', is_Some (working w tx) → body w = (r, w') →
    committed w' = committed w ∧ is_Some (working w' tx) ∧
    ∀ t', t' ≠ tx → working w' t' = working w t'.

(** Connections: the set of those taken from the pool. *)
Class ConnSpec (W : Type) `{!DB W} (open : W → gset nat) : Prop := {
  spec_connx ctx w r w' : db_connx ctx w = (r, w') →
    match r with
    | Ret (Ok c) => (c ∉ open w) ∧ open w' = {[c]} ∪ open w
    | _ => open w' = open w
    end;
  spec_close c w : ∃ w', conn_close c w = (Ret tt, w') ∧ open w' = open w ∖ {[c]};
  spec_exec_conn t ctx q w r w' : db_exec t ctx q w = (r, w') → open w' = open w;
  spec_get_conn t ctx q w r w' : db_get t ctx q w = (r, w') → open w' = open w;
}.

(** *** Transactions that acquire their locks one by one

    [held] and [wanted] of each transaction; the server grants a lock when no
    other transaction holds the same id in a conflicting mode, and a finished
    transaction drops what it holds. *)
Record locker := mkLocker { lk_held : list PLock; lk_wanted : list PLock }.

#[export] Instance locker_eq_dec : EqDecision locker.
Proof. solve_decision. Defined.

Definition conflicts (a b : PLock) : bool :=
  (getLockIDByName (lock_Key a) =? getLockIDByName (lock_Key b))%Z && negb (lock_Shared a && lock_Shared b).

Definition grantable (s : list locker) (i : nat) (l : PLock) : Prop :=
  ∀ j t h, s !! j = Some t → j ≠ i → h ∈ lk_held t → conflicts l h = false.

Inductive lstep : list locker → list locker → Prop :=
| step_acquire s i held l wanted :
    s !! i = Some (mkLocker held (l :: wanted)) → grantable s i l →
    lstep s (<[i := mkLocker (held ++ [l]) wanted]> s)
| step_finish s i held :
    s !! i = Some (mkLocker held []) → held ≠ [] →
    lstep s (<[i := mkLocker [] []]> s).

(** What [WithinContext] does with the locks it is given. *)
Definition locker_start (locks : list PLock) : locker := mkLocker [] (sort_locks locks).
Definition locker_done : locker := mkLocker [] [].

Definition no_collisions (requests : list (list PLock)) : Prop :=
  ∀ a b, a ∈ concat requests → b ∈ concat requests →
    getLockIDByName (lock_Key a) = getLockIDByName (lock_Key b) → lock_Key a = lock_Key b.

Definition lock_inv (requests : list (list PLock)) (s : list locker) : Prop :=
  Forall2 (λ locks t, lk_held t ++ lk_wanted t = sort_locks locks ∨ t = locker_done) requests s.

Definition locker_work (t : locker) : nat :=
  2 * length (lk_wanted t) + (match lk_held t with [] => 0 | _ => 1 end).
Definition work (s : list locker) : nat := sum_list_with locker_work s.

Abbreviation key_le := (key_le_by lock_Key).

(** ** A small database for the examples

    The table is the list of the statements executed; a transaction works on a
    copy of it. *)
Record sqlWorld := mkSqlWorld {
  sw_committed : list stmt;
  sw_tx : gmap nat (list stmt);
  sw_conns : gset nat;
  sw_next : nat;
}.

Definition sw_init : sqlWorld := mkSqlWorld [] ∅ ∅ 0.

Definition sw_exec (t : target) (ctx : context) (q : stmt) : M sqlWorld (result (result Z)) := λ w,
  (Ret (Ok (Ok 1%Z)),
   match q, t with
   | SRaw _ _, _ => w
   | _, OnTx t => mkSqlWorld (sw_committed w) (alter (λ s, s ++ [q]) t (sw_tx w)) (sw_conns w) (sw_next w)
   | _, _ => mkSqlWorld (sw_committed w ++ [q]) (sw_tx w) (sw_conns w) (sw_next w)
   end).

#[export] Instance sql_DB : DB sqlWorld := {|
  ToSql := λ _, None;
  db_exec := sw_exec;
  db_select := λ _ _ _ w, (Ret (Ok []), w);
  db_get := λ _ _ _ w, (Ret (Ok [ABool true]), w);
  db_connx := λ _ w, let c := fresh (sw_conns w) in
    (Ret (Ok c), mkSqlWorld (sw_committed w) (sw_tx w) ({[c]} ∪ sw_conns w) (sw_next w));
  conn_close := λ c w, (Ret tt, mkSqlWorld (sw_committed w) (sw_tx w) (sw_conns w ∖ {[c]}) (sw_next w));
  begin_tx := λ _ _ w, let t := fresh (dom (sw_tx w)) in
    (Ret (Ok t), mkSqlWorld (sw_committed w) (<[t := sw_committed w]> (sw_tx w)) (sw_conns w) (sw_next w));
  tx_commit := λ t w,
    match sw_tx w !! t with
    | Some s => (Ret None, mkSqlWorld s (delete t (sw_tx w)) (sw_conns w) (sw_next w))
    | None => (Ret (Some (ErrText "sql: transaction has already been committed or rolled back")), w)
    end;
  tx_rollback := λ t w, (Ret None, mkSqlWorld (sw_committed w) (delete t (sw_tx w)) (sw_conns w) (sw_next w));
|}.

Definition sw_working (w : sqlWorld) (t : nat) : option (list stmt) := sw_tx w !! t.

Definition sample_insert : stmt := SInsert "user" ["id"] [[AInt 1]] "".
(** A body that inserts a row and then returns [r]. *)
Definition returns {W A : Type} (r : outcome A) : M W A := λ w, (r, w).
Definition sample_body (r : outcome (option error)) (ctx : context) : M sqlWorld (option error) :=
  _ ← ExecContext ctx sample_insert; returns r.
Definition sample_tx : transaction (W := sqlWorld) := mkTransaction "default" None.

(** ** Lemmas: lock ids *)

Lemma plain_route ctx : plain ctx → route ctx = OnDB ∧ HasTransaction ctx = false.
Proof. intros [Ht Hc]. unfold route, HasTransaction. by rewrite Ht, Hc. Qed.

Lemma fnv64a_range s : (0 <= fnv64a s < two64)%Z.
Proof.
  unfold fnv64a. generalize (String.list_ascii_of_string s) as l.
  assert (Hstep : ∀ h b, (0 <= fnv64a_byte h b < two64)%Z).
  { intros h b. unfold fnv64a_byte. apply Z.mod_pos_bound. done. }
  induction l as [|b l IH] using rev_ind; [done|].
  rewrite foldl_app. simpl. apply Hstep.
Qed.

(** ** Lemmas: sorting *)

Lemma sort_locks_perm l : sort_locks l ≡ₚ l.
Proof. apply sort_by_perm. Qed.

Lemma sort_locks_sorted l : StronglySorted key_le (sort_locks l).
Proof. apply sort_by_sorted. Qed.

(** ** Lemmas: the small database is one *)

#[export] Instance sql_TxSpec : TxSpec sqlWorld (list stmt) sw_committed sw_working.
Proof.
  split; intros; simpl; unfold sw_working in *.
  - eexists _, _. split; [done|]. split; [done|]. simpl. split; [|split].
    + apply not_elem_of_dom, is_fresh.
    + by rewrite lookup_insert_eq.
    + intros t' Ht. by rewrite lookup_insert_ne.
  - rewrite H. eexists _, _. split; [done|]. simpl. split; [intros t' Ht; by rewrite lookup_delete_ne|].
    split; [done|apply lookup_delete_eq].
  - eexists _, _. split; [done|]. simpl. split; [done|]. split; [apply lookup_delete_eq|].
    intros t' Ht. by rewrite lookup_delete_ne.
  - unfold advisory_query. by eexists _, _.
Qed.

#[export] Instance sql_ConnSpec : ConnSpec sqlWorld sw_conns.
Proof.
  split; intros; simpl in *.
  - simplify_eq/=. split; [apply is_fresh|done].
  - by eexists.
  - unfold sw_exec in H. simplify_eq. destruct q, t; done.
  - by simplify_eq.
Qed.

Lemma sample_body_stays r tx : stays_in sw_committed sw_working tx (sample_body r (with_tx (mkTxData tx "default") context_Background)).
Proof.
  intros w r' w' Hw Hrun. unfold sample_body, ExecContext, returns in Hrun. unfold_M. simpl in Hrun.
  simplify_eq/=. split; [done|]. unfold sw_working in *. simpl. split.
  - rewrite lookup_alter_eq. destruct Hw as [? ->]. by eexists.
  - intros t' Ht. by rewrite lookup_alter_ne.
Qed.

(** ** Lemmas: transactions *)

Section tx_lemmas.
Context {W S : Type} `{!DB W} (committed : W → S) (working : W → nat → option S).
Context `{!TxSpec W S committed working}.

(** Taking the locks returns, and changes no data. *)
Lemma acquireLocks_spec ctx tx locks w :
  ∃ r w', acquireLocks ctx tx locks w = (Ret r, w') ∧ committed w' = committed w ∧
    ∀ t', working w' t' = working w t'.
Proof.
  revert w. induction locks as [|l locks IH]; intros w; [by eexists _, _|]. simpl.
  destruct (spec_xact_lock tx ctx (lock_Shared l) (lock_Key l) w) as (r & w1 & Hr & Hc & Hw).
  unfold withTransactionLevelLock. unfold_M. rewrite Hr. destruct r as [n|e]; simpl.
  - destruct (IH w1) as (r & w' & -> & Hc' & Hw'). eexists _, _. split; [done|].
    split; [by rewrite Hc'|]. intros t'. by rewrite Hw'.
  - by eexists _, _.
Qed.
End tx_lemmas.

(** ** Lemmas: lock ordering *)

Lemma NoDup_keys_sorted locks : NoDup (lock_Key <$> locks) → NoDup (lock_Key <$> sort_locks locks).
Proof. intros Hn. by rewrite (sort_locks_perm locks). Qed.

(** In a sorted list without duplicates the keys strictly increase. *)
Lemma sorted_split_lt held l wanted h :
  StronglySorted key_le (held ++ l :: wanted) → NoDup (lock_Key <$> held ++ l :: wanted) → h ∈ held →
  String.ltb (lock_Key h) (lock_Key l) = true.
Proof.
  intros Hs Hn (i & Hi)%list_elem_of_lookup_1.
  assert (Hl : (held ++ l :: wanted) !! length held = Some l) by (by apply list_lookup_middle).
  assert (Hi' : (held ++ l :: wanted) !! i = Some h) by (by apply lookup_app_l_Some).
  pose proof (lookup_lt_Some _ _ _ Hi) as Hlt.
  destruct (String.ltb (lock_Key h) (lock_Key l)) eqn:E; [done|].
  destruct (String.ltb (lock_Key l) (lock_Key h)) eqn:E2.
  - pose proof (sorted_lookup _ _ _ _ _ _ Hs Hl Hi' E2). lia.
  - pose proof (ltb_total _ _ E E2) as Heq.
    assert (i = length held); [|lia].
    eapply NoDup_lookup; [exact Hn|..]; rewrite list_lookup_fmap; [rewrite Hi'|rewrite Hl]; simpl; by f_equal.
Qed.

Lemma lock_inv_init requests : lock_inv requests (locker_start <$> requests).
Proof. unfold lock_inv. induction requests; constructor; [by left|done]. Qed.

Lemma lock_inv_step requests s s' : lock_inv requests s → lstep s s' → lock_inv requests s'.
Proof.
  intros Hinv Hstep. destruct Hstep as [s i held l wanted Hi _|s i held Hi _]; unfold lock_inv in *;
    destruct (Forall2_lookup_r _ _ _ _ _ Hinv Hi) as (locks & Hl & Ht);
    rewrite <- (list_insert_id requests i locks) by done; apply Forall2_insert; auto.
  left. destruct Ht as [Ht|Ht]; [|by simplify_eq/=]. simpl in *. by rewrite <- app_assoc.
Qed.

Lemma work_insert s i t t' :
  s !! i = Some t → locker_work t' < locker_work t → work (<[i := t']> s) < work s.
Proof.
  unfold work. revert i. induction s as [|u s IH]; intros [|i] Hi Hlt; simplify_eq/=; [lia|].
  pose proof (IH _ Hi Hlt). lia.
Qed.

Lemma work_step s s' : lstep s s' → work s' < work s.
Proof.
  destruct 1 as [s i held l wanted Hi _|s i held Hi Hne]; eapply work_insert; try done;
    unfold locker_work; simpl; [|destruct held; [done|lia]].
  destruct (held ++ [l]) eqn:E; destruct held; simplify_eq/=; lia.
Qed.

(** The waiting transaction whose next key is the largest. *)
Lemma max_wanted (s : list locker) :
  (∀ t, t ∈ s → lk_wanted t = [] → lk_held t = []) → Exists (λ t, t ≠ locker_done) s →
  ∃ i held l wanted, s !! i = Some (mkLocker held (l :: wanted)) ∧
    ∀ t l' wanted', t ∈ s → lk_wanted t = l' :: wanted' → String.ltb (lock_Key l) (lock_Key l') = false.
Proof.
  induction s as [|t s IH]; intros Hw Hex; [by inversion Hex|].
  assert (Hw' : ∀ t, t ∈ s → lk_wanted t = [] → lk_held t = []) by (intros u Hu; apply Hw; by right).
  destruct (decide (Exists (λ t, t ≠ locker_done) s)) as [Hs|Hs].
  - destruct (IH Hw' Hs) as (i & held & l & wanted & Hi & Hmax). destruct t as [h [|l' w]].
    + exists (S i), held, l, wanted. split; [done|]. intros u l'' w'' [->|Hu]%elem_of_cons Hq; [done|by eapply Hmax].
    + destruct (String.ltb (lock_Key l) (lock_Key l')) eqn:E.
      * exists 0, h, l', w. split; [done|]. intros u l'' w'' [->|Hu]%elem_of_cons Hq; simplify_eq/=.
        { apply ltb_irrefl. }
        destruct (String.ltb (lock_Key l') (lock_Key l'')) eqn:E2; [|done].
        rewrite <- (Hmax _ _ _ Hu Hq). symmetry. by eapply ltb_trans.
      * exists (S i), held, l, wanted. split; [done|].
        intros u l'' w'' [->|Hu]%elem_of_cons Hq; simplify_eq/=; [done|by eapply Hmax].
  - inversion Hex as [? ? Ht|]; subst; [|done]. destruct t as [h [|l' w]].
    + exfalso. apply Ht. pose proof (Hw (mkLocker h []) (list_elem_of_here _ _) eq_refl). simpl in *. by subst.
    + exists 0, h, l', w. split; [done|]. intros u l'' w'' [->|Hu]%elem_of_cons Hq; simplify_eq/=.
      * apply ltb_irrefl.
      * exfalso. apply Hs, Exists_exists. exists u. split; [done|]. intros ->. done.
Qed.

Lemma requested (requests : list (list PLock)) i locks l :
  requests !! i = Some locks → l ∈ sort_locks locks → l ∈ concat requests.
Proof.
  intros Hi Hl. rewrite (sort_locks_perm locks) in Hl. apply list_elem_of_In, in_concat.
  exists locks. split; apply list_elem_of_In; [by eapply list_elem_of_lookup_2|done].
Qed.

(** What another transaction holds is not in conflict with the largest key
    anyone waits for. *)
Lemma max_wanted_grantable requests s i held l wanted :
  no_collisions requests → Forall (λ locks, NoDup (lock_Key <$> locks)) requests → lock_inv requests s →
  (∀ t, t ∈ s → lk_wanted t = [] → lk_held t = []) →
  s !! i = Some (mkLocker held (l :: wanted)) →
  (∀ t l' wanted', t ∈ s → lk_wanted t = l' :: wanted' → String.ltb (lock_Key l) (lock_Key l') = false) →
  grantable s i l.
Proof.
  intros Hcol Hnd Hinv Hw Hi Hmax j [hs [|l' w]] h Hj Hne Hh.
  { rewrite (Hw _ (list_elem_of_lookup_2 _ _ _ Hj) eq_refl) in Hh. by apply elem_of_nil in Hh. }
  simpl in Hh. pose proof (Hmax _ _ _ (list_elem_of_lookup_2 _ _ _ Hj) eq_refl) as Hm.
  destruct (Forall2_lookup_r _ _ _ _ _ Hinv Hj) as (lj & Hlj & [Ht|Ht]); [|done]. simpl in Ht.
  destruct (Forall2_lookup_r _ _ _ _ _ Hinv Hi) as (li & Hli & [Hti|Hti]); [|done]. simpl in Hti.
  assert (Hn : NoDup (lock_Key <$> hs ++ l' :: w)).
  { rewrite Ht. apply NoDup_keys_sorted. by eapply Forall_lookup_1 in Hnd. }
  assert (Hs : StronglySorted key_le (hs ++ l' :: w)) by (rewrite Ht; apply sort_locks_sorted).
  pose proof (sorted_split_lt _ _ _ _ Hs Hn Hh) as Hlt.
  unfold conflicts. destruct (Z.eqb_spec (getLockIDByName (lock_Key l)) (getLockIDByName (lock_Key h)))
    as [Heq|]; [|done].
  apply Hcol in Heq; [rewrite Heq in Hm; congruence|..].
  - eapply requested; [exact Hli|]. rewrite <- Hti. set_solver.
  - eapply requested; [exact Hlj|]. rewrite <- Ht. set_solver.
Qed.

Lemma lock_progress requests s :
  no_collisions requests → Forall (λ locks, NoDup (lock_Key <$> locks)) requests → lock_inv requests s →
  Exists (λ t, t ≠ locker_done) s → ∃ s', lstep s s'.
Proof.
  intros Hcol Hnd Hinv Hex.
  destruct (decide (Exists (λ t, lk_wanted t = [] ∧ lk_held t ≠ []) s)) as [He|He].
  - apply Exists_exists in He as ([h w] & (i & Hi)%list_elem_of_lookup_1 & Hw & Hh). simpl in *. subst.
    eexists. by eapply step_finish.
  - assert (Hw : ∀ t, t ∈ s → lk_wanted t = [] → lk_held t = []).
    { intros t Ht Hwt. destruct (decide (lk_held t = [])) as [|Hh]; [done|].
      exfalso. apply He, Exists_exists. by exists t. }
    destruct (max_wanted s Hw Hex) as (i & held & l & wanted & Hi & Hmax).
    eexists. eapply step_acquire; [done|]. by eapply max_wanted_grantable.
Qed.

(** Rolling back the transaction that was opened leaves the world as before. *)
Lemma rollback_restores {W S : Type} `{!DB W} (committed : W → S) (working : W → nat → option S)
    `{!TxSpec W S committed working} tx w w3 :
  working w tx = None → committed w3 = committed w → (∀ t', t' ≠ tx → working w3 t' = working w t') →
  ∃ err w4, tx_rollback tx w3 = (Ret err, w4) ∧ committed w4 = committed w ∧ ∀ t', working w4 t' = working w t'.
Proof.
  intros Hnone Hc Hf. destruct (spec_rollback (committed := committed) (working := working) tx w3)
    as (err & w4 & Hr & Hc4 & Htx & Hf4).
  exists err, w4. split; [done|]. split; [congruence|]. intros t'.
  destruct (decide (t' = tx)) as [->|Hne]; [congruence|]. by rewrite Hf4, Hf.
Qed.

(** ** Theorems *)

(** C23. Transactions that request distinct lock names, whatever the order they
    were written in, never deadlock: since [WithinContext] sorts them by name,
    every reachable state of the lock server can go on until all transactions
    have acquired their locks and finished.  No run is infinite, since each
    step strictly reduces [work].  The names of the requests must
    not collide under the 64-bit hash. *)
Theorem sorted_locks_no_deadlock (requests : list (list PLock)) (s : list locker)
    (Hcol : no_collisions requests)
    (Hnd : Forall (λ locks, NoDup (lock_Key <$> locks)) requests)
    (Hrun : rtc lstep (locker_start <$> requests) s) :
  (∃ s', rtc lstep s s' ∧ Forall (λ t, t = locker_done) s') ∧
  (∀ s', lstep s s' → work s' < work s).
Proof.
  split; [|intros s'; apply work_step].
  assert (Hinv : lock_inv requests s).
  { eapply (inv_rtc lstep (lock_inv requests)); [|apply lock_inv_init|exact Hrun]. apply lock_inv_step. }
  clear Hrun. remember (work s) as n eqn:Hn. revert s Hn Hinv.
  induction n as [n IH] using lt_wf_ind. intros s -> Hinv.
  destruct (decide (Exists (λ t, t ≠ locker_done) s)) as [Hex|Hex].
  - destruct (lock_progress _ _ Hcol Hnd Hinv Hex) as [s1 Hs1].
    destruct (IH _ (work_step _ _ Hs1) s1 eq_refl (lock_inv_step _ _ _ Hinv Hs1)) as (s' & Hr & Hd).
    exists s'. split; [by eapply rtc_l|done].
  - exists s. split; [done|]. apply Forall_forall. intros t Ht. destruct (decide (t = locker_done)) as [|Hne]; [done|].
    exfalso. apply Hex, Exists_exists. by exists t.
Qed.

Lemma sorted_locks_no_deadlock_witness :
  ∃ s', rtc lstep (locker_start <$> [[mkLock "user" false; mkLock "outbox" true]; [mkLock "outbox" false; mkLock "user" false]]) s' ∧
    Forall (λ t, t = locker_done) s'.
Proof.
  eapply (proj1 (sorted_locks_no_deadlock
    [[mkLock "user" false; mkLock "outbox" true]; [mkLock "outbox" false; mkLock "user" false]] _ _ _ _)).
  Unshelve.
  - intros a b Ha Hb. apply list_elem_of_In in Ha, Hb. simpl in Ha, Hb.
    destruct Ha as [<-|[<-|[<-|[<-|[]]]]]; destruct Hb as [<-|[<-|[<-|[<-|[]]]]]; vm_compute; congruence.
  - repeat constructor; set_solver.
  - done.
Defined.

(** The lock id fits PostgreSQL's [bigint] argument and is the name's
    64-bit FNV-1a hash modulo 2^64, so names with different hashes have
    different ids. *)
Theorem getLockIDByName_int64 (name other : string) :
  (- 2 ^ 63 <= getLockIDByName name < 2 ^ 63)%Z ∧
  (getLockIDByName name mod two64 = fnv64a name)%Z ∧
  (getLockIDByName name = getLockIDByName other ↔ fnv64a name = fnv64a other).
Proof.
  assert (Hmod : ∀ n, (getLockIDByName n mod two64 = fnv64a n)%Z).
  { intros n. unfold getLockIDByName, to_int64. pose proof (fnv64a_range n) as Hr.
    destruct (Z.ltb_spec (fnv64a n) (2 ^ 63)); [by apply Z.mod_small|].
    symmetry. eapply Z.mod_unique_pos with (q := (-1)%Z); [done|]. lia. }
  split; [|split; [apply Hmod|]].
  - unfold getLockIDByName, to_int64. pose proof (fnv64a_range name) as Hr. unfold two64 in *.
    destruct (Z.ltb_spec (fnv64a name) (2 ^ 63)); lia.
  - split; [intros Heq; by rewrite <- (Hmod name), <- (Hmod other), Heq|].
    unfold getLockIDByName. by intros ->.
Qed.

(** C11. An outermost transaction is atomic: when [WithinContext] returns no
    error the committed state is the working copy its function left and the
    transaction is closed; when it returns an error the committed state is
    unchanged and no transaction it opened stays open; when the function
    panics, nothing is committed either, but the transaction stays open, since
    the deferred rollback tests an error variable that is still [nil]. *)
Theorem WithinContext_atomic {W S : Type} `{!DB W} (committed : W → S) (working : W → nat → option S)
    `{!TxSpec W S committed working} (t : transaction) (ctx : context)
    (fn : context → M W (option error)) (locks : list PLock) (w w' : W) (r : outcome (option error))
    (Hout : parentTx t ctx = None)
    (Hfn : ∀ tx, stays_in committed working tx (fn (with_tx (mkTxData tx (t_id t)) ctx)))
    (Hon : ∀ f w, t_onCommit t = Some f → ∃ w', f w = (Ret tt, w') ∧ committed w' = committed w ∧
      ∀ tx, working w' tx = working w tx)
    (Hrun : WithinContext t ctx fn locks w = (r, w')) :
  match r with
  | Ret None => ∃ tx w1 w2, working w tx = None ∧ working w1 tx = Some (committed w) ∧
      fn (with_tx (mkTxData tx (t_id t)) ctx) w1 = (Ret None, w2) ∧
      working w2 tx = Some (committed w') ∧ ∀ t', working w' t' = working w t'
  | Ret (Some _) => committed w' = committed w ∧ ∀ t', working w' t' = working w t'
  | Panic _ => committed w' = committed w ∧ ∃ tx, working w tx = None ∧ is_Some (working w' tx)
  | _ => committed w' = committed w
  end.
Proof.
  unfold WithinContext in Hrun. rewrite Hout in Hrun.
  destruct (spec_begin (ctx_conn ctx) ctx w) as ([tx|e] & w1 & Hb & Hc1 & Hw1);
    rewrite (M_bind_Ret _ _ _ _ _ Hb) in Hrun; [|by (injection Hrun as <- <-; done)].
  destruct Hw1 as (Hnone & Hopen & Hframe1). set (ctx' := with_tx (mkTxData tx (t_id t)) ctx) in *.
  destruct (acquireLocks_spec committed working ctx' tx (sort_locks locks) w1) as (ra & w2 & Ha & Hc2 & Hw2).
  unfold rollbackOnError, runWithin in Hrun. rewrite (M_bind_Ret _ _ _ _ _ Ha) in Hrun.
  pose proof (rollback_restores committed working tx w) as Hroll.
  destruct ra as [e|].
  { destruct (Hroll w2) as (err & w4 & Hr & Hc4 & Hf4); [done|congruence| |].
    { intros t' Hne. by rewrite Hw2, Hframe1. }
    cbn in Hrun. unfold_M. rewrite Hr in Hrun. by simplify_eq/=. }
  destruct (fn ctx' w2) as [rf w3] eqn:Hf.
  destruct (Hfn tx w2 rf w3) as (Hc3 & [s Hs] & Hf3); [rewrite Hw2, Hopen; by eexists|done|].
  assert (Hframe3 : ∀ t', t' ≠ tx → working w3 t' = working w t').
  { intros t' Hne. by rewrite Hf3, Hw2, Hframe1. }
  destruct rf as [[e|]| | |]; unfold_M; rewrite Hf in Hrun.
  - destruct (Hroll w3) as (err & w4 & Hr & Hc4 & Hf4); [done|congruence|done|].
    rewrite Hr in Hrun. by simplify_eq/=.
  - destruct (spec_commit tx w3 s Hs) as (err & w4 & Hcm & Hf4 & Herr).
    rewrite Hcm in Hrun. destruct err as [e|].
    + destruct (Hroll w4) as (err & w5 & Hr & Hc5 & Hf5); [done|congruence| |].
      { intros t' Hne. by rewrite Hf4, Hframe3. }
      rewrite Hr in Hrun. by simplify_eq/=.
    + destruct Herr as [Hs4 Htx4].
      assert (Hend : ∀ t', working w4 t' = working w t').
      { intros t'. destruct (decide (t' = tx)) as [->|Hne]; [congruence|]. by rewrite Hf4, Hframe3. }
      destruct (t_onCommit t) as [f|] eqn:Ht.
      * destruct (Hon f w4 eq_refl) as (w5 & Hf5 & Hc5 & Hw5). rewrite Hf5 in Hrun. simplify_eq/=.
        exists tx, w2, w3. repeat split; [done| |done|congruence|].
        { rewrite Hw2. congruence. } intros t'. by rewrite Hw5.
      * simplify_eq/=. exists tx, w2, w3. repeat split; [done| |done|congruence|done].
        rewrite Hw2. congruence.
  - simplify_eq/=. split; [congruence|]. by exists tx.
  - simplify_eq/=. congruence.
  - simplify_eq/=. congruence.
Qed.

Lemma WithinContext_atomic_witness :
  sw_committed (snd (WithinContext sample_tx context_Background (sample_body (Ret None)) [] sw_init)) = [sample_insert] ∧
  (∃ tx : nat, sw_working sw_init tx = None ∧
    is_Some (sw_working (snd (WithinContext sample_tx context_Background (sample_body (Panic "nil")) [] sw_init)) tx)).
Proof.
  split; [reflexivity|].
  eapply (WithinContext_atomic sw_committed sw_working sample_tx context_Background
    (sample_body (Panic "nil")) [] sw_init _ (Panic "nil")).
  - reflexivity.
  - apply sample_body_stays.
  - intros f w Hf. discriminate Hf.
  - reflexivity.
Defined.

(** Transactions of one instance nest by flattening: inside a transaction
    of the same instance, [WithinContext] only acquires its locks on the outer
    transaction and calls its function, whose error it returns as it is; it
    neither begins, commits nor rolls back, nor runs the commit callback. *)
Theorem WithinContext_nested {W : Type} `{!DB W} (t : transaction) (ctx : context)
    (fn : context → M W (option error)) (locks1 locks2 : list PLock) (w : W) :
  WithinContext t ctx (λ c, WithinContext t c fn locks2) locks1 w =
  WithinContext t ctx (λ c,
    match ctx_tx c with
    | Some stored =>
        err ← acquireLocks c (tx_client stored) (sort_locks locks2);
        match err with Some e => mret (Some e) | None => fn c end
    | None => panic "no transaction"
    end) locks1 w.
Proof.
  assert (Heq : ∀ c tx, ctx_tx c = Some tx → tx_instanceID tx = t_id t → ∀ w,
    WithinContext t c fn locks2 w =
    (err ← acquireLocks c (tx_client tx) (sort_locks locks2);
     match err with Some e => mret (Some e) | None => fn c end) w).
  { intros c tx Hc Hid w0. unfold WithinContext, parentTx. rewrite Hc, Hid, String.eqb_refl.
    unfold runWithin. unfold_M. destruct (acquireLocks _ _ _ w0) as [[[e|]|s| |] w1]; try done.
    by destruct (fn c w1) as [[[e|]|s| |] w2]. }
  unfold WithinContext at 1 3, parentTx. destruct (ctx_tx ctx) as [tx|] eqn:Hc;
    [destruct (String.eqb_spec (tx_instanceID tx) (t_id t)) as [Hid|]|].
  - unfold runWithin. unfold_M. destruct (acquireLocks _ _ _ w) as [[[e|]|s| |] w1]; try done.
    rewrite Hc. by erewrite Heq.
  - unfold rollbackOnError, runWithin. unfold_M. destruct (begin_tx _ _ w) as [[[x|e]|s| |] w1]; try done.
    destruct (acquireLocks _ _ _ w1) as [[[e|]|s| |] w2]; try done. by erewrite Heq.
  - unfold rollbackOnError, runWithin. unfold_M. destruct (begin_tx _ _ w) as [[[x|e]|s| |] w1]; try done.
    destruct (acquireLocks _ _ _ w1) as [[[e|]|s| |] w2]; try done. by erewrite Heq.
Qed.

(** C24. A session-level lock never leaks its connection: on an error
    [withSessionLevelLock] leaves the set of open connections as it was; on
    success the release function it returns closes what was taken, whether the
    unlock statement succeeds, fails, reports false or panics. *)
Theorem withSessionLevelLock_no_leak {W : Type} `{!DB W} (open : W → gset nat) `{!ConnSpec W open}
    (ctx : context) (name : string) (w w1 : W) (r : result (context * M W (option error)))
    (Hrun : withSessionLevelLock ctx name w = (Ret r, w1)) :
  match r with
  | Err _ => open w1 = open w
  | Ok (ctx', release) => ∀ w2 w3 e, open w2 = open w1 →
      (release w2 = (Ret e, w3) ∨ ∃ s, release w2 = (Panic s, w3)) → open w3 = open w
  end.
Proof.
  unfold withSessionLevelLock in Hrun. apply M_bind_Ret_inv in Hrun as (conn & w0 & Hconn & Hrun).
  assert (Hcancel : match conn with
    | Err _ => open w0 = open w
    | Ok (_, cancel) => ∀ v, open v = open w0 → ∃ v', cancel v = (Ret tt, v') ∧ open v' = open w end).
  { unfold WithinSingleConnection in Hconn. destruct (_ || _) in Hconn; [unfold mret, M_ret in Hconn; simplify_eq; intros v Hv; by exists v|].
    apply M_bind_Ret_inv in Hconn as (c & w0' & Hc & Hret). apply spec_connx in Hc.
    destruct c as [c|e]; unfold mret, M_ret in Hret; simplify_eq; [|done]. destruct Hc as [Hnew Hopen].
    intros v Hv. destruct (spec_close (open := open) c v) as (v' & Hcl & Hv').
    exists v'. split; [done|]. rewrite Hv', Hv, Hopen. set_solver. }
  destruct conn as [[ctx' cancel]|e]; [|unfold mret, M_ret in Hrun; by simplify_eq].
  apply M_bind_Ret_inv in Hrun as (rx & w0' & Hx & Hrun).
  apply spec_exec_conn in Hx. destruct rx as [n|e].
  - unfold mret, M_ret in Hrun. simplify_eq. intros w2 w3 e H2 Hrel. unfold releaseSessionLock, deferring in Hrel.
    match type of Hrel with context [let (_, _) := ?m in _] => destruct m as [rel w2'] eqn:Hget end.
    assert (Hw2' : open w2' = open w0).
    { unfold mbind, M_bind, M_bind_def, GetContext in Hget.
      destruct (db_get _ _ _ w2) as [rg wg] eqn:Hg. apply spec_get_conn in Hg.
      destruct rg as [[row|e']|s| |]; [destruct (unlocked row)|..]; unfold mret, M_ret in Hget; simplify_eq; congruence. }
    destruct (Hcancel w2' Hw2') as (v' & Hcl & Hv').
    destruct rel as [a|s| |]; unfold_M; rewrite ?Hcl in Hrel; naive_solver.
  - destruct (Hcancel w0' Hx) as (v' & Hcl & Hv'). unfold_M. rewrite Hcl in Hrun. by simplify_eq/=.
Qed.

Lemma withSessionLevelLock_no_leak_witness :
  ∃ ctx release w1, withSessionLevelLock (W := sqlWorld) context_Background "outbox" sw_init = (Ret (Ok (ctx, release)), w1) ∧
    sw_conns w1 ≠ ∅ ∧ ∀ e w3, release w1 = (Ret e, w3) → sw_conns w3 = ∅.
Proof.
  eexists _, _, _. split; [reflexivity|]. split; [simpl; set_solver|]. intros e w3 Hrel.
  refine (withSessionLevelLock_no_leak sw_conns context_Background "outbox" sw_init _ (Ok (_, _)) _ _ _ e eq_refl (or_introl Hrel)).
  reflexivity.
Defined.

(** The row lock a context asks for reaches the query: outside a
    transaction [LockUpdate] asks for nothing; inside, a query prepared with
    the resulting context ends with FOR UPDATE or FOR SHARE as requested, then
    SKIP LOCKED when that option is given, whatever lock was asked before; the
    rest of the query and of the context is kept. *)
Theorem LockUpdate_query_spec (ctx : context) (exclusively : bool) (opts : list string) (qb : SelectBuilder) :
  (HasTransaction ctx = false → LockUpdate ctx exclusively opts = ctx) ∧
  (HasTransaction ctx = true →
    PrepareUpdateLockQuery (LockUpdate ctx exclusively opts) qb =
      mkSelect (sel_cols qb) (sel_from qb) (sel_where qb) (sel_order qb) (sel_limit qb)
        (sel_suffix qb ++ [if exclusively then "FOR UPDATE" else "FOR SHARE"] ++
          (if bool_decide (SkipAlreadyLockedData ∈ opts) then ["SKIP LOCKED"] else [])) ∧
    route (LockUpdate ctx exclusively opts) = route ctx).
Proof.
  unfold LockUpdate. split; intros ->; [done|]. cbn [negb].
  set (skip := existsb _ opts).
  assert (Hskip : bool_decide (SkipAlreadyLockedData ∈ opts) = skip).
  { subst skip. apply eq_true_iff_eq. rewrite bool_decide_eq_true, existsb_exists.
    split; [intros Hin; exists SkipAlreadyLockedData; split; [by apply list_elem_of_In|apply String.eqb_refl]|].
    intros (x & Hin & Hx). apply String.eqb_eq in Hx as ->. by apply list_elem_of_In. }
  rewrite Hskip. clearbody skip. clear Hskip. unfold PrepareUpdateLockQuery.
  destruct (IsUpdateLockRequested ctx) as [[req ex] sk] eqn:Hreq.
  destruct (req && Bool.eqb ex exclusively && Bool.eqb sk skip) eqn:E.
  - rewrite !andb_true_iff, !eqb_true_iff in E. destruct E as [[-> ->] ->]. rewrite Hreq. simpl.
    split; [|done]. destruct skip, exclusively; unfold sb_suffix; simpl; rewrite ?app_nil_r, <- ?app_assoc; done.
  - simpl. split; [|done]. destruct skip, exclusively; unfold sb_suffix; simpl; rewrite ?app_nil_r, <- ?app_assoc; done.
Qed.

Lemma LockUpdate_query_spec_witness :
  sel_suffix (PrepareUpdateLockQuery (LockUpdate (with_tx (mkTxData 0 "default") context_Background) true [SkipAlreadyLockedData])
    (mkSelect ["id"] "message" [] [] None [])) = ["FOR UPDATE"; "SKIP LOCKED"].
Proof.
  rewrite (proj1 (proj2 (LockUpdate_query_spec (with_tx (mkTxData 0 "default") context_Background) true
    [SkipAlreadyLockedData] (mkSelect ["id"] "message" [] [] None [])) eq_refl)).
  reflexivity.
Defined.
