(* ===== verification/Persistence.v ===== *)
(** pkg/persistence/transaction.go: the interface of transactions the services
    are written against, what it promises, and the proof that the transactions
    of pkg/sql keep the promise. *)
From S2P Require Import Prelude Context Sql.

(** [persistence.Transaction] and [WithinTransactionWithResult] over it. *)
Class Transaction (W : Type) := {
  tx_WithinContext : context → (context → M W (option error)) → list PLock → M W (option error);
  tx_WithResult : ∀ {T : Type}, T → context → (context → M W (T * option error)) → list PLock → M W (T * option error);
  tx_LockUpdate : context → bool → list string → context;
}.
#[export] Instance sql_Transaction {W} `{!DB W} (t : transaction (W := W)) : Transaction W := {|
  tx_WithinContext := WithinContext t;
  tx_WithResult := λ T zero, WithinTransactionWithResult zero t;
  tx_LockUpdate := LockUpdate;
|}.

(** ** Views

    [holds t w a]: whoever works on the target [t] - an open transaction, a
    connection or the pool - sees the data [a] in the world [w]. *)

(** A target that sees what is committed. *)
Definition outer (t : target) : bool := match t with OnTx _ => false | _ => true end.

Section views.
Context {W A : Type} (holds : target → W → A → Prop).

(** Nobody sees a change. *)
Definition quiet (w w' : W) : Prop := ∀ t a, holds t w a → holds t w' a.
(** What happens inside a transaction is not seen outside. *)
Definition isolated (ctx : context) (w w' : W) : Prop :=
  HasTransaction ctx = true → ∀ o a, outer o = true → holds o w a → holds o w' a.

#[export] Instance quiet_preorder : PreOrder quiet.
Proof. split; [by intros ???|]. intros w1 w2 w3 H1 H2 t a Ha. by apply H2, H1. Qed.
Lemma quiet_isolated ctx w w' : quiet w w' → isolated ctx w w'.
Proof. intros Hq _ o a _. apply Hq. Qed.
Lemma isolated_trans ctx w1 w2 w3 : isolated ctx w1 w2 → isolated ctx w2 w3 → isolated ctx w1 w3.
Proof. intros H1 H2 Ht o a Ho Ha. by apply H2, H1. Qed.

(** A function that always returns, run in a transaction that the context is
    not yet in: it starts on what is committed, what it leaves is what is
    committed when it returns no error, and nothing changes otherwise. *)
Class TransactionSpec `{!Transaction W} : Prop := {
  within_run ctx fn locks w a (Q : A → Prop) :
    HasTransaction ctx = false → holds (route ctx) w a →
    (∀ ctx' w1, HasTransaction ctx' = true → holds (route ctx') w1 a → holds (route ctx) w1 a →
       ∃ err w2, fn ctx' w1 = (Ret err, w2) ∧ isolated ctx' w1 w2 ∧
         (err = None → ∃ a', holds (route ctx') w2 a' ∧ Q a')) →
    ∃ err w', tx_WithinContext ctx fn locks w = (Ret err, w') ∧
      match err with Some _ => holds (route ctx) w' a | None => ∃ a', holds (route ctx) w' a' ∧ Q a' end;
  within_result_run {T} (zero : T) ctx fn locks w a (Q : T → A → Prop) :
    HasTransaction ctx = false → holds (route ctx) w a →
    (∀ ctx' w1, HasTransaction ctx' = true → holds (route ctx') w1 a → holds (route ctx) w1 a →
       ∃ v err w2, fn ctx' w1 = (Ret (v, err), w2) ∧ isolated ctx' w1 w2 ∧
         (err = None → ∃ a', holds (route ctx') w2 a' ∧ Q v a')) →
    ∃ v err w', tx_WithResult zero ctx fn locks w = (Ret (v, err), w') ∧
      match err with Some _ => holds (route ctx) w' a | None => ∃ a', holds (route ctx) w' a' ∧ Q v a' end;
  lock_route ctx exclusively opts : route (tx_LockUpdate ctx exclusively opts) = route ctx;
  lock_HasTransaction ctx exclusively opts : HasTransaction (tx_LockUpdate ctx exclusively opts) = HasTransaction ctx;
}.
End views.

(** ** SQL transactions keep the promise *)

(** The data read from the state of the database: the committed one, or the
    working copy of the transaction. *)
Definition tx_view {W S A : Type} (committed : W → S) (working : W → nat → option S) (R : S → A → Prop)
    (t : target) (w : W) (a : A) : Prop :=
  match t with OnTx n => ∃ s, working w n = Some s ∧ R s a | _ => R (committed w) a end.

Lemma route_outer ctx : HasTransaction ctx = false → outer (route ctx) = true.
Proof. unfold HasTransaction, route. by destruct (ctx_tx ctx), (ctx_conn ctx). Qed.

Lemma tx_view_outer {W S A} (committed : W → S) working (R : S → A → Prop) o w a :
  outer o = true → tx_view committed working R o w a ↔ R (committed w) a.
Proof. by destruct o. Qed.

(** The state a target works on: none when its transaction is not open. *)
Definition view {W S : Type} (committed : W → S) (working : W → nat → option S) (t : target) (w : W) : option S :=
  match t with OnTx n => working w n | _ => Some (committed w) end.

Lemma tx_view_state {W S A} (committed : W → S) working (R : S → A → Prop) t w a :
  tx_view committed working R t w a ↔ ∃ s, view committed working t w = Some s ∧ R s a.
Proof. destruct t; naive_solver. Qed.

(** Two targets that work on different states. *)
Definition apart (t t' : target) : Prop := t ≠ t' ∧ outer t && outer t' = false.

(** A statement works on the state of its target only, and a query on none. *)
Class StatementSpec (W S : Type) `{!DB W} (committed : W → S) (working : W → nat → option S) : Prop := {
  exec_frame t ctx q w r w' : db_exec t ctx q w = (r, w') →
    (∀ t', apart t t' → view committed working t' w' = view committed working t' w) ∧
    (is_Some (view committed working t w) → is_Some (view committed working t w'));
  select_frame t ctx q w r w' : db_select t ctx q w = (r, w') → ∀ t', view committed working t' w' = view committed working t' w;
  get_frame t ctx q w r w' : db_get t ctx q w = (r, w') → ∀ t', view committed working t' w' = view committed working t' w;
}.

Lemma same_views_quiet {W S A} (committed : W → S) working (R : S → A → Prop) w w' :
  (∀ t, view committed working t w' = view committed working t w) → quiet (tx_view committed working R) w w'.
Proof. intros Hv t a. rewrite !tx_view_state. by setoid_rewrite (Hv t). Qed.

Lemma apart_isolated {W S A} (committed : W → S) working (R : S → A → Prop) ctx w w' :
  (∀ t', apart (route ctx) t' → view committed working t' w' = view committed working t' w) →
  isolated (tx_view committed working R) ctx w w'.
Proof.
  intros Hv Ht o a Ho. rewrite !tx_view_state. rewrite (Hv o); [done|].
  unfold HasTransaction, route, apart in *. destruct (ctx_tx ctx); [|done]. by destruct o.
Qed.

(** What the callback of a commit may do. *)
Definition quiet_commit {W S} (committed : W → S) (working : W → nat → option S) (t : transaction (W := W)) : Prop :=
  ∀ f w, t_onCommit t = Some f → ∃ w', f w = (Ret tt, w') ∧ committed w' = committed w ∧ ∀ tx, working w' tx = working w tx.

Section sql_transaction.
Context {W S : Type} `{!DB W} (committed : W → S) (working : W → nat → option S) `{!TxSpec W S committed working}.
(** A part of the world the transaction's own statements leave alone. *)
Context {X : Type} (extra : W → X).
Hypothesis extra_begin : ∀ c ctx w r w', begin_tx c ctx w = (r, w') → extra w' = extra w.
Hypothesis extra_commit : ∀ t w r w', tx_commit t w = (r, w') → extra w' = extra w.
Hypothesis extra_exec : ∀ t ctx q w r w', db_exec t ctx q w = (r, w') → extra w' = extra w.

Lemma acquireLocks_extra ctx tx locks w r w' : acquireLocks ctx tx locks w = (r, w') → extra w' = extra w.
Proof.
  revert w. induction locks as [|l locks IH]; intros w; [by intros [= _ <-]|]. cbn [acquireLocks].
  unfold withTransactionLevelLock. unfold_M.
  destruct (db_exec _ _ _ w) as [[[n|e]|s| |] w1] eqn:E; apply extra_exec in E; [|by intros [= _ <-]..].
  intros H1. apply IH in H1. congruence.
Qed.

Lemma rollback_run (P : S → Prop) tx e w : P (committed w) →
  ∃ w', (_ ← tx_rollback tx; mret (Some e) : M W (option error)) w = (Ret (Some e), w') ∧ P (committed w').
Proof.
  intros HP. destruct (spec_rollback (committed := committed) (working := working) tx w) as (err & w' & Hr & Hc & _).
  rewrite (M_bind_Ret _ _ _ _ _ Hr). exists w'. by rewrite Hc.
Qed.

Lemma WithinContext_run (t : transaction) ctx fn locks w (P : S → Prop) (Post : X → S → Prop)
    (Hout : HasTransaction ctx = false) (HP : P (committed w))
    (Hon : ∀ f w, t_onCommit t = Some f → ∃ w', f w = (Ret tt, w') ∧ committed w' = committed w ∧ extra w' = extra w)
    (Hfn : ∀ ctx' tx w1, ctx' = with_tx (mkTxData tx (t_id t)) ctx → working w1 tx = Some (committed w) →
       committed w1 = committed w → extra w1 = extra w →
       ∃ err w2, fn ctx' w1 = (Ret err, w2) ∧ P (committed w2) ∧
         (err = None → ∃ s, working w2 tx = Some s ∧ Post (extra w2) s)) :
  ∃ err w', WithinContext t ctx fn locks w = (Ret err, w') ∧
    match err with Some _ => P (committed w') | None => Post (extra w') (committed w') end.
Proof.
  assert (Hp : parentTx t ctx = None) by (unfold parentTx, HasTransaction in *; by destruct (ctx_tx ctx)).
  unfold WithinContext. rewrite Hp.
  destruct (spec_begin (committed := committed) (working := working) (ctx_conn ctx) ctx w) as (r & w1 & Hb & Hc1 & Hw1).
  pose proof (extra_begin _ _ _ _ _ Hb) as Hx1. rewrite (M_bind_Ret _ _ _ _ _ Hb).
  destruct r as [tx|e]; [|eexists _, w1; split; [done|]; by rewrite Hc1]. destruct Hw1 as (_ & Hopen & _).
  set (ctx' := with_tx _ ctx). unfold rollbackOnError, runWithin.
  destruct (acquireLocks_spec committed working ctx' tx (sort_locks locks) w1) as (ra & w2 & Ha & Hc2 & Hw2).
  pose proof (acquireLocks_extra _ _ _ _ _ _ Ha) as Hx2. rewrite (M_bind_Ret _ _ _ _ _ Ha).
  destruct ra as [e|].
  { destruct (rollback_run P tx e w2) as (w3 & Hr & HP3); [congruence|]. exists (Some e), w3. by rewrite <- Hr. }
  destruct (Hfn ctx' tx w2 eq_refl) as (err & w3 & Hf & HP3 & Hpost); [congruence..|]. rewrite (M_bind_Ret _ _ _ _ _ Hf).
  destruct err as [e|].
  { destruct (rollback_run P tx e w3 HP3) as (w4 & Hr & HP4). exists (Some e), w4. by rewrite <- Hr. }
  destruct (Hpost eq_refl) as (s & Hs & Hpost').
  destruct (spec_commit (committed := committed) (working := working) tx w3 s Hs) as (err & w4 & Hcm & _ & Herr).
  pose proof (extra_commit _ _ _ _ Hcm) as Hx4. rewrite (M_bind_Ret _ _ _ _ _ Hcm). destruct err as [e|].
  { destruct (rollback_run P tx (Errorf "commit transaction" e) w4) as (w5 & Hr & HP5); [congruence|].
    exists (Some (Errorf "commit transaction" e)), w5. by rewrite <- Hr. }
  destruct Herr as [<- _]. destruct (t_onCommit t) as [f|] eqn:Et.
  - destruct (Hon f w4 eq_refl) as (w5 & Hf5 & Hc5 & Hx5). rewrite (M_bind_Ret _ _ _ _ _ Hf5). exists None, w5.
    split; [done|]. by rewrite Hx5, Hx4, Hc5.
  - exists None, w4. split; [done|]. by rewrite Hx4.
Qed.
End sql_transaction.

(** A variable beside the world does not change what a database is. *)
Lemma beside_TxSpec {T W S} `{!DB W} (committed : W → S) working `{!TxSpec W S committed working} :
  @TxSpec (T * W) S (DB_beside T W) (committed ∘ snd) (working ∘ snd).
Proof.
  split.
  - intros c ctx [v w]. destruct (spec_begin (committed := committed) (working := working) c ctx w) as (r & w' & Hr & H1).
    exists r, (v, w'). cbn. unfold on_env. by rewrite Hr.
  - intros t [v w] s Hs. destruct (spec_commit (committed := committed) (working := working) t w s Hs) as (r & w' & Hr & H1).
    exists r, (v, w'). cbn. unfold on_env. by rewrite Hr.
  - intros t [v w]. destruct (spec_rollback (committed := committed) (working := working) t w) as (r & w' & Hr & H1).
    exists r, (v, w'). cbn. unfold on_env. by rewrite Hr.
  - intros t ctx shared name [v w]. destruct (spec_xact_lock (committed := committed) (working := working) t ctx shared name w) as (r & w' & Hr & H1).
    exists r, (v, w'). cbn. unfold on_env. by rewrite Hr.
Qed.

Lemma lock_update_tx ctx exclusively opts : ctx_tx (LockUpdate ctx exclusively opts) = ctx_tx ctx.
Proof. unfold LockUpdate. repeat case_match; done. Qed.
Lemma lock_update_conn ctx exclusively opts : ctx_conn (LockUpdate ctx exclusively opts) = ctx_conn ctx.
Proof. unfold LockUpdate. repeat case_match; done. Qed.

(** The transactions of pkg/sql implement the interface, whatever is read from
    the database. *)
Lemma sql_transaction_implements {W S A} `{!DB W} (committed : W → S) (working : W → nat → option S)
    `{!TxSpec W S committed working} (R : S → A → Prop) (t : transaction) :
  quiet_commit committed working t →
  @TransactionSpec W A (tx_view committed working R) (sql_Transaction t).
Proof.
  intros Hq. split.
  - intros ctx fn locks w a Q Hout Ha Hfn. cbn. apply (tx_view_outer _ _ _ _ _ _ (route_outer ctx Hout)) in Ha.
    destruct (WithinContext_run committed working (λ _, tt) ltac:(done) ltac:(done) ltac:(done) t ctx fn locks w
      (λ s, R s a) (λ _ s, ∃ a', R s a' ∧ Q a') Hout Ha) as (err & w' & Hrun & Hpost).
    + intros f w0 Hf. destruct (Hq f w0 Hf) as (w0' & ? & ? & _). by exists w0'.
    + intros ctx' tx w1 -> Hw1 Hc1 _.
      destruct (Hfn (with_tx (mkTxData tx (t_id t)) ctx) w1) as (err & w2 & Hrun & Hiso & Hpost); [done|by exists (committed w)|..].
      { apply tx_view_outer; [by apply route_outer|]. by rewrite Hc1. }
      exists err, w2. split; [done|]. split.
      * apply (tx_view_outer committed working R (route ctx)); [by apply route_outer|].
        apply (Hiso eq_refl); [by apply route_outer|]. apply tx_view_outer; [by apply route_outer|]. by rewrite Hc1.
      * intros ->. destruct (Hpost eq_refl) as (a' & (s & Hs & HR) & HQ). exists s. split; [done|]. by exists a'.
    + exists err, w'. split; [done|]. destruct err as [e|]; [by apply tx_view_outer; [apply route_outer|]|].
      destruct Hpost as (a' & HR & HQ). exists a'. split; [by apply tx_view_outer; [apply route_outer|]|done].
  - intros T zero ctx fn locks w a Q Hout Ha Hfn. cbn. apply (tx_view_outer _ _ _ _ _ _ (route_outer ctx Hout)) in Ha.
    pose proof (beside_TxSpec (T := T) committed working) as Hbeside.
    set (t' := mkTransaction (t_id t) (on_env (Q := T) <$> t_onCommit t)).
    set (closure := (λ ctx, '(v, e) ← on_env (fn ctx); _ ← modify_obj (λ _ : T, v); mret e) : context → M (T * W) (option error)).
    destruct (@WithinContext_run (T * W) S (DB_beside T W) (committed ∘ snd) (working ∘ snd) Hbeside T fst
      ltac:(by intros ?? [v0 w0] ? [v1 w1] [-> _]%on_env_inv) ltac:(by intros ? [v0 w0] ? [v1 w1] [-> _]%on_env_inv)
      ltac:(by intros ??? [v0 w0] ? [v1 w1] [-> _]%on_env_inv)
      t' ctx closure locks (zero, w) (λ s, R s a) (λ v s, ∃ a', R s a' ∧ Q v a') Hout Ha) as (err & [v w'] & Hrun & Hpost).
    + intros f [v0 w0] Hf. apply fmap_Some in Hf as (g & Hg & ->). destruct (Hq g w0 Hg) as (w0' & Hg' & Hc & _).
      exists (v0, w0'). cbn. unfold on_env. by rewrite Hg'.
    + intros ctx' tx [v0 w1] -> Hw1 Hc1 _. cbn in Hw1, Hc1.
      destruct (Hfn (with_tx (mkTxData tx (t_id t)) ctx) w1) as (v & err & w2 & Hrun & Hiso & Hpost); [done|by exists (committed w)|..].
      { apply tx_view_outer; [by apply route_outer|]. by rewrite Hc1. }
      exists err, (v, w2). split; [|split].
      * unfold closure. cbn [t_id t']. unfold_M. unfold on_env. by rewrite Hrun.
      * apply (tx_view_outer committed working R (route ctx)); [by apply route_outer|].
        apply (Hiso eq_refl); [by apply route_outer|]. apply tx_view_outer; [by apply route_outer|]. by rewrite Hc1.
      * intros ->. destruct (Hpost eq_refl) as (a' & (s & Hs & HR) & HQ). exists s. split; [done|]. by exists a'.
    + exists v, err, w'. split; [unfold WithinTransactionWithResult; fold t'; fold closure; by rewrite Hrun|].
      destruct err as [e|]; [by apply tx_view_outer; [apply route_outer|]|].
      destruct Hpost as (a' & HR & HQ). exists a'. split; [by apply tx_view_outer; [apply route_outer|]|done].
  - intros ctx e o. cbn. unfold route. by rewrite lock_update_tx, lock_update_conn.
  - intros ctx e o. cbn. unfold HasTransaction. by rewrite lock_update_tx.
Qed.

(** ** Errors that come out of a transaction *)

(** An error of the program's own, [x], comes out of a transaction only when the
    function returned it, on the data it started from. *)
Class TransactionErrors {W A : Type} (holds : target → W → A → Prop) `{!Transaction W} (x : string) : Prop :=
  within_error ctx fn locks w a (P : Prop) e w' :
    HasTransaction ctx = false → holds (route ctx) w a →
    (∀ ctx' w1 e w2, HasTransaction ctx' = true → holds (route ctx') w1 a → fn ctx' w1 = (Ret (Some e), w2) → error_has x e = true → P) →
    tx_WithinContext ctx fn locks w = (Ret (Some e), w') → error_has x e = true → P.

(** The driver's errors are not [x]. *)
Class DriverErrors (W : Type) `{!DB W} (x : string) : Prop := {
  driver_exec t ctx q w r w' : db_exec t ctx q w = (Ret r, w') →
    match r with Err e | Ok (Err e) => error_has x e = false | Ok (Ok _) => True end;
  driver_begin c ctx w e w' : begin_tx c ctx w = (Ret (Err e), w') → error_has x e = false;
  driver_commit t w e w' : tx_commit t w = (Ret (Some e), w') → error_has x e = false;
}.

Section transaction_errors.
Context {W S A : Type} `{!DB W} (committed : W → S) (working : W → nat → option S) `{!TxSpec W S committed working}.
Context (R : S → A → Prop) (x : string) `{!DriverErrors W x}.

Lemma acquireLocks_error ctx tx locks w e w' : acquireLocks ctx tx locks w = (Ret (Some e), w') → error_has x e = false.
Proof.
  revert w. induction locks as [|l locks IH]; intros w; [done|]. cbn [acquireLocks]. unfold withTransactionLevelLock. unfold_M.
  destruct (db_exec _ _ _ w) as [[[n|er]|s| |] w1] eqn:E; [apply IH| |done..]. intros [= <- <-].
  rewrite error_has_wrap. exact (driver_exec _ _ _ _ _ _ E).
Qed.

Lemma rollbackOnError_inv tx (body : M W (option error)) w e w' :
  rollbackOnError tx body w = (Ret (Some e), w') → ∃ w1, body w = (Ret (Some e), w1).
Proof.
  unfold rollbackOnError. destruct (body w) as [[[er|]|s| |] w1]; [|done..]. intros (u & w2 & _ & [= <- _])%M_bind_Ret_inv. by exists w1.
Qed.

Lemma sql_transaction_errors (t : transaction) : @TransactionErrors W A (tx_view committed working R) (sql_Transaction t) x.
Proof.
  intros ctx fn locks w a P e w' Hout Ha Hfn Hrun Hx. apply (tx_view_outer _ _ _ _ _ _ (route_outer ctx Hout)) in Ha.
  assert (Hp : parentTx t ctx = None) by (unfold parentTx, HasTransaction in *; by destruct (ctx_tx ctx)).
  cbn in Hrun. unfold WithinContext in Hrun. rewrite Hp in Hrun.
  destruct (spec_begin (committed := committed) (working := working) (ctx_conn ctx) ctx w) as (r & w1 & Hb & Hc1 & Hw1).
  rewrite (M_bind_Ret _ _ _ _ _ Hb) in Hrun. destruct r as [tx|er].
  2: { injection Hrun as <- _. rewrite error_has_wrap, (driver_begin _ _ _ _ _ Hb) in Hx. done. }
  apply rollbackOnError_inv in Hrun as [w2 Hrun]. unfold runWithin in Hrun. destruct Hw1 as (_ & Hopen & _).
  destruct (acquireLocks_spec committed working (with_tx (mkTxData tx (t_id t)) ctx) tx (sort_locks locks) w1) as (ra & w3 & Hl & Hc3 & Hw3).
  rewrite (M_bind_Ret _ _ _ _ _ Hl) in Hrun. destruct ra as [el|].
  { injection Hrun as <- _. by rewrite (acquireLocks_error _ _ _ _ _ _ Hl) in Hx. }
  apply M_bind_Ret_inv in Hrun as (err & w4 & Hf & Hrun). destruct err as [ef|].
  { injection Hrun as <- _. refine (Hfn _ _ _ _ _ _ Hf Hx); [done|]. exists (committed w). split; [|done]. cbn. by rewrite Hw3. }
  apply M_bind_Ret_inv in Hrun as (err & w5 & Hcm & Hrun). destruct err as [ec|].
  - injection Hrun as <- _. by rewrite error_has_wrap, (driver_commit _ _ _ _ Hcm) in Hx.
  - apply M_bind_Ret_inv in Hrun as (u & w6 & _ & [=]).
Qed.
End transaction_errors.

(** ** A variable beside the database *)

Lemma beside_StatementSpec {T W S} `{!DB W} (committed : W → S) working `{!StatementSpec W S committed working} :
  @StatementSpec (T * W) S (DB_beside T W) (committed ∘ snd) (working ∘ snd).
Proof.
  split.
  - intros t ctx q [v w] r [v' w'] [-> H]%on_env_inv. exact (exec_frame t ctx q w r w' H).
  - intros t ctx q [v w] r [v' w'] [-> H]%on_env_inv. exact (select_frame t ctx q w r w' H).
  - intros t ctx q [v w] r [v' w'] [-> H]%on_env_inv. exact (get_frame t ctx q w r w' H).
Qed.
Lemma beside_DriverErrors {T W} `{!DB W} x `{!DriverErrors W x} : @DriverErrors (T * W) (DB_beside T W) x.
Proof.
  split.
  - intros t ctx q [v w] r [v' w'] [-> H]%on_env_inv. exact (driver_exec t ctx q w r w' H).
  - intros c ctx [v w] e [v' w'] [-> H]%on_env_inv. exact (driver_begin c ctx w e w' H).
  - intros t [v w] e [v' w'] [-> H]%on_env_inv. exact (driver_commit t w e w' H).
Qed.

(** ** A server in memory

    The committed data and the working copies of the open transactions;
    [exec], [select] and [get] say what a statement does to the data it runs
    on.  Taking a lock changes nothing. *)

Record server (A : Type) := mkServer { sv_committed : A; sv_open : gmap nat A }.
Arguments mkServer {A}.
Arguments sv_committed {A} _.
Arguments sv_open {A} _.

Definition errTxDone : error := ErrText "sql: transaction has already been committed or rolled back".

Section server.
Context {A : Type}.

Definition sv_working (w : server A) (n : nat) : option A := sv_open w !! n.
Definition sv_at (t : target) (w : server A) : option A :=
  match t with OnTx n => sv_working w n | _ => Some (sv_committed w) end.
Definition sv_set (t : target) (a : A) (w : server A) : server A :=
  match t with
  | OnTx n => mkServer (sv_committed w) (<[n := a]> (sv_open w))
  | _ => mkServer a (sv_open w)
  end.
(** Runs [f] on the data the target sees. *)
Definition sv_run {B} (t : target) (f : A → B * A) (closed : B) : M (server A) B := λ w,
  match sv_at t w with
  | Some a => let '(r, a') := f a in (Ret r, sv_set t a' w)
  | None => (Ret closed, w)
  end.

Definition server_DB (exec : stmt → A → result (result Z) * A) (select : stmt → A → result (list (list arg)))
    (get : stmt → A → result (list arg)) : DB (server A) := {|
  ToSql := λ _, None;
  db_exec := λ t _ q, match q with SRaw _ _ => mret (Ok (Ok 1%Z)) | _ => sv_run t (exec q) (Err errTxDone) end;
  db_select := λ t _ q w, (Ret (default (Err errTxDone) (select q <$> sv_at t w)), w);
  db_get := λ t _ q w, (Ret (default (Err errTxDone) (get q <$> sv_at t w)), w);
  db_connx := λ _, mret (Ok 0);
  conn_close := λ _, mret tt;
  begin_tx := λ _ _ w, let n := fresh (dom (sv_open w)) in
    (Ret (Ok n), mkServer (sv_committed w) (<[n := sv_committed w]> (sv_open w)));
  tx_commit := λ n w,
    match sv_working w n with
    | Some a => (Ret None, mkServer a (delete n (sv_open w)))
    | None => (Ret (Some errTxDone), w)
    end;
  tx_rollback := λ n w, (Ret None, mkServer (sv_committed w) (delete n (sv_open w)));
|}.

Lemma server_TxSpec exec select get : @TxSpec (server A) A (server_DB exec select get) sv_committed sv_working.
Proof.
  split; unfold sv_working; cbn.
  - intros c ctx w. eexists _, _. split; [done|]. split; [done|]. cbn. split_and!.
    + apply not_elem_of_dom, is_fresh.
    + by rewrite lookup_insert_eq.
    + intros t' Ht. by rewrite lookup_insert_ne.
  - intros t w s Hs. unfold sv_working. rewrite Hs. eexists _, _. split; [done|]. cbn.
    split; [intros t' Ht; by rewrite lookup_delete_ne|]. split; [done|apply lookup_delete_eq].
  - intros t w. eexists _, _. split; [done|]. cbn. split; [done|]. split; [apply lookup_delete_eq|].
    intros t' Ht. by rewrite lookup_delete_ne.
  - intros t ctx shared name w. unfold advisory_query. by eexists _, _.
Qed.

Lemma server_StatementSpec exec select get :
  @StatementSpec (server A) A (server_DB exec select get) sv_committed sv_working.
Proof.
  split; cbn; [|by intros; simplify_eq..]. intros t ctx q w r w' Hrun.
  assert (w' = w ∨ ∃ a, w' = sv_set t a w) as [->|[a ->]].
  { destruct q; [..|injection Hrun as _ <-; by left]; unfold sv_run in Hrun; destruct (sv_at t w) as [a|]; simplify_eq; try (by left);
      destruct (exec _ a) as [r' a']; simplify_eq; right; by exists a'. }
  - done.
  - unfold apart. destruct t as [n|c|]; cbn; unfold sv_working; cbn; (split; [|by rewrite ?lookup_insert_eq]);
      intros t' [Hne Ho]; destruct t'; simplify_eq/=; try done. rewrite lookup_insert_ne by congruence. done.
Qed.

(** Views of the server. *)
Abbreviation sv_view := (tx_view sv_committed sv_working (@eq A)).

Lemma sv_view_at t w a : sv_view t w a ↔ sv_at t w = Some a.
Proof.
  unfold tx_view, sv_at. destruct t; naive_solver.
Qed.

Lemma sv_run_view {B} t (f : A → B * A) closed w a : sv_view t w a →
  sv_run t f closed w = (Ret (fst (f a)), sv_set t (snd (f a)) w) ∧ sv_view t (sv_set t (snd (f a)) w) (snd (f a)).
Proof.
  intros Ha%sv_view_at. unfold sv_run. rewrite Ha. split; [by destruct (f a)|]. apply sv_view_at.
  destruct t; cbn; unfold sv_working; cbn; by rewrite ?lookup_insert_eq.
Qed.

Lemma sv_run_isolated {B} ctx (f : A → B * A) closed w r w' :
  sv_run (route ctx) f closed w = (r, w') → isolated sv_view ctx w w'.
Proof.
  unfold sv_run. intros Hrun Ht o a Ho Ha. apply sv_view_at. apply sv_view_at in Ha.
  assert (∃ n, route ctx = OnTx n) as [n Hn].
  { unfold HasTransaction, route in *. destruct (ctx_tx ctx) as [t|]; [|done]. by exists (tx_client t). }
  rewrite Hn in Hrun. destruct (sv_at (OnTx n) w) as [b|]; [|by simplify_eq].
  destruct (f b) as [r' b']. simplify_eq. by destruct o.
Qed.

(** The transactions of a server whose statements do nothing. *)
Definition idle_DB : DB (server A) :=
  server_DB (λ _ a, (Ok (Ok 0%Z), a)) (λ _ _, Ok []) (λ _ _, Err (ErrSentinel sql_ErrNoRows)).
Definition memTransaction : Transaction (server A) := @sql_Transaction _ idle_DB (mkTransaction "memory" None).

Lemma memTransaction_spec : @TransactionSpec (server A) A sv_view memTransaction.
Proof.
  apply (@sql_transaction_implements (server A) A A idle_DB sv_committed sv_working (server_TxSpec _ _ _) eq).
  by intros f w Hf.
Qed.
End server.
Abbreviation sv_view := (tx_view sv_committed sv_working eq).

(** A statement leaves the part of the data it does not work on. *)
Lemma server_exec_keeps {A B} (exec : stmt → A → result (result Z) * A) select get (f : A → B) t ctx q w r w' :
  (∀ a, f (snd (exec q a)) = f a) → @db_exec _ (server_DB exec select get) t ctx q w = (r, w') →
  f <$> view sv_committed sv_working t w' = f <$> view sv_committed sv_working t w.
Proof.
  intros Hf Hrun. cbn in Hrun. destruct q; [..|by injection Hrun as _ <-];
    unfold sv_run in Hrun; assert (sv_at t w = view sv_committed sv_working t w) as Hat by (by destruct t); rewrite Hat in Hrun;
    destruct (view sv_committed sv_working t w) as [a|] eqn:E; [|injection Hrun as _ <-; by rewrite E| |injection Hrun as _ <-; by rewrite E| |injection Hrun as _ <-; by rewrite E];
    specialize (Hf a); destruct (exec _ a) as [r' a']; injection Hrun as _ <-;
    (transitivity (Some (f a')); [|cbn in *; by rewrite Hf]);
    destruct t; cbn; unfold sv_working; cbn; by rewrite ?lookup_insert_eq.
Qed.

(** An id above all those in the committed data and in the open transactions. *)
Lemma foldr_max_le x l : x ∈ l → (x <= foldr N.max 0 l)%N.
Proof. induction l as [|y l IH]; [by intros ?%elem_of_nil|]. intros [->|Hx]%elem_of_cons; simpl; [lia|]. specialize (IH Hx). lia. Qed.

Definition next_id {A} (ids : A → list N) (w : server A) : N :=
  (1 + foldr N.max 0 (ids (sv_committed w) ++ (map_to_list (sv_open w) ≫= λ p, ids p.2)))%N.

Lemma next_id_fresh {A} (ids : A → list N) t w a : view sv_committed sv_working t w = Some a → next_id ids w ∉ ids a.
Proof.
  intros Ha Hin. unfold next_id in Hin. enough (1 + foldr N.max 0 (ids (sv_committed w) ++ (map_to_list (sv_open w) ≫= λ p, ids p.2)) <=
    foldr N.max 0 (ids (sv_committed w) ++ (map_to_list (sv_open w) ≫= λ p, ids p.2)))%N by lia.
  apply foldr_max_le, elem_of_app. destruct t as [n|c|]; cbn in Ha; [right|left; by simplify_eq..].
  apply list_elem_of_bind. exists (n, a). split; [done|]. by apply elem_of_map_to_list.
Qed.
