(* ===== verification/Table.v ===== *)
(** What the program relies on of the SQL server: the meaning of the builder's
    statements over the rows of a table. *)
From S2P Require Import Prelude Context Sql Persistence.
From Stdlib Require Import Sorting.Sorted.

Abbreviation row := (gmap string arg) (only parsing).

(** A column that is absent or NULL satisfies no comparison. *)
Definition col_val (r : row) (col : string) : option arg :=
  match r !! col with Some ANull | None => None | Some v => Some v end.

Definition arg_lt (a b : arg) : bool :=
  match a, b with ATime s, ATime t => (s <? t)%Z | AInt x, AInt y => (x <? y)%Z | _, _ => false end.
Definition arg_le (a b : arg) : bool :=
  match a, b with ATime s, ATime t => (s <=? t)%Z | AInt x, AInt y => (x <=? y)%Z | _, _ => false end.

Definition eval_cond (c : cond) (r : row) : bool :=
  let test col p := match col_val r col with Some v => p v | None => false end in
  match c with
  | CEq col v => test col (λ x, bool_decide (x = v))
  | CIn col vs => test col (λ x, bool_decide (x ∈ vs))
  | CNotIn col vs => test col (λ x, negb (bool_decide (x ∈ vs)))
  | CLt col v => test col (λ x, arg_lt x v)
  | CLtOrEq col v => test col (λ x, arg_le x v)
  end.
Definition eval_where (cs : list cond) (r : row) : bool := forallb (λ c, eval_cond c r) cs.

(** Rows in the order of the first ORDER BY column, which the code only uses on
    times; rows without a value come last. *)
Definition order_key (col : string) (r : row) : option Z :=
  match r !! col with Some (ATime t) => Some t | _ => None end.
Definition row_leb (order : list string) (a b : row) : bool :=
  match order with
  | [] => true
  | col :: _ => match order_key col a, order_key col b with
                | Some x, Some y => (x <=? y)%Z
                | _, None => true
                | None, Some _ => false
                end
  end.
Definition row_le (order : list string) (a b : row) : Prop := row_leb order a b = true.

Definition limited {A} (limit : option Z) (l : list A) : list A :=
  match limit with Some n => take (Z.to_nat n) l | None => l end.

(** [rs] is a possible result of the query over the rows [all]; the order of
    equal rows is the server's choice. *)
Definition selects (q : SelectBuilder) (all rs : list row) : Prop :=
  ∃ sorted, sorted ≡ₚ filter (λ r, eval_where (sel_where q) r) all ∧
    StronglySorted (row_le (sel_order q)) sorted ∧ rs = limited (sel_limit q) sorted.

Definition project (cols : list string) (r : row) : list arg := (λ c, default ANull (r !! c)) <$> cols.

Definition mk_row (cols : list string) (vals : list arg) : row := list_to_map (zip cols vals).

(** ON CONFLICT: the columns of the key, and what is done. *)
Inductive conflict_action := DoNothing | DoUpdate (set_cols : list string).

Definition same_key (key : list string) (a b : row) : bool := forallb (λ c, bool_decide (a !! c = b !! c)) key.

Definition update_row (set_cols : list string) (new old : row) : row :=
  foldr (λ c r, match new !! c with Some v => <[c := v]> r | None => r end) old set_cols.

(** One row inserted: the rows after, and how many were affected. *)
Definition insert_row (key : list string) (act : conflict_action) (new : row) (all : list row) : list row * Z :=
  if existsb (same_key key new) all then
    match act with
    | DoNothing => (all, 0%Z)
    | DoUpdate cols => ((λ r, if same_key key new r then update_row cols new r else r) <$> all, 1%Z)
    end
  else (all ++ [new], 1%Z).

Fixpoint insert_rows (key : list string) (act : conflict_action) (news all : list row) : list row * Z :=
  match news with
  | [] => (all, 0%Z)
  | new :: news' =>
      let '(all1, n) := insert_row key act new all in
      let '(all2, m) := insert_rows key act news' all1 in (all2, (n + m)%Z)
  end.

(** The table [name]: its key, its rows as the target sees them, and the ON
    CONFLICT clause [suffix] of the inserts the program issues on it.  The
    server may fail any statement, and then changes nothing. *)
Class TableSpec (W : Type) `{!DB W} (name : string) (key : list string) (suffix : string)
    (act : conflict_action) (t : target) (rows : W → list row) : Prop := {
  table_ToSql q : sel_from q = name → ToSql (SSelect q) = None;
  table_ToSql_insert cols vals : vals ≠ [] → ToSql (SInsert name cols vals suffix) = None;
  table_ToSql_delete cs : ToSql (SDelete name cs) = None;
  table_select ctx q w : sel_from q = name → ∃ r w', db_select t ctx (SSelect q) w = (Ret r, w') ∧
    rows w' = rows w ∧
    match r with
    | Ok out => ∃ rs, selects q (rows w) rs ∧ out = project (sel_cols q) <$> rs
    | Err e => error_has sql_ErrNoRows e = false
    end;
  table_get ctx q w : sel_from q = name → ∃ r w', db_get t ctx (SSelect q) w = (Ret r, w') ∧
    rows w' = rows w ∧
    match r with
    | Ok out => ∃ r0 rs, selects q (rows w) (r0 :: rs) ∧ out = project (sel_cols q) r0
    | Err e => error_has sql_ErrNoRows e = true → selects q (rows w) []
    end;
  table_insert ctx cols vals w : vals ≠ [] →
    ∃ r w', db_exec t ctx (SInsert name cols vals suffix) w = (Ret r, w') ∧
    match r with
    | Ok n => (rows w', match n with Ok n => n | Err _ => snd (insert_rows key act (mk_row cols <$> vals) (rows w)) end) =
        insert_rows key act (mk_row cols <$> vals) (rows w)
    | Err _ => rows w' = rows w
    end;
  table_delete ctx cs w : ∃ r w', db_exec t ctx (SDelete name cs) w = (Ret r, w') ∧
    match r with
    | Ok n => rows w' = filter (λ r, eval_where cs r = false) (rows w) ∧
        match n with Ok n => n = Z.of_nat (length (rows w) - length (rows w')) | Err _ => True end
    | Err _ => rows w' = rows w
    end;
}.

(** A variable beside the database does not change its tables. *)
Lemma beside_TableSpec {T W} `{!DB W} name key suffix act t rows `{!TableSpec W name key suffix act t rows} :
  @TableSpec (T * W) (DB_beside T W) name key suffix act t (rows ∘ snd).
Proof.
  split.
  - intros q. exact (table_ToSql (TableSpec := TableSpec0) q).
  - intros cols vals. exact (table_ToSql_insert (TableSpec := TableSpec0) cols vals).
  - intros cs. exact (table_ToSql_delete (TableSpec := TableSpec0) cs).
  - intros ctx q [v w] Hq. destruct (table_select ctx q w Hq) as (r & w' & Hr & H1). exists r, (v, w'). cbn. unfold on_env. by rewrite Hr.
  - intros ctx q [v w] Hq. destruct (table_get ctx q w Hq) as (r & w' & Hr & H1). exists r, (v, w'). cbn. unfold on_env. by rewrite Hr.
  - intros ctx cols vals [v w] Hv. destruct (table_insert ctx cols vals w Hv) as (r & w' & Hr & H1). exists r, (v, w'). cbn. unfold on_env. by rewrite Hr.
  - intros ctx cs [v w]. destruct (table_delete ctx cs w) as (r & w' & Hr & H1). exists r, (v, w'). cbn. unfold on_env. by rewrite Hr.
Qed.

(** ** A table in memory *)

Record tableWorld := mkTable { tab_rows : list row }.

(** Insertion sort. *)
Fixpoint insert_sorted (order : list string) (r : row) (l : list row) : list row :=
  match l with
  | [] => [r]
  | x :: l' => if row_leb order r x then r :: l else x :: insert_sorted order r l'
  end.
Definition run_select (q : SelectBuilder) (all : list row) : list row :=
  limited (sel_limit q) (foldr (insert_sorted (sel_order q)) [] (filter (λ r, eval_where (sel_where q) r) all)).

(** What a statement does to the rows. *)
Definition exec_rows (key : list string) (act : conflict_action) (q : stmt) (all : list row) : result (result Z) * list row :=
  match q with
  | SInsert _ cols vals _ => let '(all', n) := insert_rows key act (mk_row cols <$> vals) all in (Ok (Ok n), all')
  | SDelete _ cs =>
      let all' := filter (λ r, eval_where cs r = false) all in (Ok (Ok (Z.of_nat (length all - length all'))), all')
  | _ => (Ok (Ok 0%Z), all)
  end.
Definition get_row (q : stmt) (all : list row) : result (list arg) :=
  match q with
  | SSelect q => match run_select q all with [] => Err (ErrSentinel sql_ErrNoRows) | r :: _ => Ok (project (sel_cols q) r) end
  | _ => Err (ErrSentinel sql_ErrNoRows)
  end.
Definition select_rows (q : stmt) (all : list row) : result (list (list arg)) :=
  match q with SSelect q => Ok (project (sel_cols q) <$> run_select q all) | _ => Ok [] end.

Definition tab_exec (key : list string) (act : conflict_action) (q : stmt) : M tableWorld (result (result Z)) :=
  λ w, let '(r, all) := exec_rows key act q (tab_rows w) in (Ret r, mkTable all).
Definition tab_get (q : stmt) : M tableWorld (result (list arg)) := λ w, (Ret (get_row q (tab_rows w)), w).
Definition tab_select (q : stmt) : M tableWorld (result (list (list arg))) := λ w, (Ret (select_rows q (tab_rows w)), w).

(** The database with this one table. *)
Definition table_DB (key : list string) (act : conflict_action) : DB tableWorld := {|
  ToSql := λ _, None;
  db_exec := λ _ _, tab_exec key act;
  db_select := λ _ _, tab_select;
  db_get := λ _ _, tab_get;
  db_connx := λ _ w, (Ret (Ok 0), w);
  conn_close := λ _ w, (Ret tt, w);
  begin_tx := λ _ _ w, (Ret (Ok 0), w);
  tx_commit := λ _ w, (Ret None, w);
  tx_rollback := λ _ w, (Ret None, w);
|}.

(** ** Lemmas *)

Lemma selects_no_order q all : sel_order q = [] → sel_limit q = None →
  selects q all (filter (λ r, eval_where (sel_where q) r) all).
Proof.
  intros Ho Hl. exists (filter (λ r, eval_where (sel_where q) r) all). split_and!; [done| |by rewrite Hl].
  rewrite Ho. generalize (filter (λ r, eval_where (sel_where q) r) all) as l.
  induction l; constructor; [done|]. by apply Forall_true.
Qed.

(** Everything selected satisfies the conditions. *)
Lemma selects_elem q all rs r : selects q all rs → r ∈ rs → r ∈ all ∧ eval_where (sel_where q) r = true.
Proof.
  intros (sorted & Hp & _ & ->) Hr. assert (r ∈ sorted) as Hs.
  { unfold limited in Hr. destruct (sel_limit q); [|done]. eapply elem_of_subseteq; [|exact Hr].
    apply subseteq_take. }
  rewrite Hp in Hs. apply list_elem_of_filter in Hs as [He Ha]. split; [done|]. by destruct (eval_where _ _).
Qed.

Lemma selects_nil q all : selects q all [] → sel_limit q ≠ Some 0%Z → (∀ n, sel_limit q = Some n → (0 < n)%Z) →
  ∀ r, r ∈ all → eval_where (sel_where q) r = false.
Proof.
  intros (sorted & Hp & _ & Hl) Hz Hpos r Hr. destruct (eval_where (sel_where q) r) eqn:E; [|done].
  assert (r ∈ sorted) as Hs by (rewrite Hp; apply list_elem_of_filter; by rewrite E).
  unfold limited in Hl. destruct (sel_limit q) as [n|]; [|by subst; inversion Hs].
  pose proof (Hpos n eq_refl). destruct (Z.to_nat n) eqn:En; [lia|]. by destruct sorted; [inversion Hs|].
Qed.

Lemma row_leb_total order a b : row_leb order a b = false → row_leb order b a = true.
Proof.
  unfold row_leb. destruct order as [|col order]; [done|].
  destruct (order_key col a), (order_key col b); try done. intros H%Z.leb_gt. apply Z.leb_le. lia.
Qed.

Lemma row_leb_trans order a b c : row_leb order a b = true → row_leb order b c = true → row_leb order a c = true.
Proof.
  unfold row_leb. destruct order as [|col order]; [done|].
  destruct (order_key col a), (order_key col b), (order_key col c); try done.
  intros H1%Z.leb_le H2%Z.leb_le. apply Z.leb_le. lia.
Qed.

Lemma insert_sorted_perm order r l : insert_sorted order r l ≡ₚ r :: l.
Proof. induction l as [|x l IH]; simpl; [done|]. case_match; [done|]. rewrite IH. by constructor. Qed.

Lemma insert_sorted_sorted order r l : StronglySorted (row_le order) l → StronglySorted (row_le order) (insert_sorted order r l).
Proof.
  induction 1 as [|x l Hl IH Hx]; simpl; [repeat constructor|].
  destruct (row_leb order r x) eqn:E.
  - constructor; [by constructor|]. constructor; [done|].
    eapply Forall_impl; [exact Hx|]. intros y Hy. by eapply row_leb_trans.
  - constructor; [done|]. rewrite insert_sorted_perm. constructor; [|done]. by apply row_leb_total.
Qed.

Lemma run_select_selects q all : selects q all (run_select q all).
Proof.
  unfold run_select, selects. eexists. split; [|split; [|done]];
    generalize (filter (λ r, eval_where (sel_where q) r) all) as l;
    induction l as [|r l IH]; simpl; try constructor.
  - by rewrite insert_sorted_perm, IH.
  - by apply insert_sorted_sorted.
Qed.

Lemma get_row_spec q all :
  match get_row (SSelect q) all with
  | Ok out => ∃ r0 rs, selects q all (r0 :: rs) ∧ out = project (sel_cols q) r0
  | Err e => error_has sql_ErrNoRows e = true → selects q all []
  end.
Proof.
  cbn. pose proof (run_select_selects q all) as Hs. destruct (run_select q all) as [|r rs]; [done|]. by exists r, rs.
Qed.

(** The in-memory table meets the specification. *)
Lemma table_DB_spec name key suffix act t :
  @TableSpec tableWorld (table_DB key act) name key suffix act t tab_rows.
Proof.
  split; intros; try done.
  - eexists _, _. split; [done|]. split; [done|]. eexists. split; [apply run_select_selects|done].
  - eexists _, _. split; [done|]. split; [done|]. apply get_row_spec.
  - cbn. unfold tab_exec, exec_rows. destruct (insert_rows key act (mk_row cols <$> vals) (tab_rows w)) as [all n] eqn:E.
    eexists _, _. by split.
  - eexists _, _. by split.
Qed.

Lemma same_key_refl key r : same_key key r r = true.
Proof. unfold same_key. apply forallb_forall. intros c _. by apply bool_decide_eq_true. Qed.

(** ** Tables in a server with transactions *)

Definition stmt_table (q : stmt) : option string :=
  match q with SSelect q => Some (sel_from q) | SInsert name _ _ _ | SDelete name _ => Some name | SRaw _ _ => None end.

(** When the server's statements on the table [name] do to its rows what the
    statements mean, every target of the server sees a table. *)
Lemma server_table_spec {A} exec select get (rowsOf : A → list row) key act name suffix t :
  (∀ q a, stmt_table q = Some name → fst (exec q a) = fst (exec_rows key act q (rowsOf a)) ∧
     rowsOf (snd (exec q a)) = snd (exec_rows key act q (rowsOf a))) →
  (∀ q a, sel_from q = name → select (SSelect q) a = select_rows (SSelect q) (rowsOf a) ∧
     get (SSelect q) a = get_row (SSelect q) (rowsOf a)) →
  @TableSpec _ (server_DB exec select get) name key suffix act t (λ w, default [] (rowsOf <$> view sv_committed sv_working t w)).
Proof.
  intros Hexec Hsel.
  assert (Hat : ∀ w : server A, sv_at t w = view sv_committed sv_working t w) by by destruct t.
  assert (Hset : ∀ (w : server A) (s a : A), view sv_committed sv_working t w = Some s → view sv_committed sv_working t (sv_set t a w) = Some a).
  { intros w s a. destruct t; cbn; unfold sv_working; cbn; by rewrite ?lookup_insert_eq. }
  split; intros; try done.
  - eexists _, _. split; [done|]. split; [done|]. rewrite Hat. destruct (view _ _ t w) as [s|]; [|done]. cbn.
    rewrite (proj1 (Hsel q s H)). eexists. split; [apply run_select_selects|done].
  - eexists _, _. split; [done|]. split; [done|]. rewrite Hat. destruct (view _ _ t w) as [s|]; [|done]. cbn.
    rewrite (proj2 (Hsel q s H)). apply get_row_spec.
  - cbn [db_exec server_DB]. unfold sv_run. rewrite Hat. destruct (view _ _ t w) as [s|] eqn:E; [|eexists _, _; by rewrite E].
    destruct (Hexec (SInsert name cols vals suffix) s eq_refl) as [Hr Ha]. destruct (exec _ s) as [r a]. eexists _, _. split; [done|].
    rewrite (Hset _ _ _ E). cbn [fst snd exec_rows] in Hr, Ha. cbn. rewrite Ha, Hr.
    by destruct (insert_rows key act (mk_row cols <$> vals) (rowsOf s)).
  - cbn [db_exec server_DB]. unfold sv_run. rewrite Hat. destruct (view _ _ t w) as [s|] eqn:E; [|eexists _, _; by rewrite E].
    destruct (Hexec (SDelete name cs) s eq_refl) as [Hr Ha]. destruct (exec _ s) as [r a]. eexists _, _. split; [done|].
    rewrite (Hset _ _ _ E). cbn [fst snd exec_rows] in Hr, Ha. cbn. by rewrite Ha, Hr.
Qed.

(** A server with one table, beside other data. *)
Definition table_server_DB {X : Type} (key : list string) (act : conflict_action) : DB (server (list row * X)) :=
  server_DB (λ q s, let '(r, all) := exec_rows key act q (fst s) in (r, (all, snd s)))
    (λ q s, select_rows q (fst s)) (λ q s, get_row q (fst s)).

Lemma table_server_spec {X : Type} key act name suffix t :
  @TableSpec (server (list row * X)) (table_server_DB key act) name key suffix act t
    (λ w, default [] (fst <$> view sv_committed sv_working t w)).
Proof.
  apply server_table_spec; [|done]. intros q a _. by destruct (exec_rows key act q (fst a)).
Qed.

(** A server with two tables, told apart by the second one's name. *)
Section two_tables.
Context (key1 : list string) (act1 : conflict_action) (name2 : string) (key2 : list string) (act2 : conflict_action).
Abbreviation two := (list row * list row)%type.

Definition on_second (q : stmt) : bool := bool_decide (stmt_table q = Some name2).
Definition pair_exec (q : stmt) (st : two) : result (result Z) * two :=
  if on_second q then let '(r, b) := exec_rows key2 act2 q (snd st) in (r, (fst st, b))
  else let '(r, a) := exec_rows key1 act1 q (fst st) in (r, (a, snd st)).
Definition table_of (q : stmt) (st : two) : list row := if on_second q then snd st else fst st.
Definition pair_DB : DB (server two) :=
  server_DB pair_exec (λ q st, select_rows q (table_of q st)) (λ q st, get_row q (table_of q st)).

Lemma pair_exec_keeps q a :
  (on_second q = true → fst (snd (pair_exec q a)) = fst a) ∧ (on_second q = false → snd (snd (pair_exec q a)) = snd a).
Proof. unfold pair_exec. destruct (on_second q); destruct (exec_rows _ _ q _); done. Qed.

Lemma on_second_other q name : stmt_table q = Some name → name ≠ name2 → on_second q = false.
Proof. intros Hq Hn. unfold on_second. rewrite Hq. apply bool_decide_eq_false. by intros [= ?]. Qed.

Lemma pair_first name1 suffix t : name1 ≠ name2 →
  @TableSpec _ pair_DB name1 key1 suffix act1 t (λ w, default [] (fst <$> view sv_committed sv_working t w)).
Proof.
  intros Hne. apply (server_table_spec (A := two)).
  - intros q a Hq. unfold pair_exec. rewrite (on_second_other q name1 Hq Hne). by destruct (exec_rows _ _ q (fst a)).
  - intros q a Hq. unfold table_of. by rewrite (on_second_other (SSelect q) name1) by (cbn; congruence).
Qed.
Lemma pair_second suffix t :
  @TableSpec _ pair_DB name2 key2 suffix act2 t (λ w, default [] (snd <$> view sv_committed sv_working t w)).
Proof.
  assert (Hon : ∀ q, stmt_table q = Some name2 → on_second q = true) by (intros q; apply bool_decide_eq_true_2).
  apply (server_table_spec (A := two)).
  - intros q a Hq. unfold pair_exec. rewrite (Hon q Hq). by destruct (exec_rows _ _ q (snd a)).
  - intros q a Hq. unfold table_of. by rewrite (Hon (SSelect q)) by (cbn; congruence).
Qed.

(** A statement leaves the other table. *)
Lemma pair_keeps_first t ctx q w r w' : on_second q = true → @db_exec _ pair_DB t ctx q w = (r, w') →
  fst <$> view sv_committed sv_working t w' = fst <$> view sv_committed sv_working t w.
Proof. intros Hq. apply server_exec_keeps. intros a. by apply pair_exec_keeps. Qed.
Lemma pair_keeps_second t ctx q w r w' : on_second q = false → @db_exec _ pair_DB t ctx q w = (r, w') →
  snd <$> view sv_committed sv_working t w' = snd <$> view sv_committed sv_working t w.
Proof. intros Hq. apply server_exec_keeps. intros a. by apply pair_exec_keeps. Qed.

(** The only errors are those of a closed transaction and of no row. *)
Lemma pair_get_errors t ctx q w e w' : @db_get _ pair_DB t ctx q w = (Ret (Err e), w') → e = errTxDone ∨ e = ErrSentinel sql_ErrNoRows.
Proof.
  intros [= Hq _]. destruct (sv_at t w) as [s|]; cbn in Hq; [|simplify_eq; by left]. unfold get_row in Hq. repeat case_match; simplify_eq; by right.
Qed.
Lemma pair_exec_errors t ctx q w e w' : @db_exec _ pair_DB t ctx q w = (Ret (Err e), w') → e = errTxDone.
Proof.
  intros Hrun. cbn in Hrun. destruct q; [..|by injection Hrun];
    unfold sv_run in Hrun; (destruct (sv_at t w); [|by simplify_eq]);
    unfold pair_exec, exec_rows in Hrun; repeat case_match; simplify_eq.
Qed.
End two_tables.
