(* ===== verification/MessageStorage.v ===== *)
(** pkg/sql/messagestorage.go: the message storage over the SQL client. *)
From S2P Require Import Prelude Context Message Sql Table.
From Stdlib Require Import Sorting.Sorted.

Definition messageStorageLockName : string := "message_storage".
Definition message_table : string := "message_storage".
Definition message_conflict : string := "on conflict (id, topic) do nothing".
Definition message_cols : list string := ["id"; "topic"; "key"; "payload"; "scheduled_at"].

(** The name the builder writes: the base name and "_key" for each extra key. *)
Definition lockName (extraKeys : list string) : string :=
  match extraKeys with
  | [] => messageStorageLockName
  | _ => foldl (λ sb key, sb +:+ "_" +:+ key) messageStorageLockName extraKeys
  end.

(** Scanning a row into [sqlxMessage] and converting it. *)
Definition scan_message (r : list arg) : option Message :=
  match r with
  | [AUuid id; AText topic; AText key; AText payload] => Some (mkMessage id topic key payload)
  | _ => None
  end.

Definition errScan : error := ErrText "sql: Scan error on column".

(** [Find]'s query. *)
Definition find_query (spec : StorageSpecification) : SelectBuilder :=
  let qb := mkSelect ["id"; "topic"; "key"; "payload"] message_table
              [CLtOrEq "scheduled_at" (ATime (ScheduledAtBefore spec))] ["scheduled_at"] None [] in
  let qb := match IDsExcluded spec with [] => qb | ids => sb_where (CNotIn "id" (AUuid <$> ids)) qb end in
  let qb := match Topics spec with [] => qb | ts => sb_where (CIn "topic" (AText <$> ts)) qb end in
  if (0 <? Limit spec)%Z then sb_limit (Limit spec) qb else qb.

Definition message_vals (scheduledAt : time) (m : Message) : list arg :=
  [AUuid (msg_ID m); AText (msg_Topic m); AText (msg_Key m); AText (msg_Payload m); ATime scheduledAt].

Section storage.
Context {W : Type} `{!DB W}.

(** A failed lock comes with a [nil] context. *)
Definition MessageStorage_Lock (ctx : context) (extraKeys : list string) : M W (lockResult W) :=
  r ← withSessionLevelLock ctx (lockName extraKeys);
  match r with
  | Ok (ctx, release) => mret (Locked ctx release)
  | Err e => mret (LockFailed None e)
  end.

Definition MessageStorage_Find (ctx : context) (spec : StorageSpecification) : M W (result (list Message)) :=
  match ToSql (SSelect (find_query spec)) with
  | Some e => mret (Err (Errorf "build sql" e))
  | None =>
      r ← SelectContext ctx (SSelect (find_query spec));
      match r with
      | Err e => mret (Err (Errorf "select query" e))
      | Ok out => mret (match mapM scan_message out with
                        | Some ms => Ok ms
                        | None => Err (Errorf "select query" errScan)
                        end)
      end
  end.

Definition MessageStorage_Store (ctx : context) (scheduledAt : time) (msgs : list Message) : M W (option error) :=
  match msgs with
  | [] => mret None
  | _ =>
      let q := SInsert message_table message_cols (message_vals scheduledAt <$> msgs) message_conflict in
      match ToSql q with
      | Some e => mret (Some (Errorf "build sql" e))
      | None =>
          r ← ExecContext ctx q;
          mret (match r with Err e => Some (Errorf "insert query" e) | Ok _ => None end)
      end
  end.

Definition MessageStorage_Delete (ctx : context) (topic : Topic) (ids : list uuid) : M W (option error) :=
  match ids with
  | [] => mret None
  | _ =>
      let q := SDelete message_table [CEq "topic" (AText topic); CIn "id" (AUuid <$> ids)] in
      match ToSql q with
      | Some e => mret (Some (Errorf "build sql" e))
      | None =>
          r ← ExecContext ctx q;
          mret (match r with Err e => Some (Errorf "delete query" e) | Ok _ => None end)
      end
  end.

(** The interface the outbox and the consumers use. *)
#[export] Instance messageStorage : Storage W := {|
  Lock := MessageStorage_Lock;
  Find := MessageStorage_Find;
  Store := MessageStorage_Store;
  Delete := MessageStorage_Delete;
|}.
End storage.

(** ** Abstract specification: a list of scheduled messages *)

Definition stored_row (e : time * Message) : gmap string arg := mk_row message_cols (message_vals (fst e) (snd e)).

Definition matches (spec : StorageSpecification) (e : time * Message) : Prop :=
  (fst e <= ScheduledAtBefore spec)%Z ∧ (msg_ID (snd e) ∉ IDsExcluded spec) ∧
  (Topics spec = [] ∨ msg_Topic (snd e) ∈ Topics spec).
#[export] Instance matches_dec spec e : Decision (matches spec e).
Proof. apply _. Defined.

Definition scheduled_le (a b : time * Message) : Prop := (fst a <= fst b)%Z.

(** Insertion of a message unless its (id, topic) is there. *)
Definition same_message (a b : Message) : Prop := msg_ID a = msg_ID b ∧ msg_Topic a = msg_Topic b.
#[export] Instance same_message_dec a b : Decision (same_message a b).
Proof. apply _. Defined.
Definition store_one (at_ : time) (stored : list (time * Message)) (m : Message) : list (time * Message) :=
  if decide (Exists (λ e, same_message m (snd e)) stored) then stored else stored ++ [(at_, m)].

Abbreviation MessageTable := (TableSpec _ message_table ["id"; "topic"] message_conflict DoNothing).

(** ** Lemmas *)

Lemma eval_find_query spec e :
  eval_where (sel_where (find_query spec)) (stored_row e) = true ↔ matches spec e.
Proof.
  destruct e as [at_ m], spec as [ids ts before limit]. unfold matches, find_query; simpl.
  assert (Hc : ∀ cs, eval_where (CLtOrEq "scheduled_at" (ATime before) :: cs) (stored_row (at_, m)) = true ↔
    (at_ <= before)%Z ∧ eval_where cs (stored_row (at_, m)) = true).
  { intros cs. unfold eval_where. cbn [forallb]. rewrite andb_true_iff.
    assert (eval_cond (CLtOrEq "scheduled_at" (ATime before)) (stored_row (at_, m)) = (at_ <=? before)%Z) as -> by reflexivity.
    by rewrite Z.leb_le. }
  assert (Hids : eval_cond (CNotIn "id" (AUuid <$> ids)) (stored_row (at_, m)) = true ↔ msg_ID m ∉ ids).
  { change (negb (bool_decide (AUuid (msg_ID m) ∈ AUuid <$> ids)) = true ↔ msg_ID m ∉ ids).
    rewrite negb_true_iff, bool_decide_eq_false. rewrite list_elem_of_fmap. naive_solver. }
  assert (Hts : eval_cond (CIn "topic" (AText <$> ts)) (stored_row (at_, m)) = true ↔ msg_Topic m ∈ ts).
  { change (bool_decide (AText (msg_Topic m) ∈ AText <$> ts) = true ↔ msg_Topic m ∈ ts).
    rewrite bool_decide_eq_true. rewrite list_elem_of_fmap. naive_solver. }
  assert (Hlim : ∀ q, sel_where (if (0 <? limit)%Z then sb_limit limit q else q) = sel_where q) by (intros; by case_match).
  rewrite Hlim. clear Hlim.
  destruct ids as [|i ids], ts as [|t ts]; cbn [sel_where sb_where app]; rewrite Hc; unfold eval_where; cbn [forallb];
    rewrite ?andb_true_iff, ?Hids, ?Hts; set_solver.
Qed.

Lemma scan_project (l : list (time * Message)) :
  mapM scan_message (project ["id"; "topic"; "key"; "payload"] <$> (stored_row <$> l)) = Some (snd <$> l).
Proof.
  apply mapM_Some. induction l as [|[at_ [id topic key payload]] l IH]; [constructor|].
  rewrite !fmap_cons. constructor; [reflexivity|exact IH].
Qed.

Lemma order_key_stored e : order_key "scheduled_at" (stored_row e) = Some (fst e).
Proof. by destruct e as [at_ [id topic key payload]]. Qed.

Lemma sorted_stored l : StronglySorted (row_le ["scheduled_at"]) (stored_row <$> l) → StronglySorted scheduled_le l.
Proof.
  induction l as [|e l IH]; [constructor|]. rewrite fmap_cons. inversion 1 as [|? ? Hs Hf]; subst.
  constructor; [by apply IH|]. rewrite Forall_fmap in Hf. eapply Forall_impl; [exact Hf|].
  intros e' He. unfold row_le, row_leb in He. simpl in He. rewrite !order_key_stored in He. by apply Z.leb_le.
Qed.

Lemma find_query_order spec : sel_order (find_query spec) = ["scheduled_at"].
Proof. unfold find_query. destruct (IDsExcluded spec), (Topics spec); by case_match. Qed.
Lemma find_query_cols spec : sel_cols (find_query spec) = ["id"; "topic"; "key"; "payload"].
Proof. unfold find_query. destruct (IDsExcluded spec), (Topics spec); by case_match. Qed.
Lemma find_query_from spec : sel_from (find_query spec) = message_table.
Proof. unfold find_query. destruct (IDsExcluded spec), (Topics spec); by case_match. Qed.
Lemma find_query_limit spec : sel_limit (find_query spec) = if (0 <? Limit spec)%Z then Some (Limit spec) else None.
Proof. unfold find_query. destruct (IDsExcluded spec), (Topics spec); by case_match. Qed.

Lemma same_key_stored a b :
  same_key ["id"; "topic"] (stored_row a) (stored_row b) = true ↔ same_message (snd a) (snd b).
Proof.
  destruct a as [s [i t k p]], b as [s' [i' t' k' p']].
  change (bool_decide (Some (AUuid i) = Some (AUuid i')) && (bool_decide (Some (AText t) = Some (AText t')) && true) = true
    ↔ same_message (mkMessage i t k p) (mkMessage i' t' k' p')).
  rewrite !andb_true_iff, !bool_decide_eq_true. unfold same_message. simpl. naive_solver.
Qed.

(** The insert of several rows is the insertion of one message after the
    other. *)
Lemma insert_rows_stored at_ msgs stored :
  fst (insert_rows ["id"; "topic"] DoNothing (mk_row message_cols <$> (message_vals at_ <$> msgs)) (stored_row <$> stored)) =
  stored_row <$> foldl (store_one at_) stored msgs.
Proof.
  revert stored. induction msgs as [|m msgs IH]; intros stored; [done|]. rewrite !fmap_cons. cbn [insert_rows foldl].
  assert (Hone : fst (insert_row ["id"; "topic"] DoNothing (mk_row message_cols (message_vals at_ m)) (stored_row <$> stored))
    = stored_row <$> store_one at_ stored m).
  { unfold insert_row, store_one. destruct (existsb _ _) eqn:E; destruct (decide _) as [Hx|Hx]; try done.
    - exfalso. apply Hx. apply existsb_exists in E as (r & Hr & Hk). apply list_elem_of_In in Hr.
      apply list_elem_of_fmap in Hr as (e & -> & He). apply Exists_exists. exists e. split; [done|].
      by apply (same_key_stored (at_, m)).
    - exfalso. apply Exists_exists in Hx as (e & He & Hs). apply (same_key_stored (at_, m) e) in Hs.
      rewrite <- not_true_iff_false in E. apply E, existsb_exists. exists (stored_row e). split; [|done].
      apply list_elem_of_In. by apply list_elem_of_fmap_2.
    - simpl. by rewrite fmap_app. }
  destruct (insert_row _ _ _ _) as [all1 n1] eqn:E1. simpl in Hone. subst all1.
  specialize (IH (store_one at_ stored m)). by destruct (insert_rows _ _ _ _) as [all2 n2].
Qed.

Lemma eval_delete topic ids e :
  eval_where [CEq "topic" (AText topic); CIn "id" (AUuid <$> ids)] (stored_row e) = true ↔
  msg_Topic (snd e) = topic ∧ msg_ID (snd e) ∈ ids.
Proof.
  destruct e as [at_ [i t k p]].
  change (bool_decide (AText t = AText topic) && (bool_decide (AUuid i ∈ AUuid <$> ids) && true) = true ↔
    t = topic ∧ i ∈ ids).
  rewrite !andb_true_iff, !bool_decide_eq_true, list_elem_of_fmap. naive_solver.
Qed.

(** ** Theorems *)

(** C27. [Find] implements its specification: over a table that holds the
    scheduled messages [stored], it returns the messages that are due, not
    excluded and, when topics are given, in one of the topics, ordered by
    schedule and cut to the limit when that is positive; it changes nothing.
    Only the server can make it fail. *)
Theorem messageStorage_Find_spec {W} `{!DB W} (ctx : context) (spec : StorageSpecification)
    (rows : W → list (gmap string arg)) `{!MessageTable (route ctx) rows} (w : W) (stored : list (time * Message))
    (Hrows : rows w = stored_row <$> stored) :
  ∃ r w', Find ctx spec w = (Ret r, w') ∧ rows w' = rows w ∧
    match r with
    | Err _ => ∃ e w'', SelectContext ctx (SSelect (find_query spec)) w = (Ret (Err e), w'')
    | Ok ms => ∃ due, due ≡ₚ filter (matches spec) stored ∧ StronglySorted scheduled_le due ∧
        ms = snd <$> (if (0 <? Limit spec)%Z then take (Z.to_nat (Limit spec)) due else due)
    end.
Proof.
  simpl. unfold MessageStorage_Find. rewrite (table_ToSql (rows := rows) (t := route ctx)) by apply find_query_from.
  destruct (table_select (rows := rows) (t := route ctx) ctx (find_query spec) w (find_query_from spec))
    as ([out|e] & w' & Hsel & Hr & Hout); unfold SelectContext; rewrite (M_bind_Ret _ _ _ _ _ Hsel); eexists _, w';
    (split; [done|]); (split; [done|]); [|by eauto].
  destruct Hout as (rs & (sorted & Hp & Hs & ->) & ->).
  rewrite Hrows, (filter_fmap_pull stored_row _ (matches spec)) in Hp
    by (intros e; rewrite bool_is_true; apply eval_find_query).
  apply (Permutation_map_inv stored_row) in Hp as (due & Hsorted & Hdue). symmetry in Hdue.
  assert (sorted = stored_row <$> due) as -> by done.
  rewrite find_query_order in Hs. apply sorted_stored in Hs.
  rewrite find_query_limit, find_query_cols. unfold limited. destruct (0 <? Limit spec)%Z.
  - rewrite <- fmap_take, scan_project. by exists due.
  - rewrite scan_project. by exists due.
Qed.

(** C28. [Store] and [Delete] implement their specification over such a table:
    on success [Store] adds each message whose (id, topic) is not there yet,
    with its schedule, and leaves the others as they are (so storing twice is
    storing once), and [Delete] removes exactly the messages of the topic with
    one of the ids; an error of the server is returned and changes nothing. *)
Theorem messageStorage_Store_Delete_spec {W} `{!DB W} (ctx : context)
    (rows : W → list (gmap string arg)) `{!MessageTable (route ctx) rows} (w : W) (stored : list (time * Message))
    (Hrows : rows w = stored_row <$> stored) :
  (∀ at_ msgs, ∃ err w', Store ctx at_ msgs w = (Ret err, w') ∧
     rows w' = stored_row <$> (match err with None => foldl (store_one at_) stored msgs | Some _ => stored end)) ∧
  (∀ topic ids, ∃ err w', Delete ctx topic ids w = (Ret err, w') ∧
     rows w' = stored_row <$> (match err with
                               | None => filter (λ e, ¬ (msg_Topic (snd e) = topic ∧ msg_ID (snd e) ∈ ids)) stored
                               | Some _ => stored
                               end)).
Proof.
  split; simpl.
  - intros at_ [|m msgs]; [by eexists _, _|]. cbn [MessageStorage_Store].
    rewrite (table_ToSql_insert (rows := rows) (t := route ctx)) by done.
    destruct (table_insert (rows := rows) (t := route ctx) ctx message_cols (message_vals at_ <$> m :: msgs) w)
      as ([n|e] & w' & Hx & Hr); [done| |]; unfold ExecContext; rewrite (M_bind_Ret _ _ _ _ _ Hx);
      eexists _, w'; (split; [done|]); [|by rewrite Hr].
    change (rows w' = stored_row <$> foldl (store_one at_) stored (m :: msgs)).
    rewrite <- insert_rows_stored. rewrite Hrows in Hr. by rewrite <- Hr.
  - intros topic [|i ids].
    { eexists _, _. split; [done|]. rewrite Hrows. f_equal. symmetry. apply filter_all. set_solver. }
    cbn [MessageStorage_Delete]. rewrite (table_ToSql_delete (rows := rows) (t := route ctx)).
    destruct (table_delete (rows := rows) (t := route ctx) ctx
      [CEq "topic" (AText topic); CIn "id" (AUuid <$> i :: ids)] w)
      as ([n|e] & w' & Hx & Hr); unfold ExecContext; rewrite (M_bind_Ret _ _ _ _ _ Hx);
      eexists _, w'; (split; [done|]); [|by rewrite Hr].
    destruct Hr as [-> _]. rewrite Hrows.
    apply filter_fmap_pull. intros e. pose proof (eval_delete topic (i :: ids) e) as He.
    rewrite <- not_true_iff_false. by rewrite He.
Qed.

(** The names of the storage's locks: the plain name and the names with
    extra keys differ, keys of one element give different names for different
    keys, and a failed lock gives no context. *)
Theorem messageStorage_Lock_spec {W} `{!DB W} (ctx : context) (k k' : string) (keys : list string) (w : W) :
  lockName (k :: keys) ≠ lockName [] ∧
  (lockName [k] = lockName [k'] → k = k') ∧
  match MessageStorage_Lock ctx keys w, withSessionLevelLock ctx (lockName keys) w with
  | (Ret (LockFailed c _), _), (Ret (Err _), _) => c = None
  | (Ret (Locked _ _), _), (Ret (Ok _), _) => True
  | (Panic _, _), (Panic _, _) | (Blocked, _), (Blocked, _) | (OutOfFuel, _), (OutOfFuel, _) => True
  | _, _ => False
  end.
Proof.
  assert (Hlen : ∀ l acc, String.length acc ≤ String.length (foldl (λ sb key, sb +:+ "_" +:+ key) acc l)).
  { induction l as [|x l IH]; intros acc; simpl; [done|]. etrans; [|apply IH]. rewrite string_length_app. lia. }
  split_and!.
  - intros Heq. apply (f_equal String.length) in Heq. simpl in Heq.
    pose proof (Hlen keys (messageStorageLockName +:+ "_" +:+ k)) as H.
    rewrite Heq in H. rewrite !string_length_app in H. simpl in H. lia.
  - simpl. intros Heq. by simplify_eq/=.
  - unfold MessageStorage_Lock. unfold_M.
    by destruct (withSessionLevelLock ctx (lockName keys) w) as [[[[c rel]|e]|s| |] w'].
Qed.

(** ** Witnesses *)

Definition sample_stored : list (time * Message) :=
  [(5%Z, mkMessage 2 "b" "k" "p2"); (3%Z, mkMessage 1 "a" "k" "p1"); (9%Z, mkMessage 3 "a" "k" "p3")].
Definition sample_messages_DB : DB tableWorld := table_DB ["id"; "topic"] DoNothing.

Lemma messageStorage_Find_spec_witness :
  ∃ due, due ≡ₚ filter (matches (mkSpec [] [] 5 10)) sample_stored ∧ StronglySorted scheduled_le due ∧
    [mkMessage 1 "a" "k" "p1"; mkMessage 2 "b" "k" "p2"] = snd <$> take 10 due.
Proof.
  destruct (@messageStorage_Find_spec tableWorld sample_messages_DB context_Background (mkSpec [] [] 5 10) tab_rows
    (table_DB_spec _ _ _ _ _) (mkTable (stored_row <$> sample_stored)) sample_stored eq_refl)
    as (r & w' & Hrun & _ & Hr).
  assert (Hres : r = Ok [mkMessage 1 "a" "k" "p1"; mkMessage 2 "b" "k" "p2"]).
  { apply (f_equal fst) in Hrun. vm_compute in Hrun. congruence. }
  rewrite Hres in Hr. exact Hr.
Defined.

Lemma messageStorage_Store_Delete_spec_witness :
  ∃ err w', @Delete tableWorld (@messageStorage tableWorld sample_messages_DB) context_Background "a" [1%N]
      (mkTable (stored_row <$> sample_stored)) = (Ret err, w') ∧
    tab_rows w' = stored_row <$> (match err with
      | None => filter (λ e, ¬ (msg_Topic (snd e) = "a" ∧ msg_ID (snd e) ∈ [1%N])) sample_stored
      | Some _ => sample_stored end).
Proof.
  refine (proj2 (@messageStorage_Store_Delete_spec tableWorld sample_messages_DB context_Background tab_rows
    (table_DB_spec _ _ _ _ _) (mkTable (stored_row <$> sample_stored)) sample_stored _) "a" [1%N]).
  reflexivity.
Defined.
