(* ===== verification/Migration.v ===== *)
(** pkg/sql/migration.go: collecting, ordering and performing schema
    migrations; internal/pkg/cmd/sqlmigration.go, and the sources of migrations
    of messagestorage.go, idempotencykey.go and src/data/sql. *)
From S2P Require Import Prelude GoSort GoStrings Context Sql.
From Stdlib Require Import Sorting.Sorted Ascii.

Definition migrationLockName : string := "perform_migration".
Definition newline : string := String "010"%char "".
Definition querySeparator : string := ";" +:+ newline.

(** The error the driver returns for a table that does not exist
    ([pq.Error] with code 42P01). *)
Definition pqErrorCodeRelationDoesNotExist : string := "pq.Error: 42P01".

Record Migration := mkMigration { mig_ID : string; mig_SQL : string }.

(** [MigrationSource]: a function without effects on the world. *)
Abbreviation MigrationSource := (result (list Migration)) (only parsing).

(** A raw string literal: its lines, each with the tabs before it. *)
Fixpoint raw_lines (lines : list (nat * string)) : string :=
  match lines with
  | [] => ""
  | (tabs, text) :: lines => newline +:+ String.concat "" (replicate tabs (String "009"%char "")) +:+ text +:+ raw_lines lines
  end.
Definition migrationTableDDL : result (list Migration) :=
  Ok [mkMigration "0000-00-00-000-create-migration-table"
        (raw_lines [(4, "create table if not exists migration ("); (5, "id text primary key"); (4, ");"); (3, "")])].

Fixpoint collect (sources : list (result (list Migration))) : result (list Migration) :=
  match sources with
  | [] => Ok []
  | s :: sources' =>
      match s with
      | Err e => Err (Errorf "get migrations from source" e)
      | Ok ms => match collect sources' with Err e => Err e | Ok ms' => Ok (ms ++ ms') end
      end
  end.

Definition splitIntoQueries (sql : string) : list string :=
  filter (λ q, q ≠ "") (TrimSpace <$> Split sql querySeparator).

Definition createMigrationRecord (id : string) : stmt := SInsert "migration" [] [[AText id]] "".
Definition performed_query : SelectBuilder := mkSelect ["id"] "migration" [] [] None [].

Section migrator.
Context {W : Type} `{!DB W, !LogSink W} (error_Error : error → string) (logger : Logger).

Fixpoint execAll (ctx : context) (tx : nat) (queries : list string) : M W (option error) :=
  match queries with
  | [] => mret None
  | q :: queries' =>
      r ← db_exec (OnTx tx) ctx (SRaw q []);
      match r with Err e => mret (Some e) | Ok _ => execAll ctx tx queries' end
  end.

Definition performMigrationImpl (ctx : context) (tx : nat) (m : Migration) : M W (option error) :=
  let sql := TrimSpace (mig_SQL m) in
  if String.eqb sql "" then mret (Some (ErrText "empty migration"))
  else
    err ← execAll ctx tx (splitIntoQueries sql);
    match err with
    | Some e => mret (Some e)
    | None =>
        match ToSql (createMigrationRecord (mig_ID m)) with
        | Some e => mret (Some e)
        | None =>
            r ← db_exec (OnTx tx) ctx (createMigrationRecord (mig_ID m));
            mret (result_err r)
        end
    end.

Definition performMigration (ctx : context) (m : Migration) : M W (option error) :=
  r ← Begin ctx;
  match r with
  | Err e => mret (Some (Errorf "start tx" e))
  | Ok tx =>
      err ← performMigrationImpl ctx tx m;
      match err with
      | Some e =>
          _ ← tx_rollback tx;
          mret (Some (Errorf ("migration " +:+ mig_ID m +:+ " failed") e))
      | None =>
          err ← tx_commit tx;
          match err with
          | Some e => mret (Some (Errorf "commit tx" e))
          | None =>
              _ ← logger_Log (logger_With logger [("migrationID", mig_ID m)]) (Some ctx) LevelInfo
                    "migration executed successfully";
              mret None
          end
      end
  end.

(** The ids of the migration table; none when it does not exist yet. *)
Definition getPerformedMigrationIDs (ctx : context) : M W (result (gset string)) :=
  match ToSql (SSelect performed_query) with
  | Some e => mret (Err e)
  | None =>
      r ← SelectContext ctx (SSelect performed_query);
      mret (match r with
            | Err e => if error_has pqErrorCodeRelationDoesNotExist e then Ok ∅ else Err e
            | Ok rows => Ok (list_to_set (omap (λ r, match r with [AText id] => Some id | _ => None end) rows))
            end)
  end.

Fixpoint performAll (ctx : context) (performed : gset string) (ms : list Migration) : M W (option error) :=
  match ms with
  | [] => mret None
  | m :: ms' =>
      if decide (mig_ID m ∈ performed) then performAll ctx performed ms'
      else
        err ← performMigration ctx m;
        match err with
        | Some e => mret (Some e)
        | None => performAll ctx performed ms'
        end
  end.

Definition performMigrations (ctx : context) (ms : list Migration) : M W (option error) :=
  r ← getPerformedMigrationIDs ctx;
  match r with
  | Err e => mret (Some (Errorf "get performed migrations" e))
  | Ok performed => performAll ctx performed ms
  end.

(** [Execute].  Its result is not named, so the deferred release only logs. *)
Definition releaseMigrationLock (ctx : context) (releaseLock : M W (option error)) : M W unit :=
  err ← releaseLock;
  match err with
  | Some e => logger_Log (logger_WithError error_Error logger (Some e)) (Some ctx) LevelError
                "failed to release migration lock"
  | None => mret tt
  end.

Definition Execute (ctx : context) (sources : list (result (list Migration))) : M W (option error) :=
  match sources with
  | [] => mret None
  | _ =>
      match collect (sources ++ [migrationTableDDL]) with
      | Err e => mret (Some e)
      | Ok ms =>
          let ms := sort_by mig_ID ms in
          r ← withSessionLevelLock ctx migrationLockName;
          match r with
          | Err e => mret (Some (Errorf "get migration lock" e))
          | Ok (ctx, releaseLock) =>
              deferring (performMigrations ctx ms) (releaseMigrationLock ctx releaseLock)
          end
      end
  end.

(** [sqlMigrations.MustRegister] *)
Definition MustRegister (ctx : context) (sources : list (result (list Migration))) : M W unit :=
  match sources with
  | [] => mret tt
  | _ =>
      err ← Execute ctx sources;
      match err with
      | Some e => panic (error_Error (Errorf "execute migrations" e))
      | None => mret tt
      end
  end.
End migrator.

(** [FSMigrations]: the entries of the directory, each with its name, whether
    it is a directory and what reading it gives. *)
Record DirEntry := mkDirEntry { de_Name : string; de_IsDir : bool; de_Content : result string }.

Fixpoint readEntries (entries : list DirEntry) : result (list Migration) :=
  match entries with
  | [] => Ok []
  | e :: entries' =>
      if de_IsDir e then readEntries entries'
      else
        match de_Content e with
        | Err _ => Err (ErrText ("read " +:+ de_Name e +:+ " file"))
        | Ok content =>
            match readEntries entries' with
            | Err err => Err err
            | Ok ms => Ok (mkMigration (TrimSuffix (de_Name e) (filepath_Ext (de_Name e))) content :: ms)
            end
        end
  end.

Definition FSMigrations (readDir : result (list DirEntry)) : result (list Migration) :=
  match readDir with
  | Err e => Err (Errorf "read filesystem" e)
  | Ok entries => readEntries entries
  end.

(** *** The sources of the program *)

Definition MessageStorageMigrations : result (list Migration) :=
  Ok [mkMigration "0000-00-00-001-create-message-storage-table"
        (raw_lines [(4, "create table if not exists message_storage (");
                    (5, "id           uuid        not null,");
                    (5, "topic        text        not null,");
                    (5, "key          text        not null,");
                    (5, "payload      bytea       not null,");
                    (5, "scheduled_at timestamptz not null,");
                    (5, "primary key (id, topic)");
                    (4, ");"); (0, "");
                    (4, "create index if not exists message_storage_scheduled_at_topic on message_storage(scheduled_at, topic);");
                    (3, "")])].
Definition IdempotencyKeyMigrations : result (list Migration) :=
  Ok [mkMigration "0000-00-00-001-create-idempotency-key-table"
        (raw_lines [(4, "create table if not exists idempotency_key (");
                    (5, "key   uuid        not null primary key,");
                    (4, "    base  uuid        not null,");
                    (5, "extra text,");
                    (5, "created_at timestamptz not null default current_timestamp");
                    (4, ");"); (3, "")])].

(** ** Abstract specification: the statements committed so far *)

(** What performing a migration commits. *)
Definition statements (m : Migration) : list stmt :=
  ((λ q, SRaw q []) <$> splitIntoQueries (TrimSpace (mig_SQL m))) ++ [createMigrationRecord (mig_ID m)].

Definition record_id (s : stmt) : option string :=
  match s with SInsert "migration" [] [[AText id]] "" => Some id | _ => None end.
Definition recorded_ids (log : list stmt) : gset string := list_to_set (omap record_id log).

Definition pending (log : list stmt) (ms : list Migration) : list Migration :=
  filter (λ m, mig_ID m ∉ recorded_ids log) ms.

(** The statements of a migration take no arguments, those of a lock do. *)
Definition has_no_args (q : stmt) : bool := match q with SRaw _ (_ :: _) => false | _ => true end.

(** The server: statements of a transaction are appended to its working copy,
    the ids read are the committed ones, and locks and connections change
    neither. *)
Class MigrationSpec (W : Type) `{!DB W, !LogSink W} (committed : W → list stmt)
    (working : W → nat → option (list stmt)) : Prop := {
  mig_tx :: TxSpec W (list stmt) committed working;
  mig_ToSql q : ToSql q = None;
  mig_exec t ctx q w s : has_no_args q = true → working w t = Some s → ∃ r w', db_exec (OnTx t) ctx q w = (Ret r, w') ∧
    committed w' = committed w ∧ (∀ t', t' ≠ t → working w' t' = working w t') ∧
    match r with Ok _ => working w' t = Some (s ++ [q]) | Err _ => is_Some (working w' t) end;
  mig_ids t ctx w : ∃ r w', db_select t ctx (SSelect performed_query) w = (Ret r, w') ∧
    committed w' = committed w ∧
    match r with
    | Ok rows => list_to_set (omap (λ r, match r with [AText id] => Some id | _ => None end) rows) =@{gset string}
        recorded_ids (committed w)
    | Err e => error_has pqErrorCodeRelationDoesNotExist e = true → recorded_ids (committed w) = ∅
    end;
  mig_lock c ctx name q w : ∃ r w', db_exec c ctx (advisory_query q name) w = (Ret r, w') ∧ committed w' = committed w;
  mig_unlock c ctx name q w : ∃ r w', db_get c ctx (advisory_query q name) w = (Ret r, w') ∧ committed w' = committed w;
  mig_connx ctx w : ∃ r w', db_connx ctx w = (Ret r, w') ∧ committed w' = committed w;
  mig_close c w : ∃ w', conn_close c w = (Ret tt, w') ∧ committed w' = committed w;
  mig_emit l fs msg w : ∃ w', emit l fs msg w = (Ret tt, w') ∧ committed w' = committed w;
}.

(** *** The transactions of a run

    A trace beside the database: the transactions that were begun, the
    statements sent to them - those of locks apart -, and how they ended. *)
Inductive txEvent :=
| TxRefused
| TxBegan (tx : nat)
| TxExec (tx : nat) (q : stmt)
| TxRolledBack (tx : nat)
| TxCommitted (tx : nat)
| TxCommitFailed (tx : nat).

Definition push_tx {W} (e : txEvent) : M (list txEvent * W) unit := modify_obj (λ t, t ++ [e]).
Definition recorded_DB (W : Type) `{!DB W} : DB (list txEvent * W) := {|
  ToSql := ToSql;
  db_exec := λ t ctx q, r ← on_env (db_exec t ctx q);
    match t with
    | OnTx tx => if has_no_args q then _ ← push_tx (TxExec tx q); mret r else mret r
    | _ => mret r
    end;
  db_select := λ t ctx q, on_env (db_select t ctx q);
  db_get := λ t ctx q, on_env (db_get t ctx q);
  db_connx := λ ctx, on_env (db_connx ctx);
  conn_close := λ c, on_env (conn_close c);
  begin_tx := λ c ctx, r ← on_env (begin_tx c ctx);
    _ ← push_tx (match r with Ok tx => TxBegan tx | Err _ => TxRefused end); mret r;
  tx_commit := λ tx, err ← on_env (tx_commit tx);
    _ ← push_tx (match err with None => TxCommitted tx | Some _ => TxCommitFailed tx end); mret err;
  tx_rollback := λ tx, err ← on_env (tx_rollback tx); _ ← push_tx (TxRolledBack tx); mret err;
|}.
Definition recorded_log (W : Type) `{!LogSink W} : LogSink (list txEvent * W) := λ l fs msg, on_env (emit l fs msg).

(** A migration in a transaction of its own: all its statements and its record,
    and the commit; or, when it failed, no transaction, or one with some of the
    statements that is rolled back, or one that could not be committed. *)
Definition own_transaction (m : Migration) (t : list txEvent) : Prop :=
  ∃ tx, t = TxBegan tx :: (TxExec tx <$> statements m) ++ [TxCommitted tx].
Definition failed_transaction (m : Migration) (t : list txEvent) : Prop :=
  t = [TxRefused] ∨ ∃ tx, (∃ qs, qs `prefix_of` statements m ∧ t = TxBegan tx :: (TxExec tx <$> qs) ++ [TxRolledBack tx]) ∨
    t = TxBegan tx :: (TxExec tx <$> statements m) ++ [TxCommitFailed tx].

(** A history beside the database that only performing a migration adds to. *)
Class TxHistory {T : Type} (W : Type) `{!DB W, !LogSink W} (hist : W → T) (does : T → Migration → option error → T → Prop) : Prop := {
  hi_lock c ctx q name w r w' : db_exec c ctx (advisory_query q name) w = (r, w') → hist w' = hist w;
  hi_unlock c ctx q w r w' : db_get c ctx q w = (r, w') → hist w' = hist w;
  hi_select c ctx q w r w' : db_select c ctx q w = (r, w') → hist w' = hist w;
  hi_connx ctx w r w' : db_connx ctx w = (r, w') → hist w' = hist w;
  hi_close c w r w' : conn_close c w = (r, w') → hist w' = hist w;
  hi_emit l fs msg w r w' : emit l fs msg w = (r, w') → hist w' = hist w;
  hi_perform logger ctx m w err w' : performMigration logger ctx m w = (Ret err, w') → does (hist w) m err (hist w');
}.
Inductive does_each {T} (does : T → Migration → option error → T → Prop) : T → list Migration → T → Prop :=
| does_none h : does_each does h [] h
| does_next h m h1 ms h2 : does h m None h1 → does_each does h1 ms h2 → does_each does h (m :: ms) h2.
(** Each of the first migrations, then the one that failed if any. *)
Definition history_of {T} (does : T → Migration → option error → T → Prop) (h : T) (done rest : list Migration) (err : option error) (h' : T) : Prop :=
  ∃ h1, does_each does h done h1 ∧
    match err with
    | None => rest = [] ∧ h' = h1
    | Some _ => ∃ m rest' e, rest = m :: rest' ∧ does h1 m (Some e) h'
    end.

(** ** A small server for the examples *)

Definition mig_exec_stmt (t : target) (q : stmt) (w : sqlWorld) : sqlWorld :=
  if has_no_args q then
    match t with
    | OnTx t => mkSqlWorld (sw_committed w) (alter (λ s, s ++ [q]) t (sw_tx w)) (sw_conns w) (sw_next w)
    | _ => w
    end
  else w.

Definition mig_DB : DB sqlWorld := {|
  ToSql := λ _, None;
  db_exec := λ t _ q w, (Ret (Ok (Ok 1%Z)), mig_exec_stmt t q w);
  db_select := λ _ _ _ w,
    (Ret (if decide (recorded_ids (sw_committed w) = ∅) then Err (ErrSentinel pqErrorCodeRelationDoesNotExist)
          else Ok ((λ id, [AText id]) <$> omap record_id (sw_committed w))), w);
  db_get := db_get; db_connx := db_connx; conn_close := conn_close;
  begin_tx := begin_tx; tx_commit := tx_commit; tx_rollback := tx_rollback;
|}.
#[local] Instance sql_log : LogSink sqlWorld := λ _ _ _ w, (Ret tt, w).

Definition sample_migrations : list (result (list Migration)) :=
  [Ok [mkMigration "2024-01-01-002" ("create table b (id int);" +:+ newline +:+ "create table c (id int)")];
   Ok [mkMigration "2024-01-01-001" " create table a (id int) "]].

(** ** Lemmas *)

(** *** Migrating leaves alone what the operations of the database do *)

Section steady_migrator.
Context {W : Type} {HD : DB W} {HL : LogSink W} (error_Error : error → string) (logger : Logger) (J : W → Prop).

Class SteadyDB : Prop := {
  sd_exec t ctx q : steady J (db_exec t ctx q);
  sd_select t ctx q : steady J (db_select t ctx q);
  sd_get t ctx q : steady J (db_get t ctx q);
  sd_connx ctx : steady J (db_connx ctx);
  sd_close c : steady J (conn_close c);
  sd_begin c ctx : steady J (begin_tx c ctx);
  sd_commit t : steady J (tx_commit t);
  sd_rollback t : steady J (tx_rollback t);
  sd_emit level fields msg : steady J (emit level fields msg);
}.
Context {HS : SteadyDB}.

Lemma steady_log l ctx level msg : steady J (logger_Log l (Some ctx) level msg).
Proof.
  intros w HJ. destruct (logger_Log_ctx l ctx level msg w) as [->|[fields ->]]; [done|]. by apply sd_emit.
Qed.
#[local] Hint Resolve sd_exec sd_select sd_get sd_connx sd_close sd_begin sd_commit sd_rollback steady_log : steady.

Lemma steady_execAll ctx tx queries : steady J (execAll ctx tx queries).
Proof. induction queries as [|q queries IH]; cbn [execAll]; solve_steady. Qed.
#[local] Hint Resolve steady_execAll : steady.
Lemma steady_performMigration ctx m : steady J (performMigration logger ctx m).
Proof. unfold performMigration, performMigrationImpl, Begin. solve_steady. Qed.
#[local] Hint Resolve steady_performMigration : steady.
Lemma steady_performAll ctx performed ms : steady J (performAll logger ctx performed ms).
Proof. induction ms as [|m ms IH]; cbn [performAll]; solve_steady. Qed.
#[local] Hint Resolve steady_performAll : steady.

(** The session lock, and its release. *)
Lemma steady_session_lock {A} ctx name (f : result (context * M W (option error)) → M W A) :
  (∀ ctx release, steady J release → steady J (f (Ok (ctx, release)))) → (∀ e, steady J (f (Err e))) →
  steady J (r ← withSessionLevelLock ctx name; f r).
Proof.
  intros Hok Herr w HJ. unfold withSessionLevelLock. rewrite M_bind_assoc.
  assert (Hinner : ∀ conn : result (context * M W unit), (∀ c cancel, conn = Ok (c, cancel) → steady J cancel) →
    steady J (r ← match conn with
                  | Ok (ctx, cancelConn) =>
                      r ← ExecContext ctx (advisory_query "select pg_advisory_lock($1)" name);
                      match r with
                      | Ok _ => mret (Ok (ctx, releaseSessionLock ctx name cancelConn))
                      | Err e => _ ← cancelConn; mret (Err (Errorf ("get lock for " +:+ name) e))
                      end
                  | Err e => mret (Err (Errorf ("get connection for " +:+ name) e))
                  end; f r)).
  { intros [[c cancel]|e] Hc; [|intros w0 HJ0; by apply Herr]. specialize (Hc c cancel eq_refl). intros w0 HJ0. rewrite M_bind_assoc.
    revert w0 HJ0. apply steady_bind; [apply sd_exec|]. intros [r|e] w0 HJ0.
    - apply Hok; [|done]. unfold releaseSessionLock, GetContext. solve_steady.
    - rewrite M_bind_assoc. revert w0 HJ0. apply steady_bind; [done|]. intros _ w0 HJ0. by apply Herr. }
  revert w HJ. unfold WithinSingleConnection. destruct (_ || _).
  - intros w HJ. apply (Hinner (Ok (ctx, mret tt))); [|done]. intros c cancel [= <- <-]. solve_steady.
  - intros w HJ. rewrite M_bind_assoc. revert w HJ. apply steady_bind; [apply sd_connx|]. intros [c|e] w HJ; [|by apply (Hinner (Err e))].
    apply (Hinner (Ok (with_conn c ctx, conn_close c))); [|done]. intros c' cancel [= <- <-]. apply sd_close.
Qed.

Lemma steady_Execute ctx sources : steady J (Execute error_Error logger ctx sources).
Proof.
  unfold Execute. destruct sources; [solve_steady|]. destruct (collect _) as [ms|e]; [|solve_steady].
  apply steady_session_lock; [|solve_steady]. intros c release Hr. apply steady_deferring.
  - unfold performMigrations, getPerformedMigrationIDs, SelectContext. solve_steady.
  - unfold releaseMigrationLock. solve_steady.
Qed.

Lemma steady_MustRegister ctx sources : steady J (MustRegister error_Error logger ctx sources).
Proof. unfold MustRegister. pose proof (steady_Execute ctx sources). solve_steady. Qed.
End steady_migrator.

Section migrator_lemmas.
Context {W : Type} `{!DB W, !LogSink W} (error_Error : error → string) (logger : Logger).
Context (committed : W → list stmt) (working : W → nat → option (list stmt)).
Context `{!MigrationSpec W committed working}.
Context {T : Type} (hist : W → T) (does : T → Migration → option error → T → Prop) {HH : TxHistory W hist does}.

Lemma log_spec l ctx level msg w :
  ∃ w', logger_Log l (Some ctx) level msg w = (Ret tt, w') ∧ committed w' = committed w ∧ hist w' = hist w.
Proof using All.
  destruct (logger_Log_ctx l ctx level msg w) as [Hl|[fields Hl]]; rewrite Hl; [by eexists|].
  destruct (mig_emit (committed := committed) (working := working) level fields msg w) as (w' & He & Hc).
  exists w'. split_and!; [done..|]. by eapply (hi_emit (does := does)).
Qed.

Lemma execAll_spec ctx tx queries w s :
  working w tx = Some s → ∃ err w', execAll ctx tx queries w = (Ret err, w') ∧ committed w' = committed w ∧
    (∀ t', t' ≠ tx → working w' t' = working w t') ∧
    match err with None => working w' tx = Some (s ++ ((λ q, SRaw q []) <$> queries)) | Some _ => is_Some (working w' tx) end.
Proof.
  revert w s. induction queries as [|q queries IH]; intros w s Hw.
  - eexists _, _. split; [done|]. by rewrite app_nil_r.
  - cbn [execAll]. destruct (mig_exec (committed := committed) tx ctx (SRaw q []) w s eq_refl Hw)
      as ([n|e] & w1 & Hx & Hc & Hf & Hr); rewrite (M_bind_Ret _ _ _ _ _ Hx).
    + destruct (IH w1 _ Hr) as (err & w' & -> & Hc' & Hf' & He). eexists _, _. split; [done|].
      split; [congruence|]. split; [intros t' Hne; by rewrite Hf', Hf|].
      destruct err; [done|]. by rewrite He, <- app_assoc.
    + by eexists _, _.
Qed.

Lemma performMigrationImpl_spec ctx tx m w s :
  working w tx = Some s → ∃ err w', performMigrationImpl ctx tx m w = (Ret err, w') ∧ committed w' = committed w ∧
    match err with None => working w' tx = Some (s ++ statements m) | Some _ => True end.
Proof.
  intros Hw. unfold performMigrationImpl. destruct (String.eqb _ _); [by eexists _, _|].
  destruct (execAll_spec ctx tx (splitIntoQueries (TrimSpace (mig_SQL m))) w s Hw) as (err & w1 & Hx & Hc & _ & Hr).
  rewrite (M_bind_Ret _ _ _ _ _ Hx). destruct err as [e|]; [by eexists _, _|].
  rewrite (mig_ToSql (committed := committed) (working := working)).
  destruct (mig_exec (committed := committed) tx ctx (createMigrationRecord (mig_ID m)) w1 _ eq_refl Hr)
    as (r & w2 & Hx2 & Hc2 & _ & Hr2); rewrite (M_bind_Ret _ _ _ _ _ Hx2).
  eexists _, w2. split; [done|]. split; [congruence|]. destruct r; simpl; [|done].
  by rewrite Hr2, <- app_assoc.
Qed.

(** A migration is performed completely or not at all. *)
Lemma performMigration_spec ctx m w :
  ∃ err w', performMigration logger ctx m w = (Ret err, w') ∧
    committed w' = match err with None => committed w ++ statements m | Some _ => committed w end.
Proof.
  unfold performMigration, Begin.
  destruct (spec_begin (committed := committed) (working := working) (ctx_conn ctx) ctx w)
    as ([tx|e] & w1 & Hb & Hc1 & Hw1); rewrite (M_bind_Ret _ _ _ _ _ Hb); [|by eexists _, _].
  destruct Hw1 as (_ & Hopen & _).
  destruct (performMigrationImpl_spec ctx tx m w1 _ Hopen) as (err & w2 & Hi & Hc2 & Hr).
  rewrite (M_bind_Ret _ _ _ _ _ Hi). destruct err as [e|].
  - destruct (spec_rollback (committed := committed) (working := working) tx w2) as (err & w3 & Hrb & Hc3 & _).
    rewrite (M_bind_Ret _ _ _ _ _ Hrb). eexists _, w3. split; [done|]. simpl. congruence.
  - destruct (spec_commit (committed := committed) tx w2 _ Hr) as (err & w3 & Hcm & _ & Herr).
    rewrite (M_bind_Ret _ _ _ _ _ Hcm). destruct err as [e|].
    + eexists _, w3. split; [done|]. simpl. congruence.
    + destruct Herr as [Hc3 _]. destruct (log_spec (logger_With logger [("migrationID", mig_ID m)]) ctx LevelInfo
        "migration executed successfully" w3) as (w4 & Hl & Hc4 & _).
      rewrite (M_bind_Ret _ _ _ _ _ Hl). eexists _, w4. split; [done|]. by rewrite Hc4, Hc3.
Qed.

Lemma performAll_spec ctx performed ms w :
  ∃ err w' done rest, performAll logger ctx performed ms w = (Ret err, w') ∧
    filter (λ m, mig_ID m ∉ performed) ms = done ++ rest ∧
    committed w' = committed w ++ concat (statements <$> done) ∧ history_of does (hist w) done rest err (hist w').
Proof using All.
  revert w. induction ms as [|m ms IH]; intros w.
  - eexists _, _, [], []. split_and!; [done|done|by rewrite app_nil_r|]. eexists. split; [apply does_none|done].
  - cbn [performAll]. rewrite filter_cons. destruct (decide (mig_ID m ∈ performed)) as [Hin|Hin].
    + destruct (IH w) as (err & w' & d & rest & -> & Hfil & Hr). rewrite decide_False by set_solver.
      by exists err, w', d, rest.
    + rewrite decide_True by done. destruct (performMigration_spec ctx m w) as (err & w1 & Hx & Hc).
      pose proof (hi_perform _ _ _ _ _ _ Hx) as Hdoes. rewrite (M_bind_Ret _ _ _ _ _ Hx). destruct err as [e|].
      * eexists _, w1, [], _. split; [done|]. simpl. rewrite app_nil_r. split_and!; [done..|].
        eexists. split; [apply does_none|]. by eexists _, _, _.
      * destruct (IH w1) as (err & w' & d & rest & -> & Hfil & Hc' & h1 & Hd & He).
        eexists _, _, (m :: d), rest. split; [done|]. simpl. rewrite Hfil. split; [done|].
        rewrite Hc', Hc, <- app_assoc. split; [done|]. exists h1. split; [by eapply does_next|done].
Qed.

(** Taking and giving back the session lock. *)
Definition untouched (w w' : W) : Prop := committed w' = committed w ∧ hist w' = hist w.
#[local] Instance untouched_trans : Transitive untouched.
Proof. intros x y z [? ?] [? ?]. split; congruence. Qed.

Lemma single_connection_spec ctx w : ∃ r w1, WithinSingleConnection ctx w = (Ret r, w1) ∧ untouched w w1 ∧
  match r with Err _ => True | Ok (c, cancel) => ∀ w2, ∃ w3, cancel w2 = (Ret tt, w3) ∧ untouched w2 w3 end.
Proof using All.
  unfold WithinSingleConnection. destruct (_ || _).
  - eexists _, _. split; [done|]. split; [done|]. intros w2. by exists w2.
  - destruct (mig_connx (committed := committed) (working := working) ctx w) as ([c|e] & w1 & Hx & Hc);
      pose proof (hi_connx (does := does) _ _ _ _ Hx); rewrite (M_bind_Ret _ _ _ _ _ Hx); eexists _, w1; (split; [done|]); (split; [done|]); [|done].
    intros w2. destruct (mig_close (committed := committed) (working := working) c w2) as (w3 & H3 & Hc3).
    exists w3. split; [done|]. split; [done|]. by eapply (hi_close (does := does)).
Qed.

Lemma session_lock_spec ctx name w :
  ∃ r w', withSessionLevelLock ctx name w = (Ret r, w') ∧ untouched w w' ∧
    match r with
    | Err _ => True
    | Ok (c, release) => ∀ w1, ∃ e w2, release w1 = (Ret e, w2) ∧ untouched w1 w2
    end.
Proof using All.
  unfold withSessionLevelLock. destruct (single_connection_spec ctx w) as ([[c cancel]|e] & w1 & Hx & Hc1 & Hcan);
    rewrite (M_bind_Ret _ _ _ _ _ Hx); [|by eexists _, _].
  unfold ExecContext. destruct (mig_lock (committed := committed) (working := working) (route c) c name
    "select pg_advisory_lock($1)" w1) as ([n|e] & w2 & Hl & Hc2); pose proof (hi_lock (does := does) _ _ _ _ _ _ _ Hl) as Hh2;
    rewrite (M_bind_Ret _ _ _ _ _ Hl).
  - eexists _, w2. split; [done|]. split; [by transitivity w1|]. intros w3.
    unfold releaseSessionLock, deferring, GetContext.
    destruct (mig_unlock (committed := committed) (working := working) (route c) c name
      "select pg_advisory_unlock($1)" w3) as (r & w4 & Hu & Hc4). pose proof (hi_unlock (does := does) _ _ _ _ _ _ Hu) as Hh4.
    rewrite (M_bind_Ret _ _ _ _ _ Hu). destruct (Hcan w4) as (w5 & Hcl & Hc5).
    assert (untouched w3 w5) by (by transitivity w4).
    destruct r as [row|e]; [destruct (unlocked row)|]; cbn; unfold_M; rewrite Hcl; by eexists _, w5.
  - destruct (Hcan w2) as (w3 & Hcl & Hc3). rewrite (M_bind_Ret _ _ _ _ _ Hcl). eexists _, w3. split; [done|]. split; [|done].
    transitivity w1; [done|]. by transitivity w2.
Qed.

Lemma releaseMigrationLock_spec ctx release w :
  (∀ w1, ∃ e w2, release w1 = (Ret e, w2) ∧ untouched w1 w2) →
  ∃ w', releaseMigrationLock error_Error logger ctx release w = (Ret tt, w') ∧ untouched w w'.
Proof using All.
  intros Hrel. destruct (Hrel w) as (e & w1 & Hx & Hc). unfold releaseMigrationLock.
  rewrite (M_bind_Ret _ _ _ _ _ Hx). destruct e as [e|]; [|by exists w1].
  destruct (log_spec (logger_WithError error_Error logger (Some e)) ctx LevelError "failed to release migration lock" w1)
    as (w2 & -> & Hc2). exists w2. split; [done|by transitivity w1].
Qed.

(** The run between taking and releasing the lock. *)
Lemma performMigrations_spec c sorted w : ∃ err w' done rest, performMigrations logger c sorted w = (Ret err, w') ∧
  pending (committed w) sorted = done ++ rest ∧ committed w' = committed w ++ concat (statements <$> done) ∧
  (history_of does (hist w) done rest err (hist w') ∨ err ≠ None ∧ done = [] ∧ hist w' = hist w).
Proof using All.
  unfold performMigrations, getPerformedMigrationIDs.
  rewrite (mig_ToSql (committed := committed) (working := working)). unfold SelectContext.
  destruct (mig_ids (committed := committed) (working := working) (route c) c w) as (r & w2 & Hx & Hc2 & Hr).
  pose proof (hi_select (does := does) _ _ _ _ _ _ Hx) as Hh.
  assert (Hgo : ∀ performed, performed = recorded_ids (committed w) → ∃ err w3 done rest, performAll logger c performed sorted w2 = (Ret err, w3) ∧
    pending (committed w) sorted = done ++ rest ∧ committed w3 = committed w ++ concat (statements <$> done) ∧
    (history_of does (hist w) done rest err (hist w3) ∨ err ≠ None ∧ done = [] ∧ hist w3 = hist w)).
  { intros performed ->. destruct (performAll_spec c (recorded_ids (committed w)) sorted w2)
      as (err & w3 & d & rest & H3 & Hf & Hc3 & He). exists err, w3, d, rest. rewrite Hc3, Hc2. split_and!; [done..|left; by rewrite <- Hh]. }
  unfold_M. rewrite Hx. destruct r as [rows|e]; simpl; [apply Hgo; by rewrite Hr|].
  destruct (error_has _ e) eqn:E; simpl; [apply Hgo; symmetry; by apply Hr|].
  eexists _, w2, [], _. split; [done|]. split; [done|]. simpl. rewrite app_nil_r. split; [done|]. by right.
Qed.

Lemma Execute_run ctx sources ms w :
  sources ≠ [] → collect (sources ++ [migrationTableDDL]) = Ok ms →
  ∃ err w' done rest, Execute error_Error logger ctx sources w = (Ret err, w') ∧
    pending (committed w) (sort_by mig_ID ms) = done ++ rest ∧
    committed w' = committed w ++ concat (statements <$> done) ∧
    (history_of does (hist w) done rest err (hist w') ∨ err ≠ None ∧ done = [] ∧ hist w' = hist w).
Proof using All.
  intros Hne Hms. unfold Execute. destruct sources as [|src sources]; [done|]. rewrite Hms.
  set (sorted := sort_by mig_ID ms). clearbody sorted.
  destruct (session_lock_spec ctx migrationLockName w) as ([[c release]|e] & w1 & Hl & [Hc1 Hh1] & Hrel); rewrite (M_bind_Ret _ _ _ _ _ Hl).
  2:{ eexists _, w1, [], _. split; [done|]. split; [done|]. simpl. rewrite app_nil_r. split; [done|]. by right. }
  destruct (performMigrations_spec c sorted w1) as (err & w2 & d & rest & Hx & Hp & Hc & Hh). rewrite Hc1, Hh1 in *.
  unfold deferring. rewrite Hx. destruct (releaseMigrationLock_spec c release w2 Hrel) as (w3 & Hr3 & Hc3 & Hh3).
  rewrite (M_bind_Ret _ _ _ _ _ Hr3). eexists _, w3, d, rest. rewrite Hc3, Hh3. by split_and!.
Qed.
End migrator_lemmas.

(** Without a history. *)
Lemma no_history {W} `{!DB W, !LogSink W} : TxHistory (T := unit) W (λ _, tt) (λ _ _ _ _, True).
Proof. by split. Qed.

Lemma recorded_statements log ds :
  recorded_ids (log ++ concat (statements <$> ds)) = recorded_ids log ∪ list_to_set (mig_ID <$> ds).
Proof.
  assert (Hraw : ∀ qs, omap record_id ((λ q, SRaw q []) <$> qs) = []).
  { induction qs as [|q qs IH]; [done|]. exact IH. }
  unfold recorded_ids. rewrite omap_app, list_to_set_app_L. f_equal.
  induction ds as [|m ds IH]; [done|]. rewrite !fmap_cons. cbn [concat list_to_set].
  rewrite omap_app, list_to_set_app_L, IH. f_equal. unfold statements. rewrite omap_app, Hraw.
  cbn. by rewrite (right_id_L ∅ (∪)).
Qed.

Lemma pending_after log ms d : pending log ms = d → pending (log ++ concat (statements <$> d)) ms = [].
Proof.
  intros <-. unfold pending. rewrite recorded_statements. apply filter_none.
  intros m Hm Hn. apply Hn. destruct (decide (mig_ID m ∈ recorded_ids log)); [set_solver|].
  apply elem_of_union_r, elem_of_list_to_set, list_elem_of_fmap_2. by apply list_elem_of_filter.
Qed.

(** *** The recorded database *)

(** What performing a migration adds to the trace. *)
Definition performs (t : list txEvent) (m : Migration) (err : option error) (t' : list txEvent) : Prop :=
  ∃ ext, t' = t ++ ext ∧ match err with None => own_transaction m ext | Some _ => failed_transaction m ext end.

Lemma does_each_performs t ms t' : does_each performs t ms t' → ∃ txs, t' = t ++ concat txs ∧ Forall2 own_transaction ms txs.
Proof.
  induction 1 as [t|t m t1 ms t2 (ext & -> & He) _ (txs & -> & IH)]; [exists []; by rewrite app_nil_r|].
  exists (ext :: txs). cbn. rewrite <- app_assoc. split; [done|by constructor].
Qed.

Section recorded.
Context {W : Type} {HD : DB W} {HL : LogSink W}.
#[local] Existing Instance recorded_DB.
#[local] Existing Instance recorded_log.
Abbreviation RW := (list txEvent * W)%type.

Lemma recorded_exec tx ctx q (t t' : list txEvent) (w w' : W) r : has_no_args q = true →
  db_exec (W := RW) (OnTx tx) ctx q (t, w) = (Ret r, (t', w')) → t' = t ++ [TxExec tx q].
Proof.
  intros Hq. cbn. rewrite Hq. unfold push_tx; unfold_M; unfold on_env. destruct (db_exec (OnTx tx) ctx q w) as [[]]; intros H; by simplify_eq.
Qed.

Lemma execAll_trace tx ctx qs (t t' : list txEvent) (w w' : W) err :
  execAll (W := RW) ctx tx qs (t, w) = (Ret err, (t', w')) →
  ∃ qs', qs' `prefix_of` qs ∧ t' = t ++ (TxExec tx <$> ((λ q, SRaw q []) <$> qs')) ∧ (err = None → qs' = qs).
Proof.
  revert t w. induction qs as [|q qs IH]; intros t w H; cbn [execAll] in H.
  - injection H as <- <- <-. exists []. by rewrite app_nil_r.
  - apply M_bind_Ret_inv in H as (r & [t1 w1] & Hx & H). apply recorded_exec in Hx as ->; [|done]. destruct r as [n|e].
    + apply IH in H as (qs' & Hp & -> & He). exists (q :: qs'). split; [by apply prefix_cons|]. split; [by rewrite <- app_assoc|].
      intros Hn. by rewrite He.
    + injection H as <- <- <-. exists [q]. split; [by apply prefix_cons, prefix_nil|done].
Qed.

Lemma performMigrationImpl_trace tx ctx m (t t' : list txEvent) (w w' : W) err :
  performMigrationImpl (W := RW) ctx tx m (t, w) = (Ret err, (t', w')) →
  ∃ qs, qs `prefix_of` statements m ∧ t' = t ++ (TxExec tx <$> qs) ∧ (err = None → qs = statements m).
Proof.
  unfold performMigrationImpl, statements. destruct (String.eqb _ _).
  { intros H. injection H as <- <- <-. exists []. rewrite app_nil_r. split; [apply prefix_nil|done]. }
  intros (e1 & [t1 w1] & Hx & H)%M_bind_Ret_inv. apply execAll_trace in Hx as (qs & Hp & -> & He). destruct e1 as [e|].
  { injection H as <- <- <-. exists ((λ q, SRaw q []) <$> qs). split; [|done]. destruct Hp as [k ->]. rewrite fmap_app, <- app_assoc. by eexists. }
  rewrite (He eq_refl) in *. destruct (ToSql _).
  { injection H as <- <- <-. eexists. split; [by apply prefix_app_r|done]. }
  apply M_bind_Ret_inv in H as (r & [t2 w2] & Hx2 & H). apply recorded_exec in Hx2 as ->; [|done]. injection H as <- <- <-.
  eexists. split; [done|]. split; [|done]. by rewrite fmap_app, <- app_assoc.
Qed.

Lemma performMigration_trace logger ctx m (t t' : list txEvent) (w w' : W) err :
  performMigration (W := RW) logger ctx m (t, w) = (Ret err, (t', w')) → performs t m err t'.
Proof.
  unfold performMigration, Begin. intros (r & [t1 w1] & Hb & H)%M_bind_Ret_inv.
  assert (Ht1 : t1 = t ++ [match r with Ok tx => TxBegan tx | Err _ => TxRefused end]).
  { revert Hb. cbn. unfold push_tx; unfold_M; unfold on_env. destruct (begin_tx _ _ _) as [[]]; intros Hb; by simplify_eq. }
  subst t1. destruct r as [tx|e]; [|injection H as <- <- <-; eexists; split; [done|by left]].
  apply M_bind_Ret_inv in H as (e1 & [t2 w2] & Hi & H). apply performMigrationImpl_trace in Hi as (qs & Hp & -> & He).
  destruct e1 as [e1|].
  - apply M_bind_Ret_inv in H as (e2 & [t3 w3] & Hr & H). injection H as <- <- <-.
    assert (t3 = (t ++ [TxBegan tx]) ++ (TxExec tx <$> qs) ++ [TxRolledBack tx]) as ->.
    { revert Hr. cbn. unfold push_tx; unfold_M; unfold on_env. destruct (tx_rollback _ _) as [[]]; intros Hr; simplify_eq. by rewrite <- app_assoc. }
    eexists. split; [by rewrite <- app_assoc|]. right. exists tx. left. by exists qs.
  - rewrite (He eq_refl) in *. apply M_bind_Ret_inv in H as (e2 & [t3 w3] & Hc & H).
    assert (t3 = (t ++ [TxBegan tx]) ++ (TxExec tx <$> statements m) ++ [match e2 with None => TxCommitted tx | Some _ => TxCommitFailed tx end]) as ->.
    { revert Hc. cbn. unfold push_tx; unfold_M; unfold on_env. destruct (tx_commit _ _) as [[]]; intros Hc; simplify_eq. by rewrite <- app_assoc. }
    destruct e2 as [e2|].
    + injection H as <- <- <-. eexists. split; [by rewrite <- app_assoc|]. right. exists tx. by right.
    + apply M_bind_Ret_inv in H as (u & [t4 w4] & Hl & H). injection H as <- <- <-.
      assert (t4 = (t ++ [TxBegan tx]) ++ (TxExec tx <$> statements m) ++ [TxCommitted tx]) as ->.
      { destruct (logger_Log_ctx (logger_With logger [("migrationID", mig_ID m)]) ctx LevelInfo "migration executed successfully"
          ((t ++ [TxBegan tx]) ++ (TxExec tx <$> statements m) ++ [TxCommitted tx], w3)) as [Hlog|[fs Hlog]]; rewrite Hlog in Hl; [congruence|].
        unfold emit, recorded_log in Hl. by apply on_env_inv in Hl as [-> _]. }
      eexists. split; [by rewrite <- app_assoc|]. by exists tx.
Qed.

Lemma recorded_history : TxHistory RW fst performs.
Proof.
  split.
  - intros c ctx q name [t w] r [t' w']. cbn.
    unfold push_tx; unfold_M; unfold on_env. destruct c; destruct (db_exec _ _ _ _) as [[]]; intros H; by simplify_eq.
  - intros c ctx q [t w] r [t' w'] [-> _]%on_env_inv. done.
  - intros c ctx q [t w] r [t' w'] [-> _]%on_env_inv. done.
  - intros ctx [t w] r [t' w'] [-> _]%on_env_inv. done.
  - intros c [t w] r [t' w'] [-> _]%on_env_inv. done.
  - intros l fs msg [t w] r [t' w'] [-> _]%on_env_inv. done.
  - intros logger ctx m [t w] err [t' w'] H. by apply performMigration_trace in H.
Qed.

Context {committed : W → list stmt} {working : W → nat → option (list stmt)} {HM : MigrationSpec W committed working}.

Lemma recorded_spec : MigrationSpec RW (committed ∘ snd) (working ∘ snd).
Proof.
  destruct HM as [HT HS HE HI HLk HU HC HCl HEm]. split; [destruct HT as [Hb Hc Hr Hx]; split|..]; cbn.
  - intros c ctx [t w]. destruct (Hb c ctx w) as (r & w' & H & H'). unfold push_tx; unfold_M; unfold on_env. rewrite H. cbn. eexists _, (_, w'). split; [done|exact H'].
  - intros tx [t w] s Hw. destruct (Hc tx w s Hw) as (r & w' & H & H'). unfold push_tx; unfold_M; unfold on_env. rewrite H. cbn. eexists _, (_, w'). split; [done|exact H'].
  - intros tx [t w]. destruct (Hr tx w) as (r & w' & H & H'). unfold push_tx; unfold_M; unfold on_env. rewrite H. cbn. eexists _, (_, w'). split; [done|exact H'].
  - intros tx ctx shared name [t w]. destruct (Hx tx ctx shared name w) as (r & w' & H & H'). unfold push_tx; unfold_M; unfold on_env. rewrite H. cbn. eexists _, (_, w'). split; [done|exact H'].
  - exact HS.
  - intros tx ctx q [t w] s Hq Hw. destruct (HE tx ctx q w s Hq Hw) as (r & w' & H & H'). rewrite Hq. unfold push_tx; unfold_M; unfold on_env. rewrite H. cbn. eexists _, (_, w'). split; [done|exact H'].
  - intros tt ctx [t w]. destruct (HI tt ctx w) as (r & w' & H & H'). unfold on_env. rewrite H. eexists _, (_, w'). split; [done|exact H'].
  - intros c ctx name q [t w]. destruct (HLk c ctx name q w) as (r & w' & H & H'). unfold push_tx; unfold_M; unfold on_env. rewrite H. destruct c; eexists _, (_, w'); (split; [done|exact H']).
  - intros c ctx name q [t w]. destruct (HU c ctx name q w) as (r & w' & H & H'). unfold on_env. rewrite H. eexists _, (_, w'). split; [done|exact H'].
  - intros ctx [t w]. destruct (HC ctx w) as (r & w' & H & H'). unfold on_env. rewrite H. eexists _, (_, w'). split; [done|exact H'].
  - intros c [t w]. destruct (HCl c w) as (w' & H & H'). unfold on_env. rewrite H. eexists (_, w'). split; [done|exact H'].
  - intros l fs msg [t w]. destruct (HEm l fs msg w) as (w' & H & H'). exists (t, w'). split; [|exact H'].
    change (on_env (emit l fs msg) (t, w) = (Ret tt, (t, w'))). unfold on_env. by rewrite H.
Qed.
End recorded.

(** ** Theorems *)

(** C29. [Execute] performs, in the order of their ids, exactly the migrations
    whose id is not recorded yet, each in a transaction of its own, up to the
    first failure.  The transactions of a run are those of an initial part of
    the pending migrations, one after the other, each with all statements of its
    migration and its record and committed, and then, when the run fails, the one
    of the next migration - refused, rolled back, or not committed - and nothing
    else; or none at all, when the lock or the ids could not be had.  What is
    committed is the statements of that initial part, which is all of them when
    no error is returned. *)
Theorem Execute_in_order {W} `{!DB W, !LogSink W} (error_Error : error → string) (logger : Logger)
    (committed : W → list stmt) (working : W → nat → option (list stmt)) `{!MigrationSpec W committed working}
    (ctx : context) (sources : list (result (list Migration))) (ms : list Migration) (w : W)
    (Hne : sources ≠ []) (Hms : collect (sources ++ [migrationTableDDL]) = Ok ms) :
  ∃ err w' t done rest,
    @Execute (list txEvent * W) (recorded_DB W) (recorded_log W) error_Error logger ctx sources ([], w) = (Ret err, (t, w')) ∧
    pending (committed w) (sort_by mig_ID ms) = done ++ rest ∧
    committed w' = committed w ++ concat (statements <$> done) ∧
    (∃ txs last, t = concat txs ++ last ∧ Forall2 own_transaction done txs ∧
       match err with
       | None => rest = [] ∧ last = []
       | Some _ => (∃ m rest', rest = m :: rest' ∧ failed_transaction m last) ∨ done = [] ∧ last = []
       end) ∧
    StronglySorted (key_le_by mig_ID) (sort_by mig_ID ms) ∧ sort_by mig_ID ms ≡ₚ ms.
Proof.
  destruct (@Execute_run _ (recorded_DB W) (recorded_log W) error_Error logger (committed ∘ snd) (working ∘ snd) recorded_spec
    (list txEvent) fst performs recorded_history ctx sources ms ([], w) Hne Hms) as (err & [t w'] & d & rest & H1 & H2 & H3 & H4).
  exists err, w', t, d, rest. split_and!; [done|done|done| |apply sort_by_sorted|apply sort_by_perm].
  destruct H4 as [(h1 & Hd & He)|(He & -> & Ht)].
  - apply does_each_performs in Hd as (txs & -> & Htxs). cbn [app fst] in *. destruct err as [e|].
    + destruct He as (m & rest' & e' & -> & last & -> & Hf). exists txs, last. split_and!; [done..|]. left. by exists m, rest'.
    + destruct He as [-> ->]. exists txs, []. by rewrite app_nil_r.
  - exists [], []. cbn in *. split_and!; [done|constructor|]. destruct err; [by right|done].
Qed.

(** C30. Executing again the sources of a successful execution performs
    nothing. *)
Theorem Execute_idempotent {W} `{!DB W, !LogSink W} (error_Error : error → string) (logger : Logger)
    (committed : W → list stmt) (working : W → nat → option (list stmt)) `{!MigrationSpec W committed working}
    (ctx ctx' : context) (sources : list (result (list Migration))) (w w1 : W)
    (Hrun : Execute error_Error logger ctx sources w = (Ret None, w1)) :
  ∃ err w2, Execute error_Error logger ctx' sources w1 = (Ret err, w2) ∧ committed w2 = committed w1.
Proof.
  destruct sources as [|src sources]; [exists None, w1; by split|].
  destruct (collect ((src :: sources) ++ [migrationTableDDL])) as [ms|e] eqn:E.
  2:{ unfold Execute in Hrun. rewrite E in Hrun. unfold mret, M_ret in Hrun. by simplify_eq. }
  destruct (Execute_run error_Error logger committed working _ _ (HH := no_history) ctx (src :: sources) ms w ltac:(done) E)
    as (err & w1' & d & rest & H1 & H2 & H3 & H4). rewrite Hrun in H1. injection H1 as <- <-.
  destruct H4 as [(h1 & _ & -> & _)|[? _]]; [|done]. rewrite app_nil_r in H2.
  destruct (Execute_run error_Error logger committed working _ _ (HH := no_history) ctx' (src :: sources) ms w1 ltac:(done) E)
    as (err2 & w2 & d2 & rest2 & H1' & H2' & H3' & _).
  rewrite H3, (pending_after _ _ _ H2) in H2'. symmetry in H2'. apply app_nil in H2' as [-> ->].
  eexists _, w2. split; [done|]. by rewrite H3', app_nil_r.
Qed.

(** ** Witnesses *)

Lemma mig_DB_spec : @MigrationSpec sqlWorld mig_DB sql_log sw_committed sw_working.
Proof.
  split; intros; simpl; unfold sw_working in *; try by repeat eexists.
  - pose proof (sql_TxSpec : @TxSpec sqlWorld _ sql_DB sw_committed sw_working) as [Hb Hc Hr Hl].
    split; [exact Hb|exact Hc|exact Hr|]. intros t ctx shared name w. simpl. by eexists _, _.
  - unfold mig_exec_stmt. rewrite H. eexists _, _. split; [done|]. simpl. split; [done|]. split.
    + intros t' Hne. by rewrite lookup_alter_ne.
    + by rewrite lookup_alter_eq, H0.
  - eexists _, _. split; [done|]. split; [done|]. destruct (decide _) as [E|E]; [done|]. simpl.
    unfold recorded_ids. f_equal. generalize (omap record_id (sw_committed w)) as l.
    induction l as [|x l IH]; [done|]. rewrite fmap_cons. cbn. by f_equal.
Qed.

Definition sample_collected : list Migration :=
  match collect (sample_migrations ++ [migrationTableDDL]) with Ok ms => ms | Err _ => [] end.
(** Three migrations in three transactions, in the order of their ids. *)
Lemma Execute_in_order_witness :
  ∃ w' t, @Execute _ (@recorded_DB sqlWorld mig_DB) (@recorded_log sqlWorld sql_log) (λ _, "") StubLogger context_Background
      sample_migrations ([], sw_init) = (Ret None, (t, w')) ∧
    omap record_id (sw_committed w') = ["0000-00-00-000-create-migration-table"; "2024-01-01-001"; "2024-01-01-002"] ∧
    ∃ txs, t = concat txs ++ [] ∧ length txs = 3.
Proof.
  destruct (@Execute_in_order sqlWorld mig_DB sql_log (λ _, "") StubLogger sw_committed sw_working mig_DB_spec
    context_Background sample_migrations sample_collected sw_init ltac:(discriminate) eq_refl)
    as (err & w' & t & d & rest & Hrun & Hp & _ & (txs & last & Ht & Htxs & He) & _).
  assert (Heq := Hrun). vm_compute in Heq. injection Heq as <- _ Hw'. destruct He as [-> ->].
  exists w', t. split; [exact Hrun|]. split; [rewrite <- Hw'; vm_compute; reflexivity|].
  exists txs. split; [exact Ht|]. apply Forall2_length in Htxs. rewrite <- Htxs, <- (app_nil_r d), <- Hp. vm_compute. reflexivity.
Defined.

Lemma Execute_idempotent_witness :
  ∃ err w2, let w1 := snd (@Execute sqlWorld mig_DB sql_log (λ _, "") StubLogger context_Background sample_migrations sw_init) in
    @Execute sqlWorld mig_DB sql_log (λ _, "") StubLogger context_Background sample_migrations w1 = (Ret err, w2) ∧
    sw_committed w2 = sw_committed w1.
Proof.
  apply (@Execute_idempotent sqlWorld mig_DB sql_log (λ _, "") StubLogger sw_committed sw_working mig_DB_spec
    context_Background context_Background sample_migrations sw_init). vm_compute. reflexivity.
Defined.
