(* ===== verification/Http.v ===== *)
(** pkg/http: the response writer, the handler wrapper and the middlewares
    (handler.go, context.go, options.go, auth.go, logging.go, metrics.go,
    observability.go). *)
From stdpp Require Import pretty.
From S2P Require Import Prelude GoStrings Context.
From Stdlib Require Import Ascii.

(** ** Status codes *)

Definition StatusOK : Z := 200.
Definition StatusBadRequest : Z := 400.
Definition StatusUnauthorized : Z := 401.
Definition StatusForbidden : Z := 403.
Definition StatusNotFound : Z := 404.
Definition StatusInternalServerError : Z := 500.
Definition statusNotSetValue : Z := 0.

Definition ErrParsingError : string := "http.ErrParsingError".
Definition ErrUnauthenticated : string := "auth.ErrUnauthenticated".
Definition ErrPermissionDenied : string := "auth.ErrPermissionDenied".

(** ** Requests *)

Record Cookie := mkCookie { c_Name : string; c_Value : string }.

(** [*http.Request] with what the router (mux) found: path parameters and the
    name of the route. *)
Record Request := mkRequest {
  r_Context : context;
  r_Method : string;
  r_Scheme : string;
  r_Host : string;
  r_Path : string;
  r_RawQuery : string;
  r_Query : gmap string (list string);
  r_Header : gmap string (list string);
  r_Cookies : list Cookie;
  r_Vars : gmap string string;
  r_Route : string;
  r_Body : string;
}.

Definition r_WithContext (r : Request) (ctx : context) : Request :=
  mkRequest ctx (r_Method r) (r_Scheme r) (r_Host r) (r_Path r) (r_RawQuery r) (r_Query r) (r_Header r)
    (r_Cookies r) (r_Vars r) (r_Route r) (r_Body r).

(** ** Header keys: [textproto.CanonicalMIMEHeaderKey] *)

Definition token_char (b : ascii) : bool :=
  cont 48 57 b || cont 65 90 b || cont 97 122 b ||
  existsb (Ascii.eqb b) (to_bytes "!#$%&'*+-.^_`|~").
Fixpoint canonical_bytes (upper : bool) (s : list ascii) : list ascii :=
  match s with
  | [] => []
  | b :: s' => (if upper then upper_byte b else lower_byte b) :: canonical_bytes (Ascii.eqb b "-"%char) s'
  end.
Definition canonical (key : string) : string :=
  if forallb token_char (to_bytes key) then of_bytes (canonical_bytes true (to_bytes key)) else key.

(** [http.Header.Get], [Set] and [Add] *)
Definition header_Get (h : gmap string (list string)) (key : string) : string :=
  match h !! canonical key with Some (v :: _) => v | _ => "" end.
Definition header_Set (key v : string) (h : gmap string (list string)) : gmap string (list string) :=
  <[canonical key := [v]]> h.
Definition header_Add (key v : string) (h : gmap string (list string)) : gmap string (list string) :=
  <[canonical key := default [] (h !! canonical key) ++ [v]]> h.

(** ** The state of a request *)

(** [handlerMetadata]; a panic is its message. *)
Record handlerMetadata := mkMeta {
  hm_Auth : option (Auth AnyPrincipal);
  hm_Code : Z;
  hm_Panic : option string;
  hm_Error : option error;
}.
Definition meta_empty : handlerMetadata := mkMeta None 0 None None.

(** An [http.ResponseWriter]: the server's, or a deferred one in the heap. *)
Inductive writer := ServerWriter | DeferredWriter (loc : nat).

(** [deferredResponseWriter] with its parent and the metadata its request's
    context leads to, and the [bodyEncoder] of the [responseWriter] around
    it: what [json.Marshal] gives for the body set last. *)
Record deferredResponseWriter := mkDeferred {
  dw_w : writer;
  dw_meta : option nat;
  dw_httpCode : Z;
  dw_data : string;
  dw_bodyEncoder : option (result string);
}.

(** The response of the server - the header handlers write to, the status and
    the header as it was when the status was written, the informational
    responses sent before and the body -, the heap of metadata and of deferred
    writers, and the error writing to the connection gives, if any. *)
Record httpState := mkHttp {
  hs_header : gmap string (list string);
  hs_status : option Z;
  hs_sentHeader : gmap string (list string);
  hs_informational : list Z;
  hs_body : string;
  hs_meta : gmap nat handlerMetadata;
  hs_deferred : gmap nat deferredResponseWriter;
  hs_writeError : option error;
}.
Definition http_init : httpState := mkHttp ∅ None ∅ [] "" ∅ ∅ None.

Definition set_header (f : gmap string (list string) → gmap string (list string)) (s : httpState) : httpState :=
  mkHttp (f (hs_header s)) (hs_status s) (hs_sentHeader s) (hs_informational s) (hs_body s) (hs_meta s) (hs_deferred s) (hs_writeError s).
Definition set_meta (f : gmap nat handlerMetadata → gmap nat handlerMetadata) (s : httpState) : httpState :=
  mkHttp (hs_header s) (hs_status s) (hs_sentHeader s) (hs_informational s) (hs_body s) (f (hs_meta s)) (hs_deferred s) (hs_writeError s).
Definition set_deferred (f : gmap nat deferredResponseWriter → gmap nat deferredResponseWriter) (s : httpState) : httpState :=
  mkHttp (hs_header s) (hs_status s) (hs_sentHeader s) (hs_informational s) (hs_body s) (hs_meta s) (f (hs_deferred s)) (hs_writeError s).

Definition upd_code (code : Z) (d : deferredResponseWriter) : deferredResponseWriter :=
  mkDeferred (dw_w d) (dw_meta d) code (dw_data d) (dw_bodyEncoder d).
Definition upd_data (data : string) (d : deferredResponseWriter) : deferredResponseWriter :=
  mkDeferred (dw_w d) (dw_meta d) (dw_httpCode d) data (dw_bodyEncoder d).
Definition upd_encoder (e : result string) (d : deferredResponseWriter) : deferredResponseWriter :=
  mkDeferred (dw_w d) (dw_meta d) (dw_httpCode d) (dw_data d) (Some e).

(** *** The server's writer (net/http)

    The first status written counts, with the header as it is then; a body
    without one writes 200.  A status of three digits is needed, or
    [WriteHeader] panics; 1xx statuses but 101 are sent and the response is
    still to come; a 1xx, 204 or 304 response has no body. *)
Definition valid_code (code : Z) : bool := (100 <=? code)%Z && (code <=? 999)%Z.
Definition informational (code : Z) : bool := (100 <=? code)%Z && (code <=? 199)%Z && negb (code =? 101)%Z.
Definition body_allowed (code : Z) : bool := negb ((100 <=? code)%Z && (code <=? 199)%Z || (code =? 204)%Z || (code =? 304)%Z).
Definition ErrBodyNotAllowed : string := "http.ErrBodyNotAllowed".
Definition invalid_code_text (code : Z) : string := "invalid WriteHeader code " +:+ pretty code.

Definition server_WriteHeader (code : Z) (s : httpState) : httpState :=
  match hs_status s with
  | Some _ => s
  | None =>
      if informational code
      then mkHttp (hs_header s) None (hs_sentHeader s) (hs_informational s ++ [code]) (hs_body s) (hs_meta s) (hs_deferred s) (hs_writeError s)
      else mkHttp (hs_header s) (Some code) (hs_header s) (hs_informational s) (hs_body s) (hs_meta s) (hs_deferred s) (hs_writeError s)
  end.
Definition server_Write (data : string) (s : httpState) : httpState * option error :=
  let s := server_WriteHeader StatusOK s in
  if String.eqb data "" then (s, None)
  else if negb (body_allowed (default StatusOK (hs_status s))) then (s, Some (ErrSentinel ErrBodyNotAllowed))
  else
    match hs_writeError s with
    | Some e => (s, Some e)
    | None => (mkHttp (hs_header s) (hs_status s) (hs_sentHeader s) (hs_informational s) (hs_body s +:+ data) (hs_meta s)
                 (hs_deferred s) (hs_writeError s), None)
    end.

Definition w_WriteHeader (w : writer) (code : Z) (s : httpState) : httpState :=
  match w with
  | ServerWriter => server_WriteHeader code s
  | DeferredWriter l => set_deferred (alter (upd_code code) l) s
  end.
(** [Write]: the state after, and the error. *)
Definition w_Write (w : writer) (data : string) (s : httpState) : httpState * option error :=
  match w with
  | ServerWriter => server_Write data s
  | DeferredWriter l => (set_deferred (alter (upd_data data) l) s, None)
  end.

(** *** Metadata (context.go); without it in the context, changes go to a fresh
    object and are lost *)
Definition read_meta (loc : option nat) (s : httpState) : handlerMetadata :=
  match loc with Some l => default meta_empty (hs_meta s !! l) | None => meta_empty end.
Definition update_meta (loc : option nat) (f : handlerMetadata → handlerMetadata) (s : httpState) : httpState :=
  match loc with Some l => set_meta (alter f l) s | None => s end.

Definition meta_result (code : Z) (err : option error) (m : handlerMetadata) : handlerMetadata :=
  mkMeta (hm_Auth m) code (hm_Panic m) err.
Definition meta_code (code : Z) (m : handlerMetadata) : handlerMetadata :=
  mkMeta (hm_Auth m) code (hm_Panic m) (hm_Error m).
Definition meta_panic (msg : string) (m : handlerMetadata) : handlerMetadata :=
  mkMeta (hm_Auth m) StatusInternalServerError (Some msg) (hm_Error m).
Definition meta_error_if_none (e : error) (m : handlerMetadata) : handlerMetadata :=
  mkMeta (hm_Auth m) (hm_Code m) (hm_Panic m) (match hm_Error m with Some e' => Some e' | None => Some e end).
Definition meta_auth (a : Auth AnyPrincipal) (m : handlerMetadata) : handlerMetadata :=
  mkMeta (Some a) (hm_Code m) (hm_Panic m) (hm_Error m).

(** *** The deferred writer *)

Definition newDeferredResponseWriter (w : writer) (r : Request) (s : httpState) : nat * httpState :=
  let l := fresh (dom (hs_deferred s)) in
  (l, set_deferred <[l := mkDeferred w (ctx_http_meta (r_Context r)) statusNotSetValue "" None]> s).

Definition StatusCode (d : deferredResponseWriter) : Z :=
  if (dw_httpCode d =? statusNotSetValue)%Z then StatusOK else dw_httpCode d.
Definition IsStatusCodeExplicitlyWritten (d : deferredResponseWriter) : bool :=
  negb (dw_httpCode d =? statusNotSetValue)%Z.

Definition PersistWrite (l : nat) (s : httpState) : httpState :=
  match hs_deferred s !! l with
  | None => s
  | Some d =>
      let s := if IsStatusCodeExplicitlyWritten d then w_WriteHeader (dw_w d) (dw_httpCode d) s else s in
      if String.eqb (dw_data d) "" then s
      else
        let '(s, err) := w_Write (dw_w d) (dw_data d) s in
        match err with
        | Some e => update_meta (dw_meta d) (meta_error_if_none (Errorf "write body" e)) s
        | None => s
        end
  end.

(** [PersistWrite] panics in the server's [WriteHeader] before anything else is
    done, for a status that is none. *)
Definition write_panics (l : nat) (s : httpState) : option string :=
  match hs_deferred s !! l, hs_status s with
  | Some d, None =>
      if IsStatusCodeExplicitlyWritten d && negb (valid_code (dw_httpCode d)) then
        match dw_w d with ServerWriter => Some (invalid_code_text (dw_httpCode d)) | DeferredWriter _ => None end
      else None
  | _, _ => None
  end.
Definition persist {W} (l : nat) : M (httpState * W) unit :=
  s ← get_obj;
  match write_panics l s with Some msg => panic msg | None => modify_obj (PersistWrite l) end.

(** *** The writer given to handlers *)

Definition SetHeader (key v : string) (s : httpState) : httpState := set_header (header_Set key v) s.
Definition SetStatusCode (l : nat) (code : Z) (s : httpState) : httpState := w_WriteHeader (DeferredWriter l) code s.
(** [http.SetCookie]; [cookie] is [cookie.String()], empty when invalid. *)
Definition SetCookie (cookie : string) (s : httpState) : httpState :=
  if String.eqb cookie "" then s else set_header (header_Add "Set-Cookie" cookie) s.
Definition SetJSONBody (l : nat) (marshalled : result string) (s : httpState) : httpState :=
  set_deferred (alter (upd_encoder marshalled) l) s.

(** The status [Write] chooses for an error when the handler set none. *)
Definition error_status (err : option error) : Z :=
  if errors_Is err (Some ErrParsingError) then StatusBadRequest
  else if errors_Is err (Some ErrUnauthenticated) then StatusUnauthorized
  else if errors_Is err (Some ErrPermissionDenied) then StatusForbidden
  else match err with Some _ => StatusInternalServerError | None => statusNotSetValue end.

(** [responseWriter.Write], up to the last call and with it *)
Definition prepareWrite (l : nat) (ctx : context) (err : option error) (s : httpState) : httpState :=
  match hs_deferred s !! l with
  | None => s
  | Some d =>
      let code := if IsStatusCodeExplicitlyWritten d then dw_httpCode d else error_status err in
      let s := set_deferred (alter (upd_code code) l) s in
      let '(s, body, err) :=
        match dw_bodyEncoder d with
        | None => (s, "", err)
        | Some (Ok body) => (set_header (header_Set "Content-Type" "application/json") s, body, err)
        | Some (Err e) =>
            (set_deferred (alter (upd_code StatusInternalServerError) l) s, "",
             match err with None => Some (Errorf "encode body" e) | Some _ => err end)
        end in
      let s := if String.eqb body "" then s else set_deferred (alter (upd_data body) l) s in
      let code := match hs_deferred s !! l with Some d => StatusCode d | None => StatusOK end in
      update_meta (ctx_http_meta ctx) (meta_result code err) s
  end.
Definition responseWriter_Write {W} (l : nat) (ctx : context) (err : option error) : M (httpState * W) unit :=
  _ ← modify_obj (prepareWrite l ctx err); persist l.

(** [responseWriter.WritePanic]; 500 is a status. *)
Definition responseWriter_WritePanic (l : nat) (ctx : context) (msg : string) (s : httpState) : httpState :=
  let s := update_meta (ctx_http_meta ctx) (meta_panic msg) s in
  let s := set_deferred (alter (upd_code StatusInternalServerError) l) s in
  let s := set_deferred (alter (upd_data "") l) s in
  PersistWrite l s.

(** ** Handlers and middlewares *)

Section handlers.
Context {W : Type}.
Abbreviation HM := (M (httpState * W)).

(** [HandlerFunc], with the location of its writer, and [http.HandlerFunc]. *)
Definition HandlerFunc : Type := nat → Request → HM (option error).
Definition HttpHandler : Type := writer → Request → HM unit.

Definition httpHandlerWrapper (handler : HandlerFunc) : HttpHandler := λ w r,
  '(l, s) ← (q ← get_obj; mret (newDeferredResponseWriter w r q));
  _ ← modify_obj (λ _, s);
  recover
    (err ← handler l r; responseWriter_Write l (r_Context r) err)
    (λ msg, modify_obj (responseWriter_WritePanic l (r_Context r) msg)).

(** [withHandlerMetadata] *)
Definition withHandlerMetadata (handler : HttpHandler) : HttpHandler := λ w r,
  s ← get_obj;
  let l := fresh (dom (hs_meta s)) in
  _ ← modify_obj (set_meta <[l := meta_empty]>);
  handler w (r_WithContext r (with_http_meta l (r_Context r))).

(** [WithErrorMappingPredicate]; the predicates in the order the map is
    iterated. *)
Fixpoint first_match (predicates : list (Z * (error → bool))) (e : error) : option Z :=
  match predicates with
  | [] => None
  | (code, p) :: predicates' => if p e then Some code else first_match predicates' e
  end.

Definition WithErrorMappingPredicate (predicates : list (Z * (error → bool))) (handler : HttpHandler) : HttpHandler :=
  λ w r,
  match predicates with
  | [] => handler w r
  | _ =>
      '(l, s) ← (q ← get_obj; mret (newDeferredResponseWriter w r q));
      _ ← modify_obj (λ _, s);
      deferring
        (_ ← handler (DeferredWriter l) r;
         s ← get_obj;
         let meta := read_meta (ctx_http_meta (r_Context r)) s in
         match hm_Error meta, hm_Panic meta with
         | Some e, None =>
             match first_match predicates e with
             | Some code =>
                 _ ← modify_obj (w_WriteHeader (DeferredWriter l) code);
                 modify_obj (update_meta (ctx_http_meta (r_Context r)) (meta_code code))
             | None => mret tt
             end
         | _, _ => mret tt
         end)
        (persist l)
  end.

(** [WithErrorMapping]: the sentinels of each status code. *)
Definition WithErrorMapping (statusCodes : list (Z * list string)) : HttpHandler → HttpHandler :=
  WithErrorMappingPredicate
    ((λ '(code, errs), (code, λ e, existsb (λ target, errors_Is (Some e) (Some target)) errs)) <$> statusCodes).

(** [writeHandlerResult] *)
Definition writeHandlerResult (ctx : context) (w : writer) (httpCode : Z) (err : error) : HM unit :=
  _ ← modify_obj (update_meta (ctx_http_meta ctx) (meta_result httpCode (Some err)));
  modify_obj (w_WriteHeader w httpCode).

(** [setHandlerAuthentication] *)
Definition setHandlerAuthentication {T} `{!PrincipalImpl T} (r : Request) (a : Auth T) : HM Request :=
  _ ← modify_obj (update_meta (ctx_http_meta (r_Context r)) (meta_auth (mkAuth (to_any <$> AuthPrincipal a))));
  mret (r_WithContext r (WithAuthentication (r_Context r) a)).

(** The first token provider that finds a token. *)
Fixpoint first_token {Token} (tokenProviders : list (Request → option Token)) (r : Request) : option Token :=
  match tokenProviders with
  | [] => None
  | p :: tokenProviders' => match p r with Some t => Some t | None => first_token tokenProviders' r end
  end.

Definition WithAuth {T Token} `{!PrincipalImpl T} (authenticate : context → Token → M W (result (Auth T)))
    (tokenProviders : list (Request → option Token)) (handler : HttpHandler) : HttpHandler := λ w r,
  match first_token tokenProviders r with
  | None => r ← setHandlerAuthentication r (mkAuth (T := T) None); handler w r
  | Some token =>
      res ← on_env (authenticate (r_Context r) token);
      match res with
      | Err e => writeHandlerResult (r_Context r) w StatusInternalServerError e
      | Ok authData => r ← setHandlerAuthentication r authData; handler w r
      end
  end.

Definition WithAuthenticationRequirement (handler : HttpHandler) : HttpHandler := λ w r,
  match IsAuthenticated (r_Context r) with
  | Err e => writeHandlerResult (r_Context r) w StatusInternalServerError e
  | Ok false => writeHandlerResult (r_Context r) w StatusUnauthorized (ErrSentinel ErrUnauthenticated)
  | Ok true => handler w r
  end.

(** [WithObservability]: the fields in the order the map is iterated; the
    extractors of a field in order, up to the first value. *)
Fixpoint first_value (extractors : list (Request → M W string)) (r : Request) : M W string :=
  match extractors with
  | [] => mret ""
  | ex :: extractors' =>
      v ← ex r;
      if String.eqb v "" then first_value extractors' r else mret v
  end.
Fixpoint observe (o : observer) (fields : list (string * list (Request → M W string))) (r : Request) : M W Request :=
  match fields with
  | [] => mret r
  | (field, extractors) :: fields' =>
      v ← first_value extractors r;
      let r := if String.eqb v "" then r
               else r_WithContext r (observer_WithField o (r_Context r) field v) in
      observe o fields' r
  end.
Definition WithObservability (o : observer) (fields : list (string * list (Request → M W string)))
    (handler : HttpHandler) : HttpHandler := λ w r,
  r ← on_env (observe o fields r); handler w r.

Definition ObservabilityFieldHeaderExtractor (header : string) : Request → M W string :=
  λ r, mret (header_Get (r_Header r) header).
Definition ObservabilityFieldRandomUUIDExtractor (uuid_New : M W uuid) (uuid_String : uuid → string) :
    Request → M W string :=
  λ _, u ← uuid_New; mret (uuid_String u).

(** The middlewares of a router, the first one outermost. *)
Definition chain (mws : list (HttpHandler → HttpHandler)) (h : HttpHandler) : HttpHandler :=
  foldr (λ mw h, mw h) h mws.
End handlers.

(** ** Logging and metrics *)

Definition any_Type (p : AnyPrincipal) : string :=
  match p with InternalPrincipal p => Principal_Type p | ForeignPrincipal t _ => t end.
Definition any_ID (uuid_String : uuid → string) (p : AnyPrincipal) : option string :=
  match p with InternalPrincipal p => Principal_ID uuid_String p | ForeignPrincipal _ id => id end.

Definition healthPath : string := "/healthz".

Class MetricsDuration (W : Type) := Duration : Fields → string → duration → M W unit.

Section logging.
Context {W : Type} `{!LogSink W, !Metrics W, !MetricsDuration W}.
Context (error_Error : error → string) (uuid_String : uuid → string) (show_int : Z → string).

(** A pointer field prints as [nil] when it is [nil]; a group of fields is
    flattened with its name as a prefix. *)
Definition pointer_field (v : option string) : string := default "nil" v.

Definition getAuthFieldsLogger (a : option (Auth AnyPrincipal)) (logger : Logger) : Logger :=
  match a with
  | None => logger
  | Some a =>
      logger_With logger
        [("auth.type", pointer_field (any_Type <$> AuthPrincipal a));
         ("auth.id", pointer_field (AuthPrincipal a ≫= any_ID uuid_String))]
  end.

Definition getResponseFieldsLogger (destinationName routeName : string) (r : Request) (responseCode : Z)
    (logger : Logger) : Logger :=
  logger_With logger
    ([("httpRequest.method", r_Method r); ("httpRequest.scheme", r_Scheme r); ("httpRequest.host", r_Host r);
      ("httpRequest.path", r_Path r); ("httpRequest.rawQuery", r_RawQuery r)] ++
     (if String.eqb destinationName "" then [] else [("httpRequest.destination", destinationName)]) ++
     (if String.eqb routeName "" then [] else [("httpRequest.route", routeName)]) ++
     (if (responseCode =? 0)%Z then [] else [("httpRequest.responseCode", show_int responseCode)])).

Definition getRouteNameFieldsLogger (routeName : string) (logger : Logger) : Logger :=
  if String.eqb routeName "" then logger else logger_With logger [("httpRequest.route", routeName)].

(** What is logged for the metadata of a handled request. *)
Definition log_result (logger : Logger) (infoLevel errorLevel : Level) (r : Request) (result : handlerMetadata) : M W unit :=
  let logger := getAuthFieldsLogger (hm_Auth result) logger in
  let logger := getResponseFieldsLogger "" (r_Route r) r (hm_Code result) logger in
  let ctx := Some (r_Context r) in
  match hm_Panic result with
  | Some msg => logger_Log (logger_With logger [("panic.message", msg)]) ctx LevelError "request handled with panic"
  | None =>
      if (StatusInternalServerError <=? hm_Code result)%Z
      then logger_Log (logger_WithError error_Error logger (hm_Error result)) ctx errorLevel "request handled with internal error"
      else logger_Log (logger_WithError error_Error logger (hm_Error result)) ctx infoLevel "request handled"
  end.

Definition WithLogging (logger : Logger) (infoLevel errorLevel : Level) (excludedPaths : list string)
    (handler : HttpHandler (W := W)) : HttpHandler := λ w r,
  if existsb (String.eqb (r_Path r)) (excludedPaths ++ [healthPath]) then handler w r
  else
    _ ← handler w r;
    s ← get_obj;
    on_env (log_result logger infoLevel errorLevel r (read_meta (ctx_http_meta (r_Context r)) s)).

Definition metric_result (r : Request) (result : handlerMetadata) (elapsed : duration) : M W unit :=
  let authType := pointer_field (a ← hm_Auth result; any_Type <$> AuthPrincipal a) in
  _ ← match hm_Panic result with
      | Some _ => Increment [("authType", authType); ("method", r_Method r); ("path", r_Path r)] "http_api_request_panics_total"
      | None => mret tt
      end;
  Duration [("authType", authType); ("method", r_Method r); ("path", r_Path r); ("code", show_int (hm_Code result))]
    "http_api_request_duration_seconds" elapsed.

Definition WithMetrics (time_Now : M W time) (handler : HttpHandler (W := W)) : HttpHandler := λ w r,
  started ← on_env time_Now;
  _ ← handler w r;
  s ← get_obj;
  now ← on_env time_Now;
  on_env (metric_result r (read_meta (ctx_http_meta (r_Context r)) s) (now - started)%Z).
End logging.

(** ** The health check: its header key is written without a dash *)

Definition dquote : string := String "034"%char "".
Definition quoted (t : string) : string := dquote +:+ t +:+ dquote.
Definition health_body : string := "{" +:+ quoted "status" +:+ ":" +:+ quoted "OK" +:+ "}" +:+ String "010"%char "".
Definition WithHealthCheck {W} (customHandlerFunc : option (HandlerFunc (W := W))) : HttpHandler :=
  match customHandlerFunc with
  | Some h => httpHandlerWrapper h
  | None => λ w _,
      _ ← modify_obj (set_header (header_Set "ContentType" "application/json"));
      _ ← modify_obj (w_WriteHeader w StatusOK);
      modify_obj (λ s, fst (w_Write w health_body s))
  end.

(** ** Abstract specification: the response to what a handler did

    [code] is the status it set (0 for none), [enc] the body it set, [err] the
    error it returned. *)
Definition spec_status (code : Z) (enc : option (result string)) (err : option error) : Z :=
  match enc with
  | Some (Err _) => StatusInternalServerError
  | _ => if (code =? 0)%Z then error_status err else code
  end.
Definition spec_body (enc : option (result string)) : string :=
  match enc with Some (Ok b) => b | _ => "" end.
Definition spec_header (enc : option (result string)) (h : gmap string (list string)) : gmap string (list string) :=
  match enc with Some (Ok _) => header_Set "Content-Type" "application/json" h | _ => h end.
Definition spec_error (enc : option (result string)) (err : option error) : option error :=
  match enc, err with Some (Err e), None => Some (Errorf "encode body" e) | _, _ => err end.

(** What reaches the client: no explicit status is 200. *)
Definition sent_status (s : httpState) : Z := default StatusOK (hs_status s).
Definition ok_if_zero (code : Z) : Z := if (code =? 0)%Z then StatusOK else code.

(** The header that is sent. *)
Definition sent_header (s : httpState) : gmap string (list string) :=
  match hs_status s with Some _ => hs_sentHeader s | None => hs_header s end.
(** The status of the response when [code] is written (0 for none), and its body
    when [data] is. *)
Definition final_status (code : Z) : Z := if (code =? 0)%Z || informational code then StatusOK else code.
Definition final_body (code : Z) (data : string) : string := if body_allowed (final_status code) then data else "".
Definition body_error (code : Z) (data : string) (m : handlerMetadata) : handlerMetadata :=
  if body_allowed (final_status code) || String.eqb data "" then m
  else meta_error_if_none (Errorf "write body" (ErrSentinel ErrBodyNotAllowed)) m.
(** A status with a body that ends the response; the others are not set by the
    handlers of the services. *)
Definition sendable (code : Z) : bool := valid_code code && negb (informational code) && body_allowed code.

(** The server has not answered yet and the connection works. *)
Definition unanswered (s : httpState) : Prop := hs_status s = None ∧ hs_body s = "" ∧ hs_writeError s = None.

(** A response as it is sent. *)
Record sentResponse := mkSent { rs_Status : Z; rs_Body : string; rs_Header : gmap string (list string) }.
Definition sent (s : httpState) : sentResponse := mkSent (sent_status s) (hs_body s) (sent_header s).

(** ** Lemmas *)

(** Writing a code and a body, as [PersistWrite] does. *)
Lemma PersistWrite_server l s d :
  hs_deferred s !! l = Some d → dw_w d = ServerWriter → unanswered s →
  let s' := PersistWrite l s in
  sent_status s' = final_status (dw_httpCode d) ∧ hs_body s' = final_body (dw_httpCode d) (dw_data d) ∧
  sent_header s' = hs_header s ∧
  hs_meta s' = hs_meta (if body_allowed (final_status (dw_httpCode d)) || String.eqb (dw_data d) "" then s
                        else update_meta (dw_meta d) (meta_error_if_none (Errorf "write body" (ErrSentinel ErrBodyNotAllowed))) s) ∧
  hs_informational s' = hs_informational s ++ (if informational (dw_httpCode d) then [dw_httpCode d] else []).
Proof.
  intros Hd Hw (Hs & Hb & He). destruct s as [h st sh inf b m ds we], d as [pw pm code data enc]. cbn in Hd, Hw, Hs, Hb, He. subst.
  unfold PersistWrite. cbn [hs_deferred]. rewrite Hd. cbn [dw_w dw_data dw_httpCode dw_meta].
  unfold IsStatusCodeExplicitlyWritten, final_body, final_status, statusNotSetValue. cbn [dw_httpCode].
  destruct (Z.eqb_spec code 0) as [->|Hc]; cbn [negb orb w_WriteHeader w_Write].
  - destruct (String.eqb_spec data "") as [->|Hdata]; [cbn; by rewrite app_nil_r|].
    unfold server_Write. rewrite (proj2 (String.eqb_neq _ _) Hdata). cbn. by rewrite app_nil_r.
  - unfold server_WriteHeader. cbn [hs_status]. destruct (informational code) eqn:Ei; cbn [dw_data].
    + destruct (String.eqb_spec data "") as [->|Hdata]; [by split_and!|]. unfold server_Write. rewrite (proj2 (String.eqb_neq _ _) Hdata). by split_and!.
    + destruct (String.eqb_spec data "") as [->|Hdata].
      { cbn. rewrite app_nil_r, orb_true_r. by destruct (body_allowed code). }
      unfold server_Write. rewrite (proj2 (String.eqb_neq _ _) Hdata). cbn. rewrite app_nil_r.
      destruct (body_allowed code); [done|]. cbn. by destruct pm.
Qed.

(** With a status that is sent with its body. *)
Lemma persist_server {W} l s d (env : W) :
  hs_deferred s !! l = Some d → dw_w d = ServerWriter → unanswered s → sendable (ok_if_zero (dw_httpCode d)) = true →
  persist l (s, env) = (Ret tt, (PersistWrite l s, env)) ∧ hs_meta (PersistWrite l s) = hs_meta s ∧
  sent (PersistWrite l s) = mkSent (ok_if_zero (dw_httpCode d)) (dw_data d) (hs_header s).
Proof.
  intros Hd Hw Hu Hc. destruct (PersistWrite_server l s d Hd Hw Hu) as (H1 & H2 & H3 & H4 & _).
  unfold sendable in Hc. apply andb_true_iff in Hc as [[Hv Hi%negb_true_iff]%andb_true_iff Hb].
  assert (Hf : final_status (dw_httpCode d) = ok_if_zero (dw_httpCode d)).
  { revert Hi. unfold final_status, ok_if_zero. destruct (Z.eqb_spec (dw_httpCode d) 0); [done|]. cbn. by intros ->. }
  unfold final_body in H2. rewrite Hf, Hb in *. cbn in H4. split_and!; [|done|unfold sent; by rewrite H1, H2, H3].
  unfold persist, write_panics. unfold_M. rewrite Hd. destruct Hu as (-> & _). unfold IsStatusCodeExplicitlyWritten, statusNotSetValue.
  revert Hv. unfold ok_if_zero. destruct (dw_httpCode d =? 0)%Z; [done|]. cbn. by intros ->.
Qed.

Lemma PersistWrite_deferred l lo s d :
  hs_deferred s !! l = Some d → dw_w d = DeferredWriter lo → l ≠ lo →
  let s' := PersistWrite l s in
  hs_deferred s' !! lo =
    (λ o, mkDeferred (dw_w o) (dw_meta o) (if (dw_httpCode d =? 0)%Z then dw_httpCode o else dw_httpCode d)
            (if String.eqb (dw_data d) "" then dw_data o else dw_data d) (dw_bodyEncoder o)) <$> (hs_deferred s !! lo) ∧
  hs_meta s' = hs_meta s ∧ hs_header s' = hs_header s ∧ hs_status s' = hs_status s ∧ hs_body s' = hs_body s ∧
  hs_writeError s' = hs_writeError s.
Proof.
  intros Hd Hw Hne. unfold PersistWrite. rewrite Hd, Hw. unfold IsStatusCodeExplicitlyWritten, statusNotSetValue.
  destruct (dw_httpCode d =? 0)%Z eqn:Ec; cbn [negb w_WriteHeader w_Write];
    destruct (String.eqb_spec (dw_data d) "") as [Hdata|Hdata]; cbn; rewrite ?lookup_alter_eq;
    (split; [|done]); destruct (hs_deferred s !! lo) as [[]|]; done.
Qed.

(** [Write] prepares the deferred writer and persists it. *)
Lemma prepareWrite_eq l ctx err s d :
  hs_deferred s !! l = Some d → dw_data d = "" →
  let s1 := prepareWrite l ctx err s in
    hs_deferred s1 = <[l := mkDeferred (dw_w d) (dw_meta d) (spec_status (dw_httpCode d) (dw_bodyEncoder d) err)
                              (spec_body (dw_bodyEncoder d)) (dw_bodyEncoder d)]> (hs_deferred s) ∧
    hs_meta s1 = hs_meta (update_meta (ctx_http_meta ctx)
      (meta_result (ok_if_zero (spec_status (dw_httpCode d) (dw_bodyEncoder d) err)) (spec_error (dw_bodyEncoder d) err)) s) ∧
    hs_status s1 = hs_status s ∧ hs_body s1 = hs_body s ∧ hs_writeError s1 = hs_writeError s ∧
    hs_header s1 = spec_header (dw_bodyEncoder d) (hs_header s).
Proof.
  intros Hd Hdata. unfold prepareWrite. rewrite Hd.
  destruct d as [pw m code data enc]. simpl in Hdata. subst data. cbn [dw_w dw_meta dw_httpCode dw_data dw_bodyEncoder].
  unfold IsStatusCodeExplicitlyWritten, statusNotSetValue. cbn [dw_httpCode].
  assert (Hc : (if negb (code =? 0)%Z then code else error_status err) = if (code =? 0)%Z then error_status err else code)
    by (by destruct (code =? 0)%Z).
  rewrite Hc. clear Hc. unfold spec_status, spec_body, spec_error.
  set (c := if (code =? 0)%Z then error_status err else code). clearbody c.
  destruct enc as [[body|e]|]; cbn [set_header set_deferred hs_deferred hs_status hs_body hs_writeError hs_meta].
  - destruct (String.eqb_spec body "") as [->|Hb]; cbn [set_header set_deferred hs_deferred];
      rewrite ?lookup_alter_eq, Hd; cbn; unfold update_meta; destruct (ctx_http_meta ctx); cbn;
      (split; [|done]); apply map_eq; intros k; destruct (decide (k = l)) as [->|Hk];
      rewrite ?lookup_insert_eq, ?lookup_alter_eq, ?lookup_insert_ne, ?lookup_alter_ne by done;
      rewrite ?lookup_alter_eq, ?lookup_alter_ne, ?Hd by done; done.
  - change (String.eqb "" "") with true. cbn [set_header set_deferred hs_deferred].
    rewrite ?lookup_alter_eq, Hd; cbn; unfold update_meta; destruct (ctx_http_meta ctx), err; cbn;
      (split; [|done]); apply map_eq; intros k; destruct (decide (k = l)) as [->|Hk];
      rewrite ?lookup_insert_eq, ?lookup_alter_eq, ?lookup_insert_ne, ?lookup_alter_ne by done;
      rewrite ?lookup_alter_eq, ?lookup_alter_ne, ?Hd by done; done.
  - change (String.eqb "" "") with true. cbn [set_header set_deferred hs_deferred].
    rewrite ?lookup_alter_eq, Hd; cbn; unfold update_meta; destruct (ctx_http_meta ctx); cbn;
      (split; [|done]); apply map_eq; intros k; destruct (decide (k = l)) as [->|Hk];
      rewrite ?lookup_insert_eq, ?lookup_alter_eq, ?lookup_insert_ne, ?lookup_alter_ne by done;
      rewrite ?lookup_alter_eq, ?lookup_alter_ne, ?Hd by done; done.
Qed.

Lemma lookup_fresh_None {A} (m : gmap nat A) : m !! fresh (dom m) = None.
Proof. apply not_elem_of_dom, is_fresh. Qed.

Lemma newDeferred_spec w r s l s1 :
  newDeferredResponseWriter w r s = (l, s1) →
  hs_deferred s !! l = None ∧
  s1 = set_deferred <[l := mkDeferred w (ctx_http_meta (r_Context r)) statusNotSetValue "" None]> s.
Proof. intros [= <- <-]. split; [apply lookup_fresh_None|done]. Qed.

(** What the wrapper does once the handler is done. *)
Lemma wrapper_run {W} (handler : HandlerFunc (W := W)) w r s env l s1 :
  newDeferredResponseWriter w r s = (l, s1) →
  httpHandlerWrapper handler w r (s, env) =
  match handler l r (s1, env) with
  | (Ret err, (s2, env2)) =>
      let sp := prepareWrite l (r_Context r) err s2 in
      (Ret tt, (match write_panics l sp with
                | Some msg => responseWriter_WritePanic l (r_Context r) msg sp
                | None => PersistWrite l sp
                end, env2))
  | (Panic msg, (s2, env2)) => (Ret tt, (responseWriter_WritePanic l (r_Context r) msg s2, env2))
  | (Blocked, w2) => (Blocked, w2)
  | (OutOfFuel, w2) => (OutOfFuel, w2)
  end.
Proof.
  intros Hnew. unfold httpHandlerWrapper, responseWriter_Write, persist. unfold_M. rewrite Hnew. unfold recover.
  destruct (handler l r (s1, env)) as [[e|msg| |] [s2 env2]]; [|done..]. cbn. by destruct (write_panics _ _).
Qed.

Lemma read_update_meta loc f s l m :
  loc = Some l → hs_meta s !! l = Some m → read_meta loc (update_meta loc f s) = f m.
Proof. intros -> Hm. cbn. by rewrite lookup_alter_eq, Hm. Qed.

Lemma hs_meta_update_meta loc f s s' : hs_meta s = hs_meta s' → hs_meta (update_meta loc f s) = hs_meta (update_meta loc f s').
Proof. intros H. destruct loc; cbn; [by rewrite H|done]. Qed.

Lemma read_meta_eq loc s s' : hs_meta s = hs_meta s' → read_meta loc s = read_meta loc s'.
Proof. intros H. destruct loc; cbn; [by rewrite H|done]. Qed.

(** After a panic. *)
Lemma WritePanic_server l lm msg s code data enc meta :
  hs_deferred s !! l = Some (mkDeferred ServerWriter (Some lm) code data enc) → unanswered s → hs_meta s !! lm = Some meta →
  ∀ ctx, ctx_http_meta ctx = Some lm →
  let s3 := responseWriter_WritePanic l ctx msg s in
  sent s3 = mkSent StatusInternalServerError "" (hs_header s) ∧ read_meta (Some lm) s3 = meta_panic msg meta.
Proof.
  intros Hl Hu Hm ctx Hctx s3. subst s3. unfold responseWriter_WritePanic. rewrite Hctx.
  set (sp := set_deferred (alter (upd_data "") l) (set_deferred (alter (upd_code StatusInternalServerError) l) (update_meta (Some lm) (meta_panic msg) s))).
  assert (Hlp : hs_deferred sp !! l = Some (mkDeferred ServerWriter (Some lm) StatusInternalServerError "" enc))
    by (cbn; by rewrite !lookup_alter_eq, Hl).
  destruct (PersistWrite_server l sp _ Hlp eq_refl Hu) as (H1 & H2 & H3 & H4 & _).
  split; [unfold sent; by rewrite H1, H2, H3|]. rewrite (read_meta_eq _ _ _ H4). cbn. by rewrite lookup_alter_eq, Hm.
Qed.

(** ** Theorems *)

(** C31. The response to every behaviour of a handler.  Say the handler, run with
    its writer [l], returns [err] after setting status [code] (0 for none), the
    header [hs_header s2] and body [enc].  The status written is the explicit
    one, or else 400 for a parsing error, 401 for an unauthenticated one, 403
    for a denied one, 500 for any other and none without error, and always 500
    when the body cannot be encoded.  The client gets that status - 200 for
    none, or after an informational one -, the handler's header with the JSON
    content type exactly when there is an encoded body, and the body as encoded
    unless the status allows none; the metadata the middlewares read hold the
    status that was written and the error, or else that the body was not
    allowed.  A status that is none makes net/http panic, and the client gets
    500 and no body.  When the handler panics the client gets 500 and no body,
    whatever it set before, with the header it set. *)
Theorem handler_response_spec {W} (handler : HandlerFunc (W := W)) (r : Request) (s s1 s2 : httpState) (env env2 : W)
    (l lm : nat) (meta : handlerMetadata) (code : Z) (enc : option (result string))
    (res : outcome (option error))
    (Hnew : newDeferredResponseWriter ServerWriter r s = (l, s1))
    (Hrun : handler l r (s1, env) = (res, (s2, env2)))
    (Hwriter : hs_deferred s2 !! l = Some (mkDeferred ServerWriter (Some lm) code "" enc))
    (Hun : unanswered s2) (Hmeta : ctx_http_meta (r_Context r) = Some lm) (Hm : hs_meta s2 !! lm = Some meta) :
  match res with
  | Ret err =>
      let written := spec_status code enc err in
      let meta' := meta_result (ok_if_zero written) (spec_error enc err) meta in
      ∃ s3, httpHandlerWrapper handler ServerWriter r (s, env) = (Ret tt, (s3, env2)) ∧
        if (written =? 0)%Z || valid_code written
        then sent s3 = mkSent (final_status written) (final_body written (spec_body enc)) (spec_header enc (hs_header s2)) ∧
             read_meta (Some lm) s3 = body_error written (spec_body enc) meta'
        else sent s3 = mkSent StatusInternalServerError "" (spec_header enc (hs_header s2)) ∧
             read_meta (Some lm) s3 = meta_panic (invalid_code_text written) meta'
  | Panic msg => ∃ s3, httpHandlerWrapper handler ServerWriter r (s, env) = (Ret tt, (s3, env2)) ∧
      sent s3 = mkSent StatusInternalServerError "" (hs_header s2) ∧ read_meta (Some lm) s3 = meta_panic msg meta
  | _ => True
  end.
Proof.
  rewrite (wrapper_run handler ServerWriter r s env l s1 Hnew), Hrun.
  destruct res as [err|msg| |]; [..|done|done]; (eexists; split; [done|]).
  - destruct (prepareWrite_eq l (r_Context r) err s2 _ Hwriter eq_refl) as (Hd & Hme & Hst & Hbo & Hwe & Hhe).
    destruct Hun as (Hu1 & Hu2 & Hu3). cbn zeta. set (sp := prepareWrite l (r_Context r) err s2) in *.
    cbn [dw_w dw_meta dw_httpCode dw_bodyEncoder] in *. set (written := spec_status code enc err) in *.
    assert (Hl : hs_deferred sp !! l = Some (mkDeferred ServerWriter (Some lm) written (spec_body enc) enc)) by (rewrite Hd; apply lookup_insert_eq).
    assert (Hup : unanswered sp) by (split_and!; congruence).
    assert (Hmp : hs_meta sp !! lm = Some (meta_result (ok_if_zero written) (spec_error enc err) meta)).
    { rewrite Hme, Hmeta. cbn. by rewrite lookup_alter_eq, Hm. }
    unfold write_panics. rewrite Hl, Hst, Hu1. unfold IsStatusCodeExplicitlyWritten, statusNotSetValue. cbn [dw_httpCode dw_w].
    destruct ((written =? 0)%Z || valid_code written) eqn:Ev.
    + assert (negb (written =? 0)%Z && negb (valid_code written) = false) as -> by (by destruct (written =? 0)%Z, (valid_code written)).
      destruct (PersistWrite_server l sp _ Hl eq_refl Hup) as (H1 & H2 & H3 & H4 & _). cbn [dw_httpCode dw_data dw_meta] in *.
      split; [unfold sent; by rewrite H1, H2, H3, Hhe|]. rewrite (read_meta_eq _ _ _ H4). unfold body_error.
      destruct (_ || String.eqb _ _); cbn; rewrite ?lookup_alter_eq, Hmp; done.
    + assert (negb (written =? 0)%Z && negb (valid_code written) = true) as -> by (by destruct (written =? 0)%Z, (valid_code written)).
      rewrite <- Hhe. by apply (WritePanic_server l lm _ sp _ _ _ _ Hl Hup Hmp).
  - by apply (WritePanic_server l lm msg s2 _ _ _ _ Hwriter Hun Hm).
Qed.

(** The error mapping decides the status last: when the handlers inside left
    the code [code] (0 for none) and the data [body] in its deferred writer and
    an error in the metadata, and no panic, the client gets the status of the
    first predicate the error satisfies, with the same body; without such a
    predicate, without an error or after a panic, it gets what was left. *)
Theorem error_mapping_spec {W} (predicates : list (Z * (error → bool))) (handler : HttpHandler (W := W)) (r : Request)
    (s s1 s2 : httpState) (env env2 : W) (l lm : nat) (meta : handlerMetadata) (pm : option nat) (code : Z) (body : string)
    (enc : option (result string))
    (Hpred : predicates ≠ []) (Hpos : Forall (λ p, sendable (fst p) = true) predicates) (Hcode : sendable (ok_if_zero code) = true)
    (Hnew : newDeferredResponseWriter ServerWriter r s = (l, s1))
    (Hrun : handler (DeferredWriter l) r (s1, env) = (Ret tt, (s2, env2)))
    (Hwriter : hs_deferred s2 !! l = Some (mkDeferred ServerWriter pm code body enc))
    (Hun : unanswered s2) (Hmeta : ctx_http_meta (r_Context r) = Some lm) (Hm : hs_meta s2 !! lm = Some meta) :
  ∃ s3, WithErrorMappingPredicate predicates handler ServerWriter r (s, env) = (Ret tt, (s3, env2)) ∧
    hs_body s3 = body ∧
    match hm_Error meta, hm_Panic meta with
    | Some e, None =>
        match first_match predicates e with
        | Some mapped => sent_status s3 = mapped ∧ read_meta (Some lm) s3 = meta_code mapped meta
        | None => sent_status s3 = ok_if_zero code ∧ read_meta (Some lm) s3 = meta
        end
    | _, _ => sent_status s3 = ok_if_zero code ∧ read_meta (Some lm) s3 = meta
    end.
Proof.
  unfold WithErrorMappingPredicate. destruct predicates as [|p ps]; [done|]. set (predicates := p :: ps) in *.
  unfold_M. rewrite Hnew. unfold deferring. unfold_M. rewrite Hrun.
  assert (Hread : read_meta (ctx_http_meta (r_Context r)) s2 = meta) by (rewrite Hmeta; cbn; by rewrite Hm).
  rewrite Hread. destruct (persist_server (W := W) l s2 _ env2 Hwriter eq_refl Hun Hcode) as (H1 & H2 & H3). cbn [dw_httpCode dw_data] in *.
  assert (Hleft : hs_body (PersistWrite l s2) = body ∧ sent_status (PersistWrite l s2) = ok_if_zero code ∧ read_meta (Some lm) (PersistWrite l s2) = meta).
  { injection H3 as -> -> _. split_and!; [done..|]. rewrite (read_meta_eq _ _ _ H2). cbn. by rewrite Hm. }
  destruct (hm_Error meta) as [e|], (hm_Panic meta) as [msg|]; try (eexists; split; [by rewrite H1|exact Hleft]).
  destruct (first_match predicates e) as [mapped|] eqn:Ef; [|eexists; split; [by rewrite H1|exact Hleft]].
  assert (Hmapped : sendable mapped = true).
  { clear -Ef Hpos. induction predicates as [|[c q] l IH]; simpl in Ef; [done|].
    inversion Hpos; subst. destruct (q e); [by simplify_eq/=|by apply IH]. }
  assert (Hzero : (mapped =? 0)%Z = false) by (destruct (Z.eqb_spec mapped 0); [by subst|done]).
  set (sm := update_meta (ctx_http_meta (r_Context r)) (meta_code mapped) (w_WriteHeader (DeferredWriter l) mapped s2)).
  assert (Hlm : hs_deferred sm !! l = Some (mkDeferred ServerWriter pm mapped body enc)).
  { subst sm. rewrite Hmeta. cbn. by rewrite lookup_alter_eq, Hwriter. }
  destruct (persist_server (W := W) l sm _ env2 Hlm eq_refl) as (K1 & K2 & K3).
  { destruct Hun as (U1 & U2 & U3). subst sm. rewrite Hmeta. by split_and!. }
  { unfold ok_if_zero. cbn. by rewrite Hzero. }
  cbn [dw_httpCode dw_data] in *. unfold ok_if_zero in K3. rewrite Hzero in K3. injection K3 as K3 K4 _.
  eexists. split; [by rewrite K1|]. split_and!; [done..|].
  rewrite (read_meta_eq _ _ _ K2). subst sm. rewrite Hmeta. by apply (read_update_meta (Some lm) _ _ lm).
Qed.

(** No access without authentication: behind [WithAuth] and
    [WithAuthenticationRequirement] a handler runs exactly when a token
    provider found a token and the provider authenticated it as a principal,
    and then with that principal in its context; with no token, or one that
    authenticates nobody, the answer is 401, with a failing provider 500, and
    the handler does not run. *)
Theorem authentication_required {W T Token} `{!PrincipalImpl T, !PrincipalImplLaws T}
    (authenticate : context → Token → M W (result (Auth T)))
    (tokenProviders : list (Request → option Token)) (handler : HttpHandler (W := W)) (w : writer) (r : Request)
    (s : httpState) (env : W) :
  let protected := chain [WithAuth authenticate tokenProviders; WithAuthenticationRequirement] handler in
  let answer code err (a : option (Auth T)) s :=
    let s := match a with
             | Some a => update_meta (ctx_http_meta (r_Context r)) (meta_auth (mkAuth (to_any <$> AuthPrincipal a))) s
             | None => s
             end in
    w_WriteHeader w code (update_meta (ctx_http_meta (r_Context r)) (meta_result code (Some err)) s) in
  match first_token tokenProviders r with
  | None => protected w r (s, env) =
      (Ret tt, (answer StatusUnauthorized (ErrSentinel ErrUnauthenticated) (Some (mkAuth None)) s, env))
  | Some token =>
      match authenticate (r_Context r) token env with
      | (Ret (Err e), env1) => protected w r (s, env) = (Ret tt, (answer StatusInternalServerError e None s, env1))
      | (Ret (Ok (mkAuth None)), env1) => protected w r (s, env) =
          (Ret tt, (answer StatusUnauthorized (ErrSentinel ErrUnauthenticated) (Some (mkAuth None)) s, env1))
      | (Ret (Ok (mkAuth (Some p))), env1) => ∃ r' s',
          protected w r (s, env) = handler w r' (s', env1) ∧
          GetAuthentication (r_Context r') = Some (mkAuth (Some p))
      | (Panic msg, env1) => protected w r (s, env) = (Panic msg, (s, env1))
      | (Blocked, env1) => protected w r (s, env) = (Blocked, (s, env1))
      | (OutOfFuel, env1) => protected w r (s, env) = (OutOfFuel, (s, env1))
      end
  end.
Proof.
  cbv zeta. cbn [chain foldr]. unfold WithAuth. destruct (first_token tokenProviders r) as [token|].
  - unfold_M. unfold on_env. destruct (authenticate (r_Context r) token env) as [[[[[p|]]|e]|msg| |] env1]; try done.
    unfold setHandlerAuthentication, WithAuthenticationRequirement. unfold_M.
    cbn [r_Context r_WithContext]. rewrite IsAuthenticated_with. cbn [Auth_IsAuthenticated AuthPrincipal].
    eexists (r_WithContext r (WithAuthentication (r_Context r) (mkAuth (Some p)))), _. split; [done|].
    cbn [r_Context r_WithContext]. apply GetAuthentication_with.
  - unfold setHandlerAuthentication. unfold_M. done.
Qed.

(** ** Witnesses *)

Definition sample_request : Request :=
  mkRequest (with_http_meta 0 context_Background) "GET" "" "" "/users" "" ∅ ∅ [] ∅ "GET_users" "".
Definition sample_state : httpState := set_meta <[0 := meta_empty]> http_init.

(** Sets a body and fails with a permission error. *)
Definition sample_handler (l : nat) (r : Request) : M (httpState * unit) (option error) :=
  _ ← modify_obj (SetJSONBody l (Ok "{}"));
  mret (Some (Errorf "get user" (ErrSentinel ErrPermissionDenied))).

Definition sample_state1 : httpState := snd (newDeferredResponseWriter ServerWriter sample_request sample_state).
Definition sample_state2 : httpState := fst (snd (sample_handler 0 sample_request (sample_state1, tt))).
(** A handler that finds no user. *)
Definition missing_handler : HandlerFunc (W := unit) := λ _ _, mret (Some (Errorf "get" (ErrSentinel "user not found"))).
Definition missing_state2 : httpState :=
  fst (snd (httpHandlerWrapper missing_handler (DeferredWriter 0) sample_request (sample_state1, tt))).

Lemma handler_response_spec_witness :
  ∃ s3, httpHandlerWrapper sample_handler ServerWriter sample_request (sample_state, tt) = (Ret tt, (s3, tt)) ∧
    sent s3 = mkSent StatusForbidden "{}" (header_Set "Content-Type" "application/json" ∅).
Proof.
  edestruct (handler_response_spec sample_handler sample_request sample_state
    sample_state1 sample_state2 tt tt 0 0 meta_empty 0
    (Some (Ok "{}")) (Ret (Some (Errorf "get user" (ErrSentinel ErrPermissionDenied)))))
    as (s3 & H1 & H2 & _); [reflexivity|reflexivity|reflexivity|by split_and!|reflexivity|reflexivity|].
  exists s3. split; [exact H1|exact H2].
Defined.

Lemma error_mapping_spec_witness :
  ∃ s3, WithErrorMapping [(404%Z, ["user not found"])]
      (httpHandlerWrapper missing_handler) ServerWriter sample_request (sample_state, tt) = (Ret tt, (s3, tt)) ∧
    hs_body s3 = "" ∧ sent_status s3 = 404%Z.
Proof.
  edestruct (error_mapping_spec
    [(404%Z, λ e, existsb (λ target, errors_Is (Some e) (Some target)) ["user not found"])]
    (httpHandlerWrapper missing_handler) sample_request sample_state sample_state1 missing_state2 tt tt 0 0
    (mkMeta None 500 None (Some (Errorf "get" (ErrSentinel "user not found")))) (Some 0) 500 "" None)
    as (s3 & H1 & H2 & H3); [discriminate|by repeat constructor|reflexivity|reflexivity|vm_compute; reflexivity|reflexivity|by split_and!|reflexivity|reflexivity|].
  exists s3. split; [exact H1|]. split; [exact H2|]. exact (proj1 H3).
Defined.

Lemma authentication_required_witness :
  chain [WithAuth (T := Principal) (Token := uuid) (λ _ _, mret (Ok (mkAuth None))) [λ _, Some 5%N]; WithAuthenticationRequirement]
    (λ _ _, panic "the protected handler ran") ServerWriter sample_request (sample_state, tt) =
  (Ret tt, (w_WriteHeader ServerWriter 401
     (update_meta (Some 0) (meta_result 401 (Some (ErrSentinel ErrUnauthenticated)))
       (update_meta (Some 0) (meta_auth (mkAuth None)) sample_state)), tt)).
Proof.
  exact (authentication_required (T := Principal) (Token := uuid) (λ _ _, mret (Ok (mkAuth None))) [λ _, Some 5%N]
    (λ _ _, panic "the protected handler ran") ServerWriter sample_request sample_state tt).
Defined.
