(* ===== verification/HttpParser.v ===== *)
(** pkg/http/parser.go: extraction of typed data from requests and responses;
    internal/pkg/http/authtoken.go and internal/pkg/auth: authentication tokens,
    the provider and the permission service. *)
From S2P Require Import Prelude GoStrings Parsing Context Http.

(** ** Data providers *)

(** [Cookies] is [None] where reading them dereferences a [nil] response. *)
Record dataProvider := mkProvider {
  dp_PathParameters : gmap string string;
  dp_QueryParameters : gmap string (list string);
  dp_Header : gmap string (list string);
  dp_Cookies : option (list Cookie);
  dp_Body : string;
}.

Definition requestDataProvider (r : Request) : dataProvider :=
  mkProvider (r_Vars r) (r_Query r) (r_Header r) (Some (r_Cookies r)) (r_Body r).

(** [*http.Response] with the request it answers. *)
Record HttpResponse := mkResponse {
  hr_Request : option Request;
  hr_StatusCode : Z;
  hr_Header : gmap string (list string);
  hr_Cookies : list Cookie;
  hr_Body : string;
}.
Definition responseDataProvider (r : option HttpResponse) : dataProvider :=
  match r with
  | None => mkProvider ∅ ∅ ∅ None ""
  | Some r =>
      match hr_Request r with
      | None => mkProvider ∅ ∅ (hr_Header r) (Some (hr_Cookies r)) (hr_Body r)
      | Some q => mkProvider (r_Vars q) (r_Query q) (hr_Header r) (Some (hr_Cookies r)) (hr_Body r)
      end
  end.

(** A parse can panic (the type assertion of [ParseTypedValue]). *)
Definition DataExtractor (A : Type) : Type := dataProvider → outcome (result A).

Definition ParseRequest {A} (r : Request) (extractor : DataExtractor A) (lastErr : option error) : outcome (result A) :=
  match lastErr with
  | Some e => Ret (Err e)
  | None => extractor (requestDataProvider r)
  end.
Definition optional {A} (o : outcome (result A)) : outcome (option A) :=
  match o with
  | Ret (Ok a) => Ret (Some a)
  | Ret (Err _) => Ret None
  | Panic s => Panic s
  | Blocked => Blocked
  | OutOfFuel => OutOfFuel
  end.
Definition ParseRequestOptional {A} (r : Request) (extractor : DataExtractor A) (lastErr : option error) :
    outcome (option A) :=
  match lastErr with
  | Some _ => Ret None
  | None => optional (extractor (requestDataProvider r))
  end.
Definition ParseResponse {A} (r : option HttpResponse) (extractor : DataExtractor A) (lastErr : option error) :
    outcome (result A) :=
  match lastErr with
  | Some e => Ret (Err e)
  | None => extractor (responseDataProvider r)
  end.
Definition ParseResponseOptional {A} (r : option HttpResponse) (extractor : DataExtractor A) (lastErr : option error) :
    outcome (option A) :=
  match lastErr with
  | Some _ => Ret None
  | None => optional (extractor (responseDataProvider r))
  end.

(** [fmt.Errorf("%w: ...", ErrParsingError, ...)] *)
Definition parsingError (msg : string) (inner : list error) : error :=
  ErrWrap msg (ErrSentinel ErrParsingError :: inner).

Section extractors.
Context `{!ParseLib}.

Definition parseTypedValueImpl (T : parse_type) (s : string) : outcome (result value) :=
  match ParseTypedValue T s with
  | Ret (Err e) => Ret (Err (parsingError "" [e]))
  | o => o
  end.

Definition PathParameter (T : parse_type) (param : string) : DataExtractor value := λ p,
  match dp_PathParameters p !! param with
  | None => Ret (Err (parsingError ("path parameter " +:+ param +:+ " not found") []))
  | Some v => parseTypedValueImpl T v
  end.

(** [url.Values.Get] *)
Definition values_Get (q : gmap string (list string)) (key : string) : string :=
  match q !! key with Some (v :: _) => v | _ => "" end.

Definition QueryParameter (T : parse_type) (param : string) : DataExtractor value := λ p,
  let v := values_Get (dp_QueryParameters p) param in
  if String.eqb v "" then Ret (Err (parsingError ("query parameter " +:+ param +:+ " not found") []))
  else parseTypedValueImpl T v.

Fixpoint parse_values (T : parse_type) (vs : list string) : outcome (result (list value)) :=
  match vs with
  | [] => Ret (Ok [])
  | v :: vs' =>
      match parseTypedValueImpl T v with
      | Ret (Err e) => Ret (Err e)
      | Ret (Ok x) =>
          match parse_values T vs' with
          | Ret (Ok xs) => Ret (Ok (x :: xs))
          | o => o
          end
      | Panic s => Panic s
      | Blocked => Blocked
      | OutOfFuel => OutOfFuel
      end
  end.

Definition QueryParameters (T : parse_type) (param : string) : DataExtractor (list value) := λ p,
  match dp_QueryParameters p !! param with
  | None => Ret (Err (parsingError ("query parameter " +:+ param +:+ " not found") []))
  | Some vs => parse_values T vs
  end.

Definition Header (T : parse_type) (key : string) : DataExtractor value := λ p,
  let v := header_Get (dp_Header p) key in
  if String.eqb v "" then Ret (Err (parsingError ("header with key " +:+ key +:+ " not found") []))
  else parseTypedValueImpl T v.

(** The loops keep the last cookie of that name. *)
Definition last_cookie (name : string) (cs : list Cookie) : option Cookie :=
  foldl (λ found c, if String.eqb (c_Name c) name then Some c else found) None cs.

Definition cookieNotFound (name : string) : error := parsingError ("cookie with name " +:+ name +:+ " not found") [].

Definition CookieExtractor (name : string) : DataExtractor Cookie := λ p,
  match dp_Cookies p with
  | None => Panic nilDereference
  | Some cs => match last_cookie name cs with Some c => Ret (Ok c) | None => Ret (Err (cookieNotFound name)) end
  end.
Definition CookieValue (T : parse_type) (name : string) : DataExtractor value := λ p,
  match dp_Cookies p with
  | None => Panic nilDereference
  | Some cs =>
      match last_cookie name cs with
      | Some c => parseTypedValueImpl T (c_Value c)
      | None => Ret (Err (cookieNotFound name))
      end
  end.

(** [Decode] is encoding/json's decoding of a body into the type asked for. *)
Definition JSONBody {A} (Decode : string → result A) : DataExtractor A := λ p,
  match Decode (dp_Body p) with
  | Err e => Ret (Err (parsingError "encode json body" [e]))
  | Ok a => Ret (Ok a)
  end.
End extractors.

(** ** Tokens (internal/pkg/auth) *)

Inductive Token :=
| UserIDToken (ID : uuid)
| AdminUserIDToken (ID : string)
| ServiceNameToken (Name : string)
| ForeignToken (type : string).

Definition Token_Type (t : Token) : string :=
  match t with
  | UserIDToken _ => PrincipalTypeUser
  | AdminUserIDToken _ => PrincipalTypeAdminUser
  | ServiceNameToken _ => PrincipalTypeService
  | ForeignToken t => t
  end.

(** [provider.Authenticate] *)
Definition provider_Authenticate (t : Token) : result (Auth Principal) :=
  match t with
  | UserIDToken id => Ok (mkAuth (Some (Context.mkPrincipal (Some id) None None)))
  | AdminUserIDToken id => Ok (mkAuth (Some (Context.mkPrincipal None (Some id) None)))
  | ServiceNameToken n => Ok (mkAuth (Some (Context.mkPrincipal None None (Some n))))
  | ForeignToken t => Err (ErrText ("unknown token with type " +:+ t))
  end.

Definition HeaderAuthUserID : string := "X-Auth-User-ID".
Definition HeaderAuthAdminUserID : string := "X-Auth-AdminUser-ID".
Definition HeaderAuthServiceName : string := "X-Auth-Service-Name".

Section tokens.
Context `{!ParseLib}.

Definition UserIDTokenProvider (r : Request) : option Token :=
  match ParseRequest r (Header (mkType false BUUID) HeaderAuthUserID) None with
  | Ret (Ok (VUUID id)) => if decide (id = uuid_Nil) then None else Some (UserIDToken id)
  | _ => None
  end.
Definition AdminUserIDTokenProvider (r : Request) : option Token :=
  match ParseRequest r (Header (mkType false BString) HeaderAuthAdminUserID) None with
  | Ret (Ok (VString s)) => if String.eqb s "" then None else Some (AdminUserIDToken s)
  | _ => None
  end.
Definition ServiceNameTokenProvider (r : Request) : option Token :=
  match ParseRequest r (Header (mkType false BString) HeaderAuthServiceName) None with
  | Ret (Ok (VString s)) => if String.eqb s "" then None else Some (ServiceNameToken s)
  | _ => None
  end.
End tokens.

(** ** The permission service (pkg/auth/permission.go) *)

Definition Permission (T : Type) : Type := Auth T → result bool.

Definition permission_Check {T} `{!PrincipalImpl T} (ctx : context) (permission : Permission T) : option error :=
  match GetAuthentication (T := T) ctx with
  | None => Some errAuthenticationNotFound
  | Some a =>
      match permission a with
      | Err e => Some (Errorf "check permission" e)
      | Ok allowed => if (allowed : bool) then None else Some (ErrSentinel ErrPermissionDenied)
      end
  end.

Definition FilterByPermissions {T A} `{!PrincipalImpl T} (ctx : context) (filter : Auth T → result A) : result A :=
  match GetAuthentication (T := T) ctx with
  | None => Err errAuthenticationNotFound
  | Some a => filter a
  end.

(** ** Lemmas *)

Lemma parsingError_has msg inner : error_has ErrParsingError (parsingError msg inner) = true.
Proof. done. Qed.

Lemma parseTypedValueImpl_error `{!ParseLib} T s e :
  parseTypedValueImpl T s = Ret (Err e) → error_has ErrParsingError e = true.
Proof. unfold parseTypedValueImpl. repeat case_match; intros; simplify_eq; apply parsingError_has || done. Qed.

Lemma parse_values_error `{!ParseLib} T vs e : parse_values T vs = Ret (Err e) → error_has ErrParsingError e = true.
Proof.
  induction vs as [|v vs IH]; simpl; [done|].
  destruct (parseTypedValueImpl T v) as [[x|e']| | |] eqn:E; try done.
  - destruct (parse_values T vs) as [[xs|e']| | |]; try done.
  - intros [= ->]. by eapply parseTypedValueImpl_error.
Qed.

(** ** Theorems *)

(** An extractor all of whose errors are parsing errors. *)
Definition fails_to_parse {A} (ex : DataExtractor A) : Prop :=
  ∀ p e, ex p = Ret (Err e) → error_has ErrParsingError e = true.

(** Every error an extractor reports is a parsing error, so a handler that
    returns it is answered with 400 unless it set another status; the first
    error of a chain of [ParseRequest] calls, each given the error of the one
    before, is the error of the chain. *)
Theorem parse_errors_are_bad_requests `{!ParseLib} (T : parse_type) (name : string) (A : Type) (Decode : string → result A) :
  fails_to_parse (PathParameter T name) ∧ fails_to_parse (QueryParameter T name) ∧
  fails_to_parse (QueryParameters T name) ∧ fails_to_parse (Header T name) ∧
  fails_to_parse (CookieExtractor name) ∧ fails_to_parse (CookieValue T name) ∧ fails_to_parse (JSONBody Decode) ∧
  (∀ B (ex : DataExtractor B) r e enc, fails_to_parse ex → ParseRequest r ex None = Ret (Err e) →
     spec_status 0 enc (Some e) = (match enc with Some (Err _) => StatusInternalServerError | _ => StatusBadRequest end) ∧
     ∀ C (ex' : DataExtractor C), ParseRequest r ex' (Some e) = Ret (Err e)).
Proof.
  unfold fails_to_parse. split_and!.
  - intros p e. unfold PathParameter. case_match; [apply parseTypedValueImpl_error|]. by intros [= <-].
  - intros p e. unfold QueryParameter. case_match; [by intros [= <-]|apply parseTypedValueImpl_error].
  - intros p e. unfold QueryParameters. case_match; [apply parse_values_error|]. by intros [= <-].
  - intros p e. unfold Header. case_match; [by intros [= <-]|apply parseTypedValueImpl_error].
  - intros p e. unfold CookieExtractor. repeat case_match; intros; by simplify_eq.
  - intros p e. unfold CookieValue. repeat case_match; intros; simplify_eq; [by eapply parseTypedValueImpl_error|done].
  - intros p e. unfold JSONBody. case_match; [done|]. by intros [= <-].
  - intros B ex r e enc Hex Hr. apply Hex in Hr. split; [|done].
    unfold spec_status, error_status, errors_Is. rewrite Hr. by destruct enc as [[]|].
Qed.

(** From header to principal: a user id header that parses to an id other
    than the nil one authenticates exactly that user; without it, a non-empty
    admin header authenticates that admin; without both, a non-empty service
    header that service; and a request with none of them has no token.  The
    provider accepts every token made this way. *)
Theorem tokens_authenticate `{!ParseLib} (r : Request) :
  let token := first_token [UserIDTokenProvider; AdminUserIDTokenProvider; ServiceNameTokenProvider] r in
  let user := header_Get (r_Header r) HeaderAuthUserID in
  let admin := header_Get (r_Header r) HeaderAuthAdminUserID in
  let service := header_Get (r_Header r) HeaderAuthServiceName in
  (∀ id, user ≠ "" → uuid_Parse user = Ok id → id ≠ uuid_Nil →
     token = Some (UserIDToken id) ∧
     provider_Authenticate (UserIDToken id) = Ok (mkAuth (Some (Context.mkPrincipal (Some id) None None)))) ∧
  (user = "" → admin ≠ "" → token = Some (AdminUserIDToken admin)) ∧
  (user = "" → admin = "" → service ≠ "" → token = Some (ServiceNameToken service)) ∧
  (user = "" → admin = "" → service = "" → token = None) ∧
  (∀ t, token = Some t → ∃ p, provider_Authenticate t = Ok (mkAuth (Some p)) ∧ Principal_Type p = Token_Type t).
Proof.
  cbv zeta.
  assert (Hu : UserIDTokenProvider r =
    if String.eqb (header_Get (r_Header r) HeaderAuthUserID) "" then None
    else match uuid_Parse (header_Get (r_Header r) HeaderAuthUserID) with
         | Ok id => if decide (id = uuid_Nil) then None else Some (UserIDToken id) | Err _ => None end).
  { unfold UserIDTokenProvider, ParseRequest, Header, parseTypedValueImpl, ParseTypedValue, parse_switch.
    cbn [dp_Header requestDataProvider pt_base pt_pointer]. destruct (String.eqb _ ""); [done|].
    by destruct (uuid_Parse _). }
  assert (Hs : ∀ key, (match ParseRequest r (Header (mkType false BString) key) None with
    | Ret (Ok (VString s)) => if String.eqb s "" then None else Some s | _ => None end) =
    if String.eqb (header_Get (r_Header r) key) "" then None else Some (header_Get (r_Header r) key)).
  { intros key. unfold ParseRequest, Header, parseTypedValueImpl, ParseTypedValue, parse_switch.
    cbn [dp_Header requestDataProvider pt_base pt_pointer]. destruct (String.eqb (header_Get (r_Header r) key) "") eqn:E; [done|].
    cbn. by rewrite E. }
  assert (Ha : AdminUserIDTokenProvider r =
    if String.eqb (header_Get (r_Header r) HeaderAuthAdminUserID) "" then None
    else Some (AdminUserIDToken (header_Get (r_Header r) HeaderAuthAdminUserID))).
  { specialize (Hs HeaderAuthAdminUserID). unfold AdminUserIDTokenProvider.
    repeat case_match; try done; by simplify_eq. }
  assert (Hn : ServiceNameTokenProvider r =
    if String.eqb (header_Get (r_Header r) HeaderAuthServiceName) "" then None
    else Some (ServiceNameToken (header_Get (r_Header r) HeaderAuthServiceName))).
  { specialize (Hs HeaderAuthServiceName). unfold ServiceNameTokenProvider.
    repeat case_match; try done; by simplify_eq. }
  cbn [first_token]. rewrite Hu, Ha, Hn. clear Hu Ha Hn Hs. split_and!.
  - intros id Hne Hp Hnil. destruct (String.eqb_spec (header_Get (r_Header r) HeaderAuthUserID) ""); [done|].
    rewrite Hp. by destruct (decide (id = uuid_Nil)).
  - intros -> Hne. cbn. by destruct (String.eqb_spec (header_Get (r_Header r) HeaderAuthAdminUserID) "").
  - intros -> -> Hne. cbn. by destruct (String.eqb_spec (header_Get (r_Header r) HeaderAuthServiceName) "").
  - by intros -> -> ->.
  - intros t Ht. repeat case_match; simplify_eq; by eexists.
Qed.

(** ** Witnesses *)

(** A library that knows one UUID. *)
#[local] Instance one_uuid_lib : ParseLib := {|
  float64 := Z; ParseFloat := λ _, Err ErrSyntax; time_RFC3339 := λ _, Err ErrSyntax;
  time_RFC3339Nano := λ _, Err ErrSyntax; ParseDuration := λ _, Err ErrSyntax;
  uuid_Parse := λ s, if String.eqb s "u5" then Ok 5%N else Err ErrSyntax;
|}.

Definition sample_user_request : Request :=
  mkRequest context_Background "GET" "" "" "/" "" ∅ (header_Set HeaderAuthUserID "u5" ∅) [] ∅ "" "".

Lemma parse_errors_are_bad_requests_witness :
  spec_status 0 None (Some (parsingError "path parameter userID not found" [])) = StatusBadRequest.
Proof.
  refine (proj1 (proj2 (proj2 (proj2 (proj2 (proj2 (proj2 (proj2
    (parse_errors_are_bad_requests (mkType false BUUID) "userID" unit (λ _, Ok tt)))))))) value
    (PathParameter (mkType false BUUID) "userID") sample_user_request _ None _ eq_refl)).
  exact (proj1 (parse_errors_are_bad_requests (mkType false BUUID) "userID" unit (λ _, Ok tt))).
Defined.

Lemma tokens_authenticate_witness :
  first_token [UserIDTokenProvider; AdminUserIDTokenProvider; ServiceNameTokenProvider] sample_user_request =
    Some (UserIDToken 5%N).
Proof.
  refine (proj1 (proj1 (tokens_authenticate sample_user_request) 5%N _ _ _)); [discriminate|reflexivity|discriminate].
Defined.
