(* ===== verification/HttpServer.v ===== *)
(** pkg/http/server.go: registration of handlers and the listener; and
    pkg/http/client.go: the client over resty. *)
From S2P Require Import Prelude GoStrings Context Http HttpParser.
From Stdlib Require Import Ascii.

(** ** Route names *)

(** [unicode.Is(unicode.Latin, r) || unicode.IsDigit(r)] of a rune that is not
    ASCII is the standard library's tables. *)
Class UnicodeLatin := latin_or_digit : list ascii → bool.

Definition ascii_latin_or_digit (b : ascii) : bool := cont 48 57 b || cont 65 90 b || cont 97 122 b.

(** One step of [strings.Map]: the bytes a rune becomes. *)
Definition route_rune `{!UnicodeLatin} (rune : list ascii) : list ascii :=
  match rune with
  | [b] =>
      if (byte_val b <? 0x80)%N then
        if ascii_latin_or_digit b then [b]
        else if Ascii.eqb b "{"%char || Ascii.eqb b "}"%char then []
        else ["_"%char]
      else ["_"%char]
  | _ => if latin_or_digit rune then rune else ["_"%char]
  end.

Definition getRouteName `{!UnicodeLatin, !UnicodeCase} (method path : string) : string :=
  let path := of_bytes (concat (route_rune <$> runes (to_bytes (TrimSlash path)))) in
  ToUpper method +:+ "_" +:+ path.

(** ** The server *)

(** A registered handler: its subrouter's middlewares, and the handler. *)
Record Route_ (W : Type) := mkRoute {
  rt_Name : string;
  rt_Method : string;
  rt_Path : string;
  rt_MWs : list (HttpHandler (W := W) → HttpHandler (W := W));
  rt_Handler : HttpHandler (W := W);
}.
Arguments mkRoute {W}.
Arguments rt_Name {W} _.
Arguments rt_Method {W} _.
Arguments rt_Path {W} _.
Arguments rt_MWs {W} _.
Arguments rt_Handler {W} _.

(** A router: its own middlewares and its routes. *)
Record Router (W : Type) := mkRouter {
  router_MWs : list (HttpHandler (W := W) → HttpHandler (W := W));
  router_Routes : list (Route_ W);
}.
Arguments mkRouter {W}.
Arguments router_MWs {W} _.
Arguments router_Routes {W} _.

Definition HandlerOption (W : Type) : Type := Router W → Router W.

Definition defaultServerAddress : string := ":8080".
Definition defaultReadHeaderTimeout : duration := (3 * time_Second)%Z.
Definition defaultReadTimeout : duration := (5 * time_Second)%Z.
Definition defaultShutdownTimeout : duration := (10 * time_Second)%Z.

Record ServerImpl (W : Type) := mkServer {
  srv_Addr : string;
  srv_Router : Router W;
  srv_ReadTimeout : duration;
  srv_ReadHeaderTimeout : duration;
  srv_ShutdownTimeout : duration;
}.
Arguments mkServer {W}.
Arguments srv_Addr {W} _.
Arguments srv_Router {W} _.
Arguments srv_ReadTimeout {W} _.
Arguments srv_ReadHeaderTimeout {W} _.
Arguments srv_ShutdownTimeout {W} _.

Section server.
Context {W : Type} `{!UnicodeLatin, !UnicodeCase}.

Definition set_router (f : Router W → Router W) (s : ServerImpl W) : ServerImpl W :=
  mkServer (srv_Addr s) (f (srv_Router s)) (srv_ReadTimeout s) (srv_ReadHeaderTimeout s) (srv_ShutdownTimeout s).

Definition NewServer (opts : list (ServerImpl W → ServerImpl W)) : ServerImpl W :=
  foldl (λ s opt, opt s)
    (mkServer defaultServerAddress (mkRouter [withHandlerMetadata] []) defaultReadTimeout defaultReadHeaderTimeout
       defaultShutdownTimeout) opts.

Definition WithServerAddress (addr : string) (s : ServerImpl W) : ServerImpl W :=
  mkServer addr (srv_Router s) (srv_ReadTimeout s) (srv_ReadHeaderTimeout s) (srv_ShutdownTimeout s).

Definition WithHandlerOptions (opts : list (HandlerOption W)) (s : ServerImpl W) : ServerImpl W :=
  match opts with
  | [] => s
  | _ => set_router (λ r, foldl (λ r opt, opt r) r opts) s
  end.

(** [WithMW] *)
Definition WithMW (mw : HttpHandler (W := W) → HttpHandler (W := W)) : HandlerOption W :=
  λ r, mkRouter (router_MWs r ++ [mw]) (router_Routes r).

Definition WithHealthCheckOption (customHandlerFunc : option (HandlerFunc (W := W))) : HandlerOption W :=
  λ r, mkRouter (router_MWs r)
    (router_Routes r ++ [mkRoute (getRouteName "GET" healthPath) "GET" healthPath [] (WithHealthCheck customHandlerFunc)]).

(** [Handler]: the interface a component's handlers implement. *)
Record Handler := mkHandler {
  h_Method : string;
  h_Path : string;
  h_Handle : HandlerFunc (W := W);
}.

(** [Register]: with options, on a subrouter that they configure; the routes
    the options added come with it. *)
Definition Register (h : Handler) (opts : list (HandlerOption W)) (s : ServerImpl W) : ServerImpl W :=
  let route := mkRoute (getRouteName (h_Method h) (h_Path h)) (h_Method h) (h_Path h) [] (httpHandlerWrapper (h_Handle h)) in
  match opts with
  | [] => set_router (λ r, mkRouter (router_MWs r) (router_Routes r ++ [route])) s
  | _ =>
      let sub := foldl (λ r opt, opt r) (mkRouter [] []) opts in
      let in_sub rt := mkRoute (rt_Name rt) (rt_Method rt) (rt_Path rt) (router_MWs sub ++ rt_MWs rt) (rt_Handler rt) in
      set_router (λ r, mkRouter (router_MWs r) (router_Routes r ++ (in_sub <$> (router_Routes sub ++ [route])))) s
  end.

(** How the router serves a matched route: the router's middlewares, then the
    subrouter's, then the handler. *)
Definition serve_route (s : ServerImpl W) (rt : Route_ W) : HttpHandler (W := W) :=
  chain (router_MWs (srv_Router s)) (chain (rt_MWs rt) (rt_Handler rt)).

(** *** Listener: what comes first, the end of [ListenAndServe] or of the
    context, in which case [Shutdown] runs and gives an error *)
Definition ErrServerClosed : string := "http.ErrServerClosed".
Inductive listenerEvent := ServerDone (err : option error) | ContextDone (shutdownErr : option error).

Definition shutdown (err : option error) : option error :=
  match err with
  | Some e => if errors_Is (Some e) (Some ErrServerClosed) then err else Some (Errorf "shutdown" e)
  | None => None
  end.
Definition Listener (s : ServerImpl W) (ev : listenerEvent) : option error :=
  let err := match ev with ServerDone err => err | ContextDone err => shutdown err end in
  match err with
  | None => None
  | Some e => if errors_Is err (Some ErrServerClosed) then None else Some (Errorf ("http listener " +:+ srv_Addr s) e)
  end.
End server.

(** ** The client: resty is a parameter *)

(** Calls of a request builder, in order. *)
Inductive request_op :=
| OpPathParam (param v : string)
| OpPathParams (params : gmap string string)
| OpQueryParam (param v : string)
| OpQueryParams (params : gmap string string)
| OpQueryString (query : string)
| OpHeader (header v : string)
| OpHeaders (headers : gmap string string)
| OpHeaderMultiValues (headers : gmap string (list string))
| OpCookie (c : Cookie)
| OpBody (body : string)
| OpFormData (data : gmap string string)
| OpMultipartFormData (data : gmap string string)
| OpMultipartField (param fileName contentType content : string).

(** [*resty.Request]; [q_RawRequest] is set once it was sent. *)
Record restyRequest := mkRestyRequest {
  q_Context : context;
  q_Method : string;
  q_URL : string;
  q_ops : list request_op;
  q_RawRequest : option Request;
}.
Record restyResponse := mkRestyResponse {
  p_StatusCode : Z;
  p_Request : option restyRequest;
  p_RawResponse : option HttpResponse;
  p_Time : duration;
}.

(** A response error carries its response; resty makes other errors too. *)
Record restyError := mkRestyError { re_Response : option restyResponse; re_Error : error }.

(** [*resty.Client] as configured: the hooks read the destination name of the
    finished client. *)
Record restyClient (W : Type) := mkRestyClient {
  rc_BaseURL : string;
  rc_Header : list (string * string);
  rc_OnBeforeRequest : list (restyRequest → M W restyRequest);
  rc_OnAfterResponse : list (string → restyResponse → M W unit);
  rc_OnInvalid : list (string → restyRequest → error → M W unit);
  rc_OnSuccess : list (string → restyResponse → M W unit);
  rc_OnError : list (string → restyRequest → restyError → M W unit);
}.
Arguments mkRestyClient {W}.
Arguments rc_BaseURL {W} _.
Arguments rc_Header {W} _.
Arguments rc_OnBeforeRequest {W} _.
Arguments rc_OnAfterResponse {W} _.
Arguments rc_OnInvalid {W} _.
Arguments rc_OnSuccess {W} _.
Arguments rc_OnError {W} _.

Definition resty_New {W} : restyClient W := mkRestyClient "" [] [] [] [] [] [].

(** The configured part of [ClientImpl], and the client with its options. *)
Record ClientCore (W : Type) := mkCore {
  DestinationName : string;
  ResponseMWs : list (restyResponse → option error → option error);
  RESTClient : restyClient W;
}.
Arguments mkCore {W}.
Arguments DestinationName {W} _.
Arguments ResponseMWs {W} _.
Arguments RESTClient {W} _.

Definition ClientOption (W : Type) : Type := ClientCore W → ClientCore W.
Record ClientImpl (W : Type) := mkClient { client_core : ClientCore W; client_opts : list (ClientOption W) }.
Arguments mkClient {W}.
Arguments client_core {W} _.
Arguments client_opts {W} _.

Section client.
Context {W : Type} `{!UnicodeLatin, !UnicodeCase}.

Definition set_rest (f : restyClient W → restyClient W) (c : ClientCore W) : ClientCore W :=
  mkCore (DestinationName c) (ResponseMWs c) (f (RESTClient c)).

Definition NewClient (opts : list (ClientOption W)) : ClientImpl W :=
  mkClient (foldl (λ c opt, opt c) (mkCore "" [] resty_New) opts) opts.

Definition client_With (c : ClientImpl W) (opts : list (ClientOption W)) : ClientImpl W :=
  match opts with
  | [] => c
  | _ => NewClient (client_opts c ++ opts)
  end.

(** The context key [clientRouteName]. *)
Definition with_route (name : string) (ctx : context) : context :=
  mkContext (ctx_scope ctx) (ctx_conn ctx) (ctx_tx ctx) (ctx_lock ctx) (ctx_auth ctx) (ctx_http_meta ctx)
    (Some name) (ctx_msg_meta ctx) (ctx_log_fields ctx) (ctx_observed ctx) (ctx_now ctx).

Record Route := mkClientRoute { route_Method : string; route_URL : string }.

(** [restyRequestWrapper] *)
Record restyRequestWrapper := mkRequestWrapper {
  rw_Request : restyRequest;
  rw_responseMWs : list (restyResponse → option error → option error);
}.

Definition NewRequest (c : ClientImpl W) (ctx : context) (route : Route) : restyRequestWrapper :=
  let ctx := with_route (getRouteName (route_Method route) (route_URL route)) ctx in
  mkRequestWrapper (mkRestyRequest ctx (route_Method route) (route_URL route) [] None) (ResponseMWs (client_core c)).

Definition add_op (op : request_op) (q : restyRequest) : restyRequest :=
  mkRestyRequest (q_Context q) (q_Method q) (q_URL q) (q_ops q ++ [op]) (q_RawRequest q).
Definition on_request (op : request_op) (r : restyRequestWrapper) : restyRequestWrapper :=
  mkRequestWrapper (add_op op (rw_Request r)) (rw_responseMWs r).

Definition SetPathParam (param v : string) := on_request (OpPathParam param v).
Definition SetPathParams (params : gmap string string) := on_request (OpPathParams params).
Definition SetQueryParam (param v : string) := on_request (OpQueryParam param v).
Definition SetQueryParams (params : gmap string string) := on_request (OpQueryParams params).
Definition SetQueryString (query : string) := on_request (OpQueryString query).
Definition SetRequestHeader (header v : string) := on_request (OpHeader header v).
Definition SetHeaders (headers : gmap string string) := on_request (OpHeaders headers).
Definition SetHeaderMultiValues (headers : gmap string (list string)) := on_request (OpHeaderMultiValues headers).
Definition SetRequestCookie (c : Cookie) := on_request (OpCookie c).
Definition SetCookies (cs : list Cookie) (r : restyRequestWrapper) : restyRequestWrapper :=
  foldl (λ r c, on_request (OpCookie c) r) r cs.
Definition SetRequestJSONBody (body : string) (r : restyRequestWrapper) : restyRequestWrapper :=
  on_request (OpBody body) (on_request (OpHeader "Content-Type" "application/json") r).
Definition SetFormData (data : gmap string string) := on_request (OpFormData data).
Definition SetMultipartFormData (data : gmap string string) := on_request (OpMultipartFormData data).
Definition SetMultipartField (param fileName contentType content : string) :=
  on_request (OpMultipartField param fileName contentType content).

(** [Send]: an error of resty ends it; the middlewares of the client transform
    the error, starting with none, and the response is returned with it. *)
Definition Send (resty_Send : restyRequest → M W (result restyResponse)) (r : restyRequestWrapper) :
    M W (option restyResponse * option error) :=
  res ← resty_Send (rw_Request r);
  match res with
  | Err e => mret (None, Some e)
  | Ok resp => mret (Some resp, foldl (λ err mw, mw resp err) None (rw_responseMWs r))
  end.

(** *** Options *)

Definition WithClientDestination (name url : string) : ClientOption W := λ c,
  mkCore name (ResponseMWs c)
    (let rc := RESTClient c in
     mkRestyClient url (rc_Header rc) (rc_OnBeforeRequest rc) (rc_OnAfterResponse rc) (rc_OnInvalid rc)
       (rc_OnSuccess rc) (rc_OnError rc)).

Definition WithRequestHeader (header v : string) : ClientOption W := set_rest (λ rc,
  mkRestyClient (rc_BaseURL rc) (rc_Header rc ++ [(header, v)]) (rc_OnBeforeRequest rc) (rc_OnAfterResponse rc)
    (rc_OnInvalid rc) (rc_OnSuccess rc) (rc_OnError rc)).

Definition OnBeforeRequest (hook : restyRequest → M W restyRequest) : ClientOption W := set_rest (λ rc,
  mkRestyClient (rc_BaseURL rc) (rc_Header rc) (rc_OnBeforeRequest rc ++ [hook]) (rc_OnAfterResponse rc)
    (rc_OnInvalid rc) (rc_OnSuccess rc) (rc_OnError rc)).

(** The observed fields, in the order the map of headers is iterated. *)
Definition observability_headers (o : observer) (headers : list (string * string)) (q : restyRequest) : restyRequest :=
  foldl (λ q '(field, header),
    let v := observer_Field o (q_Context q) field in
    if String.eqb v "" then q else add_op (OpHeader header v) q) q headers.
Definition WithRequestObservability (o : observer) (headers : list (string * string)) : ClientOption W :=
  OnBeforeRequest (λ q, mret (observability_headers o headers q)).

Definition WithRequestDataFromAuth {T} `{!PrincipalImpl T}
    (fn : Auth T → restyRequestWrapper → restyRequestWrapper) : ClientOption W :=
  OnBeforeRequest (λ q,
    match GetAuthentication (T := T) (q_Context q) with
    | Some a => if Auth_IsAuthenticated a then mret (rw_Request (fn a (mkRequestWrapper q []))) else mret q
    | None => mret q
    end).

(** [WithResponseCodeMapping] *)
Definition response_code_mw (statusCodes : gmap Z error) (resp : restyResponse) (err : option error) : option error :=
  match err with
  | Some _ => None
  | None =>
      match statusCodes !! p_StatusCode resp with
      | Some e => Some (ErrWrap "response status code" [e])
      | None => None
      end
  end.
Definition WithResponseCodeMapping (statusCodes : gmap Z error) : ClientOption W := λ c,
  if decide (statusCodes = ∅) then c
  else mkCore (DestinationName c) (ResponseMWs c ++ [response_code_mw statusCodes]) (RESTClient c).
Definition auth_codes : gmap Z error :=
  <[StatusUnauthorized := ErrSentinel ErrUnauthenticated]> {[StatusForbidden := ErrSentinel ErrPermissionDenied]}.
Definition WithAuthResponseCodeMapping : ClientOption W := WithResponseCodeMapping auth_codes.

(** *** Factory *)
Definition InitClient (baseOpts : list (ClientOption W)) (dest baseURL : string) (extraOpts : list (ClientOption W)) : ClientImpl W :=
  NewClient (baseOpts ++ WithClientDestination dest baseURL :: extraOpts).
Definition InitRawClient (baseOpts extraOpts : list (ClientOption W)) : ClientImpl W := NewClient (baseOpts ++ extraOpts).

(** *** Responses *)
Definition response_Body (p : restyResponse) : string :=
  match p_RawResponse p with Some r => hr_Body r | None => "" end.
Definition response_RawRequest (p : restyResponse) : option Request :=
  match p_Request p with Some q => q_RawRequest q | None => None end.
Definition response_Cookies (p : restyResponse) : list Cookie :=
  match p_RawResponse p with Some r => hr_Cookies r | None => [] end.
End client.

(** *** Logging and metrics of the client *)

Section client_logging.
Context {W : Type} `{!LogSink W, !MetricsDuration W}.
Context (error_Error : error → string) (uuid_String : uuid → string) (show_int : Z → string).

Definition getDestinationNameForLogging (name : string) : string := if String.eqb name "" then "-" else name.
Definition request_route (q : restyRequest) : string := default "" (ctx_route (q_Context q)).

(** The logger with the principal of the request; without authentication in
    the context the interface value is [nil]. *)
Definition auth_logger (logger : Logger) (q : restyRequest) : Logger :=
  getAuthFieldsLogger uuid_String (GetAuthentication (T := AnyPrincipal) (q_Context q)) logger.

Definition log_invalid (logger : Logger) (errorLevel : Level) (dest : string) (q : restyRequest) (err : error) : M W unit :=
  let logger := auth_logger logger q in
  let logger := match q_RawRequest q with
                | Some raw => getResponseFieldsLogger show_int (getDestinationNameForLogging dest) (request_route q) raw 0 logger
                | None => getRouteNameFieldsLogger (request_route q) logger
                end in
  logger_Log (logger_WithError error_Error logger (Some err)) (Some (q_Context q)) errorLevel "invalid request".

(** Success and error hooks dereference the request of the response, and its
    raw request. *)
Definition log_success (logger : Logger) (infoLevel errorLevel : Level) (dest : string) (p : restyResponse) : M W unit :=
  match p_Request p with
  | None => panic nilDereference
  | Some q =>
      match q_RawRequest q with
      | None => panic nilDereference
      | Some raw =>
          let logger := getResponseFieldsLogger show_int (getDestinationNameForLogging dest) (request_route q) raw
                          (p_StatusCode p) (auth_logger logger q) in
          logger_Log logger (Some (q_Context q))
            (if (StatusInternalServerError <=? p_StatusCode p)%Z then errorLevel else infoLevel) "http call"
      end
  end.

Definition log_error (logger : Logger) (errorLevel : Level) (dest : string) (q : restyRequest) (err : restyError) : M W unit :=
  let base := auth_logger logger q in
  let finish logger :=
    logger_Log (logger_WithError error_Error logger (Some (re_Error err))) (Some (q_Context q)) errorLevel "http call" in
  match re_Response err with
  | Some p =>
      match p_Request p ≫= q_RawRequest with
      | Some raw => finish (getResponseFieldsLogger show_int (getDestinationNameForLogging dest) (request_route q) raw (p_StatusCode p) base)
      | None => panic nilDereference
      end
  | None =>
      match q_RawRequest q with
      | Some raw => finish (getResponseFieldsLogger show_int (getDestinationNameForLogging dest) (request_route q) raw 0 base)
      | None => finish (getRouteNameFieldsLogger (request_route q) base)
      end
  end.

Definition WithRequestLogging (logger : Logger) (infoLevel errorLevel : Level) : ClientOption W := set_rest (λ rc,
  mkRestyClient (rc_BaseURL rc) (rc_Header rc) (rc_OnBeforeRequest rc) (rc_OnAfterResponse rc)
    (rc_OnInvalid rc ++ [log_invalid logger errorLevel])
    (rc_OnSuccess rc ++ [log_success logger infoLevel errorLevel])
    (rc_OnError rc ++ [log_error logger errorLevel])).

Definition none_if_empty (s : string) : string := if String.eqb s "" then "none" else s.

Definition record_request (dest : string) (p : restyResponse) : M W unit :=
  match p_Request p with
  | None => panic nilDereference
  | Some q =>
      match q_RawRequest q with
      | None => panic nilDereference
      | Some raw =>
          let authType := pointer_field (a ← GetAuthentication (T := AnyPrincipal) (q_Context q); any_Type <$> AuthPrincipal a) in
          Duration [("destination", none_if_empty dest); ("route", none_if_empty (request_route q)); ("auth", authType);
                    ("method", q_Method q); ("path", r_Path raw); ("code", show_int (p_StatusCode p))]
            "http_client_request_duration_seconds" (p_Time p)
      end
  end.
Definition WithRequestMetrics : ClientOption W := set_rest (λ rc,
  mkRestyClient (rc_BaseURL rc) (rc_Header rc) (rc_OnBeforeRequest rc) (rc_OnAfterResponse rc ++ [record_request])
    (rc_OnInvalid rc) (rc_OnSuccess rc) (rc_OnError rc)).
End client_logging.

(** ** Theorems *)

(** C32. The response code mappings of a client do not compose: a mapping run
    after one that made an error discards it, so of two mappings that know a
    code, [Send] reports none, and a 401 answer passes as success; with one
    mapping the code's error is reported, and the other codes pass. *)
Theorem response_code_mappings {W} (resty_Send : restyRequest → M W (result restyResponse)) (q : restyRequest)
    (m1 m2 : gmap Z error) (resp : restyResponse) (w w' : W)
    (Hsend : resty_Send q w = (Ret (Ok resp), w')) :
  Send resty_Send (mkRequestWrapper q [response_code_mw m1]) w =
    (Ret (Some resp, (λ e, ErrWrap "response status code" [e]) <$> (m1 !! p_StatusCode resp)), w') ∧
  Send resty_Send (mkRequestWrapper q [response_code_mw m1; response_code_mw m2]) w =
    (Ret (Some resp, match m1 !! p_StatusCode resp with
                     | Some _ => None
                     | None => (λ e, ErrWrap "response status code" [e]) <$> (m2 !! p_StatusCode resp)
                     end), w').
Proof.
  unfold Send. unfold_M. cbn [rw_Request rw_responseMWs foldl]. rewrite Hsend. unfold response_code_mw.
  by destruct (m1 !! p_StatusCode resp), (m2 !! p_StatusCode resp).
Qed.

Lemma response_code_mappings_witness :
  Send (W := unit) (λ _ w, (Ret (Ok (mkRestyResponse 401 None None 0)), w))
    (mkRequestWrapper (mkRestyRequest context_Background "GET" "/" [] None) [response_code_mw auth_codes; response_code_mw auth_codes]) tt =
  (Ret (Some (mkRestyResponse 401 None None 0), None), tt).
Proof.
  exact (proj2 (response_code_mappings (λ _ w, (Ret (Ok (mkRestyResponse 401 None None 0)), w))
    (mkRestyRequest context_Background "GET" "/" [] None) auth_codes auth_codes (mkRestyResponse 401 None None 0) tt tt eq_refl)).
Defined.

(** [With] never changes the client it is called on and is the client made
    of all the options in order: calling it twice is calling it once with both
    lists, and the requests of the new client carry the response middlewares
    of both. *)
Theorem client_With_spec {W} `{!UnicodeLatin, !UnicodeCase} (opts opts1 opts2 : list (ClientOption W)) (ctx : context) (route : Route) :
  client_With (NewClient opts) opts1 = NewClient (opts ++ opts1) ∧
  client_With (client_With (NewClient opts) opts1) opts2 = client_With (NewClient opts) (opts1 ++ opts2) ∧
  rw_responseMWs (NewRequest (client_With (NewClient opts) opts1) ctx route) =
    ResponseMWs (foldl (λ c opt, opt c) (client_core (NewClient opts)) opts1).
Proof.
  assert (Hwith : ∀ o1 o2, client_With (NewClient o1) o2 = NewClient (W := W) (o1 ++ o2)).
  { intros o1 [|o o2]; simpl; [by rewrite app_nil_r|done]. }
  rewrite !Hwith. split_and!; [done|by rewrite app_assoc|]. simpl. by rewrite foldl_app.
Qed.

(** Every registered handler is served inside the metadata middleware, the
    server's middlewares and those given at its registration, in that order,
    and registering another one changes neither it nor the options. *)
Theorem Register_spec {W} `{!UnicodeLatin, !UnicodeCase} (h : Handler (W := W)) (mws server_mws : list (HttpHandler (W := W) → HttpHandler (W := W)))
    (s : ServerImpl W) :
  let s' := Register h (WithMW <$> mws) s in
  (∀ rt, rt ∈ router_Routes (srv_Router s) → rt ∈ router_Routes (srv_Router s') ∧ serve_route s' rt = serve_route s rt) ∧
  (∃ rt, rt ∈ router_Routes (srv_Router s') ∧ rt_Method rt = h_Method h ∧ rt_Path rt = h_Path h ∧
     serve_route s' rt = chain (router_MWs (srv_Router s) ++ mws) (httpHandlerWrapper (h_Handle h))) ∧
  router_MWs (srv_Router (NewServer [WithHandlerOptions (WithMW <$> server_mws)])) = withHandlerMetadata :: server_mws.
Proof.
  assert (Hmw : ∀ ms ms0 rs, foldl (λ (r : Router W) opt, opt r) (mkRouter ms0 rs) (WithMW <$> ms) = mkRouter (ms0 ++ ms) rs).
  { induction ms as [|m ms IH]; intros ms0 rs; [simpl; by rewrite app_nil_r|].
    rewrite fmap_cons. cbn [foldl]. unfold WithMW at 1. cbn [router_MWs router_Routes]. by rewrite IH, <- app_assoc. }
  cbv zeta. split_and!.
  - intros rt Hrt. destruct mws as [|m ms]; simpl; (split; [set_solver|done]).
  - destruct mws as [|m ms].
    + eexists. split; [simpl; apply elem_of_app; right; by apply list_elem_of_singleton|]. split_and!; [done..|].
      unfold serve_route. simpl. by rewrite app_nil_r.
    + unfold Register. rewrite fmap_cons. rewrite <- (fmap_cons WithMW). rewrite Hmw. simpl.
      eexists. split; [apply elem_of_app; right; by apply list_elem_of_singleton|]. split_and!; [done..|].
      unfold serve_route, chain. simpl. by rewrite app_nil_r, foldr_app.
  - destruct server_mws as [|m ms]; [done|]. pose proof (Hmw (m :: ms) [withHandlerMetadata] []) as Hall.
    apply (f_equal router_MWs) in Hall. exact Hall.
Qed.

Lemma Register_spec_witness :
  let h := mkHandler "GET" "/users/{userID}" (λ _ _, mret None) in
  ∃ rt, rt ∈ router_Routes (srv_Router (@Register unit (λ _, false) (Build_UnicodeCase (λ s, s) (λ s, s)) h [] (NewServer []))) ∧
    rt_Method rt = "GET" ∧ rt_Path rt = "/users/{userID}".
Proof.
  destruct (@Register_spec unit (λ _, false) (Build_UnicodeCase (λ s, s) (λ s, s))
    (mkHandler "GET" "/users/{userID}" (λ _ _, mret None)) [] [] (NewServer [])) as (_ & (rt & Hrt & Hm & Hp & _) & _).
  exists rt. split; [exact Hrt|]. split; [exact Hm|exact Hp].
Defined.

Example getRouteName_example :
  @getRouteName (λ _, false) (Build_UnicodeCase (λ s, s) (λ s, s)) "get" "/users/{userID}/status" = "GET_users_userID_status".
Proof. vm_compute. reflexivity. Qed.
