(* ===== verification/Idk.v ===== *)
(** pkg/idk/service.go and pkg/sql/idempotencykey.go: idempotency keys. *)
From S2P Require Import Prelude Context Message GoStrings Sql Table MessageStorage.
From Stdlib Require Import Ascii.

Definition keyTTL : duration := (24 * time_Hour)%Z.
Definition ErrAlreadyInserted : string := "idk.ErrAlreadyInserted".

(** The [Storage] of pkg/idk, and its [Service] as the message bus uses it. *)
Class IdkStorage (W : Type) := {
  idk_Insert : context → uuid → string → M W (option error);
  idk_Delete : context → time → M W (option error);
}.

Class IdkService (W : Type) := {
  Service_Insert : context → uuid → list string → M W (option error);
  Service_InsertString : context → string → list string → M W (option error);
}.

Section service.
Context {W : Type} `{!IdkStorage W, !HasClock W}.

(** The arguments of the storage call. *)
Definition insert_extra (extraKeys : list string) : string :=
  match extraKeys with [] => "" | _ => Join extraKeys "_" end.
Definition insertString_extra (key : string) (extraKeys : list string) : string :=
  match extraKeys with [] => key | _ => key +:+ "_" +:+ Join extraKeys "_" end.

Definition ServiceImpl_Insert (ctx : context) (key : uuid) (extraKeys : list string) : M W (option error) :=
  idk_Insert ctx key (insert_extra extraKeys).

Definition ServiceImpl_InsertString (ctx : context) (key : string) (extraKeys : list string) : M W (option error) :=
  idk_Insert ctx uuid_Nil (insertString_extra key extraKeys).

Definition ServiceImpl_DeleteOutdated (ctx : context) : M W (option error) :=
  now ← time_Now; idk_Delete ctx (now - keyTTL)%Z.

#[export] Instance ServiceImpl : IdkService W :=
  {| Service_Insert := ServiceImpl_Insert; Service_InsertString := ServiceImpl_InsertString |}.
End service.

(** ** The SQL storage; [NewSHA1] is github.com/google/uuid's *)

Definition idk_table : string := "idempotency_key".
Definition idk_conflict : string := "on conflict do nothing".
Definition idk_cols : list string := ["key"; "base"; "extra"].

Section sql.
Context {W : Type} `{!DB W} (uuid_NewSHA1 : uuid → string → uuid).

Definition idk_vals (key : uuid) (extraKey : string) : list arg :=
  [AUuid (uuid_NewSHA1 key extraKey); AUuid key; if String.eqb extraKey "" then ANull else AText extraKey].

Definition IdempotencyKeyStorage_Insert (ctx : context) (key : uuid) (extraKey : string) : M W (option error) :=
  let q := SInsert idk_table idk_cols [idk_vals key extraKey] idk_conflict in
  match ToSql q with
  | Some e => mret (Some (Errorf "build query" e))
  | None =>
      r ← ExecContext ctx q;
      mret (match r with
            | Err e => Some (Errorf "insert key" e)
            | Ok (Err e) => Some (Errorf "get rows affected" e)
            | Ok (Ok n) => if (n =? 0)%Z then Some (ErrSentinel ErrAlreadyInserted) else None
            end)
  end.

Definition IdempotencyKeyStorage_Delete (ctx : context) (createdAtBefore : time) : M W (option error) :=
  let q := SDelete idk_table [CLt "created_at" (ATime createdAtBefore)] in
  match ToSql q with
  | Some e => mret (Some (Errorf "build query" e))
  | None =>
      r ← ExecContext ctx q;
      mret (match r with Err e => Some (Errorf "delete keys" e) | Ok _ => None end)
  end.

#[export] Instance IdempotencyKeyStorage : IdkStorage W :=
  {| idk_Insert := IdempotencyKeyStorage_Insert; idk_Delete := IdempotencyKeyStorage_Delete |}.
End sql.

Abbreviation IdkTable := (TableSpec _ idk_table ["key"] idk_conflict DoNothing).

(** A row with the key of [(key, extraKey)]. *)
Definition has_key (uuid_NewSHA1 : uuid → string → uuid) (key : uuid) (extraKey : string) (all : list (gmap string arg)) : Prop :=
  ∃ r, r ∈ all ∧ r !! "key" = Some (AUuid (uuid_NewSHA1 key extraKey)).

(** *** A call of the service, and the row of its key *)

Inductive service_call := InsertKey (key : uuid) (extraKeys : list string) | InsertStringKey (key : string) (extraKeys : list string).

Definition call_base (c : service_call) : uuid := match c with InsertKey key _ => key | InsertStringKey _ _ => uuid_Nil end.
Definition call_extra (c : service_call) : string :=
  match c with InsertKey _ ks => insert_extra ks | InsertStringKey k ks => insertString_extra k ks end.

Section calls.
Context {W : Type} `{!DB W} (uuid_NewSHA1 : uuid → string → uuid).

Definition perform_call (ctx : context) (c : service_call) : M W (option error) :=
  match c with
  | InsertKey key ks => @Service_Insert W (@ServiceImpl W (IdempotencyKeyStorage uuid_NewSHA1)) ctx key ks
  | InsertStringKey key ks => @Service_InsertString W (@ServiceImpl W (IdempotencyKeyStorage uuid_NewSHA1)) ctx key ks
  end.
Definition key_row (c : service_call) : gmap string arg := mk_row idk_cols (idk_vals uuid_NewSHA1 (call_base c) (call_extra c)).
Definition call_key (c : service_call) (all : list (gmap string arg)) : Prop := has_key uuid_NewSHA1 (call_base c) (call_extra c) all.
Definition insert_key_stmt (c : service_call) : stmt :=
  SInsert idk_table idk_cols [idk_vals uuid_NewSHA1 (call_base c) (call_extra c)] idk_conflict.
End calls.

(** What is returned for the server's answer. *)
Definition insert_error (answer : result (result Z)) : option error :=
  match answer with
  | Err e => Some (Errorf "insert key" e)
  | Ok (Err e) => Some (Errorf "get rows affected" e)
  | Ok (Ok n) => if (n =? 0)%Z then Some (ErrSentinel ErrAlreadyInserted) else None
  end.

(** ** Lemmas *)

Lemma insert_key_spec sha1 key extra all :
  insert_rows ["key"] DoNothing (mk_row idk_cols <$> [idk_vals sha1 key extra]) all =
  if existsb (same_key ["key"] (mk_row idk_cols (idk_vals sha1 key extra))) all then (all, 0%Z)
  else (all ++ [mk_row idk_cols (idk_vals sha1 key extra)], 1%Z).
Proof. cbn [fmap list_fmap insert_rows]. unfold insert_row. by destruct (existsb _ all). Qed.

Lemma existsb_has_key sha1 key extra all :
  existsb (same_key ["key"] (mk_row idk_cols (idk_vals sha1 key extra))) all = true ↔ has_key sha1 key extra all.
Proof.
  rewrite existsb_exists. unfold has_key. split; intros (r & Hr & Hk); exists r; (split; [by apply list_elem_of_In|]).
  - unfold same_key in Hk. cbn [forallb] in Hk. rewrite andb_true_r, bool_decide_eq_true in Hk. rewrite <- Hk. reflexivity.
  - unfold same_key. cbn [forallb]. rewrite andb_true_r, bool_decide_eq_true, Hk. reflexivity.
Qed.

#[local] Instance call_key_dec sha1 c all : Decision (call_key sha1 c all).
Proof.
  destruct (existsb (same_key ["key"] (key_row sha1 c)) all) eqn:E; [left; by apply existsb_has_key|right].
  unfold call_key. rewrite <- existsb_has_key. unfold key_row in E. by rewrite E.
Defined.

Lemma key_row_has sha1 c all : call_key sha1 c (all ++ [key_row sha1 c]).
Proof. unfold call_key. rewrite <- existsb_has_key, existsb_app. cbn [existsb]. unfold key_row. by rewrite same_key_refl, orb_true_r. Qed.

Lemma perform_call_spec {W} `{!DB W} sha1 ctx (rows : W → list (gmap string arg)) `{!IdkTable (route ctx) rows} c (w : W) :
  ∃ answer w', ExecContext ctx (insert_key_stmt sha1 c) w = (Ret answer, w') ∧ perform_call sha1 ctx c w = (Ret (insert_error answer), w') ∧
    rows w' = match answer with
              | Ok _ => if decide (call_key sha1 c (rows w)) then rows w else rows w ++ [key_row sha1 c]
              | Err _ => rows w
              end ∧
    ∀ n, answer = Ok (Ok n) →
      insert_error answer = if decide (call_key sha1 c (rows w)) then Some (ErrSentinel ErrAlreadyInserted) else None.
Proof.
  destruct (table_insert (rows := rows) (t := route ctx) ctx idk_cols [idk_vals sha1 (call_base c) (call_extra c)] w)
    as (answer & w' & Hx & Hr); [done|]. exists answer, w'. split; [exact Hx|]. split.
  { assert (Hins : IdempotencyKeyStorage_Insert sha1 ctx (call_base c) (call_extra c) w = (Ret (insert_error answer), w')).
    { unfold IdempotencyKeyStorage_Insert. rewrite (table_ToSql_insert (rows := rows) (t := route ctx)) by done.
      unfold ExecContext. rewrite (M_bind_Ret _ _ _ _ _ Hx). by destruct answer as [[n|]|]. }
    by destruct c. }
  rewrite insert_key_spec in Hr. change (mk_row idk_cols (idk_vals sha1 (call_base c) (call_extra c))) with (key_row sha1 c) in Hr.
  destruct (decide (call_key sha1 c (rows w))) as [Hk|Hk].
  - unfold call_key in Hk. rewrite <- existsb_has_key in Hk. unfold key_row in Hr. rewrite Hk in Hr. destruct answer as [n|e]; [|done]. injection Hr as Hr Hn. split; [done|].
    intros n' [= ->]. by subst n'.
  - unfold call_key in Hk. rewrite <- existsb_has_key in Hk. apply not_true_is_false in Hk. unfold key_row in Hr. rewrite Hk in Hr. destruct answer as [n|e]; [|done].
    injection Hr as Hr Hn. split; [done|]. intros n' [= ->]. by subst n'.
Qed.

(** ** Theorems *)


(** The keys of the service: two non-empty lists of keys none of which
    contains an underscore reach the storage as the same key only when they
    are equal.  With underscores they can collide: the keys are joined with
    that very character, by [Insert] as by [InsertString]. *)
Theorem idk_extra_keys_joined {W} `{!IdkStorage W} (ctx : context) (key : uuid) (ks ks' : list string)
    (Hks : ks ≠ []) (Hks' : ks' ≠ [])
    (Hclean : Forall (λ k, "_"%char ∉ to_bytes k) ks) (Hclean' : Forall (λ k, "_"%char ∉ to_bytes k) ks') :
  (insert_extra ks = insert_extra ks' → ks = ks') ∧
  (∀ k l k' l', ks = k :: l → ks' = k' :: l' → insertString_extra k l = insertString_extra k' l' → ks = ks') ∧
  ServiceImpl_Insert (W := W) ctx key ["a"; "b"] = ServiceImpl_Insert ctx key ["a_b"] ∧
  ServiceImpl_InsertString (W := W) ctx "a" ["b"] = ServiceImpl_InsertString ctx "a_b" [].
Proof.
  split_and!; [..|done|done].
  - unfold insert_extra. destruct ks as [|k ks], ks' as [|k' ks']; try done. by apply (Join_inj _ _ "_"%char).
  - intros k l k' l' -> -> Heq. apply (Join_inj _ _ "_"%char); done || (by destruct l, l').
Qed.

(** ** Witnesses *)

Definition sample_keys_DB : DB tableWorld := table_DB ["key"] DoNothing.
(** A stand-in for the hash that tells the samples apart. *)
Definition sample_sha1 (base : uuid) (extra : string) : uuid := (base * 1000 + N.of_nat (String.length extra))%N.

Definition sample_call : service_call := InsertKey 7 ["order"; "paid"].

Lemma idk_extra_keys_joined_witness :
  insert_extra ["order"; "paid"] = insert_extra ["order"; "paid"] → ["order"; "paid"] = ["order"; "paid"].
Proof.
  refine (proj1 (@idk_extra_keys_joined tableWorld (@IdempotencyKeyStorage tableWorld sample_keys_DB sample_sha1)
    context_Background 7%N ["order"; "paid"] ["order"; "paid"] _ _ _ _)); try discriminate;
    (repeat constructor); vm_compute; intros Hin; repeat (apply elem_of_cons in Hin as [Hin|Hin]; [discriminate|]); inversion Hin.
Defined.
