(* ===== verification/Bus.v ===== *)
(** pkg/message: topics and subscribers (topic.go, subscriber.go), the JSON
    serializer (serializer.go), the bus producer (busproducer.go) and what
    dispatches through it (event.go, task.go). *)
From Stdlib Require Import Ascii.
From S2P Require Import Prelude GoStrings Context Message.

(** ** Topics *)

(** [strcase.ToKebab] of github.com/iancoleman/strcase. *)
Class Kebab := ToKebabCase : string → string.

Record topicBuilder := mkTopicBuilder {
  tb_baseName : string;
  tb_domain : string;
  tb_aggregate : string;
  tb_messageType : string;
  tb_customTags : list string;
}.

Definition addTagIfNotEmpty (sb tag : string) : string :=
  if String.eqb tag "" then sb else sb +:+ "." +:+ tag.
Definition topic_Build (b : topicBuilder) : Topic :=
  let sb := addTagIfNotEmpty (tb_baseName b) (tb_domain b) in
  let sb := addTagIfNotEmpty sb (tb_aggregate b) in
  let sb := addTagIfNotEmpty sb (tb_messageType b) in
  foldl addTagIfNotEmpty sb (tb_customTags b).

Section topics.
Context `{!Kebab}.

Definition WithTopicDomainName (name : string) (b : topicBuilder) : topicBuilder :=
  mkTopicBuilder (tb_baseName b) (ToKebabCase name +:+ "-domain") (tb_aggregate b) (tb_messageType b) (tb_customTags b).
Definition WithTopicAggregateName (name : string) (b : topicBuilder) : topicBuilder :=
  mkTopicBuilder (tb_baseName b) (tb_domain b) (ToKebabCase name +:+ "-aggregate") (tb_messageType b) (tb_customTags b).
Definition WithTopicMessageType (msgType : string) (b : topicBuilder) : topicBuilder :=
  mkTopicBuilder (tb_baseName b) (tb_domain b) (tb_aggregate b) (ToKebabCase msgType +:+ "-type") (tb_customTags b).
Definition WithTopicCustomTags (tags : list string) (b : topicBuilder) : topicBuilder :=
  mkTopicBuilder (tb_baseName b) (tb_domain b) (tb_aggregate b) (tb_messageType b)
    (tb_customTags b ++ (ToKebabCase <$> tags)).

Definition NewTopic (baseName : string) (opts : list (topicBuilder → topicBuilder)) : Topic :=
  topic_Build (foldl (λ b opt, opt b) (mkTopicBuilder (ToKebabCase baseName) "" "" "" []) opts).

Definition NewTopicDomainEvent (domainName aggregateName : string) (customTags : list string) : Topic :=
  NewTopic "domain-event" [WithTopicDomainName domainName; WithTopicAggregateName aggregateName; WithTopicCustomTags customTags].
Definition NewTopicTaskQueue (domainName taskType : string) (customTags : list string) : Topic :=
  NewTopic "task-queue" [WithTopicDomainName domainName; WithTopicMessageType taskType; WithTopicCustomTags customTags].

Definition NewSubscriber (name : string) : Subscriber := ToKebabCase name.
Definition NewSubscriberCustom (name custom : string) : Subscriber := NewSubscriber (name +:+ "-" +:+ custom).
Definition NewSubscriberService (name : string) : Subscriber := NewSubscriberCustom name "service".
End topics.

(** ** The JSON serializer; encoding/json is a parameter *)

Definition ErrDeserializeUnknownMessage : string := "message.ErrDeserializeUnknownMessage".

(** [jsonMessage] *)
Record jsonMessage := mkJsonMessage { jm_Type : string; jm_Payload : string; jm_Meta : Metadata }.

(** [json.Marshal] of a message's value and of the envelope, and [Unmarshal] of
    an envelope. *)
Class MessageJSON := {
  marshal_value : StructuredMessage → result string;
  marshal_envelope : jsonMessage → result bytes;
  unmarshal_envelope : bytes → option jsonMessage;
}.
(** The documented behaviour of encoding/json: strings, map keys among them, are
    coerced to valid UTF-8 when they are encoded, and otherwise read as they
    were written; the rest of a JSON text is ASCII. *)
Class MessageJSONLaws `{!MessageJSON} : Prop := {
  marshal_valid m p : marshal_value m = Ok p → ValidString p = true;
  unmarshal_marshal m data : marshal_envelope m = Ok data → ∃ meta,
    unmarshal_envelope data = Some (mkJsonMessage (ToValidUTF8 (jm_Type m)) (ToValidUTF8 (jm_Payload m)) meta) ∧
    ((∀ k, is_Some (jm_Meta m !! k) → ValidString k = true) → meta = ToValidUTF8 <$> jm_Meta m);
}.

Abbreviation PayloadDeserializer := (string → result StructuredMessage) (only parsing).
Abbreviation JSONSerializer := (gmap string PayloadDeserializer) (only parsing).

Section serializer.
Context `{!MessageJSON}.

Definition Serialize (msg : StructuredMessage) (meta : Metadata) : result bytes :=
  match marshal_value msg with
  | Err e => Err (Errorf "encode message" e)
  | Ok payload =>
      match marshal_envelope (mkJsonMessage (sm_Type msg) payload meta) with
      | Err e => Err (Errorf "encode message data" e)
      | Ok data => Ok data
      end
  end.

Definition Deserialize (s : gmap string PayloadDeserializer) (data : bytes) : result (StructuredMessage * Metadata) :=
  match unmarshal_envelope data with
  | None => Err (ErrSentinel ErrDeserializeUnknownMessage)
  | Some m =>
      match s !! jm_Type m with
      | None => Err (Errorf (jm_Type m) (ErrSentinel ErrDeserializeUnknownMessage))
      | Some deserializer =>
          match deserializer (jm_Payload m) with
          | Err e => Err (Errorf "deserialize message" e)
          | Ok msg => Ok (msg, jm_Meta m)
          end
      end
  end.

Definition RegisterDeserializer (s : gmap string PayloadDeserializer) (msgType : string) (d : PayloadDeserializer) :
    result (gmap string PayloadDeserializer) :=
  match s !! msgType with
  | Some _ => Err (ErrText ("deserializer for " +:+ msgType +:+ " already exists"))
  | None => Ok (<[msgType := d]> s)
  end.
End serializer.

(** ** The bus producer *)

Definition KeyBuilder : Type := StructuredMessage → string.

Record BusProducerConfig (W : Type) := mkConfig {
  Middlewares : list ((context → Topic → StructuredMessage → option time → M W (option error)) →
                      (context → Topic → StructuredMessage → option time → M W (option error)));
  MetadataBuilders : list (context → M W (result Metadata));
}.
Arguments mkConfig {W}.
Arguments Middlewares {W} _.
Arguments MetadataBuilders {W} _.

Definition BusProduce (W : Type) : Type := context → Topic → StructuredMessage → option time → M W (option error).

Record busProducerImpl (W : Type) := mkBusProducer {
  messageTopics : gmap string (list Topic);
  producers : gmap (Topic * string) (BusProduce W);
  topicMessages : gmap Topic (gset string);
  baseConfig : BusProducerConfig W;
}.
Arguments mkBusProducer {W}.
Arguments messageTopics {W} _.
Arguments producers {W} _.
Arguments topicMessages {W} _.
Arguments baseConfig {W} _.

(** The schema, a blank message, and the optional key builder. *)
Abbreviation RegisterMessageFunc := (StructuredMessage * option KeyBuilder)%type (only parsing).

Section bus.
Context {W : Type} `{!MessageJSON}.

(** [producerImpl] of the two constructors. *)
Definition direct_producerImpl `{!Producer W} (ctx : context) (m : Message) (_ : option time) : M W (option error) :=
  err ← Produce ctx m;
  mret (Errorf "produce message" <$> err).
Definition scheduled_producerImpl `{!Storage W, !HasClock W} (ctx : context) (m : Message) (at_ : option time) :
    M W (option error) :=
  now ← time_Now;
  err ← Store ctx (default now at_) [m];
  mret (Errorf "store message" <$> err).

Definition NewBus (opts : list (BusProducerConfig W → BusProducerConfig W)) : busProducerImpl W :=
  mkBusProducer ∅ ∅ ∅ (foldl (λ c opt, opt c) (mkConfig [] []) opts).

Context (producerImpl : context → Message → option time → M W (option error)).

(** The metadata of all builders, later keys over earlier ones. *)
Fixpoint build_metadata (builders : list (context → M W (result Metadata))) (ctx : context) (meta : Metadata) :
    M W (result Metadata) :=
  match builders with
  | [] => mret (Ok meta)
  | b :: builders' =>
      r ← b ctx;
      match r with
      | Err e => mret (Err (Errorf "build metadata" e))
      | Ok tmp => build_metadata builders' ctx (tmp ∪ meta)
      end
  end.

Definition serializePayloadImpl (builders : list (context → M W (result Metadata))) (ctx : context) (msg : StructuredMessage) :
    M W (result bytes) :=
  r ← build_metadata builders ctx ∅;
  match r with
  | Err e => mret (Err e)
  | Ok meta => mret (match Serialize msg meta with Err e => Err (Errorf "serialize message" e) | Ok p => Ok p end)
  end.

Definition base_produce (builders : list (context → M W (result Metadata))) (keyBuilder : KeyBuilder) : BusProduce W :=
  λ ctx topic msg at_,
  r ← serializePayloadImpl builders ctx msg;
  match r with
  | Err e => mret (Some (Errorf "serialize message" e))
  | Ok payload =>
      err ← producerImpl ctx (mkMessage (sm_ID msg) topic (keyBuilder msg) payload) at_;
      mret (Errorf "produce message" <$> err)
  end.

Definition buildProducer (config : BusProducerConfig W) (keyBuilder : option KeyBuilder) : BusProduce W :=
  foldr (λ mw p, mw p) (base_produce (MetadataBuilders config) (default (λ _, "") keyBuilder)) (Middlewares config).

Definition registerImpl (topic : Topic) (msg : RegisterMessageFunc) (config : BusProducerConfig W) (p : busProducerImpl W) :
    busProducerImpl W * option error :=
  let '(schema, keyBuilder) := msg in
  let msgType := sm_Type schema in
  if String.eqb msgType "" then (p, Some (ErrText "blank message must return const value of type"))
  else
    match topicMessages p !! topic with
    | Some existedTypes =>
        if decide (msgType ∈ existedTypes) then (p, Some (ErrText ("message type " +:+ msgType +:+ " already registered in topic")))
        else
          (mkBusProducer
             (<[sm_reflectType schema := default [] (messageTopics p !! sm_reflectType schema) ++ [topic]]> (messageTopics p))
             (<[(topic, sm_reflectType schema) := buildProducer config keyBuilder]> (producers p))
             (<[topic := {[msgType]} ∪ existedTypes]> (topicMessages p)) (baseConfig p), None)
    | None =>
        (mkBusProducer
           (<[sm_reflectType schema := default [] (messageTopics p !! sm_reflectType schema) ++ [topic]]> (messageTopics p))
           (<[(topic, sm_reflectType schema) := buildProducer config keyBuilder]> (producers p))
           (<[topic := {[msgType]}]> (topicMessages p)) (baseConfig p), None)
    end.

Fixpoint register_funcs (topic : Topic) (funcs : list RegisterMessageFunc) (config : BusProducerConfig W)
    (p : busProducerImpl W) : busProducerImpl W * option error :=
  match funcs with
  | [] => (p, None)
  | fn :: funcs' =>
      match registerImpl topic fn config p with
      | (p, Some e) => (p, Some (Errorf ("register for topic " +:+ topic) e))
      | (p, None) => register_funcs topic funcs' config p
      end
  end.
Fixpoint register_topics (msgs : list (Topic * list RegisterMessageFunc)) (config : BusProducerConfig W)
    (p : busProducerImpl W) : busProducerImpl W * option error :=
  match msgs with
  | [] => (p, None)
  | (topic, funcs) :: msgs' =>
      match register_funcs topic funcs config p with
      | (p, Some e) => (p, Some e)
      | (p, None) => register_topics msgs' config p
      end
  end.

(** [Register]; the topics in the order the map is iterated. *)
Definition bus_Register (msgs : list (Topic * list RegisterMessageFunc))
    (opts : list (BusProducerConfig W → BusProducerConfig W)) (p : busProducerImpl W) : busProducerImpl W * option error :=
  register_topics msgs (foldl (λ c opt, opt c) (baseConfig p) opts) p.

Definition errUnknownMessageType : error := ErrText "unknown message type".

(** First loop of [scheduleImpl]: the topics of every type, appended once per
    message of the type. *)
Fixpoint collect_topics (p : busProducerImpl W) (msgs : list StructuredMessage) (acc : gmap string (list Topic)) :
    result (gmap string (list Topic)) :=
  match msgs with
  | [] => Ok acc
  | msg :: msgs' =>
      match messageTopics p !! sm_reflectType msg with
      | None => Err errUnknownMessageType
      | Some topics =>
          if forallb (λ t, bool_decide (is_Some (producers p !! (t, sm_reflectType msg)))) topics
          then collect_topics p msgs' (<[sm_reflectType msg := default [] (acc !! sm_reflectType msg) ++ topics]> acc)
          else Err errUnknownMessageType
      end
  end.

(** Second loop. *)
Fixpoint produce_to (p : busProducerImpl W) (ctx : context) (at_ : option time) (msg : StructuredMessage) (topics : list Topic) :
    M W (option error) :=
  match topics with
  | [] => mret None
  | topic :: topics' =>
      match producers p !! (topic, sm_reflectType msg) with
      | None => panic nilDereference
      | Some produce =>
          err ← produce ctx topic msg at_;
          match err with
          | Some e => mret (Some e)
          | None => produce_to p ctx at_ msg topics'
          end
      end
  end.
Fixpoint produce_all (p : busProducerImpl W) (ctx : context) (at_ : option time) (topics : gmap string (list Topic))
    (msgs : list StructuredMessage) : M W (option error) :=
  match msgs with
  | [] => mret None
  | msg :: msgs' =>
      err ← produce_to p ctx at_ msg (default [] (topics !! sm_reflectType msg));
      match err with
      | Some e => mret (Some e)
      | None => produce_all p ctx at_ topics msgs'
      end
  end.

Definition scheduleImpl (p : busProducerImpl W) (ctx : context) (at_ : option time) (msgs : list StructuredMessage) :
    M W (option error) :=
  match msgs with
  | [] => mret None
  | _ =>
      match collect_topics p msgs ∅ with
      | Err e => mret (Some e)
      | Ok topics => produce_all p ctx at_ topics msgs
      end
  end.

Definition bus_Produce (p : busProducerImpl W) (ctx : context) (msgs : list StructuredMessage) : M W (option error) :=
  scheduleImpl p ctx None msgs.
Definition bus_Schedule (p : busProducerImpl W) (ctx : context) (at_ : time) (msgs : list StructuredMessage) : M W (option error) :=
  scheduleImpl p ctx (Some at_) msgs.

(** *** Dispatchers *)

Definition eventDispatcher_Dispatch (p : busProducerImpl W) (ctx : context) (events : list StructuredMessage) : M W (option error) :=
  match events with
  | [] => mret None
  | _ => err ← bus_Produce p ctx events; mret (Errorf "dispatch event" <$> err)
  end.
Definition taskScheduler_Schedule (p : busProducerImpl W) (ctx : context) (at_ : time) (tasks : list StructuredMessage) :
    M W (option error) :=
  match tasks with
  | [] => mret None
  | _ => err ← bus_Schedule p ctx at_ tasks; mret (Errorf "publish task" <$> err)
  end.
End bus.

(** [RegisterEvent]: the key is the aggregate's id, of a message of that type. *)
Definition RegisterEvent (uuid_String : uuid → string) (blank : StructuredMessage) : StructuredMessage * option KeyBuilder :=
  (blank, Some (λ msg, if String.eqb (sm_reflectType msg) (sm_reflectType blank) then uuid_String (sm_AggregateID msg) else "")).
Definition RegisterTask (blank : StructuredMessage) : StructuredMessage * option KeyBuilder := (blank, None).

(** *** Options *)

Definition observabilityMetaKeyPrefix : string := "observability/".

(** The values of the fields that are set, under their metadata keys. *)
Definition observability_metadata (o : observer) (fields : list string) (ctx : context) : Metadata :=
  foldl (λ (m : gmap string string) f,
    let v := observer_Field o ctx f in
    if String.eqb v "" then m else <[observabilityMetaKeyPrefix +:+ f := v]> m) ∅ fields.

Definition WithBusProducerObservability {W} (o : observer) (fields : list string) (c : BusProducerConfig W) : BusProducerConfig W :=
  match fields with
  | [] => c
  | _ => mkConfig (Middlewares c) (MetadataBuilders c ++ [λ ctx, mret (Ok (observability_metadata o fields ctx))])
  end.

Definition bool_label (name : string) (b : bool) : string * string := (name, if b then "true" else "false").

Definition WithBusProducerMetrics {W} `{!Metrics W} (c : BusProducerConfig W) : BusProducerConfig W :=
  mkConfig (Middlewares c ++ [λ impl ctx topic msg at_,
    err ← impl ctx topic msg at_;
    _ ← Increment [("topic", topic); ("type", sm_Type msg); bool_label "success" (bool_decide (err = None))]
          "msg_produce_attempts_total";
    mret err]) (MetadataBuilders c).

Definition WithBusProducerLogging {W} `{!LogSink W} (error_Error : error → string) (uuid_String : uuid → string)
    (show_time : option time → string) (logger : Logger) (infoLevel errorLevel : Level) (c : BusProducerConfig W) :
    BusProducerConfig W :=
  mkConfig (Middlewares c ++ [λ impl ctx topic msg at_,
    let logger := logger_With logger [("topic", topic); ("messageID", uuid_String (sm_ID msg));
                                      ("messageType", sm_Type msg); ("scheduleAt", show_time at_)] in
    err ← impl ctx topic msg at_;
    _ ← match err with
        | Some _ => logger_Log (logger_WithError error_Error logger err) (Some ctx) errorLevel "message producing failed"
        | None => logger_Log logger (Some ctx) infoLevel "message successfully produced"
        end;
    mret err]) (MetadataBuilders c).

(** ** Abstract specification of producing: the calls made, in order *)

Definition same_type (ty : string) (m : StructuredMessage) : bool := String.eqb (sm_reflectType m) ty.
Definition count_type (ty : string) (msgs : list StructuredMessage) : nat := length (List.filter (same_type ty) msgs).
Definition topics_of {W} (p : busProducerImpl W) (m : StructuredMessage) : list Topic :=
  default [] (messageTopics p !! sm_reflectType m).

(** One call per topic of the message's type and per message of that type. *)
Definition calls {W} (p : busProducerImpl W) (msgs : list StructuredMessage) : list (Topic * StructuredMessage) :=
  concat ((λ m, (λ t, (t, m)) <$> concat (replicate (count_type (sm_reflectType m) msgs) (topics_of p m))) <$> msgs).

Fixpoint run_calls {W} (p : busProducerImpl W) (ctx : context) (at_ : option time) (cs : list (Topic * StructuredMessage)) :
    M W (option error) :=
  match cs with
  | [] => mret None
  | (t, m) :: cs' =>
      match producers p !! (t, sm_reflectType m) with
      | None => panic nilDereference
      | Some produce =>
          err ← produce ctx t m at_;
          match err with Some e => mret (Some e) | None => run_calls p ctx at_ cs' end
      end
  end.

(** Registered topics have their producers. *)
Definition bus_ok {W} (p : busProducerImpl W) : Prop :=
  ∀ ty ts t, messageTopics p !! ty = Some ts → t ∈ ts → is_Some (producers p !! (t, ty)).

(** A bus made by its constructor and any number of [Register] calls. *)
Definition registered {W} `{!MessageJSON} (producerImpl : context → Message → option time → M W (option error))
    (opts : list (BusProducerConfig W → BusProducerConfig W))
    (regs : list (list (Topic * list (StructuredMessage * option KeyBuilder)) * list (BusProducerConfig W → BusProducerConfig W))) :
    busProducerImpl W :=
  foldl (λ p '(msgs, opts), fst (bus_Register producerImpl msgs opts p)) (NewBus opts) regs.

(** ** Lemmas *)

Section bus_lemmas.
Context {W : Type} `{!MessageJSON} (producerImpl : context → Message → option time → M W (option error)).

Lemma registerImpl_ok topic msg config p : bus_ok p → bus_ok (fst (registerImpl producerImpl topic msg config p)).
Proof.
  intros Hok. destruct msg as [schema kb]. unfold registerImpl.
  destruct (String.eqb _ _); [done|].
  assert (Hnew : ∀ tm, bus_ok (mkBusProducer
    (<[sm_reflectType schema := default [] (messageTopics p !! sm_reflectType schema) ++ [topic]]> (messageTopics p))
    (<[(topic, sm_reflectType schema) := buildProducer producerImpl config kb]> (producers p)) tm (baseConfig p))).
  { intros tm ty ts t. cbn [messageTopics producers]. destruct (decide (ty = sm_reflectType schema)) as [->|Hne].
    - rewrite lookup_insert_eq. intros [= <-] [Ht|Ht%list_elem_of_singleton]%elem_of_app.
      + apply lookup_insert_is_Some'. right. destruct (messageTopics p !! sm_reflectType schema) as [ts|] eqn:E; [|by apply elem_of_nil in Ht].
        by eapply Hok.
      + subst. rewrite lookup_insert_eq. by eexists.
    - rewrite lookup_insert_ne by done. intros Hts Ht. apply lookup_insert_is_Some'. right. by eapply Hok. }
  destruct (topicMessages p !! topic); [destruct (decide _); [done|apply Hnew]|apply Hnew].
Qed.

Lemma register_funcs_ok topic funcs config p : bus_ok p → bus_ok (fst (register_funcs producerImpl topic funcs config p)).
Proof.
  revert p. induction funcs as [|fn funcs IH]; intros p Hok; [done|]. cbn [register_funcs].
  pose proof (registerImpl_ok topic fn config p Hok) as H1.
  destruct (registerImpl _ _ _ _ _) as [p1 [e|]]; [done|]. by apply IH.
Qed.

Lemma register_topics_ok msgs config p : bus_ok p → bus_ok (fst (register_topics producerImpl msgs config p)).
Proof.
  revert p. induction msgs as [|[topic funcs] msgs IH]; intros p Hok; [done|]. cbn [register_topics].
  pose proof (register_funcs_ok topic funcs config p Hok) as H1.
  destruct (register_funcs _ _ _ _ _) as [p1 [e|]]; [done|]. by apply IH.
Qed.

Lemma registered_ok opts regs : bus_ok (registered producerImpl opts regs).
Proof.
  unfold registered. assert (Hinit : bus_ok (NewBus (W := W) opts)) by (intros ? ? ? ?; done).
  generalize dependent (NewBus opts). induction regs as [|[msgs ropts] regs IH]; intros p Hok; [done|].
  cbn [foldl]. apply IH, register_topics_ok, Hok.
Qed.

Lemma collect_topics_spec (p : busProducerImpl W) msgs acc :
  bus_ok p →
  collect_topics p msgs acc =
    (if forallb (λ m, bool_decide (is_Some (messageTopics p !! sm_reflectType m))) msgs
     then collect_topics p msgs acc else Err errUnknownMessageType) ∧
  ∀ res, collect_topics p msgs acc = Ok res →
    Forall (λ m, is_Some (messageTopics p !! sm_reflectType m)) msgs ∧
    ∀ ty, default [] (res !! ty) =
      default [] (acc !! ty) ++ concat (replicate (count_type ty msgs) (default [] (messageTopics p !! ty))).
Proof.
  intros Hok. revert acc. induction msgs as [|m msgs IH]; intros acc; cbn [collect_topics].
  - split; [done|]. intros res [= <-]. split; [constructor|]. intros ty. simpl. by rewrite app_nil_r.
  - cbn [forallb]. destruct (messageTopics p !! sm_reflectType m) as [ts|] eqn:Ets.
    + assert (forallb (λ t, bool_decide (is_Some (producers p !! (t, sm_reflectType m)))) ts = true) as Hall.
      { apply forallb_forall. intros t Ht. apply bool_decide_eq_true. apply list_elem_of_In in Ht. by eapply Hok. }
      rewrite Hall. rewrite (bool_decide_eq_true_2 (is_Some (Some ts))) by by eexists. cbn [andb].
      destruct (IH (<[sm_reflectType m := default [] (acc !! sm_reflectType m) ++ ts]> acc)) as [H1 H2].
      split; [exact H1|]. intros res Hres. destruct (H2 res Hres) as [Hf Hty]. split; [by constructor|].
      intros ty. rewrite Hty. unfold count_type, same_type. cbn [List.filter].
      destruct (String.eqb_spec (sm_reflectType m) ty) as [<-|Hne].
      * rewrite lookup_insert_eq, Ets. cbn. by rewrite <- app_assoc.
      * by rewrite lookup_insert_ne.
    + rewrite bool_decide_eq_false_2 by (intros [? ?]; done). split; [done|]. done.
Qed.

Lemma collect_topics_total (p : busProducerImpl W) msgs acc :
  bus_ok p → Forall (λ m, is_Some (messageTopics p !! sm_reflectType m)) msgs → ∃ res, collect_topics p msgs acc = Ok res.
Proof.
  intros Hok Hall. revert acc. induction Hall as [|m msgs [ts Hts] _ IH]; intros acc; [by eexists|].
  cbn [collect_topics]. rewrite Hts.
  assert (forallb (λ t, bool_decide (is_Some (producers p !! (t, sm_reflectType m)))) ts = true) as ->; [|apply IH].
  apply forallb_forall. intros t Ht. apply bool_decide_eq_true. apply list_elem_of_In in Ht. by eapply Hok.
Qed.

Lemma run_calls_app (p : busProducerImpl W) ctx at_ cs1 cs2 w :
  run_calls p ctx at_ (cs1 ++ cs2) w =
  (err ← run_calls p ctx at_ cs1; match err with Some e => mret (Some e) | None => run_calls p ctx at_ cs2 end) w.
Proof.
  revert w. induction cs1 as [|[t m] cs1 IH]; intros w; [done|]. cbn [app run_calls].
  destruct (producers p !! (t, sm_reflectType m)) as [produce|]; [|done]. unfold_M.
  destruct (produce ctx t m at_ w) as [[[e|]|s| |] w1]; first [done|by rewrite IH].
Qed.

Lemma produce_to_calls (p : busProducerImpl W) ctx at_ m ts w :
  produce_to p ctx at_ m ts w = run_calls p ctx at_ ((λ t, (t, m)) <$> ts) w.
Proof.
  revert w. induction ts as [|t ts IH]; intros w; [done|]. rewrite fmap_cons. cbn [produce_to run_calls].
  destruct (producers p !! (t, sm_reflectType m)) as [produce|]; [|done]. unfold_M.
  destruct (produce ctx t m at_ w) as [[[e|]|s| |] w1]; first [done|by rewrite IH].
Qed.

Lemma produce_all_calls (p : busProducerImpl W) ctx at_ (topics : gmap string (list Topic)) msgs w :
  produce_all p ctx at_ topics msgs w =
  run_calls p ctx at_ (concat ((λ m, (λ t, (t, m)) <$> default [] (topics !! sm_reflectType m)) <$> msgs)) w.
Proof.
  revert w. induction msgs as [|m msgs IH]; intros w; [done|]. rewrite fmap_cons. cbn [produce_all concat].
  rewrite run_calls_app. unfold_M. rewrite produce_to_calls.
  destruct (run_calls p ctx at_ _ w) as [[[e|]|s| |] w1]; first [done|apply IH].
Qed.
End bus_lemmas.

Lemma scheduleImpl_unknown {W} (p : busProducerImpl W) ctx at_ msgs w :
  bus_ok p → Exists (λ m, messageTopics p !! sm_reflectType m = None) msgs →
  scheduleImpl p ctx at_ msgs w = (Ret (Some errUnknownMessageType), w).
Proof.
  intros Hok Hex. unfold scheduleImpl. destruct msgs as [|m msgs]; [by inversion Hex|].
  destruct (collect_topics_spec p (m :: msgs) ∅ Hok) as [Heq _]. rewrite Heq.
  assert (forallb (λ m, bool_decide (is_Some (messageTopics p !! sm_reflectType m))) (m :: msgs) = false) as ->; [|done].
  apply not_true_iff_false. intros Hall. rewrite forallb_forall in Hall. apply Exists_exists in Hex as (x & Hx & Hnone).
  apply list_elem_of_In, Hall, bool_decide_eq_true in Hx as [ts Hts]. congruence.
Qed.

Lemma scheduleImpl_run {W} (p : busProducerImpl W) ctx at_ msgs w :
  bus_ok p → Forall (λ m, is_Some (messageTopics p !! sm_reflectType m)) msgs →
  scheduleImpl p ctx at_ msgs w = run_calls p ctx at_ (calls p msgs) w.
Proof.
  intros Hok Hall. unfold scheduleImpl. destruct msgs as [|m msgs]; [done|].
  destruct (collect_topics_total p (m :: msgs) ∅ Hok Hall) as [res Hres]. rewrite Hres, produce_all_calls.
  destruct (collect_topics_spec p (m :: msgs) ∅ Hok) as [_ Hspec]. destruct (Hspec res Hres) as [_ Hty].
  unfold calls. do 2 f_equal. apply list_fmap_ext. intros i x _. rewrite Hty, lookup_empty. done.
Qed.

Lemma count_type_distinct (msgs : list StructuredMessage) (m : StructuredMessage) :
  NoDup (sm_reflectType <$> msgs) → m ∈ msgs → count_type (sm_reflectType m) msgs = 1.
Proof.
  intros Hnd Hm. induction msgs as [|m' msgs IH]; [by apply elem_of_nil in Hm|].
  rewrite fmap_cons in Hnd. apply NoDup_cons in Hnd as [Hni Hnd]. unfold count_type, same_type. cbn [List.filter].
  assert (Hzero : ∀ ty, ty ∉ sm_reflectType <$> msgs → List.filter (λ x, String.eqb (sm_reflectType x) ty) msgs = []).
  { clear. intros ty Hty. induction msgs as [|x msgs IH]; [done|]. cbn [List.filter].
    destruct (String.eqb_spec (sm_reflectType x) ty) as [<-|_]; [set_solver|]. apply IH. set_solver. }
  apply elem_of_cons in Hm as [->|Hm].
  - rewrite String.eqb_refl. by rewrite Hzero.
  - destruct (String.eqb_spec (sm_reflectType m') (sm_reflectType m)) as [Heq|_]; [|by apply IH].
    exfalso. apply Hni. rewrite Heq. by apply list_elem_of_fmap_2.
Qed.

Lemma calls_distinct {W} (p : busProducerImpl W) msgs :
  NoDup (sm_reflectType <$> msgs) → calls p msgs = concat ((λ m, (λ t, (t, m)) <$> topics_of p m) <$> msgs).
Proof.
  intros Hnd. unfold calls. f_equal. apply list_fmap_ext. intros i m Hm.
  rewrite (count_type_distinct msgs m Hnd) by (by eapply list_elem_of_lookup_2). simpl. by rewrite app_nil_r.
Qed.

(** ** A JSON codec for the concrete runs

    An envelope is written as the bits of its code as a positive number; a
    value as itself. *)

Fixpoint pos_bits (p : positive) : string :=
  match p with
  | xH => ""
  | xO p => String "0"%char (pos_bits p)
  | xI p => String "1"%char (pos_bits p)
  end.
Fixpoint bits_pos (s : string) : positive :=
  match s with
  | EmptyString => xH
  | String c s => if Ascii.eqb c "0"%char then xO (bits_pos s) else xI (bits_pos s)
  end.

Lemma bits_pos_bits p : bits_pos (pos_bits p) = p.
Proof. induction p as [p IH|p IH|]; simpl; [by rewrite IH..|done]. Qed.

#[export] Instance jsonMessage_eq_dec : EqDecision jsonMessage.
Proof. solve_decision. Defined.
#[export] Instance jsonMessage_countable : Countable jsonMessage.
Proof.
  apply (inj_countable' (λ m, (jm_Type m, jm_Payload m, jm_Meta m)) (λ '(t, p, m), mkJsonMessage t p m)). by intros [].
Defined.

(** It writes the strings as JSON does, coerced, and refuses the values it would
    have to change. *)
Definition coerced (m : jsonMessage) : jsonMessage :=
  mkJsonMessage (ToValidUTF8 (jm_Type m)) (ToValidUTF8 (jm_Payload m)) (ToValidUTF8 <$> jm_Meta m).
Definition bitsJSON : MessageJSON := {|
  marshal_value m := if ValidString (sm_Value m) then Ok (sm_Value m) else Err (ErrText "json");
  marshal_envelope m := Ok (pos_bits (encode (coerced m)));
  unmarshal_envelope data := decode (bits_pos data);
|}.

Lemma bits_value m p : @marshal_value bitsJSON m = Ok p → ValidString p = true ∧ p = sm_Value m.
Proof. cbn. destruct (ValidString (sm_Value m)) eqn:E; [|done]. by intros [= <-]. Qed.
Lemma bitsJSON_laws : @MessageJSONLaws bitsJSON.
Proof.
  split; [by intros m p [H _]%bits_value|]. intros m data [= <-]. eexists. split; [|by intros _]. cbn. rewrite bits_pos_bits. apply decode_encode.
Qed.

(** A world that lists the messages stored. *)
Definition storedTrace_producer (_ : context) (m : Message) (_ : option time) : M (list (uuid * Topic * string)) (option error) :=
  λ w, (Ret None, w ++ [(msg_ID m, msg_Topic m, msg_Key m)]).
Definition ex_message (id : uuid) (ty : string) : StructuredMessage := mkStructured ("events." +:+ ty) id ty 7%N "{}".

(** What is read of an envelope that was written. *)
Lemma serialized_envelope `{!MessageJSON, !MessageJSONLaws} msg meta payload data :
  marshal_value msg = Ok payload → Serialize msg meta = Ok data → ValidString (sm_Type msg) = true →
  (∀ k, is_Some (meta !! k) → ValidString k = true) →
  unmarshal_envelope data = Some (mkJsonMessage (sm_Type msg) payload (ToValidUTF8 <$> meta)).
Proof.
  intros Hvalue Hdata Htype%ValidString_spec Hkeys. unfold Serialize in Hdata. rewrite Hvalue in Hdata.
  destruct (marshal_envelope _) as [data'|e] eqn:E; [|done]. injection Hdata as ->.
  apply unmarshal_marshal in E as (meta' & -> & Hm). apply marshal_valid, ValidString_spec in Hvalue. cbn [jm_Type jm_Payload jm_Meta] in *.
  by rewrite Htype, Hvalue, (Hm Hkeys).
Qed.
Lemma valid_values (meta : Metadata) : (∀ k v, meta !! k = Some v → ValidString v = true) → ToValidUTF8 <$> meta = meta.
Proof.
  intros Hv. apply map_eq. intros k. rewrite lookup_fmap. destruct (meta !! k) as [v|] eqn:E; [|done]. cbn. f_equal. by apply ValidString_spec, (Hv k).
Qed.

(** ** Theorems *)

(** C34. What producing or scheduling messages does, on a bus made by its
    constructor and any registrations: when some message's type is not
    registered, an error and nothing else; otherwise the producer of each
    topic of the message's type is called, message by message, up to the first
    error.  With messages of pairwise different types each is produced exactly
    once per topic; but of [n] messages of one type each is produced [n] times
    per topic. *)
Theorem scheduleImpl_calls {W} `{!MessageJSON} (producerImpl : context → Message → option time → M W (option error))
    (opts : list (BusProducerConfig W → BusProducerConfig W))
    (regs : list (list (Topic * list (StructuredMessage * option KeyBuilder)) * list (BusProducerConfig W → BusProducerConfig W)))
    (ctx : context) (at_ : option time) (msgs : list StructuredMessage) (w : W) :
  let p := registered producerImpl opts regs in
  (Exists (λ m, messageTopics p !! sm_reflectType m = None) msgs →
     scheduleImpl p ctx at_ msgs w = (Ret (Some errUnknownMessageType), w)) ∧
  (Forall (λ m, is_Some (messageTopics p !! sm_reflectType m)) msgs →
     scheduleImpl p ctx at_ msgs w = run_calls p ctx at_ (calls p msgs) w) ∧
  (NoDup (sm_reflectType <$> msgs) → calls p msgs = concat ((λ m, (λ t, (t, m)) <$> topics_of p m) <$> msgs)) ∧
  (∀ m1 m2 t, sm_reflectType m1 = sm_reflectType m2 → topics_of p m1 = [t] →
     calls p [m1; m2] = [(t, m1); (t, m1); (t, m2); (t, m2)]).
Proof.
  intros p. pose proof (registered_ok producerImpl opts regs : bus_ok p) as Hok. clearbody p. split_and!.
  - by apply scheduleImpl_unknown.
  - by apply scheduleImpl_run.
  - apply calls_distinct.
  - intros m1 m2 t Heq Ht. unfold calls, count_type, same_type. cbn [List.filter fmap list_fmap].
    assert (topics_of p m2 = [t]) as Ht2 by (unfold topics_of in *; by rewrite <- Heq).
    rewrite Ht, Ht2, Heq, !String.eqb_refl. done.
Qed.

(** C35. What is serialized is deserialized: with the type's deserializer
    registered once and undoing the encoding of the value, a message whose type
    and metadata keys are valid UTF-8 comes back from [Deserialize] with its
    metadata as JSON keeps it - unchanged when the values are valid UTF-8, and
    with U+FFFD for every byte of a value that is not; a type nobody registered
    and data that is no envelope are unknown messages; and a type cannot be
    registered twice. *)
Theorem serializer_roundtrip `{!MessageJSON, !MessageJSONLaws} (msg : StructuredMessage) (meta : Metadata) (payload data : string)
    (s : gmap string PayloadDeserializer) (d : PayloadDeserializer)
    (Hvalue : marshal_value msg = Ok payload) (Hdata : Serialize msg meta = Ok data)
    (Hd : d payload = Ok msg) (Hnew : s !! sm_Type msg = None)
    (Htype : ValidString (sm_Type msg) = true) (Hkeys : ∀ k, is_Some (meta !! k) → ValidString k = true) :
  errors_Is (result_err (Deserialize s data)) (Some ErrDeserializeUnknownMessage) = true ∧
  ∃ s', RegisterDeserializer s (sm_Type msg) d = Ok s' ∧
    Deserialize s' data = Ok (msg, ToValidUTF8 <$> meta) ∧
    ((∀ k v, meta !! k = Some v → ValidString v = true) → Deserialize s' data = Ok (msg, meta)) ∧
    (∀ d', ∃ e, RegisterDeserializer s' (sm_Type msg) d' = Err e) ∧
    (∀ junk, unmarshal_envelope junk = None →
       errors_Is (result_err (Deserialize s' junk)) (Some ErrDeserializeUnknownMessage) = true).
Proof.
  apply (serialized_envelope _ _ _ _ Hvalue Hdata Htype) in Hkeys as E. split.
  - unfold Deserialize. rewrite E. cbn [jm_Type]. rewrite Hnew. cbn [result_err errors_Is]. by rewrite error_has_wrap.
  - eexists. unfold RegisterDeserializer at 1. rewrite Hnew. split; [done|].
    assert (Hback : Deserialize (<[sm_Type msg := d]> s) data = Ok (msg, ToValidUTF8 <$> meta)).
    { unfold Deserialize. rewrite E. cbn [jm_Type jm_Payload jm_Meta]. by rewrite lookup_insert_eq, Hd. }
    split_and!; [done|intros Hv; by rewrite Hback, (valid_values meta Hv)| |].
    + intros d'. unfold RegisterDeserializer. rewrite lookup_insert_eq. by eexists.
    + intros junk Hj. unfold Deserialize. by rewrite Hj.
Qed.

Lemma scheduleImpl_calls_witness :
  Forall (λ m, is_Some (messageTopics (@registered (list (uuid * Topic * string)) bitsJSON storedTrace_producer []
    [([("domain-event.user", [RegisterEvent (λ _, "k") (ex_message 0 "userDeleted")])], [])]) !! sm_reflectType m))
    [ex_message 1 "userDeleted"; ex_message 2 "userDeleted"] ∧
  @scheduleImpl (list (uuid * Topic * string)) (@registered (list (uuid * Topic * string)) bitsJSON storedTrace_producer []
    [([("domain-event.user", [RegisterEvent (λ _, "k") (ex_message 0 "userDeleted")])], [])]) context_Background None
    [ex_message 1 "userDeleted"; ex_message 2 "userDeleted"] [] =
  (Ret None, [(1%N, "domain-event.user", "k"); (1%N, "domain-event.user", "k");
              (2%N, "domain-event.user", "k"); (2%N, "domain-event.user", "k")]).
Proof.
  destruct (@scheduleImpl_calls (list (uuid * Topic * string)) bitsJSON storedTrace_producer []
    [([("domain-event.user", [RegisterEvent (λ _, "k") (ex_message 0 "userDeleted")])], [])] context_Background None
    [ex_message 1 "userDeleted"; ex_message 2 "userDeleted"] []) as (_ & H & _).
  assert (Forall (λ m, is_Some (messageTopics (@registered (list (uuid * Topic * string)) bitsJSON storedTrace_producer []
    [([("domain-event.user", [RegisterEvent (λ _, "k") (ex_message 0 "userDeleted")])], [])]) !! sm_reflectType m))
    [ex_message 1 "userDeleted"; ex_message 2 "userDeleted"]) as Hall.
  { repeat constructor; vm_compute; by eexists. }
  split; [exact Hall|]. rewrite (H Hall). vm_compute. reflexivity.
Defined.

(** One metadata value is UTF-8, the other is not. *)
Definition ex_meta : Metadata := {["observability/requestID" := "r"; "raw" := of_bytes [ascii_of_N 0x61; ascii_of_N 0xFF]]}.
Definition ex_data : bytes := match @Serialize bitsJSON (ex_message 1 "userDeleted") ex_meta with Ok data => data | Err _ => "" end.

Lemma serializer_roundtrip_witness :
  ∃ s', @RegisterDeserializer ∅ "userDeleted" (λ _, Ok (ex_message 1 "userDeleted")) = Ok s' ∧
    @Deserialize bitsJSON s' ex_data =
      Ok (ex_message 1 "userDeleted", {["observability/requestID" := "r"; "raw" := of_bytes (ascii_of_N 0x61 :: replacement_rune)]}).
Proof.
  destruct (@serializer_roundtrip bitsJSON bitsJSON_laws (ex_message 1 "userDeleted") ex_meta "{}" ex_data ∅ (λ _, Ok (ex_message 1 "userDeleted")))
    as (_ & s' & H1 & H2 & _).
  - reflexivity.
  - vm_compute. reflexivity.
  - reflexivity.
  - apply lookup_empty.
  - reflexivity.
  - intros k [v Hv]. unfold ex_meta in Hv. apply lookup_insert_Some in Hv as [[<- _]|[_ Hv]]; [reflexivity|].
    apply lookup_singleton_Some in Hv as [<- _]. reflexivity.
  - exists s'. split; [exact H1|]. exact H2.
Defined.
