(* ===== verification/Worker.v ===== *)
(** pkg/worker: the pool of workers and groups of jobs as a transition system,
    periodical jobs (job.go), and the runner of pkg/cmd. *)
From S2P Require Import Prelude Context Message.

(** ** The pool and the group *)

Definition MaxWorkersCountNumCPU : Z := (-1)%Z.
Definition MaxWorkersCountUnlimited : Z := 0%Z.

(** [NewPool]'s number of workers; [0] is no limit. *)
Definition pool_maxWorkers (numCPU : Z) (maxWorkers : Z) : nat :=
  Z.to_nat (if (maxWorkers <=? MaxWorkersCountNumCPU)%Z then numCPU else maxWorkers).

(** Where a job of the group is: not handed to [Do] yet; in [pool.Do] before
    the lock; in the condition's [Wait]; signalled and about to test again; its
    goroutine in [job()]; returned [r], before the [select] of [handleErr];
    past the send and before [ctxCancel]; past [handleErr]; past the group's
    [wg.Done]; past [jobCompleted.Done]; past the decrement and before
    [Signal]; done. *)
Inductive jobPC :=
| Fresh
| Calling
| Sleeping
| Woken
| Running
| Returned (r : option error)
| Sent (e : error)
| Handled (r : option error)
| GroupDone (r : option error)
| Releasing (r : option error)
| Signalling (r : option error)
| Finished (r : option error).

(** The shared state of [pool] and [group]. *)
Record poolGroup := mkPoolGroup {
  jobs : list jobPC;
  currentWorkers : nat;
  jobCompleted : nat;
  wg : nat;
  errChan : option error;
  cancelled : bool;
}.

(** [WithinGroup] on a pool with nothing to do, and [n] jobs to come. *)
Definition WithinGroup (n : nat) : poolGroup := mkPoolGroup (replicate n Fresh) 0 0 0 None false.

Definition at_pc (i : nat) (pc : jobPC) (s : poolGroup) : poolGroup :=
  mkPoolGroup (<[i := pc]> (jobs s)) (currentWorkers s) (jobCompleted s) (wg s) (errChan s) (cancelled s).
Definition add_current (d : nat → nat) (s : poolGroup) : poolGroup :=
  mkPoolGroup (jobs s) (d (currentWorkers s)) (jobCompleted s) (wg s) (errChan s) (cancelled s).
Definition add_completed (d : nat → nat) (s : poolGroup) : poolGroup :=
  mkPoolGroup (jobs s) (currentWorkers s) (d (jobCompleted s)) (wg s) (errChan s) (cancelled s).
Definition add_wg (d : nat → nat) (s : poolGroup) : poolGroup :=
  mkPoolGroup (jobs s) (currentWorkers s) (jobCompleted s) (d (wg s)) (errChan s) (cancelled s).
Definition send_err (e : error) (s : poolGroup) : poolGroup :=
  mkPoolGroup (jobs s) (currentWorkers s) (jobCompleted s) (wg s) (Some e) (cancelled s).
Definition cancel_group (s : poolGroup) : poolGroup :=
  mkPoolGroup (jobs s) (currentWorkers s) (jobCompleted s) (wg s) (errChan s) true.

(** [returns i c r]: job [i] may return [r] when the group's context is
    ([c = true]) or is not cancelled. *)
Inductive pstep (max : nat) (returns : nat → bool → option error → Prop) : poolGroup → poolGroup → Prop :=
| ps_call s i : jobs s !! i = Some Fresh →
    pstep max returns s (add_wg S (add_completed S (at_pc i Calling s)))
| ps_start_unlimited s i : max = 0 → jobs s !! i = Some Calling →
    pstep max returns s (at_pc i Running s)
| ps_start s i : max ≠ 0 → jobs s !! i = Some Calling ∨ jobs s !! i = Some Woken → currentWorkers s < max →
    pstep max returns s (add_current S (at_pc i Running s))
| ps_wait s i : max ≠ 0 → jobs s !! i = Some Calling ∨ jobs s !! i = Some Woken → max ≤ currentWorkers s →
    pstep max returns s (at_pc i Sleeping s)
| ps_return s i r : jobs s !! i = Some Running → returns i (cancelled s) r →
    pstep max returns s (at_pc i (Returned r) s)
| ps_no_error s i : jobs s !! i = Some (Returned None) →
    pstep max returns s (at_pc i (Handled None) s)
| ps_send s i e : jobs s !! i = Some (Returned (Some e)) → errChan s = None →
    pstep max returns s (send_err e (at_pc i (Sent e) s))
| ps_send_full s i e : jobs s !! i = Some (Returned (Some e)) → errChan s ≠ None →
    pstep max returns s (at_pc i (Handled (Some e)) s)
| ps_cancel s i e : jobs s !! i = Some (Sent e) →
    pstep max returns s (cancel_group (at_pc i (Handled (Some e)) s))
| ps_group_done s i r : jobs s !! i = Some (Handled r) →
    pstep max returns s (add_wg pred (at_pc i (GroupDone r) s))
| ps_completed_unlimited s i r : max = 0 → jobs s !! i = Some (GroupDone r) →
    pstep max returns s (add_completed pred (at_pc i (Finished r) s))
| ps_completed s i r : max ≠ 0 → jobs s !! i = Some (GroupDone r) →
    pstep max returns s (add_completed pred (at_pc i (Releasing r) s))
| ps_release s i r : jobs s !! i = Some (Releasing r) →
    pstep max returns s (add_current pred (at_pc i (Signalling r) s))
| ps_signal s i j r : jobs s !! i = Some (Signalling r) → jobs s !! j = Some Sleeping →
    pstep max returns s (at_pc j Woken (at_pc i (Finished r) s))
| ps_signal_none s i r : jobs s !! i = Some (Signalling r) → Sleeping ∉ jobs s →
    pstep max returns s (at_pc i (Finished r) s).

(** A group with its [onceCloser] and [errResult]. *)
Record waitedGroup := mkWaitedGroup {
  group_state : poolGroup;
  onceClosed : bool;
  errResult : option error;
}.

(** [group.Wait] past [wg.Wait]. *)
Definition group_Wait (g : waitedGroup) : option error * waitedGroup :=
  let g := if onceClosed g then g
           else
             let s := cancel_group (group_state g) in
             mkWaitedGroup (mkPoolGroup (jobs s) (currentWorkers s) (jobCompleted s) (wg s) None (cancelled s)) true (errChan s) in
  (errResult g, g).

(** ** Periodical jobs: what the [select] sees, in order *)

(** [CtxDone e]: the context is done and its [Err] is [e]. *)
Inductive tickEvent := Tick | CtxDone (e : error).

Section periodical.
Context {W : Type}.

(** The job runs until the context is done; [None] is an endless wait, when the
    events seen so far are over. *)
Fixpoint periodicalImpl (job : context → M W unit) (ctx : context) (events : list tickEvent) : M W (option error) :=
  match events with
  | [] => block
  | Tick :: events' => _ ← job ctx; periodicalImpl job ctx events'
  | CtxDone e :: _ => mret (Some e)
  end.

Definition PeriodicalJob (job : M W unit) : context → list tickEvent → M W (option error) :=
  periodicalImpl (λ _, job).
Definition PeriodicalContextJob `{!LogSink W} (error_Error : error → string) (job : context → M W (option error)) (logger : Logger) :
    context → list tickEvent → M W (option error) :=
  periodicalImpl (λ ctx,
    err ← job ctx;
    match err with
    | None => mret tt
    | Some e => logger_Log (logger_WithError error_Error logger (Some e)) (Some ctx) LevelError "periodical job completed with error"
    end).
End periodical.

(** ** pkg/cmd: running the jobs of a service *)

(** The error made on every [Run]: no other error is it. *)
Definition errCompleted : string := "job completed".

Section run.
Context {W : Type} `{!LogSink W} (error_Error : error → string).
(** [ctx.Err()] of the group's context. *)
Context (ctx_Err : context → M W (option string)).

Definition loggingAdapter (ctx : context) (job : context → M W (option error)) (logger : Logger) : M W (option error) :=
  err ← job ctx;
  cerr ← ctx_Err ctx;
  if bool_decide (err = None) || errors_Is err cerr then mret (Some (ErrSentinel errCompleted))
  else
    _ ← logger_Log (logger_WithError error_Error logger err) (Some ctx) LevelError "running job completed with error";
    mret err.
End run.

(** [TermSignalAwaiter], a job of every program: which of SIGTERM or SIGINT and
    of the context comes first. *)
Inductive termEvent := SignalNotified | TermCtxDone (e : error).
Definition TermSignalAwaiter {W} (ev : termEvent) (_ : context) : M W (option error) :=
  mret (match ev with SignalNotified => None | TermCtxDone e => Some e end).

(** What is left of [Run] after the group's [Wait]. *)
Definition Run_result (err : option error) : option error :=
  if errors_Is err (Some errCompleted) then None else err.

(** [MustRun] panics with the error of [Run]. *)
Definition MustRun {W} (error_Error : error → string) (err : option error) : M W unit :=
  match err with
  | None => mret tt
  | Some e => panic (error_Error (Errorf "some of the jobs completed with error" e))
  end.

(** ** What the counters count *)

Definition count_pc (f : jobPC → bool) (l : list jobPC) : nat := sum_list_with (λ pc, Nat.b2n (f pc)) l.

Definition is_running (pc : jobPC) : bool := match pc with Running => true | _ => false end.
Definition is_sleeping (pc : jobPC) : bool := match pc with Sleeping => true | _ => false end.
Definition is_finished (pc : jobPC) : bool := match pc with Finished _ => true | _ => false end.
(** About to take a slot or to wake someone up. *)
Definition is_waking (pc : jobPC) : bool := match pc with Woken | Signalling _ => true | _ => false end.
(** Holds a worker's slot. *)
Definition holds_slot (pc : jobPC) : bool :=
  match pc with Running | Returned _ | Sent _ | Handled _ | GroupDone _ | Releasing _ => true | _ => false end.
(** Handed to the group and not past its [wg.Done]. *)
Definition in_group (pc : jobPC) : bool :=
  match pc with Fresh | GroupDone _ | Releasing _ | Signalling _ | Finished _ => false | _ => true end.
(** Handed to the pool and not past [jobCompleted.Done]. *)
Definition in_pool (pc : jobPC) : bool :=
  match pc with Fresh | Releasing _ | Signalling _ | Finished _ => false | _ => true end.
(** The result of a job past [handleErr]'s [select]. *)
Definition job_result (pc : jobPC) : option (option error) :=
  match pc with
  | Sent e => Some (Some e)
  | Handled r | GroupDone r | Releasing r | Signalling r | Finished r => Some r
  | _ => None
  end.

(** Steps left to a job, with the wake-up a [Signal] may cause. *)
Definition weight (pc : jobPC) : nat :=
  match pc with
  | Fresh => 12 | Calling => 11 | Woken => 10 | Sleeping => 9 | Running => 8 | Returned _ => 7 | Sent _ => 6
  | Handled _ => 5 | GroupDone _ => 4 | Releasing _ => 3 | Signalling _ => 2 | Finished _ => 0
  end.
Definition steps_left (s : poolGroup) : nat := sum_list_with weight (jobs s).

(** ** Lemmas *)

Lemma sum_insert (f : jobPC → nat) l i x y :
  l !! i = Some x → (sum_list_with f (<[i := y]> l) + f x = sum_list_with f l + f y)%nat.
Proof.
  revert i. induction l as [|z l IH]; intros [|i] H; simplify_eq/=; [lia|]. specialize (IH i H). lia.
Qed.

Lemma count_insert f l i x y :
  l !! i = Some x → (count_pc f (<[i := y]> l) + Nat.b2n (f x) = count_pc f l + Nat.b2n (f y))%nat.
Proof. apply (sum_insert (λ pc, Nat.b2n (f pc))). Qed.

Lemma count_positive f l i x : l !! i = Some x → f x = true → (0 < count_pc f l)%nat.
Proof.
  revert i. induction l as [|z l IH]; intros [|i] H Hf; simplify_eq/=; [rewrite Hf; simpl; lia|].
  specialize (IH i H Hf). unfold count_pc in *. simpl. lia.
Qed.

Lemma count_pc_le f g l : (∀ pc, f pc = true → g pc = true) → (count_pc f l ≤ count_pc g l)%nat.
Proof.
  intros Hfg. unfold count_pc. induction l as [|pc l IH]; simpl; [lia|]. specialize (Hfg pc). destruct (f pc); simpl; [rewrite Hfg by done; simpl; lia|lia].
Qed.

Lemma count_zero f l : count_pc f l = 0 → Forall (λ x, f x = false) l.
Proof.
  induction l as [|z l IH]; intros H; [constructor|]. unfold count_pc in H. cbn [sum_list_with] in H.
  constructor; [destruct (f z); simpl in H; [lia|done]|]. apply IH. unfold count_pc. lia.
Qed.

Lemma count_exists f l : (0 < count_pc f l)%nat → ∃ i x, l !! i = Some x ∧ f x = true.
Proof.
  induction l as [|z l IH]; intros H; [unfold count_pc in H; simpl in H; lia|]. unfold count_pc in H. cbn [sum_list_with] in H.
  destruct (f z) eqn:E; [by exists 0, z|]. destruct IH as (i & x & Hi & Hx); [unfold count_pc; simpl in H; lia|].
  by exists (S i), x.
Qed.

(** *** Invariants *)

Definition only_limited (pc : jobPC) : bool :=
  match pc with Sleeping | Woken | Releasing _ | Signalling _ => true | _ => false end.

Definition counters_ok (max : nat) (s : poolGroup) : Prop :=
  jobCompleted s = count_pc in_pool (jobs s) ∧ wg s = count_pc in_group (jobs s) ∧
  (max = 0 → currentWorkers s = 0 ∧ count_pc only_limited (jobs s) = 0) ∧
  (max ≠ 0 → currentWorkers s = count_pc holds_slot (jobs s) ∧ currentWorkers s ≤ max ∧
             (0 < count_pc is_sleeping (jobs s) → max ≤ currentWorkers s + count_pc is_waking (jobs s))%nat).

Definition errors_ok (s : poolGroup) : Prop :=
  (errChan s = None → cancelled s = false ∧ ∀ i pc r, jobs s !! i = Some pc → job_result pc = Some r → r = None) ∧
  (∀ e, errChan s = Some e → (∃ i pc, jobs s !! i = Some pc ∧ job_result pc = Some (Some e)) ∧
                             (cancelled s = true ∨ ∃ i e, jobs s !! i = Some (Sent e))).

Ltac counts_of i y H :=
  let l := lazymatch type of H with ?l !! _ = _ => l end in
  pose proof (count_insert in_pool l i _ y H); pose proof (count_insert in_group l i _ y H);
  pose proof (count_insert only_limited l i _ y H); pose proof (count_insert holds_slot l i _ y H);
  pose proof (count_insert is_sleeping l i _ y H); pose proof (count_insert is_waking l i _ y H).

Ltac open_step :=
  unfold counters_ok;
  cbn [jobs currentWorkers jobCompleted wg errChan cancelled at_pc add_current add_completed add_wg send_err cancel_group];
  repeat match goal with H : _ ∨ _ |- _ => destruct H end.
Ltac solve_counts :=
  cbn [in_pool in_group only_limited holds_slot is_sleeping is_waking Nat.b2n] in *; split_and!; lia.

Lemma count_no_sleeping l : Sleeping ∉ l → count_pc is_sleeping l = 0.
Proof.
  intros Hn. destruct (count_pc is_sleeping l) eqn:E; [done|]. exfalso. apply Hn.
  destruct (count_exists is_sleeping l) as (i & [] & Hi & Hx); try done; [lia|]. by eapply list_elem_of_lookup_2.
Qed.

Lemma counters_ok_step max returns s s' : counters_ok max s → pstep max returns s s' → counters_ok max s'.
Proof.
  intros (Hc & Hw & H0 & H1) Hstep. destruct Hstep as
    [s i Hi|s i Hm Hi|s i Hm Hi Hl|s i Hm Hi Hl|s i r Hi Hr|s i Hi|s i e Hi He|s i e Hi He|s i e Hi|s i r Hi
    |s i r Hm Hi|s i r Hm Hi|s i r Hi|s i j r Hi Hj|s i r Hi Hn]; open_step.
  all: match goal with
       | Hi : jobs ?s !! ?i = Some (Signalling ?r), Hj : jobs ?s !! ?j = Some Sleeping |- _ =>
           let Hj' := fresh in
           assert (<[i:=Finished r]> (jobs s) !! j = Some Sleeping) as Hj'
             by (rewrite list_lookup_insert_ne; [done|]; intros ->; congruence);
           counts_of i (Finished r) Hi; counts_of j Woken Hj'; solve_counts
       | Hi : jobs ?s !! ?i = Some (Signalling ?r), Hn : Sleeping ∉ jobs ?s |- _ =>
           pose proof (count_no_sleeping _ Hn); counts_of i (Finished r) Hi; solve_counts
       | H : jobs ?s !! ?i = Some ?x |- context [<[?i := ?y]> (jobs ?s)] => counts_of i y H; solve_counts
       end.
Qed.

Lemma results_none_insert (l : list jobPC) (i : nat) (y : jobPC) :
  (∀ k pc r, l !! k = Some pc → job_result pc = Some r → r = None) →
  (∀ r, job_result y = Some r → r = None) →
  ∀ k pc r, <[i := y]> l !! k = Some pc → job_result pc = Some r → r = None.
Proof.
  intros Hl Hy k pc r [(_ & <- & _)|[_ Hk]]%list_lookup_insert_Some Hr; [by apply Hy|by eapply Hl].
Qed.

Lemma result_insert (l : list jobPC) (i : nat) x y e :
  l !! i = Some x → (∀ r, job_result x = Some r → job_result y = Some r) →
  (∃ k pc, l !! k = Some pc ∧ job_result pc = Some (Some e)) →
  ∃ k pc, <[i := y]> l !! k = Some pc ∧ job_result pc = Some (Some e).
Proof.
  intros Hi Hxy (k & pc & Hk & Hr). destruct (decide (k = i)) as [->|Hne].
  - exists i, y. assert (i < length l)%nat by (by eapply lookup_lt_Some). rewrite list_lookup_insert_eq by done.
    split; [done|]. apply Hxy. congruence.
  - exists k, pc. by rewrite list_lookup_insert_ne.
Qed.

Lemma sent_insert (l : list jobPC) (i : nat) x y :
  l !! i = Some x → (∀ r, x ≠ Sent r) → (∃ k r, l !! k = Some (Sent r)) → ∃ k r, <[i := y]> l !! k = Some (Sent r).
Proof.
  intros Hi Hx (k & r & Hk). exists k, r. rewrite list_lookup_insert_ne; [done|]. intros ->. apply (Hx r). congruence.
Qed.

(** A job moving on: it keeps its result, or gets a result that fits the
    channel. *)
Lemma errors_ok_move s (i : nat) x y f :
  jobs f = <[i := y]> (jobs s) → jobs s !! i = Some x → (∀ e, x ≠ Sent e) →
  job_result y = job_result x ∨ (job_result x = None ∧ (errChan s = None → ∀ r, job_result y = Some r → r = None)) →
  errChan f = errChan s → cancelled f = cancelled s →
  errors_ok s → errors_ok f.
Proof.
  intros Hj Hi Hx Hxy He Hc [Hnone Hsome]. unfold errors_ok. rewrite Hj, He, Hc. split.
  - intros HN. destruct (Hnone HN) as [Hcan Hall]. split; [done|]. apply results_none_insert; [done|]. intros r Hr.
    destruct Hxy as [Heq|[_ Hy]]; [|by apply Hy]. rewrite Heq in Hr. by eapply Hall.
  - intros e HS. destruct (Hsome e HS) as [Hex Hcan]. split; [eapply result_insert; [done| |done]; naive_solver congruence|].
    destruct Hcan as [|Hcan]; [by left|right]. by eapply sent_insert.
Qed.

Lemma errors_ok_step max returns s s' : errors_ok s → pstep max returns s s' → errors_ok s'.
Proof.
  intros Hok Hstep. destruct Hstep as
    [s i Hi|s i Hm Hi|s i Hm Hi Hl|s i Hm Hi Hl|s i r Hi Hr|s i Hi|s i e Hi He|s i e Hi He|s i e Hi|s i r Hi
    |s i r Hm Hi|s i r Hm Hi|s i r Hi|s i j r Hi Hj|s i r Hi Hn].
  14: { eapply (errors_ok_move (at_pc i (Finished r) s) j Sleeping Woken); [done|..|by left|done|done|]; [..|done|].
        - cbn. rewrite list_lookup_insert_ne; [done|]. intros ->. congruence.
        - eapply (errors_ok_move s i); [done|done|..|by left|done|done|done]. done. }
  4: destruct Hi as [Hi|Hi]. 3: destruct Hi as [Hi|Hi].
  all: try (eapply (errors_ok_move s i);
            [cbn; reflexivity|eassumption|done|first [by left|right; split; [done|naive_solver]]|done|done|done]).
  - split; [done|]. intros e' [= <-]. assert (i < length (jobs s))%nat by (by eapply lookup_lt_Some). split.
    + exists i. eexists. cbn. by rewrite list_lookup_insert_eq.
    + right. exists i. eexists. cbn. by rewrite list_lookup_insert_eq.
  - destruct Hok as [Hnone Hsome]. split; cbn.
    + intros HN. destruct (Hnone HN) as [_ Hall]. by specialize (Hall i _ _ Hi eq_refl).
    + intros e' HS. destruct (Hsome e' HS) as [Hex _]. split; [|by left]. by eapply result_insert.
Qed.

(** Every result is one its job returned. *)
Definition pc_result (pc : jobPC) : option (option error) :=
  match pc with Returned r => Some r | _ => job_result pc end.
Definition results_ok (returns : nat → bool → option error → Prop) (s : poolGroup) : Prop :=
  ∀ i pc r, jobs s !! i = Some pc → pc_result pc = Some r → ∃ c, returns i c r.

Lemma results_ok_move returns s (i : nat) x y f :
  jobs f = <[i := y]> (jobs s) → jobs s !! i = Some x →
  pc_result y = pc_result x ∨ (∀ r, pc_result y = Some r → ∃ c, returns i c r) →
  results_ok returns s → results_ok returns f.
Proof.
  intros Hj Hi Hxy Hok k pc r Hk Hr. rewrite Hj in Hk.
  apply list_lookup_insert_Some in Hk as [(-> & <- & _)|[_ Hk]]; [|by eapply Hok].
  destruct Hxy as [Heq|Hy]; [|by apply Hy]. rewrite Heq in Hr. by eapply Hok.
Qed.

Lemma results_ok_step max returns s s' : results_ok returns s → pstep max returns s s' → results_ok returns s'.
Proof.
  intros Hok Hstep. destruct Hstep as
    [s i Hi|s i Hm Hi|s i Hm Hi Hl|s i Hm Hi Hl|s i r Hi Hr|s i Hi|s i e Hi He|s i e Hi He|s i e Hi|s i r Hi
    |s i r Hm Hi|s i r Hm Hi|s i r Hi|s i j r Hi Hj|s i r Hi Hn].
  14: { eapply (results_ok_move _ (at_pc i (Finished r) s) j Sleeping Woken); [done|..|by left|].
        - cbn. rewrite list_lookup_insert_ne; [done|]. intros ->. congruence.
        - by eapply (results_ok_move _ s i); [done|done|by left|]. }
  4: destruct Hi as [Hi|Hi]. 3: destruct Hi as [Hi|Hi].
  all: eapply (results_ok_move _ s i); [cbn; reflexivity|eassumption| |done]; first [by left|right].
  intros r' [= <-]. by eexists.
Qed.

Lemma step_decreases max returns s s' : pstep max returns s s' → (steps_left s' < steps_left s)%nat.
Proof.
  intros Hstep. unfold steps_left. destruct Hstep as
    [s i Hi|s i Hm Hi|s i Hm Hi Hl|s i Hm Hi Hl|s i r Hi Hr|s i Hi|s i e Hi He|s i e Hi He|s i e Hi|s i r Hi
    |s i r Hm Hi|s i r Hm Hi|s i r Hi|s i j r Hi Hj|s i r Hi Hn];
    cbn [jobs at_pc add_current add_completed add_wg send_err cancel_group].
  14: { assert (<[i:=Finished r]> (jobs s) !! j = Some Sleeping) as Hj'
          by (rewrite list_lookup_insert_ne; [done|]; intros ->; congruence).
        pose proof (sum_insert weight _ i _ (Finished r) Hi). pose proof (sum_insert weight _ j _ Woken Hj').
        cbn [weight] in *. lia. }
  4: destruct Hi as [Hi|Hi]. 3: destruct Hi as [Hi|Hi].
  all: match goal with |- context [<[_ := ?y]> _] => pose proof (sum_insert weight _ i _ y Hi); cbn [weight] in *; lia end.
Qed.

Lemma step_length max returns s s' : pstep max returns s s' → length (jobs s') = length (jobs s).
Proof. intros []; cbn; by rewrite ?length_insert. Qed.

Lemma init_ok max returns n : counters_ok max (WithinGroup n) ∧ errors_ok (WithinGroup n) ∧ results_ok returns (WithinGroup n).
Proof.
  assert (∀ f, f Fresh = false → count_pc f (replicate n Fresh) = 0) as Hz.
  { intros f Hf. unfold count_pc. induction n as [|n IH]; [done|]. simpl. by rewrite Hf. }
  unfold counters_ok, errors_ok, results_ok, WithinGroup. cbn [jobs currentWorkers jobCompleted wg errChan cancelled]. rewrite !Hz by done. split_and!; try done; try lia.
  - intros _. split; [done|]. intros i pc r Hpc Hr. apply lookup_replicate in Hpc as [-> _]. done.
  - intros i pc r Hpc Hr. apply lookup_replicate in Hpc as [-> _]. done.
Qed.

Lemma reachable_ok max returns n s :
  rtc (pstep max returns) (WithinGroup n) s →
  counters_ok max s ∧ errors_ok s ∧ results_ok returns s ∧ length (jobs s) = n.
Proof.
  intros Hrun. eapply (inv_rtc _ (λ s, counters_ok max s ∧ errors_ok s ∧ results_ok returns s ∧ length (jobs s) = n));
    [|destruct (init_ok max returns n) as (? & ? & ?); split_and!; try done; apply length_replicate|exact Hrun].
  intros a b (H1 & H2 & H3 & H4) Hstep. split_and!.
  - by eapply counters_ok_step.
  - by eapply errors_ok_step.
  - by eapply results_ok_step.
  - by rewrite (step_length _ _ _ _ Hstep).
Qed.

Lemma can_step max returns s i pc :
  (∀ i c, ∃ r, returns i c r) → jobs s !! i = Some pc → pc ≠ Sleeping → (max = 0 → only_limited pc = false) →
  is_finished pc = false → ∃ s', pstep max returns s s'.
Proof.
  intros Hret Hi Hns Hlim Hf. destruct pc; try done.
  - eexists. by apply (ps_call _ _ _ i).
  - destruct (decide (max = 0)); [eexists; by apply (ps_start_unlimited _ _ _ i)|].
    destruct (decide (currentWorkers s < max)); eexists; [apply (ps_start _ _ _ i)|apply (ps_wait _ _ _ i)]; auto; lia.
  - destruct (decide (max = 0)) as [Hz|]; [by specialize (Hlim Hz)|].
    destruct (decide (currentWorkers s < max)); eexists; [apply (ps_start _ _ _ i)|apply (ps_wait _ _ _ i)]; auto; lia.
  - destruct (Hret i (cancelled s)) as [r Hr]. eexists. by apply (ps_return _ _ _ i r).
  - destruct r as [e|]; [|eexists; by apply (ps_no_error _ _ _ i)].
    destruct (errChan s) eqn:E; eexists; [apply (ps_send_full _ _ _ i e)|apply (ps_send _ _ _ i e)]; try done; congruence.
  - eexists. by apply (ps_cancel _ _ _ i).
  - eexists. by eapply (ps_group_done _ _ _ i).
  - destruct (decide (max = 0)); eexists; [by eapply (ps_completed_unlimited _ _ _ i)|by eapply (ps_completed _ _ _ i)].
  - eexists. by eapply (ps_release _ _ _ i).
  - destruct (count_pc is_sleeping (jobs s)) as [|k] eqn:E.
    + eexists. eapply (ps_signal_none _ _ _ i); [done|]. intros [j Hj]%list_elem_of_lookup.
      pose proof (count_positive is_sleeping _ _ _ Hj eq_refl). lia.
    + destruct (count_exists is_sleeping (jobs s)) as (j & [] & Hj & Hx); try done; [lia|].
      eexists. by eapply (ps_signal _ _ _ i j).
Qed.

Lemma count_all_zero f l : (∀ i x, l !! i = Some x → f x = false) → count_pc f l = 0.
Proof.
  intros Hall. destruct (count_pc f l) eqn:E; [done|]. destruct (count_exists f l) as (i & x & Hi & Hx); [lia|].
  by rewrite (Hall i x Hi) in Hx.
Qed.

(** No step left: no job sleeps, all are done. *)
Lemma stuck_finished max returns s :
  (∀ i c, ∃ r, returns i c r) → counters_ok max s → (∀ s', ¬ pstep max returns s s') →
  Forall (λ pc, is_finished pc = true) (jobs s).
Proof.
  intros Hret (_ & _ & H0 & H1) Hstuck.
  assert (Hpcs : ∀ i pc, jobs s !! i = Some pc → pc = Sleeping ∨ is_finished pc = true).
  { intros i pc Hi. destruct (is_sleeping pc) eqn:Es; [left; by destruct pc|right].
    destruct (is_finished pc) eqn:E; [done|]. destruct (can_step max returns s i pc) as [s' Hs']; try done; [by intros ->| |by apply Hstuck in Hs'].
    intros Hz. apply not_true_iff_false. intros Hl. pose proof (count_positive _ _ _ _ Hi Hl). specialize (H0 Hz). lia. }
  assert (Hnone : ∀ i pc, jobs s !! i = Some pc → pc ≠ Sleeping).
  { intros i pc Hi ->. destruct (decide (max = 0)) as [Hz|Hz].
    - pose proof (count_positive only_limited _ _ _ Hi eq_refl). specialize (H0 Hz). lia.
    - destruct (H1 Hz) as (Hc & _ & Hw). pose proof (count_positive is_sleeping _ _ _ Hi eq_refl).
      rewrite (count_all_zero holds_slot) in Hc by (intros k x Hk; pose proof (Hpcs k x Hk) as [|]; destruct x; simplify_eq/=; done).
      rewrite (count_all_zero is_waking) in Hw by (intros k x Hk; pose proof (Hpcs k x Hk) as [|]; destruct x; simplify_eq/=; done). lia. }
  apply Forall_lookup. intros i pc Hi. destruct (Hpcs i pc Hi) as [->|]; [by apply Hnone in Hi|done].
Qed.

Lemma steps_bounded max returns k s s' :
  nsteps (pstep max returns) k s s' → (k + steps_left s' ≤ steps_left s)%nat.
Proof. intros Hn. induction Hn as [|k s1 s2 s3 Hs _ IH]; [lia|]. apply step_decreases in Hs. lia. Qed.

Lemma steps_left_init n : steps_left (WithinGroup n) = (12 * n)%nat.
Proof. unfold steps_left. cbn [jobs WithinGroup]. induction n as [|n IH]; [done|]. simpl in *. lia. Qed.

(** ** Theorems *)

(** C36. In every interleaving of calls, jobs, releases and signals the
    counters are exact: [jobCompleted] counts the jobs handed to the pool and
    not past its [Done], the group's [wg] those not past the group's, and
    [currentWorkers] the slots that are taken - none without a limit, and never
    more than the limit, so no more jobs than that run at a time.  A caller of
    [Do] sleeps only while the slots taken and the wake-ups under way make up
    the limit.  Once a counter is zero - [Wait] returns - every job handed to
    [Do] has returned. *)
Theorem pool_bounded (max : nat) (returns : nat → bool → option error → Prop) (n : nat) (s : poolGroup)
    (Hrun : rtc (pstep max returns) (WithinGroup n) s) :
  jobCompleted s = count_pc in_pool (jobs s) ∧ wg s = count_pc in_group (jobs s) ∧
  currentWorkers s = (if decide (max = 0) then 0 else count_pc holds_slot (jobs s)) ∧
  (max ≠ 0 → count_pc is_running (jobs s) ≤ currentWorkers s ≤ max ∧
     (0 < count_pc is_sleeping (jobs s) → max ≤ currentWorkers s + count_pc is_waking (jobs s)))%nat ∧
  (jobCompleted s = 0 ∨ wg s = 0 → ∀ i pc, jobs s !! i = Some pc → pc = Fresh ∨ is_Some (job_result pc)).
Proof.
  apply reachable_ok in Hrun as ((Hc & Hw & H0 & H1) & _). split; [done|]. split; [done|]. split_and!.
  - case_decide as Hm; [by apply H0|by apply H1].
  - intros Hm. destruct (H1 Hm) as (Hcur & Hle & Hs). split_and!; [|done..]. rewrite Hcur. apply count_pc_le. by intros [].
  - intros [Hz|Hz] i pc Hi; rewrite Hz in *; [symmetry in Hc; apply count_zero in Hc; rename Hc into Hall|symmetry in Hw; apply count_zero in Hw; rename Hw into Hall];
      rewrite Forall_lookup in Hall; specialize (Hall i pc Hi); destruct pc; simpl in *; try done; eauto.
Qed.

(** C37. The pool loses no wake-up: when every job returns, every run from [n]
    calls of [Do] is finite, and it can only stop when all [n] jobs have run
    and released their workers - no caller of [Do] is left asleep. *)
Theorem pool_drains (max : nat) (returns : nat → bool → option error → Prop) (n : nat)
    (Hret : ∀ i c, ∃ r, returns i c r) :
  (∀ k s, nsteps (pstep max returns) k (WithinGroup n) s → k ≤ 12 * n)%nat ∧
  (∀ s, rtc (pstep max returns) (WithinGroup n) s → (∀ s', ¬ pstep max returns s s') →
     length (jobs s) = n ∧ Forall (λ pc, is_finished pc = true) (jobs s)).
Proof.
  split.
  - intros k s Hk%steps_bounded. rewrite steps_left_init in Hk. lia.
  - intros s Hrun Hstuck. apply reachable_ok in Hrun as (Hok & _ & _ & Hlen). split; [done|]. by eapply stuck_finished.
Qed.

(** What [Wait] of a group returns, once all jobs were handed over and the
    group's counter is zero: no error exactly when every job returned none,
    else the error of one of its jobs; the group's context is cancelled before
    [Wait] exactly when a job failed, and always after; and a second [Wait]
    returns the same. *)
Theorem group_Wait_spec (max : nat) (returns : nat → bool → option error → Prop) (n : nat) (s : poolGroup)
    (Hrun : rtc (pstep max returns) (WithinGroup n) s) (Hcalled : Fresh ∉ jobs s) (Hwg : wg s = 0) :
  let '(err, g) := group_Wait (mkWaitedGroup s false None) in
  (err = None ↔ ∀ i pc, jobs s !! i = Some pc → job_result pc = Some None) ∧
  (∀ e, err = Some e → ∃ i pc c, jobs s !! i = Some pc ∧ job_result pc = Some (Some e) ∧ returns i c (Some e)) ∧
  (cancelled s = true ↔ err ≠ None) ∧ cancelled (group_state g) = true ∧
  group_Wait g = (err, g).
Proof.
  apply reachable_ok in Hrun as ((_ & Hw & _) & [Hnone Hsome] & Hres & _).
  rewrite Hwg in Hw. symmetry in Hw. apply count_zero in Hw. rewrite Forall_lookup in Hw.
  assert (Hdone : ∀ i pc, jobs s !! i = Some pc → is_Some (job_result pc) ∧ ∀ e, pc ≠ Sent e).
  { intros i pc Hi. specialize (Hw i pc Hi). destruct pc; simpl in *; try done; [|by eauto..].
    apply list_elem_of_lookup_2 in Hi. done. }
  cbn. destruct (errChan s) as [e|] eqn:E; split_and!; try done.
  - split; [done|]. intros Hall. destruct (Hsome e eq_refl) as ((i & pc & Hi & Hr) & _). specialize (Hall i pc Hi). congruence.
  - intros e' [= <-]. destruct (Hsome e eq_refl) as ((i & pc & Hi & Hr) & _).
    destruct (Hres i pc (Some e) Hi) as [c Hc]; [by destruct pc|]. by exists i, pc, c.
  - split; [done|]. intros _. destruct (Hsome e eq_refl) as [_ [|(i & e' & Hi)]]; [done|].
    by destruct (Hdone i _ Hi) as [_ Hns]; destruct (Hns e').
  - split; [|done]. intros _ i pc Hi. destruct (Hdone i pc Hi) as [[r Hr] _]. destruct (Hnone eq_refl) as [_ Hall].
    by rewrite (Hall i pc r Hi Hr) in Hr.
  - destruct (Hnone eq_refl) as [Hc _]. by rewrite Hc.
Qed.

(** What a job of [Run] may return: [parent] is whether the parent context is
    done, [c] whether the group cancelled its own. *)
Definition run_returns {W} `{!LogSink W} (error_Error : error → string) (ctx : context) (job : nat → context → M W (option error))
    (logger : Logger) (i : nat) (c : bool) (r : option error) : Prop :=
  ∃ (parent : bool) (w w' : W),
    loggingAdapter error_Error (λ _, mret (if c || parent then Some context_Canceled else None)) ctx (job i) logger w = (Ret r, w').


(** The result of [Run], when all its jobs are over: an error is the error
    some job returned, which is not the error of a context that was done;
    without an error some job returned none, or returned the error of the
    context while that was done.  In both cases the first job to be over
    cancelled the context of all the others. *)
Theorem Run_spec {W} `{!LogSink W} (error_Error : error → string) (ctx : context) (job : nat → context → M W (option error))
    (logger : Logger) (n : nat) (s : poolGroup)
    (Hfresh : ∀ i w e w', job i ctx w = (Ret (Some e), w') → error_has errCompleted e = false)
    (Hrun : rtc (pstep 0 (run_returns error_Error ctx job logger)) (WithinGroup n) s)
    (Hover : Forall (λ pc, is_finished pc = true) (jobs s)) (Hn : n ≠ 0) :
  cancelled s = true ∧
  match Run_result (fst (group_Wait (mkWaitedGroup s false None))) with
  | Some e => ∃ i w w', job i ctx w = (Ret (Some e), w')
  | None => ∃ i w r w', job i ctx w = (Ret r, w') ∧ (r = None ∨ errors_Is r (Some context_Canceled) = true)
  end.
Proof.
  apply reachable_ok in Hrun as (_ & [Hnone Hsome] & Hres & Hlen). rewrite Forall_lookup in Hover.
  assert (Hsent : errChan s ≠ None).
  { intros HN. destruct (Hnone HN) as [_ Hall]. destruct (lookup_lt_is_Some_2 (jobs s) 0 ltac:(lia)) as [pc Hpc].
    specialize (Hover 0 pc Hpc). destruct pc; try done. specialize (Hall 0 _ r Hpc eq_refl) as ->.
    destruct (Hres 0 _ None Hpc eq_refl) as (c & p & w & w' & Hl). unfold loggingAdapter in Hl.
    apply M_bind_Ret_inv in Hl as (err & w1 & Hj & Hl). apply M_bind_Ret_inv in Hl as (cerr & w2 & Hc & Hl).
    destruct (bool_decide (err = None) || errors_Is err cerr) eqn:E; [by injection Hl|].
    apply M_bind_Ret_inv in Hl as (u & w3 & _ & Hl). unfold mret, M_ret in Hl. injection Hl as -> ->.
    by rewrite bool_decide_eq_true_2 in E. }
  destruct (errChan s) as [e|] eqn:E; [|done]. destruct (Hsome e eq_refl) as ((i & pc & Hi & Hr) & Hcan). split.
  { destruct Hcan as [|(k & e' & Hk)]; [done|]. by specialize (Hover k _ Hk). }
  cbn [group_Wait onceClosed errResult fst group_state cancel_group errChan]. rewrite E. unfold Run_result.
  destruct (Hres i pc (Some e) Hi) as (c & p & w & w' & Hl); [by destruct pc|]. unfold loggingAdapter in Hl.
  apply M_bind_Ret_inv in Hl as (err & w1 & Hj & Hl). apply M_bind_Ret_inv in Hl as (cerr & w2 & Hc & Hl).
  unfold mret, M_ret in Hc. injection Hc as <- <-.
  destruct (bool_decide (err = None) || _) eqn:Eb.
  - injection Hl as <- <-. cbn. exists i, w, err, w1. split; [done|]. apply orb_true_iff in Eb as [Hb%bool_decide_eq_true|Hb]; [by left|].
    destruct (c || p); [by right|]. destruct err; [done|by left].
  - apply M_bind_Ret_inv in Hl as (u & w3 & _ & Hl). unfold mret, M_ret in Hl. injection Hl as -> ->.
    cbn. rewrite (Hfresh i w e w1 Hj). by exists i, w, w1.
Qed.

(** The job that waits for a signal never makes [Run] fail and writes no log:
    it returns the signal, or the error of a context that is done. *)
Theorem TermSignalAwaiter_completes {W} `{!LogSink W} (error_Error : error → string) (ev : termEvent) (done : bool) ctx logger (w : W) :
  (∀ e, ev = TermCtxDone e → done = true ∧ e = ErrSentinel context_Canceled) →
  loggingAdapter error_Error (λ _, mret (if done then Some context_Canceled else None)) ctx (TermSignalAwaiter ev) logger w =
    (Ret (Some (ErrSentinel errCompleted)), w) ∧
  Run_result (Some (ErrSentinel errCompleted)) = None.
Proof.
  intros Hev. split; [|done]. unfold loggingAdapter, TermSignalAwaiter. unfold_M. destruct ev as [|e]; [done|].
  by destruct (Hev e eq_refl) as [-> ->].
Qed.

(** ** Witnesses *)

(** One job that fails with [e], run to its end on a pool of one worker. *)
Definition failing (e : error) (_ : nat) (_ : bool) (r : option error) : Prop := r = Some e.
Definition failed_run (e : error) : poolGroup := mkPoolGroup [Finished (Some e)] 0 0 0 (Some e) true.

Lemma failing_run max returns e :
  returns 0 false (Some e) → rtc (pstep max returns) (WithinGroup 1) (failed_run e).
Proof.
  intros Hret.
  eapply rtc_l; [by apply (ps_call _ _ _ 0)|]. destruct (decide (max = 0)) as [->|Hm].
  - eapply rtc_l; [by apply (ps_start_unlimited _ _ _ 0)|]. eapply rtc_l; [by apply (ps_return _ _ _ 0 (Some e))|].
    eapply rtc_l; [by apply (ps_send _ _ _ 0 e)|]. eapply rtc_l; [by apply (ps_cancel _ _ _ 0 e)|].
    eapply rtc_l; [by apply (ps_group_done _ _ _ 0 (Some e))|]. eapply rtc_l; [by apply (ps_completed_unlimited _ _ _ 0 (Some e))|].
    apply rtc_refl.
  - eapply rtc_l; [apply (ps_start _ _ _ 0); [done|by left|simpl; lia]|]. eapply rtc_l; [by apply (ps_return _ _ _ 0 (Some e))|].
    eapply rtc_l; [by apply (ps_send _ _ _ 0 e)|]. eapply rtc_l; [by apply (ps_cancel _ _ _ 0 e)|].
    eapply rtc_l; [by apply (ps_group_done _ _ _ 0 (Some e))|]. eapply rtc_l; [by apply (ps_completed _ _ _ 0 (Some e))|].
    eapply rtc_l; [by apply (ps_release _ _ _ 0 (Some e))|]. eapply rtc_l; [apply (ps_signal_none _ _ _ 0 (Some e)); [done|]|].
    { cbn. by intros Hin%list_elem_of_singleton. }
    apply rtc_refl.
Qed.

(** One of two jobs runs on a pool of one worker, the other one waits. *)
Definition one_running : poolGroup := mkPoolGroup [Running; Sleeping] 1 2 2 None false.
Lemma one_running_reached returns : rtc (pstep 1 returns) (WithinGroup 2) one_running.
Proof.
  eapply rtc_l; [by apply (ps_call _ _ _ 0)|]. eapply rtc_l; [apply (ps_start _ _ _ 0); [done|by left|simpl; lia]|].
  eapply rtc_l; [by apply (ps_call _ _ _ 1)|]. eapply rtc_l; [apply (ps_wait _ _ _ 1); [done|by left|simpl; lia]|]. apply rtc_refl.
Qed.

Lemma pool_bounded_witness :
  jobCompleted one_running = count_pc in_pool (jobs one_running) ∧
  (count_pc is_running (jobs one_running) ≤ currentWorkers one_running ≤ 1)%nat.
Proof.
  destruct (pool_bounded 1 (failing (ErrText "e")) 2 one_running (one_running_reached _)) as (Hc & _ & _ & Hm & _).
  split; [exact Hc|]. exact (proj1 (Hm (Nat.neq_succ_0 0))).
Defined.

Lemma pool_drains_witness :
  (12 * 3 = 36)%nat ∧ ∀ k s, nsteps (pstep 2 (failing (ErrText "e"))) k (WithinGroup 3) s → (k ≤ 36)%nat.
Proof.
  split; [reflexivity|].
  exact (proj1 (pool_drains 2 (failing (ErrText "e")) 3 (λ _ _, ex_intro _ (Some (ErrText "e")) eq_refl))).
Defined.

Lemma group_Wait_spec_witness :
  fst (group_Wait (mkWaitedGroup (failed_run (ErrText "e")) false None)) ≠ None.
Proof.
  assert (Fresh ∉ jobs (failed_run (ErrText "e"))) as Hf by (by intros ?%list_elem_of_singleton).
  exact (proj1 (proj1 (proj2 (proj2 (group_Wait_spec 1 (failing (ErrText "e")) 1 (failed_run (ErrText "e"))
    (failing_run 1 (failing (ErrText "e")) (ErrText "e") eq_refl) Hf eq_refl)))) eq_refl).
Defined.

Definition silentLog : LogSink unit := λ _ _ _, mret tt.

Lemma Run_spec_witness :
  ∃ (i : nat) (w w' : unit), (λ (_ : nat) (_ : context), mret (Some (ErrText "e")) : M unit (option error)) i context_Background w
    = (Ret (Some (ErrText "e")), w').
Proof.
  refine (proj2 (@Run_spec unit silentLog (λ _, "") context_Background (λ _ _, mret (Some (ErrText "e"))) StubLogger 1
    (failed_run (ErrText "e")) _ _ _ _)).
  - by intros i w e w' [= <- _].
  - apply failing_run. by exists false, tt, tt.
  - by repeat constructor.
  - done.
Defined.
