(* ===== verification/Lazy.v ===== *)
(** pkg/lazy: the loader that calls its provider once, and pkg/event: the
    dispatcher of events to their handlers. *)
From S2P Require Import Prelude Context Message.

(** ** The loader *)

(** [once] is the state of [sync.Once]: set when the function of [Do] ends,
    by a panic too. *)
Record loader (T : Type) := mkLoader {
  once : bool;
  isLoaded : bool;
  l_value : T;
  l_err : option error;
}.
Arguments mkLoader {T}.
Arguments once {T} _.
Arguments isLoaded {T} _.
Arguments l_value {T} _.
Arguments l_err {T} _.

Section loader.
Context {T W : Type} (empty : T).

Definition lazy_New : loader T := mkLoader false false empty None.

Definition Load (provider : M W (result T)) : M (loader T * W) (T * option error) :=
  λ '(l, w),
    if once l then (Ret (l_value l, l_err l), (l, w))
    else
      match provider w with
      | (Ret (Ok v), w') => (Ret (v, None), (mkLoader true true v None, w'))
      | (Ret (Err e), w') =>
          let err := Some (Errorf "load value" e) in (Ret (l_value l, err), (mkLoader true false (l_value l) err, w'))
      | (Panic msg, w') => (Panic msg, (mkLoader true (isLoaded l) (l_value l) (l_err l), w'))
      | (Blocked, w') => (Blocked, (l, w'))
      | (OutOfFuel, w') => (OutOfFuel, (l, w'))
      end.

Definition MustLoad (error_Error : error → string) (provider : M W (result T)) : M (loader T * W) T :=
  r ← Load provider;
  match snd r with
  | Some e => panic (error_Error e)
  | None => mret (fst r)
  end.

Definition IfLoaded (f : T → M W unit) : M (loader T * W) unit :=
  l ← get_obj;
  if isLoaded l then on_env (f (l_value l)) else mret tt.

(** Any number of loads, each caller surviving a panic; what each got. *)
Fixpoint loads (provider : M W (result T)) (n : nat) : M (loader T * W) (list (T * option error + string)) :=
  match n with
  | O => mret []
  | S n' =>
      r ← recover (x ← Load provider; mret (inl x)) (λ msg, mret (inr msg));
      rs ← loads provider n';
      mret (r :: rs)
  end.
End loader.

(** ** The event dispatcher *)

Record event := mkEvent { ev_type : string; ev_reflectType : string; ev_ID : uuid; ev_AggregateID : uuid }.

Section dispatcher.
Context {W : Type}.

Definition EventHandler : Type := context → event → M W (option error).

Definition errEventType : error := ErrText "blank event must return const value".
(** [RegisterHandler]: of a blank event of the type and a typed handler. *)
Definition RegisterHandler (blank : event) (handler : EventHandler) : result (string * EventHandler) :=
  if String.eqb (ev_type blank) "" then Err errEventType
  else Ok (ev_type blank, λ ctx evt,
         if String.eqb (ev_reflectType evt) (ev_reflectType blank) then handler ctx evt
         else mret (Some (ErrText "invalid event struct type"))).

Fixpoint add_handlers (regs : list (result (string * EventHandler))) (acc : gmap string EventHandler) :
    result (gmap string EventHandler) :=
  match regs with
  | [] => Ok acc
  | Err e :: _ => Err e
  | Ok (ty, h) :: regs' =>
      match acc !! ty with
      | Some _ => Err (ErrText ("event handler for " +:+ ty +:+ " already exists"))
      | None => add_handlers regs' (<[ty := h]> acc)
      end
  end.
Definition NewDispatcher (handler : result (string * EventHandler)) (handlers : list (result (string * EventHandler))) :
    result (gmap string EventHandler) :=
  add_handlers (handler :: handlers) ∅.

Fixpoint Dispatch (d : gmap string EventHandler) (ctx : context) (events : list event) : M W (option error) :=
  match events with
  | [] => mret None
  | evt :: events' =>
      match d !! ev_type evt with
      | None => mret (Some (ErrText ("handler not registered for " +:+ ev_type evt)))
      | Some handler =>
          err ← handler ctx evt;
          match err with
          | Some e => mret (Some (Errorf "handle event" e))
          | None => Dispatch d ctx events'
          end
      end
  end.
End dispatcher.

(** ** Lemmas *)

Lemma loads_once {T W} (provider : M W (result T)) n l w :
  once l = true → loads provider n (l, w) = (Ret (replicate n (inl (l_value l, l_err l))), (l, w)).
Proof.
  intros Hl. induction n as [|n IH]; [done|]. cbn [loads]. unfold_M. unfold recover at 1, Load at 1. rewrite Hl.
  by rewrite IH.
Qed.

(** ** Theorems *)

(** A lazy loader calls its provider once, at the first [Load], and every
    later [Load] gives what the first one gave - its value, or its error with
    the empty value.  But when the provider panics, the first caller sees the
    panic and all the others get the empty value and no error. *)
Theorem loader_loads_once {T W} (empty : T) (provider : M W (result T)) (n : nat) (w : W) :
  match provider w with
  | (Ret (Ok v), w') =>
      loads provider (S n) (lazy_New empty, w) = (Ret (replicate (S n) (inl (v, None))), (mkLoader true true v None, w'))
  | (Ret (Err e), w') =>
      loads provider (S n) (lazy_New empty, w) =
        (Ret (replicate (S n) (inl (empty, Some (Errorf "load value" e)))), (mkLoader true false empty (Some (Errorf "load value" e)), w'))
  | (Panic msg, w') =>
      loads provider (S n) (lazy_New empty, w) =
        (Ret (inr msg :: replicate n (inl (empty, None))), (mkLoader true false empty None, w'))
  | (Blocked, w') => fst (loads provider (S n) (lazy_New empty, w)) = Blocked
  | (OutOfFuel, w') => fst (loads provider (S n) (lazy_New empty, w)) = OutOfFuel
  end.
Proof.
  destruct (provider w) as [[[v|e]|msg| |] w'] eqn:E; cbn [loads]; unfold_M; unfold recover at 1, Load at 1;
    cbn [lazy_New once]; rewrite E; try done; by rewrite loads_once.
Qed.
