(* ===== verification/Listener.v ===== *)
(** pkg/message/listener.go, metadata.go and buslistener.go: the listener that
    handles the messages of a consumer and acknowledges them, the handlers'
    metadata and middlewares, and the bus listener that makes the listeners. *)
From S2P Require Import Prelude GoStrings Context Message Queue Bus Http Idk.

(** ** Handler metadata: the context holds a pointer *)

Record HandlerMetadata := mkHandlerMetadata {
  MessageID : uuid;
  MessageTopic : Topic;
  MessageMetadata : Metadata;
  MPanic : option string;
}.

(** The objects pointed to; a message that reaches the handlers has one. *)
Abbreviation metaHeap := (list HandlerMetadata) (only parsing).

Definition blankMetadata : HandlerMetadata := mkHandlerMetadata uuid_Nil "" ∅ None.
Definition set_panic (msg : string) (m : HandlerMetadata) : HandlerMetadata :=
  mkHandlerMetadata (MessageID m) (MessageTopic m) (MessageMetadata m) (Some msg).

(** What the pointer of [GetHandlerMetadata] points to; without one in the
    context the pointer is to a blank object nobody else sees. *)
Definition GetHandlerMetadata {W} (ctx : context) : M (list HandlerMetadata * W) HandlerMetadata :=
  heap ← get_obj;
  mret (default blankMetadata (ctx_msg_meta ctx ≫= λ p, heap !! p)).
Definition updateHandlerMetadata {W} (ctx : context) (f : HandlerMetadata → HandlerMetadata) : M (list HandlerMetadata * W) unit :=
  match ctx_msg_meta ctx with
  | Some p => modify_obj (alter f p)
  | None => mret tt
  end.
Definition withHandlerMetadata {W} (ctx : context) (msg : Message) (data : Metadata) : M (list HandlerMetadata * W) context :=
  heap ← get_obj;
  _ ← modify_obj (λ h, h ++ [mkHandlerMetadata (msg_ID msg) (msg_Topic msg) data None]);
  mret (with_msg_meta (length heap) ctx).

(** ** Handlers and listeners *)

Definition TypedHandler (W : Type) : Type := context → StructuredMessage → M (list HandlerMetadata * W) (option error).

Record ListenerImpl (W : Type) := mkListenerImpl {
  MaxProcessedMessages : Z;
  ListenerMiddlewares : list (TypedHandler W → TypedHandler W);
  OnHandlerNotFound : list (context → Message → M W unit);
  OnBeforeHandleMessage : list (context → Message → M W context);
  OnHandlerResult : list (context → Message → option error → M W unit);
  OnAcknowledgeResult : list (context → Message → option error → option error → M W unit);
  OnDeserializedUnknownMsg : list (context → Message → error → M W unit);
  OnDeserializedError : list (context → Message → error → M W unit);
  handlers : gmap string (list (TypedHandler W));
}.
Arguments mkListenerImpl {W}.
Arguments MaxProcessedMessages {W} _.
Arguments ListenerMiddlewares {W} _.
Arguments OnHandlerNotFound {W} _.
Arguments OnBeforeHandleMessage {W} _.
Arguments OnHandlerResult {W} _.
Arguments OnAcknowledgeResult {W} _.
Arguments OnDeserializedUnknownMsg {W} _.
Arguments OnDeserializedError {W} _.
Arguments handlers {W} _.

Abbreviation ListenerOption W := (ListenerImpl W → ListenerImpl W) (only parsing).

Definition defaultWorkersCount : Z := 1%Z.

Definition set_handlers {W} (hs : gmap string (list (TypedHandler W))) (l : ListenerImpl W) : ListenerImpl W :=
  mkListenerImpl (MaxProcessedMessages l) (ListenerMiddlewares l) (OnHandlerNotFound l) (OnBeforeHandleMessage l) (OnHandlerResult l)
    (OnAcknowledgeResult l) (OnDeserializedUnknownMsg l) (OnDeserializedError l) hs.
Definition add_middleware {W} (mw : TypedHandler W → TypedHandler W) (l : ListenerImpl W) : ListenerImpl W :=
  mkListenerImpl (MaxProcessedMessages l) (ListenerMiddlewares l ++ [mw]) (OnHandlerNotFound l) (OnBeforeHandleMessage l)
    (OnHandlerResult l) (OnAcknowledgeResult l) (OnDeserializedUnknownMsg l) (OnDeserializedError l) (handlers l).
Definition set_max {W} (n : Z) (l : ListenerImpl W) : ListenerImpl W :=
  mkListenerImpl n (ListenerMiddlewares l) (OnHandlerNotFound l) (OnBeforeHandleMessage l) (OnHandlerResult l)
    (OnAcknowledgeResult l) (OnDeserializedUnknownMsg l) (OnDeserializedError l) (handlers l).

Section wrapping.
Context {W : Type}.

(** The deferred function recovers a panic, notes it in the metadata and
    returns it as an error. *)
Definition wrapWithPanicHandler (handler : TypedHandler W) : TypedHandler W := λ ctx msg,
  recover (handler ctx msg) (λ panicMsg,
    _ ← updateHandlerMetadata ctx (set_panic panicMsg);
    mret (Some (ErrText ("message handled with panic: " +:+ panicMsg)))).

(** A handler inside the panic handler inside the middlewares, the first one
    outermost. *)
Definition wrapHandler (mws : list (TypedHandler W → TypedHandler W)) (handler : TypedHandler W) : TypedHandler W :=
  foldr (λ mw h, mw h) (wrapWithPanicHandler handler) mws.

(** [NewListener]: the listener; its [handlers] are the caller's slices, which
    are written in place. *)
Definition NewListener (messageHandlers : gmap string (list (TypedHandler W))) (opts : list (ListenerOption W)) : ListenerImpl W :=
  let impl := foldl (λ l opt, opt l) (mkListenerImpl defaultWorkersCount [] [] [] [] [] [] [] messageHandlers) opts in
  set_handlers ((λ hs : list (TypedHandler W), wrapHandler (ListenerMiddlewares impl) <$> hs) <$> handlers impl) impl.
End wrapping.

(** The order in which the workers of the pool run the jobs of a group. *)
Class JobOrder := {
  job_order : ∀ {A : Type}, list A → list A;
  job_order_perm : ∀ {A : Type} (l : list A), job_order l ≡ₚ l;
}.

(** [ctx.Err()]; the context is done when there is one. *)
Class CtxErr (W : Type) := ctx_Err : context → M W (option string).

Fixpoint run_hooks {W X} (body : X → M W unit) (hooks : list X) : M W unit :=
  match hooks with
  | [] => mret tt
  | fn :: hooks' => _ ← body fn; run_hooks body hooks'
  end.

Section processing.
Context {W : Type} `{!MessageJSON, !JobOrder, !CtxErr W, !ListenerProcessingQueue W}.
Context `{!Backoff (list HandlerMetadata * W), !Backoff W}.
Context (l : ListenerImpl W) (deserializer : gmap string PayloadDeserializer).

(** Jobs of a group, one after the other: all of them run, the first error
    stays. *)
Fixpoint run_jobs (js : list (M (list HandlerMetadata * W) (option error))) (first : option error) :
    M (list HandlerMetadata * W) (option error) :=
  match js with
  | [] => mret first
  | j :: js' =>
      err ← j;
      run_jobs js' (match first with Some e => Some e | None => err end)
  end.

Definition acknowledge_once (ctx msgCtx : context) (msg : ConsumerMessage) (handlerErr : option error) : M W (option error) :=
  cerr ← ctx_Err ctx;
  if bool_decide (handlerErr ≠ None) && errors_Is handlerErr cerr then mret (ErrSentinel <$> cerr)
  else
    err ← AcknowledgeResult ctx msg handlerErr;
    _ ← run_hooks (λ fn, fn msgCtx (cm_Message msg) handlerErr err) (OnAcknowledgeResult l);
    mret (if errors_Is err (Some ErrNegativeAckNotSupported) then backoff_Permanent <$> err else err).

Definition acknowledgeMessage (ctx msgCtx : context) (msg : ConsumerMessage) (handlerErr : option error) : M W (option error) :=
  Retry ctx (acknowledge_once ctx msgCtx msg handlerErr).

Fixpoint skipAndAckMessage (fuel : nat) (ctx : context) (msg : ConsumerMessage) : M W unit :=
  match fuel with
  | O => out_of_fuel
  | S fuel' =>
      done ← ctx_Err ctx;
      match done with
      | Some _ => mret tt
      | None =>
          err ← acknowledgeMessage ctx ctx msg None;
          match err with
          | None => mret tt
          | Some _ => skipAndAckMessage fuel' ctx msg
          end
      end
  end.

(** The last loop: every handler of the message, then the acknowledgement. *)
Fixpoint handleLoop (fuel : nat) (ctx msgCtx : context) (msg : ConsumerMessage) (msgImpl : StructuredMessage)
    (hs : list (TypedHandler W)) : M (list HandlerMetadata * W) unit :=
  match fuel with
  | O => out_of_fuel
  | S fuel' =>
      done ← on_env (ctx_Err ctx);
      match done with
      | Some _ => mret tt
      | None =>
          handlerErr ← run_jobs (job_order ((λ handler : TypedHandler W, Retry ctx (handler msgCtx msgImpl)) <$> hs)) None;
          _ ← on_env (run_hooks (λ fn, fn msgCtx (cm_Message msg) handlerErr) (OnHandlerResult l));
          err ← on_env (acknowledgeMessage ctx msgCtx msg handlerErr);
          match err with
          | None => mret tt
          | Some _ => handleLoop fuel' ctx msgCtx msg msgImpl hs
          end
      end
  end.

Fixpoint before_handle (fns : list (context → Message → M W context)) (msgCtx : context) (msg : Message) : M W context :=
  match fns with
  | [] => mret msgCtx
  | fn :: fns' => msgCtx ← fn msgCtx msg; before_handle fns' msgCtx msg
  end.

Definition processMessage (fuel : nat) (ctx : context) (msg : ConsumerMessage) : M (list HandlerMetadata * W) unit :=
  match Deserialize deserializer (msg_Payload (cm_Message msg)) with
  | Err e =>
      let hooks := if errors_Is (Some e) (Some ErrDeserializeUnknownMessage) then OnDeserializedUnknownMsg l else OnDeserializedError l in
      _ ← on_env (run_hooks (λ fn, fn ctx (cm_Message msg) e) hooks);
      on_env (skipAndAckMessage fuel ctx msg)
  | Ok (msgImpl, meta) =>
      match handlers l !! sm_Type msgImpl with
      | None =>
          _ ← on_env (run_hooks (λ fn, fn ctx (cm_Message msg)) (OnHandlerNotFound l));
          on_env (skipAndAckMessage fuel ctx msg)
      | Some hs =>
          msgCtx ← withHandlerMetadata (cm_Context msg) (cm_Message msg) meta;
          msgCtx ← on_env (before_handle (OnBeforeHandleMessage l) msgCtx (cm_Message msg));
          handleLoop fuel ctx msgCtx msg msgImpl hs
      end
  end.
End processing.

(** ** Middlewares *)

Section middlewares.
Context {W : Type}.

Definition WithHandlerErrorMapping (fn : option error → option error) : ListenerOption W :=
  add_middleware (λ handler ctx msg, err ← handler ctx msg; mret (fn err)).
Definition WithHandlerIdempotencyKeyErrorIgnoring : ListenerOption W :=
  WithHandlerErrorMapping (λ err, if errors_Is err (Some ErrAlreadyInserted) then None else err).

(** The value stored under a field's metadata key, when there is one. *)
Fixpoint observe_fields (o : observer) (fields : list string) (metadata : Metadata) (ctx : context) : context :=
  match fields with
  | [] => ctx
  | field :: fields' =>
      let ctx := match metadata !! (observabilityMetaKeyPrefix +:+ field) with
                 | Some value => if String.eqb value "" then ctx else observer_WithField o ctx field value
                 | None => ctx
                 end in
      observe_fields o fields' metadata ctx
  end.
Definition observability_mw (o : observer) (fields : list string) (handler : TypedHandler W) : TypedHandler W := λ ctx msg,
  meta ← GetHandlerMetadata ctx;
  handler (observe_fields o fields (MessageMetadata meta) ctx) msg.
Definition WithHandlerObservability (o : observer) (fields : list string) : ListenerOption W :=
  match fields with
  | [] => λ l, l
  | _ => add_middleware (observability_mw o fields)
  end.

Definition WithHandlerMultipleWorkers (numCPU : Z) (workersCount : Z) : ListenerOption W :=
  let workersCount := if (workersCount <=? -1)%Z then numCPU else workersCount in
  let workersCount := if (workersCount =? 0)%Z then 1%Z else workersCount in
  set_max workersCount.
(** The pool itself is the [JobOrder] of the processing. *)
Definition WithHandlerWorkerPool (maxProcessedMessagesLimit : Z) : ListenerOption W := set_max maxProcessedMessagesLimit.

(** Logging; [new_uuid] is [uuid.New]. *)
Context `{!LogSink W} (error_Error : error → string) (uuid_String : uuid → string) (new_uuid : M W uuid).

Definition message_fields (meta : HandlerMetadata) (msg : StructuredMessage) : list (string * string) :=
  [("handledMessage.id", uuid_String (MessageID meta)); ("handledMessage.type", sm_Type msg);
   ("handledMessage.topic", MessageTopic meta)].

(** The metadata is a pointer: its panic is read after the handler ran. *)
Definition logging_mw (logger : Logger) (infoLevel errorLevel : Level) (handler : TypedHandler W) : TypedHandler W := λ ctx msg,
  id ← on_env new_uuid;
  let ctx := logger_WithContext logger ctx [("handlerCorrelation", uuid_String id)] in
  err ← handler ctx msg;
  meta ← GetHandlerMetadata ctx;
  let logger := logger_With logger (message_fields meta msg) in
  match MPanic meta, err with
  | Some p, _ =>
      _ ← on_env (logger_Log (logger_With logger [("panic.message", p)]) (Some ctx) LevelError "message handled with panic");
      mret err
  | None, Some e =>
      _ ← on_env (logger_Log (logger_WithError error_Error logger err) (Some ctx) errorLevel "message handled with error");
      mret err
  | None, None =>
      _ ← on_env (logger_Log logger (Some ctx) infoLevel "message handled");
      mret None
  end.

Definition log_message (logger : Logger) (ctx : context) (msg : Message) (err : option error) (level : Level) (text : string) : M W unit :=
  logger_Log (logger_WithError error_Error (logger_With logger [("messageID", uuid_String (msg_ID msg)); ("topic", msg_Topic msg)]) err)
    (Some ctx) level text.
Definition log_ack (logger : Logger) (errorLevel : Level) (ctx : context) (msg : Message) (handlerResult err : option error) : M W unit :=
  match err with
  | None => mret tt
  | Some _ =>
      logger_Log (logger_WithError error_Error
        (logger_With logger [("messageID", uuid_String (msg_ID msg)); ("topic", msg_Topic msg);
                             ("handleResult", default "nil" (error_Error <$> handlerResult))]) err)
        (Some ctx) errorLevel "failed to acknowledge handled message"
  end.

Definition WithHandlerLogging (logger : Logger) (infoLevel errorLevel : Level) : ListenerOption W := λ l,
  mkListenerImpl (MaxProcessedMessages l) (ListenerMiddlewares l ++ [logging_mw logger infoLevel errorLevel])
    (OnHandlerNotFound l ++ [λ ctx msg, log_message logger ctx msg None errorLevel "message handler not found"])
    (OnBeforeHandleMessage l ++
       [λ ctx _, id ← new_uuid; mret (logger_WithContext logger ctx [("consumerCorrelation", uuid_String id)])])
    (OnHandlerResult l)
    (OnAcknowledgeResult l ++ [log_ack logger errorLevel])
    (OnDeserializedUnknownMsg l ++ [λ ctx msg e, log_message logger ctx msg (Some e) errorLevel "failed to deserialize message"])
    (OnDeserializedError l ++ [λ ctx msg e, log_message logger ctx msg (Some e) errorLevel "failed to deserialize message"])
    (handlers l).

Context `{!Metrics W, !MetricsDuration W, !HasClock W}.

Definition metrics_mw (handler : TypedHandler W) : TypedHandler W := λ ctx msg,
  started ← on_env time_Now;
  err ← handler ctx msg;
  meta ← GetHandlerMetadata ctx;
  _ ← match MPanic meta with
      | Some _ => on_env (Increment [("topic", MessageTopic meta); ("type", sm_Type msg)] "msg_handle_panics_total")
      | None => mret tt
      end;
  now ← on_env time_Now;
  _ ← on_env (Duration [("topic", MessageTopic meta); ("type", sm_Type msg); bool_label "success" (bool_decide (err = None))]
                "msg_handle_duration_seconds" (now - started)%Z);
  mret err.
Definition WithHandlerMetrics : ListenerOption W := add_middleware metrics_mw.
End middlewares.

(** ** The consumer's worker: what the two [select]s give, the messages handed
    to goroutines, and what waits for them *)

Inductive tokenEvent := TokenReady | TokenCtxDone.
Inductive messageEvent := MessageReceived (msg : ConsumerMessage) | MessagesClosed | MessageCtxDone.

Class ListenerEnv (W : Type) := {
  select_token : context → M W tokenEvent;
  select_message : context → M W messageEvent;
  consumer_Close : M W (option error);
  (** [go l.processMessage(...)], counted in the wait group, and [wg.Wait]. *)
  go_process : ConsumerMessage → M W unit;
  wait_processing : M W unit;
}.

Section consumer_worker.
Context {W : Type} `{!ListenerEnv W, !ListenerProcessingQueue W}.

Fixpoint consume_loop (fuel : nat) (ctx : context) : M W (option error) :=
  match fuel with
  | O => out_of_fuel
  | S fuel' =>
      t ← select_token ctx;
      match t with
      | TokenCtxDone => consumer_Close
      | TokenReady =>
          m ← select_message ctx;
          match m with
          | MessageCtxDone => consumer_Close
          | MessagesClosed => mret (Some (ErrText "consumer closed messages channel"))
          | MessageReceived msg =>
              err ← AddProcessing msg;
              match err with
              | Some e => mret (Some (Errorf "add to processing internal error" e))
              | None => _ ← go_process msg; consume_loop fuel' ctx
              end
          end
      end
  end.

Definition consumerWorker (fuel : nat) (ctx : context) : M W (option error) :=
  err ← deferring (consume_loop fuel ctx) wait_processing;
  mret (Errorf "message listener" <$> err).
End consumer_worker.

(** ** The bus listener *)

Record listenerData (C W : Type) := mkListenerData {
  ld_Consumer : C;
  ld_Deserializer : gmap string PayloadDeserializer;
  ld_Handlers : gmap string (list (TypedHandler W));
  ld_ExtraOpts : list (ListenerImpl W → ListenerImpl W);
}.
Arguments mkListenerData {C W}.
Arguments ld_Consumer {C W} _.
Arguments ld_Deserializer {C W} _.
Arguments ld_Handlers {C W} _.
Arguments ld_ExtraOpts {C W} _.

Record busListener (C W : Type) := mkBusListener {
  bl_listeners : gmap (Subscriber * Topic) (listenerData C W);
  bl_opts : list (ListenerImpl W → ListenerImpl W);
}.
Arguments mkBusListener {C W}.
Arguments bl_listeners {C W} _.
Arguments bl_opts {C W} _.

(** A blank message, its deserializer and its handlers. *)
Abbreviation RegisterHandlersFunc W := (StructuredMessage * PayloadDeserializer * list (TypedHandler W))%type (only parsing).

Section bus_listener.
Context {C W : Type}.
(** The consumer provider, and the deserializer a new one starts with. *)
Context (get_consumer : Topic → Subscriber → M W (result C)).

Definition NewBusListener (opts : list (ListenerOption W)) : busListener C W := mkBusListener ∅ opts.

Fixpoint register_types (funcs : list (RegisterHandlersFunc W)) (types : gset string)
    (d : gmap string PayloadDeserializer) (hs : gmap string (list (TypedHandler W))) :
    result (gmap string PayloadDeserializer * gmap string (list (TypedHandler W))) :=
  match funcs with
  | [] => Ok (d, hs)
  | (schema, deserializer, msgHandlers) :: funcs' =>
      let msgType := sm_Type schema in
      if String.eqb msgType "" then Err (ErrText "blank message must return message type const value")
      else if decide (msgType ∈ types) then Err (ErrText ("message type " +:+ msgType +:+ " already registered"))
      else
        match RegisterDeserializer d msgType deserializer with
        | Err e => Err (Errorf "register deserializer" e)
        | Ok d => register_types funcs' ({[msgType]} ∪ types) d (<[msgType := msgHandlers]> hs)
        end
  end.

Definition registerTopicHandlers (subscriber : Subscriber) (topic : Topic) (funcs : list (RegisterHandlersFunc W))
    (opts : list (ListenerOption W)) (b : busListener C W) : M W (busListener C W * option error) :=
  match bl_listeners b !! (subscriber, topic) with
  | Some _ => mret (b, Some (ErrText "handlers already registered"))
  | None =>
      match register_types funcs ∅ ∅ ∅ with
      | Err e => mret (b, Some e)
      | Ok (d, hs) =>
          c ← get_consumer topic subscriber;
          mret (match c with
                | Err e => (b, Some (Errorf "get consumer" e))
                | Ok c => (mkBusListener (<[(subscriber, topic) := mkListenerData c d hs opts]> (bl_listeners b)) (bl_opts b), None)
                end)
      end
  end.

(** [RegisterHandlers]; the topics in the order the map is iterated. *)
Fixpoint RegisterHandlers (subscriber : Subscriber) (hs : list (Topic * list (RegisterHandlersFunc W)))
    (opts : list (ListenerOption W)) (b : busListener C W) : M W (busListener C W * option error) :=
  match hs with
  | [] => mret (b, None)
  | (topic, funcs) :: hs' =>
      r ← registerTopicHandlers subscriber topic funcs opts b;
      match r with
      | (b, Some e) => mret (b, Some (Errorf ("register handler for topic " +:+ topic +:+ " by " +:+ subscriber) e))
      | (b, None) => RegisterHandlers subscriber hs' opts b
      end
  end.

Definition make_listener (b : busListener C W) (d : listenerData C W) : C * gmap string PayloadDeserializer * ListenerImpl W :=
  (ld_Consumer d, ld_Deserializer d, NewListener (ld_Handlers d) (bl_opts b ++ ld_ExtraOpts d)).

(** [Workers]: a listener per registration.  The slices of handlers are the
    ones kept by the bus listener, so it keeps the wrapped handlers. *)
Definition Workers (b : busListener C W) :
    gmap (Subscriber * Topic) (C * gmap string PayloadDeserializer * ListenerImpl W) * busListener C W :=
  (make_listener b <$> bl_listeners b,
   mkBusListener ((λ d, mkListenerData (ld_Consumer d) (ld_Deserializer d) (handlers (snd (make_listener b d))) (ld_ExtraOpts d))
                    <$> bl_listeners b) (bl_opts b)).
End bus_listener.

(** The typed handlers of [RegisterEventHandlers] and [RegisterTaskHandlers]:
    a message of another dynamic type is refused. *)
Definition typed_handler {W} (blank : StructuredMessage) (handler : TypedHandler W) : TypedHandler W := λ ctx msg,
  if String.eqb (sm_reflectType msg) (sm_reflectType blank) then handler ctx msg
  else mret (Some (ErrText "invalid message struct type")).
Definition RegisterEventHandlers {W} (blank : StructuredMessage) (d : PayloadDeserializer) (hs : list (TypedHandler W)) :
    RegisterHandlersFunc W := (blank, d, typed_handler blank <$> hs).
Definition RegisterTaskHandlers {W} (blank : StructuredMessage) (d : PayloadDeserializer) (hs : list (TypedHandler W)) :
    RegisterHandlersFunc W := (blank, d, typed_handler blank <$> hs).

(** ** A recorded environment

    [E] is the environment of the listener; beside it a trace of the runs of
    the handlers, each with its index and what it returned, of what the hooks
    [OnHandlerResult] and [OnAcknowledgeResult] are told and of the moments the
    context is seen to be done. *)

Inductive listenerRecord :=
| HandlerRan (i : nat) (r : option error)
| HandlerResult (h : option error)
| AckResult (h a : option error)
| SeenDone.

Definition lift_env {E A} (m : M E A) : M (E * list listenerRecord) A :=
  λ '(e, t), let '(r, e') := m e in (r, (e', t)).
Definition push_record {E} (ev : listenerRecord) : M (E * list listenerRecord) unit := λ '(e, t), (Ret tt, (e, t ++ [ev])).

#[export] Instance recorded_CtxErr {E} `{!CtxErr E} : CtxErr (E * list listenerRecord) := λ ctx,
  done ← lift_env (ctx_Err ctx);
  match done with
  | Some c => _ ← push_record SeenDone; mret (Some c)
  | None => mret None
  end.
#[export] Instance recorded_queue {E} `{!ListenerProcessingQueue E} : ListenerProcessingQueue (E * list listenerRecord) := {|
  ProcessingTokens w := ProcessingTokens (fst w);
  AddProcessing msg := lift_env (AddProcessing msg);
  AcknowledgeResult ctx msg res := lift_env (AcknowledgeResult ctx msg res);
|}.

Definition lift_handler {E} (ih : nat * TypedHandler E) : TypedHandler (E * list listenerRecord) := λ ctx msg '(hp, (e, t)),
  match ih.2 ctx msg (hp, e) with
  | (Ret r, (hp', e')) => (Ret r, (hp', (e', t ++ [HandlerRan ih.1 r])))
  | (o, (hp', e')) => (o, (hp', (e', t)))
  end.

(** The handlers of a type with their indices. *)
Definition indexed {A} (l : list A) : list (nat * A) := zip (seq 0 (length l)) l.

Definition recording {E} (n : Z) (hs : gmap string (list (TypedHandler E))) : ListenerImpl (E * list listenerRecord) :=
  mkListenerImpl n [] [] [] [λ _ _ h, push_record (HandlerResult h)] [λ _ _ h a, push_record (AckResult h a)] [] []
    ((λ l : list (TypedHandler E), lift_handler <$> indexed l) <$> hs).

(** A handler that is retried: it fails with [j_fails], one after the other,
    and then returns [j_result]. *)
Record jobRun := mkJobRun { j_handler : nat; j_fails : list error; j_result : option error }.
Definition job_records (j : jobRun) : list listenerRecord :=
  ((λ e, HandlerRan (j_handler j) (Some e)) <$> j_fails j) ++ [HandlerRan (j_handler j) (j_result j)].

(** One round of [n] handlers: each of them is run, once or with retries, in
    some order; the result is [nil] exactly when each of them succeeded in the
    end. *)
Definition round (n : nat) (h : option error) (t : list listenerRecord) : Prop :=
  ∃ js, j_handler <$> js ≡ₚ seq 0 n ∧ t = js ≫= job_records ∧ (h = None ↔ Forall (λ j, j_result j = None) js).

(** Rounds of handlers, and every acknowledgement for the result of the last. *)
Inductive rounds (n : nat) : option (option error) → list listenerRecord → Prop :=
| rounds_nil last : rounds n last []
| rounds_round last h rt t : round n h rt → rounds n (Some h) t → rounds n last (rt ++ HandlerResult h :: t)
| rounds_ack h a t : rounds n (Some h) t → rounds n (Some h) (AckResult h a :: t)
| rounds_done last t : rounds n last t → rounds n last (SeenDone :: t).
(** A message that is not handled: nothing but acknowledgements of success. *)
Definition only_acked (t : list listenerRecord) : Prop := Forall (λ ev, ev = SeenDone ∨ ∃ a, ev = AckResult None a) t.
(** The message was acknowledged, or the context was done. *)
Definition concluded (t : list listenerRecord) : Prop :=
  ∃ t0, t = t0 ++ [SeenDone] ∨ ∃ h, t = t0 ++ [AckResult h None].

(** ** Lemmas *)

Section recorded.
Context {E : Type} {HJ : MessageJSON} {HO : JobOrder} {HC : CtxErr E} {HQ : ListenerProcessingQueue E}.
Abbreviation RE := (E * list listenerRecord)%type.
Abbreviation HRE := (list HandlerMetadata * (E * list listenerRecord))%type.
Context {HB1 : Backoff (list HandlerMetadata * (E * list listenerRecord))} {HB2 : Backoff (E * list listenerRecord)}.
Context {HL1 : BackoffLaws (list HandlerMetadata * (E * list listenerRecord))} {HL2 : BackoffLaws (E * list listenerRecord)}.

(** Of a message acknowledged with [h]. *)
Definition ack_ok (h : option error) (ev : listenerRecord) : Prop :=
  match ev with
  | SeenDone => True
  | AckResult h' a => h' = h ∧ (a = None → ∃ ctx msg e e', AcknowledgeResult (W := E) ctx msg h e = (Ret None, e'))
  | HandlerResult _ | HandlerRan _ _ => False
  end.

Lemma ctx_Err_records ctx e t r e' t' :
  ctx_Err (W := RE) ctx (e, t) = (Ret r, (e', t')) → t' = match r with Some _ => t ++ [SeenDone] | None => t end.
Proof.
  unfold ctx_Err at 1, recorded_CtxErr, lift_env, push_record. unfold_M.
  destruct (ctx_Err ctx e) as [[[c|]|s| |] e1]; intros H; by simplify_eq.
Qed.

Lemma acknowledge_once_records n hs ctx msgCtx msg h e t r e' t' :
  acknowledge_once (recording n hs) ctx msgCtx msg h (e, t) = (Ret r, (e', t')) →
  ∃ ext, t' = t ++ ext ∧ Forall (ack_ok h) ext ∧ (r = None → ∃ ext0, ext = ext0 ++ [AckResult h None]).
Proof.
  unfold acknowledge_once. intros (cerr & [e1 t1] & Hc & H)%M_bind_Ret_inv. apply ctx_Err_records in Hc as ->.
  destruct (bool_decide (h ≠ None) && errors_Is h cerr) eqn:Eb.
  { unfold mret, M_ret in H. simplify_eq. destruct cerr as [c|].
    - exists [SeenDone]. split_and!; [done|by repeat constructor|done].
    - exists []. rewrite app_nil_r. split_and!; [done|constructor|].
      apply andb_true_iff in Eb as [Hb%bool_decide_eq_true Hi]. by destruct h. }
  apply M_bind_Ret_inv in H as (err & [e2 t2] & Ha & H). cbn in Ha.
  destruct (AcknowledgeResult ctx msg h e1) as [a e3] eqn:Eq. injection Ha as -> -> <-.
  cbn in H. unfold_M. cbn in H. injection H as <- <- Ht'. subst t'.
  exists (match cerr with Some _ => [SeenDone] | None => [] end ++ [AckResult h err]). split_and!.
  - destruct cerr; cbn; by rewrite ?app_nil_r, <- ?app_assoc.
  - apply Forall_app. split; [by destruct cerr; repeat constructor|]. constructor; [|constructor]. split; [done|].
    intros ->. eauto 10.
  - intros Hr. destruct err as [er|]; [by case_match|]. by eexists.
Qed.

Lemma acknowledge_records n hs ctx msgCtx msg h e t r e' t' :
  acknowledgeMessage (recording n hs) ctx msgCtx msg h (e, t) = (Ret r, (e', t')) →
  ∃ ext, t' = t ++ ext ∧ Forall (ack_ok h) ext ∧ (r = None → ∃ ext0, ext = ext0 ++ [AckResult h None]).
Proof.
  unfold acknowledgeMessage. intros H.
  assert (∃ r', attempts (acknowledge_once (recording n hs) ctx msgCtx msg h) (e, t) (Ret r') (e', t') ∧ (r = None → r' = None))
    as (r' & Hat & Hr).
  { destruct r as [er|]; [apply retry_error in H as [e2 H]; by exists (Some e2)|apply retry_nil in H; by exists None]. }
  clear H. remember (e, t) as w0 eqn:Hw0. remember (Ret r') as o eqn:Ho. remember (e', t') as w1 eqn:Hw1.
  revert e t Hw0. induction Hat as [w o' w' Hop|w er w1' o' w' Hop _ Hat IH]; intros e t ->; subst.
  - apply acknowledge_once_records in Hop as (ext & -> & Hall & Hn). exists ext. split_and!; auto.
  - destruct w1' as [e1 t1]. apply acknowledge_once_records in Hop as (ext1 & -> & Hall1 & _).
    destruct (IH eq_refl eq_refl e1 _ eq_refl) as (ext2 & -> & Hall2 & Hn). exists (ext1 ++ ext2). rewrite app_assoc.
    split_and!; [done|by apply Forall_app|]. intros Hr0. destruct (Hn Hr0) as [ext0 ->]. exists (ext1 ++ ext0). by rewrite app_assoc.
Qed.

Lemma rounds_acks n h ext rest : Forall (ack_ok h) ext → rounds n (Some h) rest → rounds n (Some h) (ext ++ rest).
Proof.
  intros Hall Hrest. induction Hall as [|ev ext Hev _ IH]; [done|]. destruct ev; cbn; [done|done| |by apply rounds_done].
  destruct Hev as [-> _]. by apply rounds_ack.
Qed.

Definition no_nack : Prop := ∀ ctx msg h e e', AcknowledgeResult (W := E) ctx msg (Some h) e ≠ (Ret None, e').

Lemma no_nack_ext h h' ext : no_nack → Forall (ack_ok h) ext → AckResult (Some h') None ∉ ext.
Proof.
  intros Hno Hall Hin. rewrite Forall_forall in Hall. destruct (Hall _ Hin) as [<- Hex].
  destruct (Hex eq_refl) as (ctx & msg & e & e' & Heq). by eapply Hno.
Qed.

Lemma skip_records fuel n hs ctx msg e t r e' t' :
  skipAndAckMessage (recording n hs) fuel ctx msg (e, t) = (Ret r, (e', t')) →
  ∃ ext, t' = t ++ ext ∧ Forall (ack_ok None) ext ∧ concluded ext.
Proof.
  revert e t. induction fuel as [|fuel IH]; intros e t H; [done|]. cbn [skipAndAckMessage] in H.
  apply M_bind_Ret_inv in H as (d & [e1 t1] & Hd & H). apply ctx_Err_records in Hd as ->. destruct d as [c|].
  { unfold mret, M_ret in H. simplify_eq. exists [SeenDone]. split_and!; [done|by repeat constructor|exists []; by left]. }
  apply M_bind_Ret_inv in H as (err & [e2 t2] & Ha & H). apply acknowledge_records in Ha as (ext1 & -> & Hall1 & Hn).
  destruct err as [er|].
  - apply IH in H as (ext2 & -> & Hall2 & t0 & Hc). exists (ext1 ++ ext2). rewrite app_assoc. split_and!; [done|by apply Forall_app|].
    exists (ext1 ++ t0). destruct Hc as [->|[h ->]]; [left|right; exists h]; by rewrite app_assoc.
  - unfold mret, M_ret in H. simplify_eq. exists ext1. split_and!; [done..|]. destruct (Hn eq_refl) as [ext0 ->].
    exists ext0. right. by eexists.
Qed.

(** A handler leaves the records of its runs. *)
Lemma lift_handler_records ih ctx msg hp e t r hp' e' t' :
  lift_handler (E := E) ih ctx msg (hp, (e, t)) = (Ret r, (hp', (e', t'))) → t' = t ++ [HandlerRan ih.1 r].
Proof. unfold lift_handler. destruct (ih.2 ctx msg (hp, e)) as [[] [? ?]]; congruence. Qed.

Lemma attempts_records ih ctx msg hp e t r hp' e' t' :
  attempts (lift_handler (E := E) ih ctx msg) (hp, (e, t)) (Ret r) (hp', (e', t')) →
  ∃ fs, t' = t ++ job_records (mkJobRun ih.1 fs r).
Proof.
  intros Hat. remember (hp, (e, t)) as w0 eqn:Hw0. remember (Ret r) as o eqn:Ho. remember (hp', (e', t')) as w1 eqn:Hw1.
  revert hp e t Hw0. induction Hat as [w o' w' Hop|w er w1' o' w' Hop _ Hat IH]; intros hp e t ->; subst.
  - apply lift_handler_records in Hop as ->. by exists [].
  - destruct w1' as [hp1 [e1 t1]]. apply lift_handler_records in Hop as ->. destruct (IH eq_refl eq_refl hp1 e1 _ eq_refl) as [fs ->].
    exists (er :: fs). unfold job_records. cbn. by rewrite <- app_assoc.
Qed.

Lemma retry_records ih ctx msgCtx msg hp e t r hp' e' t' :
  Retry ctx (lift_handler (E := E) ih msgCtx msg) (hp, (e, t)) = (Ret r, (hp', (e', t'))) →
  ∃ fs r', t' = t ++ job_records (mkJobRun ih.1 fs r') ∧ (r = None ↔ r' = None).
Proof.
  intros H. destruct r as [er|]; [apply retry_error in H as [e2 H]|apply retry_nil in H]; apply attempts_records in H as [fs ->]; eauto.
  by exists fs, (Some e2).
Qed.

Lemma run_jobs_records ctx msgCtx msg (ihs : list (nat * TypedHandler E)) first hp e t r hp' e' t' :
  run_jobs ((λ ih, Retry ctx (lift_handler ih msgCtx msg)) <$> ihs) first (hp, (e, t)) = (Ret r, (hp', (e', t'))) →
  ∃ js, j_handler <$> js = ihs.*1 ∧ t' = t ++ (js ≫= job_records) ∧ (r = None ↔ first = None ∧ Forall (λ j, j_result j = None) js).
Proof.
  revert first hp e t. induction ihs as [|ih ihs IH]; intros first hp e t H.
  - injection H as <- <- <- <-. exists []. rewrite app_nil_r. split_and!; [done..|]. split; [by intros ->|by intros [-> _]].
  - rewrite fmap_cons in H. cbn [run_jobs] in H. apply M_bind_Ret_inv in H as (err & [hp1 [e1 t1]] & Hr & H).
    apply retry_records in Hr as (fs & r' & -> & Hr'). apply IH in H as (js & Hjs & -> & Hn).
    exists (mkJobRun ih.1 fs r' :: js). cbn [fmap list_fmap]. rewrite Hjs. split; [done|]. split; [by rewrite <- app_assoc|].
    rewrite Hn, Forall_cons. cbn. destruct first; naive_solver.
Qed.

Lemma job_order_fmap {A B} (f : A → B) (l : list A) : ∃ l', job_order (f <$> l) = f <$> l' ∧ l' ≡ₚ l.
Proof.
  destruct (Permutation_map_inv f l (job_order_perm (f <$> l))) as (l' & Heq & Hp). by exists l'.
Qed.

Lemma indexed_fst {A} (l : list A) : (indexed l).*1 = seq 0 (length l).
Proof. unfold indexed. apply fst_zip. by rewrite length_seq. Qed.
Lemma indexed_snd {A} (l : list A) : (indexed l).*2 = l.
Proof. unfold indexed. apply snd_zip. by rewrite length_seq. Qed.

Lemma round_no_ack n h rt h' a : round n h rt → AckResult h' a ∉ rt.
Proof.
  intros (js & _ & -> & _) (j & Hin & _)%list_elem_of_bind. unfold job_records in Hin.
  apply elem_of_app in Hin as [(e & He & _)%list_elem_of_fmap|Hin%list_elem_of_singleton]; done.
Qed.

Lemma handleLoop_records fuel n hs0 ctx msgCtx msg m (hs : list (TypedHandler E)) hp e t r hp' e' t' :
  handleLoop (recording n hs0) fuel ctx msgCtx msg m (lift_handler <$> indexed hs) (hp, (e, t)) = (Ret r, (hp', (e', t'))) →
  ∃ ext, t' = t ++ ext ∧ (∀ last, rounds (length hs) last ext) ∧ concluded ext ∧ (no_nack → ∀ h, AckResult (Some h) None ∉ ext).
Proof.
  revert hp e t. induction fuel as [|fuel IH]; intros hp e t H; [done|]. cbn [handleLoop] in H.
  apply M_bind_Ret_inv in H as (d & [hp1 [e1 t1]] & Hd & H). unfold on_env in Hd.
  destruct (ctx_Err ctx (e, t)) as [d' [e0 t0]] eqn:Hc. injection Hd as -> -> -> ->. apply ctx_Err_records in Hc as ->.
  destruct d as [c|].
  { unfold mret, M_ret in H. simplify_eq. exists [SeenDone]. split_and!; [done|intros last; apply rounds_done, rounds_nil|exists []; by left|].
    intros _ h Hin%list_elem_of_singleton. done. }
  apply M_bind_Ret_inv in H as (herr & [hp2 [e2 t2]] & Hj & H). rewrite <- list_fmap_compose in Hj.
  destruct (job_order_fmap ((λ handler : TypedHandler RE, Retry ctx (handler msgCtx m)) ∘ lift_handler) (indexed hs)) as (hs' & Hord & Hperm).
  rewrite Hord in Hj. apply run_jobs_records in Hj as (js & Hjs & -> & Hjn).
  assert (Hround : round (length hs) herr (js ≫= job_records)).
  { exists js. split_and!; [|done|naive_solver]. by rewrite Hjs, Hperm, indexed_fst. }
  set (rt := js ≫= job_records) in *.
  apply M_bind_Ret_inv in H as (u & [hp3 [e3 t3]] & Hh & H). cbn in Hh. injection Hh as <- <- <- <-.
  apply M_bind_Ret_inv in H as (err & [hp4 [e4 t4]] & Ha & H). unfold on_env in Ha.
  destruct (acknowledgeMessage _ _ _ _ _ _) as [a' [e5 t5]] eqn:Hack. injection Ha as -> -> -> ->.
  apply acknowledge_records in Hack as (ext1 & -> & Hall & Hn).
  destruct err as [er|].
  - apply IH in H as (ext2 & -> & Hf & (u0 & Hc) & Hno). exists (rt ++ HandlerResult herr :: ext1 ++ ext2). split_and!.
    + by rewrite <- !app_assoc.
    + intros last. apply rounds_round; [done|]. by apply rounds_acks.
    + exists (rt ++ HandlerResult herr :: ext1 ++ u0). destruct Hc as [->|[h ->]]; [left|right; exists h]; rewrite <- app_assoc; cbn; by rewrite <- app_assoc.
    + intros Hno' h [Hin|[Hin|[Hin|Hin]%elem_of_app]%elem_of_cons]%elem_of_app; [by eapply round_no_ack|done|by eapply no_nack_ext|by eapply Hno].
  - unfold mret, M_ret in H. simplify_eq. exists (rt ++ HandlerResult herr :: ext1). split_and!.
    + by rewrite <- !app_assoc.
    + intros last. apply rounds_round; [done|]. rewrite <- (app_nil_r ext1). apply rounds_acks; [done|apply rounds_nil].
    + destruct (Hn eq_refl) as [ext0 ->]. exists (rt ++ HandlerResult herr :: ext0). right. exists herr. by rewrite <- app_assoc.
    + intros Hno' h [Hin|[Hin|Hin]%elem_of_cons]%elem_of_app; [by eapply round_no_ack|done|]. by eapply no_nack_ext.
Qed.

Lemma acks_only_acked ext : Forall (ack_ok None) ext → only_acked ext ∧ ∀ h, AckResult (Some h) None ∉ ext.
Proof.
  intros Hall. split.
  - eapply Forall_impl; [exact Hall|]. intros [| |h a|] Hev; try done; [|by left]. destruct Hev as [-> _]. right. by eexists.
  - intros h Hin. rewrite Forall_forall in Hall. by destruct (Hall _ Hin).
Qed.
End recorded.

Lemma observe_fields_frame o fields (metadata : gmap string string) ctx f :
  f ∉ fields → observer_Field o (observe_fields o fields metadata ctx) f = observer_Field o ctx f.
Proof.
  revert ctx. induction fields as [|g fields IH]; intros ctx Hf; [done|]. cbn [observe_fields].
  apply not_elem_of_cons in Hf as [Hne Hf]. rewrite IH by done. destruct (metadata !! _) as [v|]; [|done].
  destruct (String.eqb v ""); [done|]. rewrite (proj1 (observer_WithField_spec o ctx g v)), decide_False; [done|naive_solver].
Qed.

Lemma observe_fields_get o fields (metadata : gmap string string) ctx f v :
  f ∈ fields → v ≠ "" → metadata !! (observabilityMetaKeyPrefix +:+ f) = Some v →
  observer_Field o (observe_fields o fields metadata ctx) f = v.
Proof.
  intros Hf Hv Hm. revert ctx. induction fields as [|g fields IH]; intros ctx; [by apply elem_of_nil in Hf|]. cbn [observe_fields].
  destruct (decide (f ∈ fields)) as [Hin|Hnin]; [by apply IH|].
  apply elem_of_cons in Hf as [->|Hf]; [|done]. rewrite Hm. rewrite (proj2 (String.eqb_neq v "") Hv).
  rewrite observe_fields_frame by done. by rewrite (proj1 (observer_WithField_spec o ctx g v)), decide_True.
Qed.

Lemma append_inj (p a b : string) : p +:+ a = p +:+ b → a = b.
Proof. induction p as [|c p IH]; [done|]. intros [= H]. by apply IH. Qed.

Lemma observability_metadata_get o fields ctx f :
  f ∈ fields → observer_Field o ctx f ≠ "" →
  observability_metadata o fields ctx !! (observabilityMetaKeyPrefix +:+ f) = Some (observer_Field o ctx f).
Proof.
  intros Hf Hv. unfold observability_metadata.
  assert (∀ acc : gmap string string, f ∈ fields ∨ acc !! (observabilityMetaKeyPrefix +:+ f) = Some (observer_Field o ctx f) →
    foldl (λ (m : gmap string string) f,
      let v := observer_Field o ctx f in if String.eqb v "" then m else <[observabilityMetaKeyPrefix +:+ f := v]> m) acc fields
    !! (observabilityMetaKeyPrefix +:+ f) = Some (observer_Field o ctx f)) as H; [|apply H; by left].
  clear Hf. induction fields as [|g fields IH]; intros acc Hacc.
  { destruct Hacc as [Hin|]; [by apply elem_of_nil in Hin|done]. }
  cbn [foldl]. apply IH. destruct (decide (f = g)) as [<-|Hne].
  - right. cbn. rewrite (proj2 (String.eqb_neq _ _) Hv). by rewrite lookup_insert_eq.
  - destruct Hacc as [[->|Hin]%elem_of_cons|Hacc]; [done|by left|right]. cbn.
    destruct (String.eqb (observer_Field o ctx g) ""); [done|]. rewrite lookup_insert_ne; [done|].
    intros Heq%append_inj. congruence.
Qed.

(** ** Theorems *)


(** A message that can be handled is handled and acknowledged, at the first
    attempt when nothing fails: one run of its handlers, one positive
    acknowledgement, and the processing returns. *)
Theorem processMessage_success {E} (HJ : MessageJSON) (HO : JobOrder) (HC : CtxErr E) (HQ : ListenerProcessingQueue E)
    (HB1 : Backoff (list HandlerMetadata * (E * list listenerRecord))) (HB2 : Backoff (E * list listenerRecord))
    (HL1 : BackoffLaws (list HandlerMetadata * (E * list listenerRecord))) (HL2 : BackoffLaws (E * list listenerRecord))
    n (hs : gmap string (list (TypedHandler E))) d fuel ctx msg hp e m meta l
    (Hmsg : Deserialize d (msg_Payload (cm_Message msg)) = Ok (m, meta)) (Hl : hs !! sm_Type m = Some l)
    (Hhandlers : Forall (λ h : TypedHandler E, ∀ ctx w, ∃ w', h ctx m w = (Ret None, w')) l)
    (Hctx : ∀ e, ctx_Err ctx e = (Ret None, e)) (Hack : ∀ e, ∃ e', AcknowledgeResult (W := E) ctx msg None e = (Ret None, e')) :
  ∃ hp' e' order, order ≡ₚ seq 0 (length l) ∧ processMessage (recording n hs) d (S fuel) ctx msg (hp, (e, [])) =
    (Ret tt, (hp', (e', ((λ i, HandlerRan i None) <$> order) ++ [HandlerResult None; AckResult None None]))).
Proof.
  assert (Hjobs : ∀ msgCtx l', Forall (λ ih : nat * TypedHandler E, ∀ ctx w, ∃ w', ih.2 ctx m w = (Ret None, w')) l' → ∀ hp e t, ∃ hp' e',
    run_jobs ((λ ih, Retry ctx (lift_handler ih msgCtx m)) <$> l') None (hp, (e, t)) =
      (Ret None, (hp', (e', t ++ ((λ i, HandlerRan i None) <$> l'.*1))))).
  { intros msgCtx l' Hall. induction Hall as [|h l' Hh _ IH]; intros hp0 e0 t0; [eexists _, _; by rewrite app_nil_r|].
    rewrite fmap_cons. cbn [run_jobs]. destruct (Hh msgCtx (hp0, e0)) as [[hp1 e1] H1].
    assert (lift_handler h msgCtx m (hp0, (e0, t0)) = (Ret None, (hp1, (e1, t0 ++ [HandlerRan h.1 None])))) as H2 by (unfold lift_handler; by rewrite H1).
    rewrite (M_bind_Ret _ _ _ _ _ (retry_success ctx _ _ _ H2)). destruct (IH hp1 e1 (t0 ++ [HandlerRan h.1 None])) as (hp2 & e2 & IH').
    exists hp2, e2. rewrite IH', <- app_assoc. done. }
  unfold processMessage. rewrite Hmsg. cbn [handlers recording]. rewrite lookup_fmap, Hl. cbn [fmap option_fmap option_map].
  set (msgCtx := with_msg_meta (length hp) (cm_Context msg)).
  rewrite (M_bind_Ret _ _ _ msgCtx (hp ++ [mkHandlerMetadata (msg_ID (cm_Message msg)) (msg_Topic (cm_Message msg)) meta None], (e, []))) by done.
  rewrite (M_bind_Ret _ _ _ msgCtx (hp ++ [mkHandlerMetadata (msg_ID (cm_Message msg)) (msg_Topic (cm_Message msg)) meta None], (e, []))) by done.
  cbn [handleLoop].
  destruct (job_order_fmap ((λ handler : TypedHandler (E * list listenerRecord), Retry ctx (handler msgCtx m)) ∘ lift_handler) (indexed l))
    as (l' & Hord & Hperm).
  destruct (Hjobs msgCtx l') with (hp := hp ++ [mkHandlerMetadata (msg_ID (cm_Message msg)) (msg_Topic (cm_Message msg)) meta None])
    (e := e) (t := @nil listenerRecord) as (hp1 & e1 & Hrun).
  { rewrite Hperm. apply (Forall_fmap snd (λ h : TypedHandler E, ∀ ctx w, ∃ w', h ctx m w = (Ret None, w'))). change (snd <$> indexed l) with ((indexed l).*2). by rewrite indexed_snd. }
  cbn [app] in Hrun. set (rt := (λ i, HandlerRan i None) <$> l'.*1) in *.
  destruct (Hack e1) as [e2 Hack2]. exists hp1, e2, (l'.*1). fold rt. split; [by rewrite Hperm, indexed_fst|].
  assert (Hce : ∀ e t, ctx_Err (W := E * list listenerRecord) ctx (e, t) = (Ret None, (e, t))).
  { intros e' t. unfold ctx_Err at 1, recorded_CtxErr, lift_env. unfold_M. by rewrite Hctx. }
  assert (Hone : acknowledge_once (recording n hs) ctx msgCtx msg None (e1, rt ++ [HandlerResult None]) =
    (Ret None, (e2, rt ++ [HandlerResult None; AckResult None None]))).
  { unfold acknowledge_once. rewrite (M_bind_Ret _ _ _ _ _ (Hce _ _)). cbn. unfold_M. cbn. rewrite Hack2. cbn. by rewrite <- app_assoc. }
  rewrite (M_bind_Ret _ _ _ None (hp ++ [mkHandlerMetadata (msg_ID (cm_Message msg)) (msg_Topic (cm_Message msg)) meta None], (e, [])))
    by (unfold on_env; by rewrite Hce).
  rewrite <- list_fmap_compose, Hord, (M_bind_Ret _ _ _ _ _ Hrun).
  rewrite (M_bind_Ret _ _ _ tt (hp1, (e1, rt ++ [HandlerResult None]))) by done.
  rewrite (M_bind_Ret _ _ _ None (hp1, (e2, rt ++ [HandlerResult None; AckResult None None]))); [done|].
  unfold on_env, acknowledgeMessage. by rewrite (retry_success ctx _ _ _ Hone).
Qed.

(** Panics of handlers never escape: a handler that panics gives an error,
    and its metadata names the panic; else it does what it does.  The note
    stays: when a retry of the handler succeeds, the logging middleware still
    reports a panic, at the level of errors, for a message that was handled. *)
Theorem handler_panics {W} `{!LogSink W} (error_Error : error → string) (uuid_String : uuid → string) (new_uuid : M W uuid)
    (handler : TypedHandler W) ctx msg (hp : list HandlerMetadata) (w : W) p meta
    (Hptr : ctx_msg_meta ctx = Some p) (Hmeta : hp !! p = Some meta) :
  (∀ r s, handler ctx msg (hp, w) = (Ret r, s) → wrapWithPanicHandler handler ctx msg (hp, w) = (Ret r, s)) ∧
  (∀ text hp' w', handler ctx msg (hp, w) = (Panic text, (hp', w')) →
     wrapWithPanicHandler handler ctx msg (hp, w) =
       (Ret (Some (ErrText ("message handled with panic: " +:+ text))), (alter (set_panic text) p hp', w'))) ∧
  (∀ text s, wrapWithPanicHandler handler ctx msg (hp, w) ≠ (Panic text, s)) ∧
  (∀ text logger infoLevel errorLevel u w1 w2 hp2 meta2, MPanic meta2 = Some text → hp2 !! p = Some meta2 →
     new_uuid w = (Ret u, w1) →
     let ctx' := logger_WithContext logger ctx [("handlerCorrelation", uuid_String u)] in
     handler ctx' msg (hp, w1) = (Ret None, (hp2, w2)) →
     ∀ s, logger_Log (logger_With (logger_With logger (message_fields uuid_String meta2 msg)) [("panic.message", text)])
            (Some ctx') LevelError "message handled with panic" w2 = (Ret tt, s) →
     logging_mw error_Error uuid_String new_uuid logger infoLevel errorLevel handler ctx msg (hp, w) = (Ret None, (hp2, s))).
Proof.
  unfold wrapWithPanicHandler, recover, updateHandlerMetadata. rewrite Hptr. split_and!.
  - intros r s ->. done.
  - intros text hp' w' ->. done.
  - intros text s. by destruct (handler ctx msg (hp, w)) as [[| | |] [? ?]].
  - intros text logger il el u w1 w2 hp2 meta2 Hp Hm Hu Hh s Hlog. unfold logging_mw, GetHandlerMetadata.
    set (ctx' := logger_WithContext logger ctx _) in *. assert (Hptr' : ctx_msg_meta ctx' = Some p).
    { unfold ctx'. by rewrite msg_meta_WithContext. }
    rewrite (M_bind_Ret _ _ _ u (hp, w1)) by (unfold on_env; by rewrite Hu). fold ctx'. cbv zeta.
    rewrite (M_bind_Ret _ _ _ _ _ Hh), (M_bind_Ret _ _ _ meta2 (hp2, w2)).
    { rewrite Hp. rewrite (M_bind_Ret _ _ _ tt (hp2, s)); [done|]. unfold on_env. by rewrite Hlog. }
    unfold GetHandlerMetadata, get_obj. unfold_M. rewrite Hptr'. cbn. by rewrite Hm.
Qed.

(** What is observed when a message is produced is observed when it is
    handled: every field the producer's context has a value for reaches the
    handler, behind the observability middleware, through the metadata of the
    message. *)
Theorem observability_propagates {W} (o o' : observer) (fields : list string) (pctx ctx : context) (msg : Message)
    (handler : TypedHandler W) (m : StructuredMessage) (hp : list HandlerMetadata) (w : W) :
  ∃ msgCtx hp' hctx,
    withHandlerMetadata ctx msg (observability_metadata o fields pctx) (hp, w) = (Ret msgCtx, (hp', w)) ∧
    observability_mw o' fields handler msgCtx m (hp', w) = handler hctx m (hp', w) ∧
    ∀ f, f ∈ fields → observer_Field o pctx f ≠ "" → observer_Field o' hctx f = observer_Field o pctx f.
Proof.
  eexists _, _, (observe_fields o' fields (observability_metadata o fields pctx) (with_msg_meta (length hp) ctx)). split_and!.
  - reflexivity.
  - unfold observability_mw, GetHandlerMetadata. unfold_M. cbn. by rewrite lookup_app_r, Nat.sub_diag by done.
  - intros f Hf Hv. apply observe_fields_get; [done..|]. by apply observability_metadata_get.
Qed.

Lemma NewListener_middlewares {W} (mws : list (TypedHandler W → TypedHandler W)) hs :
  handlers (NewListener hs (add_middleware <$> mws)) = (λ l : list (TypedHandler W), wrapHandler mws <$> l) <$> hs.
Proof.
  unfold NewListener. cbn.
  assert (∀ l : ListenerImpl W, ListenerMiddlewares (foldl (λ l opt, opt l) l (add_middleware <$> mws)) = ListenerMiddlewares l ++ mws ∧
    handlers (foldl (λ l opt, opt l) l (add_middleware <$> mws)) = handlers l) as Hall.
  { induction mws as [|mw mws IH]; intros l; [by rewrite app_nil_r|]. rewrite fmap_cons. cbn [foldl].
    destruct (IH (add_middleware mw l)) as [-> ->]. by cbn; rewrite <- app_assoc. }
  by destruct (Hall (mkListenerImpl defaultWorkersCount [] [] [] [] [] [] [] hs)) as [-> ->].
Qed.

(** One listener per subscriber and topic: registering the handlers of a
    pair again is an error that changes nothing.  [Workers] makes a listener per
    pair, with every handler wrapped once in the middlewares, the first
    outermost; called a second time, it wraps the handlers it already wrapped,
    so every middleware is there twice. *)
Theorem bus_listener_spec {C W} (get_consumer : Topic → Subscriber → M W (result C)) (b : busListener C W) sub topic data mws
    (Hd : bl_listeners b !! (sub, topic) = Some data)
    (Hopts : bl_opts b ++ ld_ExtraOpts data = add_middleware <$> mws) :
  (∀ funcs opts w, registerTopicHandlers get_consumer sub topic funcs opts b w =
     (Ret (b, Some (ErrText "handlers already registered")), w)) ∧
  ∃ l1 l2, fst (Workers b) !! (sub, topic) = Some (ld_Consumer data, ld_Deserializer data, l1) ∧
    fst (Workers (snd (Workers b))) !! (sub, topic) = Some (ld_Consumer data, ld_Deserializer data, l2) ∧
    handlers l1 = (λ hs : list (TypedHandler W), wrapHandler mws <$> hs) <$> ld_Handlers data ∧
    handlers l2 = (λ hs : list (TypedHandler W), wrapHandler mws ∘ wrapHandler mws <$> hs) <$> ld_Handlers data.
Proof.
  split.
  - intros funcs opts w. unfold registerTopicHandlers. by rewrite Hd.
  - unfold Workers. cbn [fst snd bl_listeners bl_opts]. rewrite !lookup_fmap, Hd. cbn [fmap option_fmap option_map make_listener].
    eexists _, _. split_and!; [done|done|..]; unfold make_listener; cbn [ld_Handlers ld_ExtraOpts bl_opts snd]; rewrite Hopts.
    + apply NewListener_middlewares.
    + rewrite !NewListener_middlewares. rewrite <- map_fmap_compose. apply map_fmap_ext. intros ty hs _. cbn.
      by rewrite <- list_fmap_compose.
Qed.

(** ** Witnesses: a handler that succeeds, on a commit-offset queue *)

Definition fifo : JobOrder := {| job_order := λ A l, l; job_order_perm := λ A l, Permutation_refl l |}.
Definition never_done : CtxErr (commitOffsetQueue * nat) := λ _, mret None.
Definition counting_commits : CommitOffsetStrategy nat := λ _ _, modify S ≫= λ _, mret None.
Definition sample_handler : TypedHandler (commitOffsetQueue * nat) := λ _ _, mret None.
Definition sample_message : ConsumerMessage :=
  mkConsumerMessage 0 context_Background (mkMessage 1 "domain-event.user" "k"
    (pos_bits (encode (mkJsonMessage "userDeleted" "{}" ∅)))).
Definition sample_deserializer : gmap string PayloadDeserializer := {["userDeleted" := λ _, Ok (ex_message 1 "userDeleted")]}.
(** The queue holds the message, its token taken. *)
Definition sample_env : commitOffsetQueue * nat :=
  (mkCommitOffsetQueue 0 1 [mkListenerMessage sample_message false] 1, 0).

Lemma sample_run :
  @processMessage (commitOffsetQueue * nat * list listenerRecord) bitsJSON fifo (@recorded_CtxErr _ never_done)
    (@recorded_queue _ (@commitOffsetQueue_impl nat counting_commits)) (stopBackOff _) (stopBackOff _)
    (recording 1 {["userDeleted" := [sample_handler]]}) sample_deserializer 1 context_Background sample_message ([], (sample_env, [])) =
  (Ret tt, ([mkHandlerMetadata 1 "domain-event.user" ∅ None],
            ((mkCommitOffsetQueue 1 1 [] 1, 1), [HandlerRan 0 None; HandlerResult None; AckResult None None]))).
Proof. vm_compute. reflexivity. Qed.


(** A queue that takes every result. *)
Definition open_queue : ListenerProcessingQueue unit := {|
  ProcessingTokens _ := 1; AddProcessing _ := mret None; AcknowledgeResult _ _ _ := mret None |}.

Lemma processMessage_success_witness :
  ∃ hp' e' order, order ≡ₚ [0] ∧ @processMessage (unit * list listenerRecord) bitsJSON fifo (@recorded_CtxErr unit (λ _, mret None))
    (@recorded_queue _ open_queue) (stopBackOff _) (stopBackOff _)
    (recording 1 {["userDeleted" := [(λ _ _, mret None) : TypedHandler unit]]}) sample_deserializer 1 context_Background sample_message
    ([], (tt, [])) = (Ret tt, (hp', (e', ((λ i, HandlerRan i None) <$> order) ++ [HandlerResult None; AckResult None None]))).
Proof.
  eapply (@processMessage_success unit bitsJSON fifo (λ _, mret None) open_queue (stopBackOff _) (stopBackOff _)
    (stopBackOff_laws _) (stopBackOff_laws _) 1 {["userDeleted" := [(λ _ _, mret None) : TypedHandler unit]]} sample_deserializer 0
    context_Background sample_message [] tt (ex_message 1 "userDeleted") ∅ [(λ _ _, mret None) : TypedHandler unit]).
  - vm_compute. reflexivity.
  - reflexivity.
  - constructor; [|constructor]. intros ctx w. by exists w.
  - by intros [].
  - intros []. by exists tt.
Defined.

Lemma handler_panics_witness :
  wrapWithPanicHandler (W := unit) (λ _ _, panic "nil map") (with_msg_meta 0 context_Background) (ex_message 1 "t") ([blankMetadata], tt) =
    (Ret (Some (ErrText "message handled with panic: nil map")), ([set_panic "nil map" blankMetadata], tt)).
Proof.
  exact (proj1 (proj2 (@handler_panics unit (λ _ _ _, mret tt) (λ _, "") (λ _, "") (mret 0%N) (λ _ _, panic "nil map")
    (with_msg_meta 0 context_Background) (ex_message 1 "t") [blankMetadata] tt 0 blankMetadata eq_refl eq_refl)) "nil map" _ _ eq_refl).
Defined.

Definition sample_bus : busListener unit unit :=
  mkBusListener {[("sub", "topic") := mkListenerData tt ∅ {["t" := [λ _ _, mret None]]} []]} [].

Lemma bus_listener_spec_witness :
  registerTopicHandlers (λ _ _, mret (Ok tt)) "sub" "topic" [] [] sample_bus tt =
    (Ret (sample_bus, Some (ErrText "handlers already registered")), tt).
Proof.
  exact (proj1 (bus_listener_spec (C := unit) (W := unit) (λ _ _, mret (Ok tt)) sample_bus "sub" "topic"
    (mkListenerData tt ∅ {["t" := [λ _ _, mret None]]} []) [] eq_refl eq_refl) [] [] tt).
Defined.
