(* ===== verification/User.v ===== *)
(** internal/user: the user aggregate, who may read and delete users, the user
    service and the authentication service, with the repository, transactions,
    password encoder and token generator they use as interfaces. *)
From S2P Require Import Prelude GoStrings Context Message Parsing Bus Sql Http HttpParser Lazy Persistence.

(** ** Domain (domain/user.go, userevent.go) *)

Record User := mkUser {
  u_ID : uuid;
  u_Login : string;
  u_PasswordHash : string;
  u_DeletedAt : option time;
  u_Changes : list event;
}.

Record FindUserSpecification := mkFindUser { fu_IDs : list uuid; fu_Logins : list string }.

Definition domain_ErrUserNotFound : string := "domain.ErrUserNotFound".
Definition user_aggregate : string := "user".
Definition EventUserDeleted (eventID userID : uuid) : event :=
  mkEvent (user_aggregate +:+ ".deleted") "domain.EventUserDeleted" eventID userID.

(** [uuid.New] *)
Class NewUUID (W : Type) := uuid_New : M W uuid.

(** [SetDeletedAt] *)
Definition SetDeletedAt {W} `{!NewUUID W} (t : time) (u : User) : M W User :=
  id ← uuid_New;
  mret (mkUser (u_ID u) (u_Login u) (u_PasswordHash u) (Some t) (u_Changes u ++ [EventUserDeleted id (u_ID u)])).

Class UserRepository (W : Type) := {
  NextID : M W uuid;
  repo_Store : context → User → M W (option error);
  repo_Find : context → FindUserSpecification → M W (result (list User));
  repo_FindOne : context → FindUserSpecification → M W (result User);
}.

(** ** Interfaces of the application layer *)

Class PasswordEncoder := {
  HashPassword : string → result string;
  CompareHash : string → string → bool;
}.

Record TokenData := mkTokenData {
  td_EncodedToken : string;
  td_UserID : uuid;
  td_CreatedAt : time;
  td_ValidTill : time;
}.
Definition ErrInvalidToken : string := "session.ErrInvalidToken".
Class TokenGenerator (W : Type) := {
  tokens_Generate : uuid → duration → M W (result TokenData);
  tokens_Decode : string → M W (result TokenData);
}.

(** ** Permissions (app/permission) *)

Definition CanReadUser (id : uuid) : Permission Principal := λ a,
  match AuthPrincipal a with
  | None => Ok false
  | Some p =>
      match UserID p, AdminUserID p, PServiceName p with
      | Some u, _, _ => Ok (bool_decide (u = id))
      | None, Some _, _ => Ok true
      | None, None, Some _ => Ok true
      | None, None, None => Ok false
      end
  end.
Definition CanReadUserFilter (ids : list uuid) (a : Auth Principal) : result (list uuid) :=
  match AuthPrincipal a with
  | None => Ok []
  | Some p =>
      match UserID p, AdminUserID p, PServiceName p with
      | Some u, _, _ => Ok (match List.find (λ id, bool_decide (id = u)) ids with Some id => [id] | None => [] end)
      | None, Some _, _ => Ok ids
      | None, None, Some _ => Ok ids
      | None, None, None => Ok []
      end
  end.
Definition CanDeleteUser (id : uuid) : Permission Principal := λ a,
  match AuthPrincipal a with
  | None => Ok false
  | Some p =>
      match UserID p, AdminUserID p with
      | Some u, _ => Ok (bool_decide (u = id))
      | None, Some _ => Ok true
      | None, None => Ok false
      end
  end.

(** ** The user service (app/service/user.go) *)

Definition ErrInvalidUserCredentials : string := "service.ErrInvalidUserCredentials".
Definition ErrUserNotFound : string := "service.ErrUserNotFound".
Definition ErrUserIsAlreadyDeleted : string := "service.ErrUserIsAlreadyDeleted".
Definition ErrUserAlreadyExists : string := "service.ErrUserAlreadyExists".
Definition updateUsersLock : PLock := mkLock "update_users" false.

Record UserCredentials := mkCredentials { cr_Login : string; cr_Password : string }.
Record UserData := mkUserData { ud_ID : uuid; ud_Login : string; ud_DeletedAt : option time }.
(** The generated converter copies the fields of the same name. *)
Definition ToDTOUserData (u : User) : UserData := mkUserData (u_ID u) (u_Login u) (u_DeletedAt u).

Section user_service.
Context {W : Type} `{!UnicodeCase, !UserRepository W, !Transaction W, !PasswordEncoder, !NewUUID W, !HasClock W}.

Definition user_GetByID (ctx : context) (userID : uuid) : M W (result UserData) :=
  match permission_Check ctx (CanReadUser userID) with
  | Some e => mret (Err e)
  | None =>
      r ← repo_FindOne ctx (mkFindUser [userID] []);
      mret (match r with
            | Ok user => Ok (ToDTOUserData user)
            | Err e => if errors_Is (Some e) (Some domain_ErrUserNotFound) then Err (ErrSentinel ErrUserNotFound) else Err e
            end)
  end.

Definition user_GetByIDs (ctx : context) (userIDs : list uuid) : M W (result (list UserData)) :=
  match userIDs with
  | [] => mret (Ok [])
  | _ =>
      match FilterByPermissions ctx (CanReadUserFilter userIDs) with
      | Err e => mret (Err e)
      | Ok [] => mret (Ok [])
      | Ok userIDs =>
          r ← repo_Find ctx (mkFindUser userIDs []);
          mret (match r with
                | Ok users => Ok (ToDTOUserData <$> users)
                | Err e => Err (Errorf "find users by ids" e)
                end)
      end
  end.

Definition registerUserImpl (login passwordHash : string) (ctx : context) : M W (uuid * option error) :=
  r ← repo_FindOne ctx (mkFindUser [] [login]);
  match r with
  | Err e =>
      if errors_Is (Some e) (Some domain_ErrUserNotFound) then
        userID ← NextID;
        err ← repo_Store ctx (mkUser userID login passwordHash None []);
        mret (match err with
              | Some e => (uuid_Nil, Some (Errorf "store user" e))
              | None => (userID, None)
              end)
      else mret (uuid_Nil, Some (Errorf "find user by login" e))
  | Ok user =>
      mret (if bool_decide (u_DeletedAt user ≠ None) then (uuid_Nil, Some (ErrSentinel ErrUserIsAlreadyDeleted))
            else if negb (String.eqb (u_PasswordHash user) passwordHash) then (uuid_Nil, Some (ErrSentinel ErrUserAlreadyExists))
            else (u_ID user, None))
  end.

Definition user_Register (ctx : context) (credentials : UserCredentials) : M W (uuid * option error) :=
  let login := TrimSpace (cr_Login credentials) in
  let password := TrimSpace (cr_Password credentials) in
  if String.eqb login "" || String.eqb password "" then mret (uuid_Nil, Some (ErrSentinel ErrInvalidUserCredentials))
  else
    match HashPassword password with
    | Err e => mret (uuid_Nil, Some (Errorf "hash password" e))
    | Ok passwordHash => tx_WithResult uuid_Nil ctx (registerUserImpl (ToLower login) passwordHash) [updateUsersLock]
    end.

Definition deleteUserImpl (userID : uuid) (ctx : context) : M W (option error) :=
  r ← repo_FindOne (tx_LockUpdate ctx true []) (mkFindUser [userID] []);
  match r with
  | Err e =>
      if errors_Is (Some e) (Some domain_ErrUserNotFound) then mret None else mret (Some (Errorf "find user by id" e))
  | Ok user =>
      if bool_decide (u_DeletedAt user ≠ None) then mret None
      else
        now ← time_Now;
        user ← SetDeletedAt now user;
        err ← repo_Store ctx user;
        mret (Errorf "store user" <$> err)
  end.

Definition user_Delete (ctx : context) (userID : uuid) : M W (option error) :=
  match permission_Check ctx (CanDeleteUser userID) with
  | Some e => mret (Some e)
  | None => tx_WithinContext ctx (deleteUserImpl userID) []
  end.
End user_service.

(** ** The authentication service (app/service/auth.go) *)

Definition userSessionTTL : duration := (7 * 24 * time_Hour)%Z.
Definition userSessionRenewalInterval : duration := (15 * time_Minute)%Z.

Record SessionTokenData := mkSessionToken { st_Token : string; st_ValidTill : time }.
Record AuthenticationData := mkAuthData { ad_UserID : uuid; ad_RenewedToken : option SessionTokenData }.

Section authentication_service.
Context {W : Type} `{!UnicodeCase, !UserRepository W, !PasswordEncoder, !TokenGenerator W, !HasClock W}.

Definition generateSessionToken (userID : uuid) : M W (result SessionTokenData) :=
  r ← tokens_Generate userID userSessionTTL;
  mret (match r with
        | Err e => Err (Errorf "generate session token" e)
        | Ok token => Ok (mkSessionToken (td_EncodedToken token) (td_ValidTill token))
        end).

Definition auth_Authenticate (ctx : context) (login password : string) : M W (result SessionTokenData) :=
  let login := TrimSpace login in
  let password := TrimSpace password in
  if String.eqb login "" || String.eqb password "" then mret (Err (ErrSentinel ErrUnauthenticated))
  else
    r ← repo_FindOne ctx (mkFindUser [] [ToLower login]);
    match r with
    | Err e =>
        if errors_Is (Some e) (Some domain_ErrUserNotFound) then mret (Err (ErrSentinel ErrUnauthenticated))
        else mret (Err (Errorf "find user by login" e))
    | Ok user =>
        if bool_decide (u_DeletedAt user ≠ None) || negb (CompareHash (u_PasswordHash user) password)
        then mret (Err (ErrSentinel ErrUnauthenticated))
        else generateSessionToken (u_ID user)
    end.

Definition auth_VerifyAuthentication (ctx : context) (token : string) : M W (result AuthenticationData) :=
  r ← tokens_Decode token;
  match r with
  | Err e =>
      if errors_Is (Some e) (Some ErrInvalidToken) then mret (Err (ErrSentinel ErrUnauthenticated))
      else mret (Err (Errorf "decode token" e))
  | Ok tokenData =>
      now ← time_Now;
      if (now - userSessionRenewalInterval <? td_CreatedAt tokenData)%Z then mret (Ok (mkAuthData (td_UserID tokenData) None))
      else
        r ← repo_FindOne ctx (mkFindUser [td_UserID tokenData] []);
        match r with
        | Ok user =>
            if bool_decide (u_DeletedAt user ≠ None) then mret (Err (ErrSentinel ErrUnauthenticated))
            else
              renewed ← generateSessionToken (td_UserID tokenData);
              mret (match renewed with
                    | Err e => Err e
                    | Ok t => Ok (mkAuthData (td_UserID tokenData) (Some t))
                    end)
        | Err e =>
            if errors_Is (Some e) (Some domain_ErrUserNotFound) then mret (Err (ErrSentinel ErrUnauthenticated))
            else mret (Err (Errorf "find user by id" e))
        end
  end.
End authentication_service.

(** The errors the program makes itself and tells apart: none of them comes
    from the database. *)
Definition own_errors : list string := [ErrUserNotFound; ErrUnauthenticated; ErrPermissionDenied; ErrParsingError].
Definition foreign (e : error) : Prop := Forall (λ x, error_has x e = false) own_errors.

Lemma foreign_Errorf msg e : foreign e → foreign (Errorf msg e).
Proof. unfold foreign. rewrite !Forall_forall. intros H x Hx. cbn. by rewrite H. Qed.

(** ** The token generator and the password encoder (infra/session,
    infra/password); JSON, base64 and MD5 are parameters *)

Class TokenCodec := {
  token_Marshal : uuid → time → time → result string;
  token_Unmarshal : string → result (uuid * time * time);
  base64_Encode : string → string;
  base64_Decode : string → result string;
}.
Class TokenCodecLaws `{!TokenCodec} : Prop := {
  base64_roundtrip s : base64_Decode (base64_Encode s) = Ok s;
  token_roundtrip id c v s : token_Marshal id c v = Ok s → token_Unmarshal s = Ok (id, c, v);
  token_errors id c v e : token_Marshal id c v = Err e → foreign e;
}.

Section token_generator.
Context {W : Type} `{!TokenCodec, !HasClock W}.

Definition tokenGenerator_Generate (userID : uuid) (ttl : duration) : M W (result TokenData) :=
  createdAt ← time_Now;
  mret (match token_Marshal userID createdAt (createdAt + ttl)%Z with
        | Err e => Err (Errorf "encode token data to json" e)
        | Ok encodedData => Ok (mkTokenData (base64_Encode encodedData) userID createdAt (createdAt + ttl)%Z)
        end).

Definition invalidToken (msg : string) (es : list error) : error := ErrWrap msg (ErrSentinel ErrInvalidToken :: es).

Definition tokenGenerator_Decode (token : string) : M W (result TokenData) :=
  match base64_Decode token with
  | Err e => mret (Err (invalidToken "decode token base64" [e]))
  | Ok tokenJSON =>
      match token_Unmarshal tokenJSON with
      | Err e => mret (Err (invalidToken "decode token data from json" [e]))
      | Ok (userID, createdAt, validTill) =>
          now ← time_Now;
          mret (if (validTill <? now)%Z then Err (invalidToken "token is expired" [])
                else Ok (mkTokenData token userID createdAt validTill))
      end
  end.

#[export] Instance tokenGenerator : TokenGenerator W :=
  {| tokens_Generate := tokenGenerator_Generate; tokens_Decode := tokenGenerator_Decode |}.
End token_generator.

(** [md5_hex] is the hex of the MD5 sum. *)
Definition encoder_HashPassword (md5_hex : string → string) (password : string) : result string := Ok (md5_hex password).
Definition encoder_CompareHash (md5_hex : string → string) (passwordHash password : string) : bool :=
  match encoder_HashPassword md5_hex password with
  | Ok hash => String.eqb hash passwordHash
  | Err _ => false
  end.
Definition encoder (md5_hex : string → string) : PasswordEncoder :=
  {| HashPassword := encoder_HashPassword md5_hex; CompareHash := encoder_CompareHash md5_hex |}.

(** ** What the services rely on

    [holds w us]: in the world [w] the users are [us]. *)

Definition user_matches (spec : FindUserSpecification) (u : User) : Prop :=
  (fu_IDs spec = [] ∨ u_ID u ∈ fu_IDs spec) ∧ (fu_Logins spec = [] ∨ u_Login u ∈ fu_Logins spec).

#[export] Instance user_matches_dec spec u : Decision (user_matches spec u).
Proof. apply _. Defined.

(** A user as stored, and storing it. *)
Definition stored_user (u : User) : User := mkUser (u_ID u) (u_Login u) (u_PasswordHash u) (u_DeletedAt u) [].
Definition upsert (u : User) (us : list User) : list User :=
  if bool_decide (u_ID u ∈ u_ID <$> us) then (λ v, if bool_decide (u_ID v = u_ID u) then stored_user u else v) <$> us
  else us ++ [stored_user u].

(** The users, and the events dispatched so far, each once: storing a user
    dispatches its changes along with it. *)
Record userState := mkUserState { us_users : list User; us_events : list event }.
Definition add_event (es : list event) (e : event) : list event :=
  if bool_decide (ev_ID e ∈ ev_ID <$> es) then es else es ++ [e].
Definition store_user (u : User) (s : userState) : userState :=
  mkUserState (upsert u (us_users s)) (foldl add_event (us_events s) (u_Changes u)).

Class UserRepositorySpec {W} `{!UserRepository W} (holds : target → W → userState → Prop) : Prop := {
  NextID_spec w : ∃ id w', NextID w = (Ret id, w') ∧ quiet holds w w' ∧
    ∀ t s, holds t w s → id ∉ u_ID <$> us_users s;
  Store_spec ctx u w s : holds (route ctx) w s → ∃ err w', repo_Store ctx u w = (Ret err, w') ∧ isolated holds ctx w w' ∧
    match err with None => holds (route ctx) w' (store_user u s) | Some _ => True end;
  Find_spec ctx spec w s : holds (route ctx) w s → ∃ r w', repo_Find ctx spec w = (Ret r, w') ∧ quiet holds w w' ∧
    match r with Ok found => ∀ u, u ∈ found ↔ u ∈ us_users s ∧ user_matches spec u | Err _ => True end;
  FindOne_spec ctx spec w s : holds (route ctx) w s → ∃ r w', repo_FindOne ctx spec w = (Ret r, w') ∧ quiet holds w w' ∧
    match r with
    | Ok u => u ∈ us_users s ∧ user_matches spec u ∧ u_Changes u = []
    | Err e => foreign e ∧ (error_has domain_ErrUserNotFound e = true → ∀ u, u ∈ us_users s → ¬ user_matches spec u)
    end;
}.

(** Reading the clock and making a UUID are seen by nobody, and a UUID is of no
    event yet. *)
Class QuietSpec {W} `{!HasClock W, !NewUUID W} (holds : target → W → userState → Prop) : Prop := {
  clock_quiet w : ∃ now w', time_Now w = (Ret now, w') ∧ quiet holds w w';
  uuid_quiet w : ∃ id w', uuid_New w = (Ret id, w') ∧ quiet holds w w' ∧ ∀ t s, holds t w s → id ∉ ev_ID <$> us_events s;
}.

(** A hash matches the passwords it is the hash of. *)
Class PasswordEncoderLaws `{!PasswordEncoder} : Prop :=
  CompareHash_spec hash password : CompareHash hash password = true ↔ HashPassword password = Ok hash.

(** No two users share an id, and no two share a login. *)
Definition users_distinct (us : list User) : Prop := NoDup (u_ID <$> us) ∧ NoDup (u_Login <$> us).

(** ** Lemmas *)

Lemma upsert_new u us : u_ID u ∉ u_ID <$> us → upsert u us = us ++ [stored_user u].
Proof. intros Hn. unfold upsert. by rewrite bool_decide_eq_false_2. Qed.

(** Storing a user that is there with its login unchanged. *)
Lemma upsert_same u v us :
  v ∈ us → u_ID v = u_ID u → u_Login v = u_Login u → users_distinct us →
  u_ID <$> upsert u us = u_ID <$> us ∧ u_Login <$> upsert u us = u_Login <$> us ∧
  ∀ x, x ∈ upsert u us ↔ x = stored_user u ∨ (x ∈ us ∧ u_ID x ≠ u_ID u).
Proof.
  intros Hv Hid Hlogin [Hids _]. unfold upsert.
  rewrite bool_decide_eq_true_2 by (rewrite <- Hid; by apply list_elem_of_fmap_2).
  assert (Hsame : ∀ x, x ∈ us → u_ID x = u_ID u → x = v).
  { intros x Hx Hxid. apply list_elem_of_lookup in Hx as [i Hi]. apply list_elem_of_lookup in Hv as [j Hj].
    assert (i = j) as ->; [|congruence]. eapply (NoDup_lookup _ i j (u_ID u)); [exact Hids|..]; rewrite list_lookup_fmap; [rewrite Hi|rewrite Hj];
      cbn; congruence. }
  rewrite <- !list_fmap_compose. split_and!.
  - apply list_fmap_ext. intros i x Hx. cbn. case_bool_decide as Hx2; [by rewrite Hx2|done].
  - apply list_fmap_ext. intros i x Hx. cbn. case_bool_decide as Hx2; [|done].
    rewrite (Hsame x); [done|by eapply list_elem_of_lookup_2|done].
  - intros x. rewrite list_elem_of_fmap. split.
    + intros (y & -> & Hy). case_bool_decide as Hy2; [by left|by right].
    + intros [->|[Hx Hne]]; [exists v|exists x]; case_bool_decide; done.
Qed.

Lemma unique_login us u v : users_distinct us → u ∈ us → v ∈ us → u_Login u = u_Login v → u = v.
Proof.
  intros [_ Hl] Hu Hv Heq. apply list_elem_of_lookup in Hu as [i Hi]. apply list_elem_of_lookup in Hv as [j Hj].
  assert (i = j) as ->; [|congruence].
  eapply (NoDup_lookup _ i j (u_Login u)); [exact Hl|..]; rewrite list_lookup_fmap; [rewrite Hi|rewrite Hj]; cbn; congruence.
Qed.
Lemma unique_id us u v : users_distinct us → u ∈ us → v ∈ us → u_ID u = u_ID v → u = v.
Proof.
  intros [Hl _] Hu Hv Heq. apply list_elem_of_lookup in Hu as [i Hi]. apply list_elem_of_lookup in Hv as [j Hj].
  assert (i = j) as ->; [|congruence].
  eapply (NoDup_lookup _ i j (u_ID u)); [exact Hl|..]; rewrite list_lookup_fmap; [rewrite Hi|rewrite Hj]; cbn; congruence.
Qed.

(** ** Theorems: the user service *)

Section user_service_theorems.
Context {W : Type} {HU : UnicodeCase} {HR : UserRepository W} {HT : Transaction W} {HP : PasswordEncoder}.
Context (holds : target → W → userState → Prop) {HRS : UserRepositorySpec holds} {HTS : TransactionSpec holds}.

(** What registration leaves behind: the user of the id is there, with these
    credentials and not deleted, and was there or is new. *)
Definition registered (id : uuid) (login hash : string) (s s' : userState) : Prop :=
  us_events s' = us_events s ∧ users_distinct (us_users s') ∧
  ∃ u, u ∈ us_users s' ∧ u = mkUser id login hash None (u_Changes u) ∧
    (s' = s ∨ (us_users s' = us_users s ++ [u] ∧ (id ∉ u_ID <$> us_users s) ∧ login ∉ u_Login <$> us_users s)).

Lemma registered_new id login hash s :
  users_distinct (us_users s) → id ∉ u_ID <$> us_users s → login ∉ u_Login <$> us_users s →
  registered id login hash s (store_user (mkUser id login hash None []) s).
Proof.
  intros [Hids Hlogins] Hid Hl. unfold registered, store_user. cbn [us_users us_events u_Changes].
  cbn [foldl]. rewrite upsert_new by done. split; [done|]. split; [|].
  - split; rewrite fmap_app; apply NoDup_app; (split_and!; [done| |by apply NoDup_singleton]);
      intros x Hx ->%list_elem_of_singleton; done.
  - exists (mkUser id login hash None []). split_and!; [set_solver|done|by right].
Qed.

Lemma registerUserImpl_spec login hash ctx w s :
  holds (route ctx) w s → users_distinct (us_users s) →
  ∃ id err w', registerUserImpl login hash ctx w = (Ret (id, err), w') ∧ isolated holds ctx w w' ∧
    (err = None → ∃ s', holds (route ctx) w' s' ∧ registered id login hash s s').
Proof.
  intros Hs Hdist. unfold registerUserImpl.
  destruct (FindOne_spec (holds := holds) ctx (mkFindUser [] [login]) w s Hs) as (r & w1 & Hf & Hq1 & Hr).
  rewrite (M_bind_Ret _ _ _ _ _ Hf). destruct r as [u|e]; [|destruct Hr as [_ Hr]].
  - destruct Hr as (Hu & (_ & [Hl|Hl]) & _); [done|]. apply list_elem_of_singleton in Hl.
    case_bool_decide as Hdel; [|destruct (String.eqb_spec (u_PasswordHash u) hash) as [Hh|Hh]];
      eexists _, _, w1; (split; [done|]); (split; [by apply quiet_isolated|]); [done| |done]. intros _. exists s. split; [by apply Hq1|].
    split; [done|]. split; [done|]. exists u. split; [done|]. split; [|by left]. destruct u; simpl in *; congruence.
  - cbn [errors_Is]. destruct (error_has domain_ErrUserNotFound e) eqn:E;
      [|eexists _, _, w1; split; [done|]; split; [by apply quiet_isolated|done]].
    destruct (NextID_spec (holds := holds) w1) as (id & w2 & Hid & Hq2 & Hfresh). rewrite (M_bind_Ret _ _ _ _ _ Hid).
    destruct (Store_spec (holds := holds) ctx (mkUser id login hash None []) w2 s) as (err & w3 & Hs3 & Hiso & H3).
    { by apply Hq2, Hq1. }
    rewrite (M_bind_Ret _ _ _ _ _ Hs3). destruct err as [e'|]; eexists _, _, w3; (split; [done|]);
    (split; [eapply isolated_trans; [apply quiet_isolated; by etrans|done]|]); [done|].
    intros _. eexists. split; [exact H3|]. apply registered_new; [done|eapply Hfresh, Hq1, Hs|].
    intros (u & Hl & Hu)%list_elem_of_fmap. apply (Hr eq_refl u Hu). split; [by left|right]. cbn. rewrite Hl. by apply list_elem_of_singleton.
Qed.

(** Registration: an error leaves the users and the events as they were;
    success returns the id of the user with the normalised login, not deleted
    and with the hash of the password - the one that was there already, or a
    new one with a fresh id - and dispatches nothing.  No two users ever share
    a login or an id. *)
Theorem user_Register_spec ctx credentials w s (Htx : HasTransaction ctx = false) (Hs : holds (route ctx) w s)
    (Hdist : users_distinct (us_users s)) :
  ∃ id err w', user_Register ctx credentials w = (Ret (id, err), w') ∧
    match err with
    | Some e => holds (route ctx) w' s
    | None =>
        let login := ToLower (TrimSpace (cr_Login credentials)) in
        TrimSpace (cr_Login credentials) ≠ "" ∧ TrimSpace (cr_Password credentials) ≠ "" ∧
        ∃ hash s', HashPassword (TrimSpace (cr_Password credentials)) = Ok hash ∧ holds (route ctx) w' s' ∧
          registered id login hash s s'
    end.
Proof.
  unfold user_Register. destruct (String.eqb_spec (TrimSpace (cr_Login credentials)) "") as [|Hlogin]; [by eexists _, _, w|].
  destruct (String.eqb_spec (TrimSpace (cr_Password credentials)) "") as [|Hpass]; [by eexists _, _, w|]. cbn [orb].
  destruct (HashPassword _) as [hash|e] eqn:Eh; [|by eexists _, _, w].
  set (login := ToLower _).
  destruct (within_result_run holds uuid_Nil ctx (registerUserImpl login hash) [updateUsersLock] w s
    (λ id s', registered id login hash s s') Htx Hs) as (id & err & w' & Hrun & Hr).
  - intros ctx' w1 _ H1 _. by apply registerUserImpl_spec.
  - exists id, err, w'. split; [done|]. destruct err as [e|]; [done|]. destruct Hr as (s' & Hs' & Hreg).
    split; [done|]. split; [done|]. by exists hash, s'.
Qed.

Context {HN : NewUUID W} {HC : HasClock W} {HQ : QuietSpec holds}.

(** What deletion leaves behind: nothing changed when no user with the id is
    to be deleted; else that user is marked as deleted and its event is there. *)
Definition user_removed (id : uuid) (s s' : userState) : Prop :=
  (s' = s ∧ ∀ u, u ∈ us_users s → u_ID u = id → u_DeletedAt u ≠ None) ∨
  ∃ u now event, u ∈ us_users s ∧ u_ID u = id ∧ u_DeletedAt u = None ∧ (event ∉ ev_ID <$> us_events s) ∧
    us_events s' = us_events s ++ [EventUserDeleted event id] ∧ users_distinct (us_users s') ∧
    ∀ x, x ∈ us_users s' ↔ x = mkUser id (u_Login u) (u_PasswordHash u) (Some now) [] ∨ (x ∈ us_users s ∧ u_ID x ≠ id).

Lemma deleteUserImpl_spec id ctx w s :
  holds (route ctx) w s → users_distinct (us_users s) →
  ∃ err w', deleteUserImpl id ctx w = (Ret err, w') ∧ isolated holds ctx w w' ∧
    (err = None → ∃ s', holds (route ctx) w' s' ∧ user_removed id s s').
Proof.
  intros Hs Hdist. unfold deleteUserImpl.
  destruct (FindOne_spec (holds := holds) (tx_LockUpdate ctx true []) (mkFindUser [id] []) w s) as (r & w1 & Hf & Hq1 & Hr).
  { by rewrite (lock_route holds). }
  rewrite (M_bind_Ret _ _ _ _ _ Hf). destruct r as [u|e].
  - destruct Hr as (Hu & ([Hid|Hid] & _) & Hch); [done|]. apply list_elem_of_singleton in Hid. subst id.
    case_bool_decide as Hdel.
    { exists None, w1. split; [done|]. split; [by apply quiet_isolated|]. intros _. exists s. split; [by apply Hq1|].
      left. split; [done|]. intros x Hx Hxid. by rewrite (unique_id (us_users s) x u). }
    destruct (clock_quiet (holds := holds) w1) as (now & w2 & Hn & Hq2). rewrite (M_bind_Ret _ _ _ _ _ Hn).
    destruct (uuid_quiet (holds := holds) w2) as (ev & w3 & Hev & Hq3 & Hfresh).
    set (u' := mkUser (u_ID u) (u_Login u) (u_PasswordHash u) (Some now) (u_Changes u ++ [EventUserDeleted ev (u_ID u)])).
    rewrite (M_bind_Ret _ _ _ u' w3) by (unfold SetDeletedAt; by rewrite (M_bind_Ret _ _ _ _ _ Hev)).
    destruct (Store_spec (holds := holds) ctx u' w3 s) as (err & w4 & Hs4 & Hiso & H4); [by apply Hq3, Hq2, Hq1|].
    rewrite (M_bind_Ret _ _ _ _ _ Hs4). eexists _, w4. split; [done|].
    split; [eapply isolated_trans; [apply quiet_isolated; by do 2 (etrans; [eassumption|])|done]|].
    destruct err as [e|]; [done|]. intros _. eexists. split; [exact H4|]. right. exists u, now, ev.
    destruct (upsert_same u' u (us_users s) Hu eq_refl eq_refl Hdist) as (Hids & Hlogins & Hin).
    specialize (Hfresh (route ctx) s (Hq2 _ _ (Hq1 _ _ Hs))).
    split_and!; [done..| |by unfold users_distinct, store_user; cbn [us_users]; rewrite Hids, Hlogins|exact Hin].
    unfold store_user, u'. cbn [us_events u_Changes]. rewrite Hch. cbn. unfold add_event. by rewrite bool_decide_eq_false_2.
  - destruct Hr as [_ Hr]. cbn [errors_Is]. destruct (error_has domain_ErrUserNotFound e) eqn:E; eexists _, w1; (split; [done|]);
      (split; [by apply quiet_isolated|]); [|done]. intros _. exists s. split; [by apply Hq1|]. left. split; [done|].
    intros u Hu Hid. exfalso. apply (Hr eq_refl u Hu). split; [right|by left]. rewrite Hid. by apply list_elem_of_singleton.
Qed.

(** Deletion: without permission nothing happens; an error changes nothing;
    success means that the user with the id, if there is one that is not
    deleted, is marked as deleted and its event dispatched, both or neither,
    and that every other user is as before - so deleting again, or deleting
    nobody, succeeds and dispatches nothing. *)
Theorem user_Delete_spec ctx id w s (Htx : HasTransaction ctx = false) (Hs : holds (route ctx) w s)
    (Hdist : users_distinct (us_users s)) :
  match permission_Check ctx (CanDeleteUser id) with
  | Some e => user_Delete ctx id w = (Ret (Some e), w)
  | None => ∃ err w', user_Delete ctx id w = (Ret err, w') ∧
      match err with
      | Some e => holds (route ctx) w' s
      | None => ∃ s', holds (route ctx) w' s' ∧ user_removed id s s'
      end
  end.
Proof.
  unfold user_Delete. destruct (permission_Check ctx (CanDeleteUser id)) as [e|]; [done|].
  refine (within_run holds ctx (deleteUserImpl id) [] w s _ Htx Hs _). intros ctx' w1 _ H1 _.
  by apply deleteUserImpl_spec.
Qed.
End user_service_theorems.

(** ** Theorems: authentication *)

Section authentication_theorems.
Context {W : Type} {HU : UnicodeCase} {HR : UserRepository W} {HP : PasswordEncoder} {HN : NewUUID W} {HC : HasClock W} {HTC : TokenCodec}.
Context (holds : target → W → userState → Prop) {HRS : UserRepositorySpec holds} {HQ : QuietSpec holds}.
Context {HPL : PasswordEncoderLaws} {HTL : TokenCodecLaws}.

(** Reading a user: with permission, what is there. *)
Lemma user_GetByID_spec ctx id w s (Hs : holds (route ctx) w s) :
  ∃ r w', user_GetByID ctx id w = (Ret r, w') ∧ quiet holds w w' ∧
    match permission_Check ctx (CanReadUser id) with
    | Some e => r = Err e
    | None =>
        match r with
        | Ok d => ∃ u, u ∈ us_users s ∧ u_ID u = id ∧ d = ToDTOUserData u
        | Err e => (e = ErrSentinel ErrUserNotFound ∧ id ∉ u_ID <$> us_users s) ∨ foreign e
        end
    end.
Proof.
  unfold user_GetByID. destruct (permission_Check ctx _) as [e|]; [by eexists _, w|].
  destruct (FindOne_spec (holds := holds) ctx (mkFindUser [id] []) w s Hs) as (r & w1 & Hf & H1 & Hr).
  rewrite (M_bind_Ret _ _ _ _ _ Hf). eexists _, w1. split; [done|]. split; [done|]. destruct r as [u|e].
  - destruct Hr as (Hu & ([Hid|Hid] & _) & _); [done|]. apply list_elem_of_singleton in Hid. by exists u.
  - destruct Hr as [Hfor Hr]. cbn [errors_Is]. destruct (error_has domain_ErrUserNotFound e) eqn:E; [|by right].
    left. split; [done|]. intros (u & -> & Hu)%list_elem_of_fmap. apply (Hr eq_refl u Hu). split; [right; by left|by left].
Qed.

(** The users that may log in. *)
Definition active (us : list User) (u : User) : Prop := u ∈ us ∧ u_DeletedAt u = None.

(** The clock reads [t]. *)
Definition reads (t : time) : Prop := ∃ w w', time_Now w = (Ret t, w').
(** A token that says who it is for and how long. *)
Definition token_for (token : string) (id : uuid) (created till : time) : Prop :=
  ∃ s, token_Marshal id created till = Ok s ∧ token = base64_Encode s.

Lemma generateSessionToken_spec id w :
  ∃ r w', generateSessionToken id w = (Ret r, w') ∧ quiet holds w w' ∧
    match r with
    | Ok t => ∃ now, reads now ∧ st_ValidTill t = (now + userSessionTTL)%Z ∧
        token_for (st_Token t) id now (now + userSessionTTL)%Z
    | Err e => foreign e
    end.
Proof.
  destruct (clock_quiet (holds := holds) w) as (now & w1 & Hn & H1).
  unfold generateSessionToken. cbn. unfold tokenGenerator_Generate. rewrite M_bind_assoc, (M_bind_Ret _ _ _ _ _ Hn), M_ret_bind.
  eexists _, w1. split; [done|]. split; [done|]. destruct (token_Marshal id now (now + userSessionTTL)%Z) as [s|e] eqn:Es; [|by do 2 apply foreign_Errorf; eapply token_errors].
  exists now. split_and!; [by exists w, w1|done|by exists s].
Qed.


(** Who gets a session: a token is only given for an active user with the
    normalised login and the hash of the password, is for that user's id, and
    lasts a week; and nobody who has an account and its password is told to be
    unauthenticated. *)
Theorem auth_Authenticate_spec ctx login password w s (Hs : holds (route ctx) w s) (Hdist : users_distinct (us_users s)) :
  let ok u := active (us_users s) u ∧ u_Login u = ToLower (TrimSpace login) ∧ HashPassword (TrimSpace password) = Ok (u_PasswordHash u) in
  ∃ r w', auth_Authenticate ctx login password w = (Ret r, w') ∧ quiet holds w w' ∧
    match r with
    | Ok t => ∃ u now, ok u ∧ reads now ∧ token_for (st_Token t) (u_ID u) now (now + userSessionTTL)%Z ∧ st_ValidTill t = (now + userSessionTTL)%Z
    | Err e => (e = ErrSentinel ErrUnauthenticated ∧ (TrimSpace login = "" ∨ TrimSpace password = "" ∨ ∀ u, ¬ ok u)) ∨ foreign e
    end.
Proof.
  intros ok. unfold auth_Authenticate.
  destruct (String.eqb_spec (TrimSpace login) "") as [|Hl]; [eexists _, w; split_and!; [done..|]; left; tauto|].
  destruct (String.eqb_spec (TrimSpace password) "") as [|Hp]; [eexists _, w; split_and!; [done..|]; left; tauto|]. cbn [orb].
  destruct (FindOne_spec (holds := holds) ctx (mkFindUser [] [ToLower (TrimSpace login)]) w s Hs) as (r & w1 & Hf & H1 & Hr).
  rewrite (M_bind_Ret _ _ _ _ _ Hf). destruct r as [u|e].
  - destruct Hr as (Hu & (_ & [Hlog|Hlog]) & _); [done|]. apply list_elem_of_singleton in Hlog.
    destruct (bool_decide (u_DeletedAt u ≠ None) || negb (CompareHash (u_PasswordHash u) (TrimSpace password))) eqn:E.
    + eexists _, w1. split_and!; [done..|]. left. split; [done|]. do 2 right. intros v ((Hv & Hvd) & Hvl & Hvh).
      rewrite (unique_login (us_users s) v u) in Hvd, Hvh by (done || congruence).
      apply orb_true_iff in E as [Hd%bool_decide_eq_true|Hc]; [done|].
      apply negb_true_iff in Hc. apply CompareHash_spec in Hvh. congruence.
    + apply orb_false_iff in E as [Hd%bool_decide_eq_false Hc%negb_false_iff].
      destruct (generateSessionToken_spec (u_ID u) w1) as (r & w2 & Hg & H2 & Hr). rewrite Hg. eexists _, w2.
      split_and!; [done|by etrans|]. destruct r as [t|e].
      * destruct Hr as (now & Hread & Hv & Ht). exists u, now. split_and!; [|done..].
        split_and!; [split; [done|by destruct (u_DeletedAt u); [exfalso; apply Hd|]]|done|by apply CompareHash_spec].
      * by right.
  - destruct Hr as [Hfor Hr]. cbn [errors_Is]. destruct (error_has domain_ErrUserNotFound e) eqn:E; eexists _, w1; (split_and!; [done..|]);
      [|right; by apply foreign_Errorf]. left. split; [done|]. do 2 right. intros u ((Hu & _) & Hlog & _). apply (Hr eq_refl u Hu). split; [by left|right]. cbn. rewrite Hlog.
    by apply list_elem_of_singleton.
Qed.

(** What a token says, if it says anything. *)
Definition token_data (token : string) : option (uuid * time * time) :=
  match base64_Decode token with
  | Ok json => match token_Unmarshal json with Ok d => Some d | Err _ => None end
  | Err _ => None
  end.
Lemma token_for_data token id created till : token_for token id created till → token_data token = Some (id, created, till).
Proof. intros (s & Hs & ->). unfold token_data. by rewrite base64_roundtrip, (token_roundtrip _ _ _ _ Hs). Qed.

Lemma verify_junk ctx token w : token_data token = None → auth_VerifyAuthentication ctx token w = (Ret (Err (ErrSentinel ErrUnauthenticated)), w).
Proof.
  unfold token_data, auth_VerifyAuthentication. cbn. unfold tokenGenerator_Decode.
  destruct (base64_Decode token) as [json|]; [|done]. by destruct (token_Unmarshal json) as [[[]]|].
Qed.

Lemma verify_data ctx token id created till now now' w w1 w2 st :
  token_data token = Some (id, created, till) → time_Now w = (Ret now, w1) → time_Now w1 = (Ret now', w2) →
  holds (route ctx) w2 st → users_distinct (us_users st) →
  ((till < now)%Z → auth_VerifyAuthentication ctx token w = (Ret (Err (ErrSentinel ErrUnauthenticated)), w1)) ∧
  ((now <= till)%Z → (now' - userSessionRenewalInterval < created)%Z →
     auth_VerifyAuthentication ctx token w = (Ret (Ok (mkAuthData id None)), w2)) ∧
  ((now <= till)%Z → (created <= now' - userSessionRenewalInterval)%Z →
     ∃ r w3, auth_VerifyAuthentication ctx token w = (Ret r, w3) ∧ quiet holds w2 w3 ∧
       match r with
       | Ok d => ad_UserID d = id ∧ (∃ u, active (us_users st) u ∧ u_ID u = id) ∧
           ∃ t, ad_RenewedToken d = Some t ∧ ∃ c, reads c ∧ token_for (st_Token t) id c (c + userSessionTTL)%Z
       | Err e => (e = ErrSentinel ErrUnauthenticated ∧ ∀ u, active (us_users st) u → u_ID u ≠ id) ∨ foreign e
       end).
Proof.
  intros Hdata Hnow Hnow' Hst Hdist.
  assert (Hdec : tokens_Decode token w =
    (Ret (if (till <? now)%Z then Err (invalidToken "token is expired" []) else Ok (mkTokenData token id created till)), w1)).
  { unfold token_data in Hdata. cbn. unfold tokenGenerator_Decode. destruct (base64_Decode token) as [json|]; [|done].
    destruct (token_Unmarshal json) as [[[]]|]; [|done]. injection Hdata as -> -> ->. by rewrite (M_bind_Ret _ _ _ _ _ Hnow). }
  unfold auth_VerifyAuthentication. rewrite (M_bind_Ret _ _ _ _ _ Hdec). split_and!.
  - intros Hlt. by rewrite (proj2 (Z.ltb_lt _ _) Hlt).
  - intros Hle Hren. rewrite (proj2 (Z.ltb_ge _ _) Hle). rewrite (M_bind_Ret _ _ _ _ _ Hnow'). cbn [td_CreatedAt].
    by rewrite (proj2 (Z.ltb_lt _ _) Hren).
  - intros Hle Hren. rewrite (proj2 (Z.ltb_ge _ _) Hle). rewrite (M_bind_Ret _ _ _ _ _ Hnow'). cbn [td_CreatedAt td_UserID].
    rewrite (proj2 (Z.ltb_ge _ _) Hren).
    destruct (FindOne_spec (holds := holds) ctx (mkFindUser [id] []) w2 st Hst) as (r & w3 & Hf & H3 & Hr).
    rewrite (M_bind_Ret _ _ _ _ _ Hf). destruct r as [u|e].
    + destruct Hr as (Hu & ([Hid|Hid] & _) & _); [done|]. apply list_elem_of_singleton in Hid. case_bool_decide as Hd.
      * eexists _, w3. split_and!; [done..|]. left. split; [done|]. intros v (Hv & Hvd) Hvid.
        rewrite (unique_id (us_users st) v u) in Hvd by (done || congruence). done.
      * destruct (generateSessionToken_spec id w3) as (r & w4 & Hg & H4 & Hr). rewrite (M_bind_Ret _ _ _ _ _ Hg).
        eexists _, w4. split_and!; [done|by etrans|]. destruct r as [t|e].
        -- destruct Hr as (c & Hread & _ & Ht). split_and!; [done| |by exists t; split; [|exists c]]. exists u. split; [|done]. by split.
        -- by right.
    + destruct Hr as [Hfor Hr]. cbn [errors_Is]. destruct (error_has domain_ErrUserNotFound e) eqn:E; eexists _, w3; (split_and!; [done..|]);
        [|right; by apply foreign_Errorf]. left. split; [done|]. intros u (Hu & _) Hid. apply (Hr eq_refl u Hu). split; [right|by left]. cbn. rewrite Hid. by apply list_elem_of_singleton.
Qed.

(** The life of a session token made at [created] for a week: expired, it is
    refused; in the fifteen minutes after it was made it is accepted without
    looking at the users - also when its user was deleted meanwhile; after that
    it is accepted, and renewed, only if its user is active, and an active user
    is never told to be unauthenticated. *)
Theorem session_lifecycle ctx token id created now now' w w1 w2 st
    (Htoken : token_for token id created (created + userSessionTTL)%Z)
    (Hnow : time_Now w = (Ret now, w1)) (Hnow' : time_Now w1 = (Ret now', w2)) (Hst : holds (route ctx) w2 st)
    (Hdist : users_distinct (us_users st)) :
  ((created + userSessionTTL < now)%Z →
     auth_VerifyAuthentication ctx token w = (Ret (Err (ErrSentinel ErrUnauthenticated)), w1)) ∧
  ((now <= created + userSessionTTL)%Z → (now' - userSessionRenewalInterval < created)%Z →
     auth_VerifyAuthentication ctx token w = (Ret (Ok (mkAuthData id None)), w2)) ∧
  ((now <= created + userSessionTTL)%Z → (created <= now' - userSessionRenewalInterval)%Z →
     ∃ r w3, auth_VerifyAuthentication ctx token w = (Ret r, w3) ∧ quiet holds w2 w3 ∧
       match r with
       | Ok d => ad_UserID d = id ∧ (∃ u, active (us_users st) u ∧ u_ID u = id) ∧
           ∃ t, ad_RenewedToken d = Some t ∧ ∃ c, reads c ∧ token_for (st_Token t) id c (c + userSessionTTL)%Z
       | Err e => (e = ErrSentinel ErrUnauthenticated ∧ ∀ u, active (us_users st) u → u_ID u ≠ id) ∨ foreign e
       end).
Proof.
  by apply verify_data; [apply token_for_data|..].
Qed.
End authentication_theorems.

(** ** Witnesses: users in memory *)

Abbreviation memServer := (server userState).

Definition ids (s : userState) : list N := u_ID <$> us_users s.
Definition find_users (spec : FindUserSpecification) (s : userState) : list User := filter (user_matches spec) (us_users s).
Definition memRepository : UserRepository memServer := {|
  NextID := λ w, (Ret (next_id ids w), w);
  repo_Store := λ ctx u, sv_run (route ctx) (λ s, (None, store_user u s)) (Some errTxDone);
  repo_Find := λ ctx spec w, (Ret (match sv_at (route ctx) w with Some s => Ok (find_users spec s) | None => Err errTxDone end), w);
  repo_FindOne := λ ctx spec w,
    (Ret (match sv_at (route ctx) w with
          | Some s => match find_users spec s with u :: _ => Ok u | [] => Err (ErrSentinel domain_ErrUserNotFound) end
          | None => Err errTxDone
          end), w);
|}.
Definition memClock : HasClock memServer := λ us, (Ret 1000%Z, us).
Definition event_ids (s : userState) : list N := ev_ID <$> us_events s.
Definition memUUID : NewUUID memServer := λ w, (Ret (next_id event_ids w), w).
Definition plain_encoder : PasswordEncoder := encoder (λ p, "md5:" +:+ p).
Definition id_case : UnicodeCase := {| unicode_ToUpper s := s; unicode_ToLower s := s |}.

(** The users as seen by a target, their changes dispatched. *)
Definition clean (s : userState) : Prop := Forall (λ u, u_Changes u = []) (us_users s).
Definition mem_view : target → memServer → userState → Prop := tx_view sv_committed sv_working (λ s a, s = a ∧ clean a).

Lemma mem_view_at t w s : mem_view t w s ↔ sv_at t w = Some s ∧ clean s.
Proof. unfold mem_view, tx_view, sv_at. destruct t; naive_solver. Qed.

Lemma clean_store u s : clean s → clean (store_user u s).
Proof.
  unfold clean, store_user, upsert. cbn [us_users]. intros Hall. case_bool_decide; [|by apply Forall_app; repeat constructor].
  apply Forall_fmap. eapply Forall_impl; [exact Hall|]. intros v Hv. cbn. by case_bool_decide.
Qed.

Lemma memRepository_spec : @UserRepositorySpec memServer memRepository mem_view.
Proof.
  split.
  - intros w. exists (next_id ids w), w. split_and!; [done|done|]. intros t s [Hs _]%mem_view_at.
    apply (next_id_fresh ids t). by destruct t.
  - intros ctx u w s [Hs Hc]%mem_view_at.
    destruct (sv_run_view (route ctx) (λ s, (@None error, store_user u s)) (Some errTxDone) w s) as [Hrun Hv]; [by apply sv_view_at|].
    cbn. eexists _, _. split; [exact Hrun|]. split; [|cbn; apply mem_view_at; split; [by apply sv_view_at|by apply clean_store]].
    intros Ht o a Ho [Ha Hca]%mem_view_at. apply mem_view_at. split; [|done].
    apply sv_view_at. eapply (sv_run_isolated _ _ _ _ _ _ Hrun); [done|done|by apply sv_view_at].
  - intros ctx spec w s [Hs Hc]%mem_view_at. cbn. rewrite Hs. eexists _, w. split_and!; [done|done|].
    intros u. unfold find_users. rewrite list_elem_of_filter. tauto.
  - intros ctx spec w s [Hs Hc]%mem_view_at. cbn. rewrite Hs. eexists _, w. split_and!; [done|done|].
    destruct (find_users spec s) as [|u l] eqn:E.
    + split; [by repeat constructor|]. intros _ u Hu Hm. assert (u ∈ find_users spec s) as Hin by by apply list_elem_of_filter.
      rewrite E in Hin. by apply elem_of_nil in Hin.
    + assert (u ∈ find_users spec s) as Hin by (rewrite E; by left). apply list_elem_of_filter in Hin.
      unfold clean in Hc. rewrite Forall_forall in Hc. naive_solver.
Qed.

Lemma mem_quiet : @QuietSpec memServer memClock memUUID mem_view.
Proof.
  split; intros w; eexists _, w; (split; [done|]); [done|]. split; [done|]. intros t s [Hs _]%mem_view_at.
  apply (next_id_fresh event_ids t). by destruct t.
Qed.

Lemma mem_transactions : @TransactionSpec memServer userState mem_view memTransaction.
Proof.
  apply (@sql_transaction_implements memServer userState userState idle_DB sv_committed sv_working (server_TxSpec _ _ _)).
  by intros f w Hf.
Qed.

Lemma plain_encoder_laws : @PasswordEncoderLaws plain_encoder.
Proof.
  intros hash p. cbn. unfold encoder_CompareHash, encoder_HashPassword. rewrite String.eqb_eq. split; [by intros ->|by intros [= ->]].
Qed.

Definition sample_user : User := mkUser 5 "alice" "md5:pw" None [].
Definition sample_state : userState := mkUserState [sample_user] [].
Definition sample_users : memServer := mkServer sample_state ∅.
Definition user_5 : context := WithAuthentication context_Background (mkAuth (Some (Context.mkPrincipal (Some 5%N) None None))).

Lemma sample_distinct : users_distinct [sample_user].
Proof. split; apply NoDup_singleton. Qed.

Lemma sample_seen : mem_view OnDB sample_users sample_state.
Proof. apply mem_view_at. split; [done|]. by repeat constructor. Qed.

Definition bits_codec : TokenCodec := {|
  token_Marshal := λ id c v, Ok (pos_bits (encode (id, c, v)));
  token_Unmarshal := λ s, match decode (bits_pos s) with Some x => Ok x | None => Err (ErrText "json") end;
  base64_Encode := λ s, s;
  base64_Decode := λ s, Ok s;
|}.
Lemma bits_codec_laws : @TokenCodecLaws bits_codec.
Proof. split; [done| |done]. intros id c v s [= <-]. cbn. by rewrite bits_pos_bits, decode_encode. Qed.

Lemma auth_Authenticate_spec_witness :
  ∃ r w', @auth_Authenticate memServer id_case memRepository plain_encoder (@tokenGenerator _ bits_codec memClock) context_Background
    "Alice " "pw" sample_users = (Ret r, w') ∧ r ≠ Err (ErrSentinel ErrUnauthenticated).
Proof.
  destruct (@auth_Authenticate_spec memServer id_case memRepository plain_encoder memUUID memClock bits_codec mem_view
    memRepository_spec mem_quiet plain_encoder_laws bits_codec_laws context_Background "Alice " "pw" sample_users sample_state sample_seen sample_distinct)
    as (r & w' & H & _ & Hspec).
  exists r, w'. split; [exact H|]. intros ->.
  destruct Hspec as [[_ [H1|[H1|H1]]]|H1]; [discriminate H1..| |by inversion_clear H1 as [|? ? _ H2]; inversion_clear H2].
  apply (H1 sample_user). split; [split; [by left|reflexivity]|]. by vm_compute.
Defined.

Lemma session_lifecycle_witness :
  ∃ token, @auth_VerifyAuthentication memServer memRepository (@tokenGenerator _ bits_codec memClock) memClock context_Background
    token sample_users = (Ret (Ok (mkAuthData 5 None)), sample_users).
Proof.
  exists (pos_bits (encode (5%N, 900%Z, (900 + userSessionTTL)%Z))).
  refine (proj1 (proj2 (@session_lifecycle memServer memRepository memUUID memClock bits_codec mem_view memRepository_spec mem_quiet
    bits_codec_laws context_Background (pos_bits (encode (5%N, 900%Z, (900 + userSessionTTL)%Z))) 5 900 1000 1000
    sample_users sample_users sample_users sample_state _ eq_refl eq_refl sample_seen sample_distinct)) _ _).
  - by exists (pos_bits (encode (5%N, 900%Z, (900 + userSessionTTL)%Z))).
  - by vm_compute.
  - by vm_compute.
Defined.
