(* ===== verification/UserHandlers.v ===== *)
(** internal/user/infra/http: the HTTP handlers of the user service. *)
From S2P Require Import Prelude GoStrings Context Message Parsing Sql Http HttpParser HttpServer Lazy Persistence User.

Definition StatusCreated : Z := 201.
Definition StatusConflict : Z := 409.

(** ** The services the handlers use *)

Class UserService (W : Type) := {
  us_GetByID : context → uuid → M W (result UserData);
  us_Register : context → UserCredentials → M W (uuid * option error);
  us_Delete : context → uuid → M W (option error);
}.
Class AuthenticationService (W : Type) := {
  as_Authenticate : context → string → string → M W (result SessionTokenData);
  as_VerifyAuthentication : context → string → M W (result AuthenticationData);
}.
#[export] Instance userService {W} `{!UnicodeCase, !UserRepository W, !Transaction W, !PasswordEncoder, !NewUUID W, !HasClock W} :
    UserService W := {| us_GetByID := user_GetByID; us_Register := user_Register; us_Delete := user_Delete |}.
#[export] Instance authenticationService {W} `{!UnicodeCase, !UserRepository W, !PasswordEncoder, !TokenGenerator W, !HasClock W} :
    AuthenticationService W := {| as_Authenticate := auth_Authenticate; as_VerifyAuthentication := auth_VerifyAuthentication |}.

(** ** Encodings: JSON bodies and the text of a cookie *)

(** [NewUserSessionCookie] *)
Record sessionCookie := mkSessionCookie {
  sc_Name : string;
  sc_Value : string;
  sc_Path : string;
  sc_Expires : time;
  sc_HttpOnly : bool;
}.
Definition userSessionCookieName : string := "ust".
Definition NewUserSessionCookie (token : SessionTokenData) : sessionCookie :=
  mkSessionCookie userSessionCookieName (st_Token token) "/" (st_ValidTill token) true.

Class UserEncodings := {
  Decode_credentials : string → result UserCredentials;
  Marshal_UserOut : UserData → result string;
  Marshal_registerUserOut : uuid → result string;
  cookie_String : sessionCookie → string;
  uuid_String : uuid → string;
}.

(** A request is parsed outside the world. *)
Definition parsed {S A} (o : outcome A) : M S A := λ s, (o, s).

Section handlers.
Context {W : Type} `{!ParseLib, !UnicodeCase, !UserEncodings, !UserService W, !AuthenticationService W}.

Definition parse_userID (r : Request) : M (httpState * W) (result uuid) :=
  v ← parsed (ParseRequest r (PathParameter (mkType false BUUID) "userID") None);
  match v with
  | Err e => mret (Err e)
  | Ok (VUUID id) => mret (Ok id)
  | Ok _ => panic interfaceConversion
  end.

Definition fail_with (l : nat) (code : Z) (e : error) : M (httpState * W) (option error) :=
  _ ← modify_obj (SetStatusCode l code);
  mret (Some e).

Definition AuthenticateHandler_Handle : HandlerFunc (W := W) := λ l r,
  v ← parsed (ParseRequest r (JSONBody Decode_credentials) None);
  match v with
  | Err e => fail_with l StatusUnauthorized e
  | Ok in_ =>
      let login := TrimSpace (cr_Login in_) in
      if String.eqb login "" then fail_with l StatusUnauthorized (ErrText "login must be not empty")
      else
        let password := TrimSpace (cr_Password in_) in
        if String.eqb password "" then fail_with l StatusUnauthorized (ErrText "password must be not empty")
        else
          r ← on_env (as_Authenticate (r_Context r) login password);
          match r with
          | Err e => mret (Some e)
          | Ok token => _ ← modify_obj (SetCookie (cookie_String (NewUserSessionCookie token))); mret None
          end
  end.

Definition VerifyAuthenticationHandler_Handle : HandlerFunc (W := W) := λ l r,
  v ← parsed (ParseRequest r (CookieValue (mkType false BString) userSessionCookieName) None);
  match v with
  | Err e => fail_with l StatusUnauthorized e
  | Ok (VString sessionToken) =>
      r ← on_env (as_VerifyAuthentication (r_Context r) sessionToken);
      match r with
      | Err e => mret (Some e)
      | Ok authData =>
          _ ← match ad_RenewedToken authData with
              | Some t => modify_obj (SetCookie (cookie_String (NewUserSessionCookie t)))
              | None => mret tt
              end;
          _ ← modify_obj (SetHeader HeaderAuthUserID (uuid_String (ad_UserID authData)));
          mret None
      end
  | Ok _ => panic interfaceConversion
  end.

Definition DeleteUserByIDHandler_Handle : HandlerFunc (W := W) := λ l r,
  v ← parse_userID r;
  match v with
  | Err e => mret (Some e)
  | Ok userID => on_env (us_Delete (r_Context r) userID)
  end.

Definition GetCurrentUserHandler_Handle : HandlerFunc (W := W) := λ l r,
  match GetAuthentication (T := Principal) (r_Context r) with
  | Some (mkAuth (Some p)) =>
      match UserID p with
      | Some userID =>
          r ← on_env (us_GetByID (r_Context r) userID);
          match r with
          | Err e => mret (Some e)
          | Ok u => _ ← modify_obj (SetJSONBody l (Marshal_UserOut u)); mret None
          end
      | None => mret (Some (ErrSentinel ErrUnauthenticated))
      end
  | _ => mret (Some (ErrSentinel ErrUnauthenticated))
  end.

Definition GetUserByIDHandler_Handle : HandlerFunc (W := W) := λ l r,
  v ← parse_userID r;
  match v with
  | Err e => mret (Some e)
  | Ok userID =>
      r ← on_env (us_GetByID (r_Context r) userID);
      match r with
      | Err e =>
          _ ← (if errors_Is (Some e) (Some ErrUserNotFound) then modify_obj (SetStatusCode l StatusNotFound) else mret tt);
          mret (Some e)
      | Ok u => _ ← modify_obj (SetJSONBody l (Marshal_UserOut u)); mret None
      end
  end.

Definition RegisterUserHandler_Handle : HandlerFunc (W := W) := λ l r,
  v ← parsed (ParseRequest r (JSONBody Decode_credentials) None);
  match v with
  | Err e => mret (Some e)
  | Ok in_ =>
      let login := TrimSpace (cr_Login in_) in
      if String.eqb login "" then fail_with l StatusBadRequest (ErrText "login must be not empty")
      else
        let password := TrimSpace (cr_Password in_) in
        if String.eqb password "" then fail_with l StatusBadRequest (ErrText "password must be not empty")
        else
          '(userID, err) ← on_env (us_Register (r_Context r) (mkCredentials login password));
          if errors_Is err (Some ErrInvalidUserCredentials) then _ ← modify_obj (SetStatusCode l StatusBadRequest); mret err
          else if errors_Is err (Some ErrUserIsAlreadyDeleted) then _ ← modify_obj (SetStatusCode l StatusForbidden); mret err
          else
            _ ← (if errors_Is err (Some ErrUserAlreadyExists) then modify_obj (SetStatusCode l StatusConflict) else mret tt);
            match err with
            | Some e => mret (Some e)
            | None =>
                _ ← modify_obj (SetJSONBody l (Marshal_registerUserOut userID));
                _ ← modify_obj (SetStatusCode l StatusCreated);
                mret None
            end
  end.

Definition AuthenticateHandler : Handler (W := W) := mkHandler "POST" "/auth" AuthenticateHandler_Handle.
Definition VerifyAuthenticationHandler : Handler (W := W) := mkHandler "POST" "/auth/verification" VerifyAuthenticationHandler_Handle.
Definition DeleteUserByIDHandler : Handler (W := W) := mkHandler "DELETE" "/users/{userID}" DeleteUserByIDHandler_Handle.
Definition GetCurrentUserHandler : Handler (W := W) := mkHandler "GET" "/current-user" GetCurrentUserHandler_Handle.
Definition GetUserByIDHandler : Handler (W := W) := mkHandler "GET" "/users/{userID}" GetUserByIDHandler_Handle.
Definition RegisterUserHandler : Handler (W := W) := mkHandler "POST" "/users" RegisterUserHandler_Handle.
End handlers.
