(* ===== verification/UserRepo.v ===== *)
(** internal/user/infra/sql: the repository of users over the SQL client. *)
From S2P Require Import Prelude GoStrings Context Message Sql Persistence Table Http HttpParser Lazy User.

Definition user_table : string := quoted "user".
Definition user_cols : list string := ["id"; "login"; "password_hash"; "deleted_at"].
Definition user_set_cols : list string := ["login"; "password_hash"; "deleted_at"].
(** The clause with its white space normalized; the [updated_at] it also sets
    is read by nobody. *)
Definition user_conflict : string :=
  "on conflict (id) do update set login = excluded.login, password_hash = excluded.password_hash, deleted_at = excluded.deleted_at, updated_at = now()".

(** [event.Dispatcher] *)
Class EventDispatcher (W : Type) := DispatchEvents : context → list event → M W (option error).

Definition user_vals (u : User) : list arg :=
  [AUuid (u_ID u); AText (u_Login u); AText (u_PasswordHash u); match u_DeletedAt u with Some t => ATime t | None => ANull end].

(** [SqlxUser], converted. *)
Definition scan_user (r : list arg) : option User :=
  match r with
  | [AUuid id; AText login; AText hash; ATime t] => Some (mkUser id login hash (Some t) [])
  | [AUuid id; AText login; AText hash; ANull] => Some (mkUser id login hash None [])
  | _ => None
  end.
Definition errScanUser : error := ErrText "sql: Scan error on column".

(** [buildFindQuery] *)
Definition buildFindQuery (ctx : context) (spec : FindUserSpecification) : SelectBuilder :=
  let qb := mkSelect user_cols user_table [] [] None [] in
  let qb := match fu_IDs spec with [] => qb | ids => sb_where (CIn "id" (AUuid <$> ids)) qb end in
  let qb := match fu_Logins spec with [] => qb | ls => sb_where (CIn "login" (AText <$> ls)) qb end in
  PrepareUpdateLockQuery ctx qb.

Section repository.
Context {W : Type} `{!DB W, !EventDispatcher W, !NewUUID W}.

Definition userRepository_NextID : M W uuid := uuid_New.

Definition userRepository_Store (ctx : context) (user : User) : M W (option error) :=
  err ← DispatchEvents ctx (u_Changes user);
  match err with
  | Some e => mret (Some (Errorf "dispatch events" e))
  | None =>
      let q := SInsert user_table user_cols [user_vals user] user_conflict in
      match ToSql q with
      | Some e => mret (Some (Errorf "build query" e))
      | None =>
          r ← ExecContext ctx q;
          mret (match r with Err e => Some e | Ok _ => None end)
      end
  end.

Definition userRepository_Find (ctx : context) (spec : FindUserSpecification) : M W (result (list User)) :=
  let q := SSelect (buildFindQuery ctx spec) in
  match ToSql q with
  | Some e => mret (Err (Errorf "build query" e))
  | None =>
      r ← SelectContext ctx q;
      mret (match r with
            | Err e => Err e
            | Ok rows => match mapM scan_user rows with Some us => Ok us | None => Err errScanUser end
            end)
  end.

Definition userRepository_FindOne (ctx : context) (spec : FindUserSpecification) : M W (result User) :=
  let q := SSelect (sb_limit 1 (buildFindQuery ctx spec)) in
  match ToSql q with
  | Some e => mret (Err (Errorf "build query" e))
  | None =>
      r ← GetContext ctx q;
      mret (match r with
            | Err e => if errors_Is (Some e) (Some sql_ErrNoRows) then Err (ErrSentinel domain_ErrUserNotFound) else Err e
            | Ok row => match scan_user row with Some u => Ok u | None => Err errScanUser end
            end)
  end.

#[export] Instance userRepository : UserRepository W := {|
  NextID := userRepository_NextID;
  repo_Store := userRepository_Store;
  repo_Find := userRepository_Find;
  repo_FindOne := userRepository_FindOne;
|}.
End repository.

Abbreviation UserTable := (TableSpec _ user_table ["id"] user_conflict (DoUpdate user_set_cols)).

(** ** Lemmas *)

Definition user_row (u : User) : gmap string arg := mk_row user_cols (user_vals u).

Lemma scan_user_row u : scan_user (project user_cols (user_row u)) = Some (stored_user u).
Proof. by destruct u as [id login hash [t|] ch]. Qed.

Lemma buildFindQuery_from ctx spec : sel_from (buildFindQuery ctx spec) = user_table.
Proof. unfold buildFindQuery, PrepareUpdateLockQuery. destruct (fu_IDs spec), (fu_Logins spec); repeat case_match; done. Qed.
Lemma buildFindQuery_cols ctx spec : sel_cols (buildFindQuery ctx spec) = user_cols.
Proof. unfold buildFindQuery, PrepareUpdateLockQuery. destruct (fu_IDs spec), (fu_Logins spec); repeat case_match; done. Qed.
Lemma buildFindQuery_order ctx spec : sel_order (buildFindQuery ctx spec) = [].
Proof. unfold buildFindQuery, PrepareUpdateLockQuery. destruct (fu_IDs spec), (fu_Logins spec); repeat case_match; done. Qed.
Lemma buildFindQuery_limit ctx spec : sel_limit (buildFindQuery ctx spec) = None.
Proof. unfold buildFindQuery, PrepareUpdateLockQuery. destruct (fu_IDs spec), (fu_Logins spec); repeat case_match; done. Qed.

Lemma PrepareUpdateLockQuery_where ctx qb : sel_where (PrepareUpdateLockQuery ctx qb) = sel_where qb.
Proof. unfold PrepareUpdateLockQuery. repeat case_match; done. Qed.

Lemma eval_in_ids ids u : eval_cond (CIn "id" (AUuid <$> ids)) (user_row u) = true ↔ u_ID u ∈ ids.
Proof.
  change (bool_decide (AUuid (u_ID u) ∈ AUuid <$> ids) = true ↔ u_ID u ∈ ids).
  rewrite bool_decide_eq_true, list_elem_of_fmap. naive_solver.
Qed.
Lemma eval_in_logins ls u : eval_cond (CIn "login" (AText <$> ls)) (user_row u) = true ↔ u_Login u ∈ ls.
Proof.
  change (bool_decide (AText (u_Login u) ∈ AText <$> ls) = true ↔ u_Login u ∈ ls).
  rewrite bool_decide_eq_true, list_elem_of_fmap. naive_solver.
Qed.

Lemma eval_buildFindQuery ctx spec u :
  eval_where (sel_where (buildFindQuery ctx spec)) (user_row u) = true ↔ user_matches spec u.
Proof.
  unfold buildFindQuery, user_matches. rewrite PrepareUpdateLockQuery_where. unfold eval_where.
  destruct (fu_IDs spec) as [|i ids], (fu_Logins spec) as [|s ls]; cbn [sb_where sel_where app forallb];
    rewrite ?andb_true_iff, ?eval_in_ids, ?eval_in_logins; naive_solver.
Qed.

Lemma same_id_row u v : same_key ["id"] (user_row u) (user_row v) = bool_decide (u_ID v = u_ID u).
Proof.
  change (bool_decide (Some (AUuid (u_ID u)) = Some (AUuid (u_ID v))) && true = bool_decide (u_ID v = u_ID u)).
  rewrite andb_true_r. apply bool_decide_ext. split; [by intros [= ->]|by intros ->].
Qed.

Lemma update_user_row u v : u_ID v = u_ID u → update_row user_set_cols (user_row u) (user_row v) = user_row (stored_user u).
Proof.
  intros Hid. destruct u as [id login hash del ch], v as [id' login' hash' del' ch']. simpl in Hid. subst id'.
  apply map_eq. intros c. unfold update_row, user_set_cols. cbn [foldr].
  change (user_row (mkUser id login hash del ch) !! "login") with (Some (AText login)).
  change (user_row (mkUser id login hash del ch) !! "password_hash") with (Some (AText hash)).
  change (user_row (mkUser id login hash del ch) !! "deleted_at") with (Some (match del with Some t => ATime t | None => ANull end)).
  unfold user_row, mk_row, user_cols, user_vals. cbn -[insert lookup].
  repeat (rewrite lookup_insert; case_decide; [subst; try done|]); done.
Qed.

Lemma insert_user u us :
  insert_rows ["id"] (DoUpdate user_set_cols) [user_row u] (user_row <$> us) = (user_row <$> upsert u us, 1%Z).
Proof.
  cbn [insert_rows]. unfold insert_row, upsert.
  assert (existsb (same_key ["id"] (user_row u)) (user_row <$> us) = bool_decide (u_ID u ∈ u_ID <$> us)) as ->.
  { apply eq_true_iff_eq. rewrite existsb_exists, bool_decide_eq_true, list_elem_of_fmap. split.
    - intros (r & Hr & Hk). apply list_elem_of_In, list_elem_of_fmap in Hr as (v & -> & Hv).
      rewrite same_id_row, bool_decide_eq_true in Hk. by exists v.
    - intros (v & Hid & Hv). exists (user_row v). split; [by apply list_elem_of_In, list_elem_of_fmap_2|].
      by rewrite same_id_row, bool_decide_eq_true. }
  case_bool_decide; [|by rewrite fmap_app]. f_equal. rewrite <- !list_fmap_compose. apply list_fmap_ext. intros i v _. unfold compose.
  rewrite same_id_row. case_bool_decide; [by apply update_user_row|done].
Qed.

Lemma stored_user_row u : user_row (stored_user u) = user_row u.
Proof. done. Qed.

Lemma mapM_scan_users us : mapM scan_user (project user_cols <$> (user_row <$> us)) = Some (stored_user <$> us).
Proof.
  apply mapM_Some. induction us as [|u us IH]; [constructor|]. rewrite !fmap_cons. constructor; [apply scan_user_row|done].
Qed.

(** ** The refinement *)

Section refinement.
Context {W S : Type} {HDB : DB W} {HED : EventDispatcher W} {HNU : NewUUID W}.
Context (committed : W → S) (working : W → nat → option S).
(** The rows of the users' table, and the events dispatched, each once. *)
Context (rowsOf : S → list (gmap string arg)) (eventsOf : S → list event → Prop).
Abbreviation at_ := (view committed working).

Definition rows_seen (t : target) (w : W) : list (gmap string arg) := default [] (rowsOf <$> at_ t w).

(** What the repository relies on of the database, the dispatcher and
    [uuid.New]. *)
Class UserStore : Prop := {
  us_statements :: StatementSpec W S committed working;
  us_table t :: UserTable t (rows_seen t);
  us_insert_events t ctx cols vals w r w' st st' evs :
    db_exec t ctx (SInsert user_table cols vals user_conflict) w = (r, w') →
    at_ t w = Some st → at_ t w' = Some st' → eventsOf st evs → eventsOf st' evs;
  us_dispatch ctx es w st evs : at_ (route ctx) w = Some st → eventsOf st evs →
    ∃ err w', DispatchEvents ctx es w = (Ret err, w') ∧
      (∀ t', apart (route ctx) t' → at_ t' w' = at_ t' w) ∧
      (err = None → ∃ st', at_ (route ctx) w' = Some st' ∧ rowsOf st' = rowsOf st ∧ eventsOf st' (foldl add_event evs es));
  us_uuid w : ∃ id w', uuid_New w = (Ret id, w') ∧ (∀ t, at_ t w' = at_ t w) ∧
    (∀ t r, r ∈ rows_seen t w → r !! "id" ≠ Some (AUuid id)) ∧
    ∀ t st evs, at_ t w = Some st → eventsOf st evs → id ∉ ev_ID <$> evs;
  us_get_errors t ctx q w e w' : db_get t ctx q w = (Ret (Err e), w') → error_has domain_ErrUserNotFound e = false ∧ foreign e;
}.

(** The rows are those of the users, read back without the changes that were
    dispatched. *)
Definition stores_users (st : S) (s : userState) : Prop :=
  rowsOf st = user_row <$> us_users s ∧ Forall (λ u, u_Changes u = []) (us_users s) ∧ eventsOf st (us_events s).
Definition users_view : target → W → userState → Prop := tx_view committed working stores_users.

Lemma users_view_seen t w s : users_view t w s →
  ∃ st, at_ t w = Some st ∧ rowsOf st = user_row <$> us_users s ∧ Forall (λ u, u_Changes u = []) (us_users s) ∧
    eventsOf st (us_events s).
Proof. intros (st & Hv & Hr & Hc & He)%tx_view_state. by exists st. Qed.
Lemma users_view_intro t w s st :
  at_ t w = Some st → rowsOf st = user_row <$> us_users s → Forall (λ u, u_Changes u = []) (us_users s) →
  eventsOf st (us_events s) → users_view t w s.
Proof. intros Hv Hr Hc He. unfold users_view. rewrite tx_view_state. by exists st. Qed.
Lemma rows_seen_at t w st : at_ t w = Some st → rows_seen t w = rowsOf st.
Proof. unfold rows_seen. by intros ->. Qed.

Lemma stored_id u : u_Changes u = [] → stored_user u = u.
Proof. destruct u as [id login hash del ch]. simpl. by intros ->. Qed.

Lemma upsert_stored u us : Forall (λ u, u_Changes u = []) us → Forall (λ u, u_Changes u = []) (upsert u us).
Proof.
  intros Hall. unfold upsert. case_bool_decide; [|by apply Forall_app; repeat constructor].
  apply Forall_fmap. eapply Forall_impl; [exact Hall|]. intros v Hv. cbn. by case_bool_decide.
Qed.

Context `{!UserStore}.

Lemma sql_NextID_spec w : ∃ id w', userRepository_NextID w = (Ret id, w') ∧ quiet users_view w w' ∧
  ∀ t s, users_view t w s → id ∉ u_ID <$> us_users s.
Proof.
  destruct (us_uuid w) as (id & w' & Hid & Hv & Hn & _). exists id, w'. split; [done|]. split; [by apply same_views_quiet|].
  intros t s (st & Hst & Hr & _)%users_view_seen (u & -> & Hu)%list_elem_of_fmap. apply (Hn t (user_row u)); [|done].
  rewrite (rows_seen_at _ _ _ Hst), Hr. by apply list_elem_of_fmap_2.
Qed.

Lemma sql_Store_spec ctx u w s : users_view (route ctx) w s →
  ∃ err w', userRepository_Store ctx u w = (Ret err, w') ∧ isolated users_view ctx w w' ∧
    match err with None => users_view (route ctx) w' (store_user u s) | Some _ => True end.
Proof.
  intros (st & Hst & Hrows & Hall & Hev)%users_view_seen. unfold userRepository_Store.
  destruct (us_dispatch ctx (u_Changes u) w st (us_events s) Hst Hev) as (err & w1 & Hd & Hfr1 & H1). rewrite (M_bind_Ret _ _ _ _ _ Hd).
  destruct err as [e|]; [eexists _, w1; split_and!; [done|by apply apart_isolated|done]|].
  destruct (H1 eq_refl) as (st1 & Hst1 & Hr1 & He1).
  rewrite (table_ToSql_insert (TableSpec := us_table (route ctx))) by done.
  destruct (table_insert (TableSpec := us_table (route ctx)) ctx user_cols [user_vals u] w1) as (r & w2 & Hx & Hspec); [done|].
  destruct (exec_frame _ _ _ _ _ _ Hx) as [Hfr2 Hopen2]. unfold ExecContext. rewrite (M_bind_Ret _ _ _ _ _ Hx). eexists _, w2.
  split; [done|]. split.
  { apply apart_isolated. intros t' Ht'. by rewrite Hfr2, Hfr1. }
  destruct r as [n|e]; [|done]. apply (f_equal fst) in Hspec. cbn [fst] in Hspec.
  rewrite (rows_seen_at _ _ _ Hst1), Hr1, Hrows in Hspec. change (mk_row user_cols <$> [user_vals u]) with [user_row u] in Hspec.
  rewrite insert_user in Hspec. destruct Hopen2 as [st2 Hst2]; [by rewrite Hst1|]. rewrite (rows_seen_at _ _ _ Hst2) in Hspec.
  apply (users_view_intro _ _ _ st2); [done|done|by apply upsert_stored|]. by eapply us_insert_events.
Qed.

Lemma sql_Find_spec ctx spec w s : users_view (route ctx) w s →
  ∃ r w', userRepository_Find ctx spec w = (Ret r, w') ∧ quiet users_view w w' ∧
    match r with Ok found => ∀ u, u ∈ found ↔ u ∈ us_users s ∧ user_matches spec u | Err _ => True end.
Proof.
  intros (st & Hst & Hrows & Hall & _)%users_view_seen. unfold userRepository_Find.
  rewrite (table_ToSql (TableSpec := us_table (route ctx))) by apply buildFindQuery_from.
  destruct (table_select (TableSpec := us_table (route ctx)) ctx (buildFindQuery ctx spec) w (buildFindQuery_from ctx spec))
    as (r & w1 & Hx & _ & Hspec). unfold SelectContext. rewrite (M_bind_Ret _ _ _ _ _ Hx). eexists _, w1.
  split; [done|]. split; [apply same_views_quiet, (select_frame _ _ _ _ _ _ Hx)|]. destruct r as [out|e]; [|done].
  destruct Hspec as (rs & (sorted & Hp & _ & ->) & ->). rewrite buildFindQuery_limit, buildFindQuery_cols. cbn [limited].
  rewrite (rows_seen_at _ _ _ Hst), Hrows in Hp.
  rewrite (filter_fmap_pull user_row _ (user_matches spec)) in Hp by (intros u; rewrite bool_is_true; apply eval_buildFindQuery).
  apply (Permutation_map_inv user_row) in Hp as (found & -> & Hf).
  rewrite mapM_scan_users. intros u. rewrite list_elem_of_fmap. rewrite Forall_forall in Hall. split.
  - intros (v & -> & Hv). rewrite <- Hf in Hv. apply list_elem_of_filter in Hv as [Hm Hv]. by rewrite stored_id by auto.
  - intros [Hu Hm]. exists u. split; [by rewrite stored_id by auto|]. rewrite <- Hf. by apply list_elem_of_filter.
Qed.

Lemma sql_FindOne_spec ctx spec w s : users_view (route ctx) w s →
  ∃ r w', userRepository_FindOne ctx spec w = (Ret r, w') ∧ quiet users_view w w' ∧
    match r with
    | Ok u => u ∈ us_users s ∧ user_matches spec u ∧ u_Changes u = []
    | Err e => foreign e ∧ (error_has domain_ErrUserNotFound e = true → ∀ u, u ∈ us_users s → ¬ user_matches spec u)
    end.
Proof.
  intros (st & Hst & Hrows & Hall & _)%users_view_seen. unfold userRepository_FindOne.
  rewrite (table_ToSql (TableSpec := us_table (route ctx))) by apply buildFindQuery_from.
  destruct (table_get (TableSpec := us_table (route ctx)) ctx (sb_limit 1 (buildFindQuery ctx spec)) w (buildFindQuery_from ctx spec))
    as (r & w1 & Hx & _ & Hspec). unfold GetContext. rewrite (M_bind_Ret _ _ _ _ _ Hx). eexists _, w1.
  split; [done|]. split; [apply same_views_quiet, (get_frame _ _ _ _ _ _ Hx)|]. rewrite (rows_seen_at _ _ _ Hst), Hrows in Hspec. destruct r as [out|e].
  - destruct Hspec as (r0 & rs & Hsel & ->). destruct (selects_elem _ _ _ r0 Hsel) as [Hin Hev]; [by left|].
    apply list_elem_of_fmap in Hin as (u & -> & Hu). apply (eval_buildFindQuery ctx) in Hev.
    change (sel_cols (sb_limit 1 (buildFindQuery ctx spec))) with (sel_cols (buildFindQuery ctx spec)).
    rewrite buildFindQuery_cols, scan_user_row. rewrite Forall_forall in Hall. rewrite stored_id by auto. auto.
  - cbn [errors_Is]. destruct (us_get_errors _ _ _ _ _ _ Hx) as [Hnf Hfor].
    destruct (error_has sql_ErrNoRows e) eqn:E; [|by rewrite Hnf]. split; [by repeat constructor|]. intros _ u Hu Hm. apply (eval_buildFindQuery ctx) in Hm.
    assert (eval_where (sel_where (sb_limit 1 (buildFindQuery ctx spec))) (user_row u) = false) as Hf;
      [|change (eval_where (sel_where (buildFindQuery ctx spec)) (user_row u) = false) in Hf; congruence].
    eapply selects_nil; [by apply Hspec|done|by intros n [= <-]|]. by apply list_elem_of_fmap_2.
Qed.

Lemma userRepository_implements : UserRepositorySpec users_view.
Proof. split; [apply sql_NextID_spec|apply sql_Store_spec|apply sql_Find_spec|apply sql_FindOne_spec]. Qed.

Context {HC : HasClock W} {HPE : PasswordEncoder} {HUC : UnicodeCase}.

Lemma sql_quiet : (∀ w, ∃ now w', time_Now w = (Ret now, w') ∧ ∀ t, at_ t w' = at_ t w) → QuietSpec users_view.
Proof.
  intros Hclock. split; intros w.
  - destruct (Hclock w) as (now & w' & Hn & Hv). exists now, w'. split; [done|]. by apply same_views_quiet.
  - destruct (us_uuid w) as (id & w' & Hid & Hv & _ & Hn). exists id, w'. split; [done|]. split; [by apply same_views_quiet|].
    intros t s (st & Hst & _ & _ & He)%users_view_seen. by eapply Hn.
Qed.
End refinement.

(** ** Theorems: the user service over a SQL database *)

Section over_sql.
Context {W S : Type} {HDB : DB W} {HED : EventDispatcher W} {HNU : NewUUID W}.
Context (committed : W → S) (working : W → nat → option S).
Context (rowsOf : S → list (gmap string arg)) (eventsOf : S → list event → Prop).
Context {HTx : TxSpec W S committed working} {HST : UserStore committed working rowsOf eventsOf}.
Context {HC : HasClock W} {HPE : PasswordEncoder} {HUC : UnicodeCase}.
(** A transaction whose commit callback leaves the database alone. *)
Context (t : transaction (W := W)) (Hcommit : quiet_commit committed working t).

(** C39. The SQL layer implements the interfaces the user services are proved
    against, together and on one database: the repository - queries, scans,
    upserts and the dispatch of events - is a repository of users, in a
    transaction as outside, and the transactions of pkg/sql run on what is
    committed and commit all or nothing. *)
Theorem sql_implements_users :
  UserRepositorySpec (users_view committed working rowsOf eventsOf) ∧
  @TransactionSpec W userState (users_view committed working rowsOf eventsOf) (sql_Transaction t).
Proof. split; [by apply userRepository_implements|by apply sql_transaction_implements]. Qed.

(** C38. Registration over the database: for a committed table of users with
    distinct ids and logins, an error commits nothing; success commits the
    registered user - the row that was there, or one more row with a fresh id -
    and no event. *)
Theorem user_Register_over_sql ctx credentials w s (Htx : HasTransaction ctx = false)
    (Hs : stores_users rowsOf eventsOf (committed w) s) (Hdist : users_distinct (us_users s)) :
  ∃ id err w', @user_Register W HUC userRepository (sql_Transaction t) HPE ctx credentials w = (Ret (id, err), w') ∧
    match err with
    | Some e => stores_users rowsOf eventsOf (committed w') s
    | None => ∃ hash s', HashPassword (TrimSpace (cr_Password credentials)) = Ok hash ∧
        stores_users rowsOf eventsOf (committed w') s' ∧
        registered id (ToLower (TrimSpace (cr_Login credentials))) hash s s'
    end.
Proof.
  pose proof (route_outer ctx Htx) as Ho. pose proof (userRepository_implements committed working rowsOf eventsOf) as HR.
  pose proof (sql_transaction_implements committed working (stores_users rowsOf eventsOf) t Hcommit) as HT.
  destruct (@user_Register_spec W HUC userRepository (sql_Transaction t) HPE _ HR HT ctx credentials w s Htx) as (id & err & w' & H & Hspec);
    [by apply tx_view_outer|done|].
  exists id, err, w'. split; [done|]. destruct err as [e|]; [by apply (tx_view_outer committed working _ _ _ _ Ho)|].
  destruct Hspec as (_ & _ & hash & s' & Hh & Hs' & Hreg). exists hash, s'. split; [done|]. split; [|done].
  by apply (tx_view_outer committed working _ _ _ _ Ho).
Qed.

(** Deletion over the database, with its event in the same transaction: an
    error, in the statements as in the commit, leaves the table and the events
    as they were; success commits the row marked as deleted together with one
    event that says so, or changes neither, when the user was not there or
    already deleted. *)
Theorem user_Delete_over_sql ctx id w s (Htx : HasTransaction ctx = false)
    (Hclock : ∀ w, ∃ now w', time_Now w = (Ret now, w') ∧ ∀ t, view committed working t w' = view committed working t w)
    (Hs : stores_users rowsOf eventsOf (committed w) s) (Hdist : users_distinct (us_users s)) :
  match permission_Check ctx (CanDeleteUser id) with
  | Some e => @user_Delete W userRepository (sql_Transaction t) HNU HC ctx id w = (Ret (Some e), w)
  | None => ∃ err w', @user_Delete W userRepository (sql_Transaction t) HNU HC ctx id w = (Ret err, w') ∧
      match err with
      | Some e => stores_users rowsOf eventsOf (committed w') s
      | None => ∃ s', stores_users rowsOf eventsOf (committed w') s' ∧ user_removed id s s'
      end
  end.
Proof.
  pose proof (route_outer ctx Htx) as Ho. pose proof (userRepository_implements committed working rowsOf eventsOf) as HR.
  pose proof (sql_transaction_implements committed working (stores_users rowsOf eventsOf) t Hcommit) as HT.
  pose proof (@user_Delete_spec W userRepository (sql_Transaction t) _ HR HT HNU HC (sql_quiet committed working rowsOf eventsOf Hclock)
    ctx id w s Htx) as Hspec.
  destruct (permission_Check ctx (CanDeleteUser id)) as [e|]; [by apply Hspec; [apply tx_view_outer|]|].
  destruct Hspec as (err & w' & H & Hspec); [by apply tx_view_outer|done|].
  exists err, w'. split; [done|]. destruct err as [e|]; [by apply (tx_view_outer committed working _ _ _ _ Ho)|].
  destruct Hspec as (s' & Hs' & Hrem). exists s'. split; [|done]. by apply (tx_view_outer committed working _ _ _ _ Ho).
Qed.
End over_sql.

(** ** Witnesses: a server with the table of users and the events *)

Abbreviation usersServer := (server (list (gmap string arg) * list event)).
Definition users_DB : DB usersServer := table_server_DB ["id"] (DoUpdate user_set_cols).
Definition users_dispatch : EventDispatcher usersServer := λ ctx es,
  sv_run (route ctx) (λ s, (None, (fst s, foldl add_event (snd s) es))) (Some errTxDone).
Definition logged (s : list (gmap string arg) * list event) (evs : list event) : Prop := snd s = evs.

Definition row_id (r : gmap string arg) : N := match r !! "id" with Some (AUuid u) => u | _ => 0%N end.
Definition all_ids (s : list (gmap string arg) * list event) : list N := (row_id <$> fst s) ++ (ev_ID <$> snd s).
Definition next_uuid : NewUUID usersServer := λ w, (Ret (next_id all_ids w), w).

Lemma users_server_store : @UserStore usersServer _ users_DB users_dispatch next_uuid sv_committed sv_working fst logged.
Proof.
  split.
  - apply server_StatementSpec.
  - intros t. apply (table_server_spec (X := list event)).
  - intros t ctx cols vals w r w' st st' evs Hx Hst Hst' <-. unfold logged.
    apply (server_exec_keeps _ _ _ snd) in Hx; [rewrite Hst, Hst' in Hx; by injection Hx|].
    intros a. by destruct (exec_rows _ _ _ (fst a)).
  - intros ctx es w s evs Hs <-. unfold DispatchEvents, users_dispatch, sv_run.
    assert (sv_at (route ctx) w = Some s) as -> by by destruct (route ctx).
    eexists None, _. split; [done|]. split.
    + intros t' [Hne Ho]. destruct (route ctx) as [n|c|], t'; simplify_eq/=; try done; unfold sv_working; cbn.
      rewrite lookup_insert_ne by congruence. done.
    + intros _. exists (fst s, foldl add_event (snd s) es). split; [|done].
      destruct (route ctx); cbn; unfold sv_working; cbn; by rewrite ?lookup_insert_eq.
  - intros w. eexists _, w. split; [done|]. split; [done|]. split.
    + intros t r Hr Hid. unfold rows_seen in Hr. destruct (view _ _ t w) as [s|] eqn:E; [|by apply elem_of_nil in Hr]. cbn in Hr.
      apply (next_id_fresh all_ids t w s E), elem_of_app. left. apply list_elem_of_fmap. exists r. split; [|done].
      unfold row_id. by rewrite Hid.
    + intros t s evs Hs <- Hin. apply (next_id_fresh all_ids t w s Hs), elem_of_app. by right.
  - intros t ctx q w e w' [= Hq _]. destruct (sv_at t w) as [s|]; cbn in Hq; [|by simplify_eq; repeat constructor].
    unfold get_row in Hq. repeat case_match; simplify_eq; by repeat constructor.
Qed.

Definition sample_server : usersServer := mkServer ([user_row sample_user], []) ∅.
Definition users_tx : transaction (W := usersServer) := mkTransaction "user" None.
Definition users_clock : HasClock usersServer := λ w, (Ret 1000%Z, w).

Lemma users_tx_quiet : quiet_commit sv_committed sv_working users_tx.
Proof. by intros f w Hf. Qed.
Lemma sample_stored : stores_users fst logged (sv_committed sample_server) sample_state.
Proof. by repeat constructor. Qed.

Lemma sql_implements_users_witness :
  @UserRepositorySpec usersServer (@userRepository _ users_DB users_dispatch next_uuid) (users_view sv_committed sv_working fst logged).
Proof.
  exact (proj1 (@sql_implements_users usersServer _ users_DB users_dispatch next_uuid sv_committed sv_working fst logged
    (server_TxSpec _ _ _) users_server_store users_tx users_tx_quiet)).
Defined.

Lemma user_Register_over_sql_witness :
  ∃ id err w', @user_Register usersServer id_case (@userRepository _ users_DB users_dispatch next_uuid) (@sql_Transaction _ users_DB users_tx)
    plain_encoder context_Background (mkCredentials " Bob" "pw") sample_server = (Ret (id, err), w') ∧
    (err = None → ∃ s', stores_users fst logged (sv_committed w') s' ∧ users_distinct (us_users s')).
Proof.
  destruct (@user_Register_over_sql usersServer _ users_DB users_dispatch next_uuid sv_committed sv_working fst logged
    (server_TxSpec _ _ _) users_server_store plain_encoder id_case users_tx users_tx_quiet context_Background (mkCredentials " Bob" "pw")
    sample_server sample_state eq_refl sample_stored sample_distinct) as (id & err & w' & H & Hspec).
  exists id, err, w'. split; [exact H|]. intros ->. destruct Hspec as (hash & s' & _ & Hs' & _ & Hd & _). by exists s'.
Defined.

Lemma user_Delete_over_sql_witness :
  ∃ err w', @user_Delete usersServer (@userRepository _ users_DB users_dispatch next_uuid) (@sql_Transaction _ users_DB users_tx)
    next_uuid users_clock user_5 5 sample_server = (Ret err, w') ∧
    (err = None → ∃ e, snd (sv_committed w') = [EventUserDeleted e 5]).
Proof.
  destruct (@user_Delete_over_sql usersServer _ users_DB users_dispatch next_uuid sv_committed sv_working fst logged
    (server_TxSpec _ _ _) users_server_store users_clock users_tx users_tx_quiet user_5 5 sample_server sample_state eq_refl
    (λ w, ex_intro _ _ (ex_intro _ w (conj eq_refl (λ t, eq_refl)))) sample_stored sample_distinct) as (err & w' & H & Hspec).
  exists err, w'. split; [exact H|]. intros ->. destruct Hspec as (s' & (_ & _ & ->) & [[_ Hno]|(u & now & e & _ & _ & _ & _ & He & _)]).
  - by destruct (Hno sample_user (list_elem_of_here _ _) eq_refl eq_refl).
  - exists e. exact He.
Defined.
