(* ===== verification/Database.v ===== *)
(** pkg/sql/database.go: opening the database - the driver (sqlx over lib/pq)
    and the backoff policy are parameters -, and the provider of
    internal/pkg/cmd/container.go that configures it from the environment. *)
From S2P Require Import Prelude Context Message Parsing.

(** ** Configuration *)

Definition defaultConnectionTimeout : duration := (10 * time_Second)%Z.

Record DSN := mkDSN { dsn_User : string; dsn_Password : string; dsn_Address : string; dsn_Database : string }.
Record Config := mkConfig {
  cfg_DSN : DSN;
  MaxOpenConnections : Z;
  MaxIdleConnections : Z;
  ConnectionTimeout : duration;
}.

Definition DSN_String (d : DSN) : string :=
  "postgresql://" +:+ dsn_User d +:+ ":" +:+ dsn_Password d +:+ "@" +:+ dsn_Address d +:+ "/" +:+ dsn_Database d +:+ "?sslmode=disable".

(** ** What it is built on *)

(** [*sqlx.DB], known by its handle; squirrel's statement builder is a global of
    the process. *)
Class Sqlx (W : Type) := {
  sqlx_Open : string → string → M W (result nat);
  PingContext : nat → context → M W (option error);
  sqlx_Close : nat → M W (option error);
  SetMaxOpenConns : nat → Z → M W unit;
  SetMaxIdleConns : nat → Z → M W unit;
  PlaceholderFormat_Dollar : M W unit;
}.

(** [backoff.NewExponentialBackOff] with its options, and retrying by it. *)
Record ExponentialBackOff := mkBackOff {
  InitialInterval : duration;
  Multiplier : Z;
  MaxInterval : duration;
  MaxElapsedTime : duration;
}.
Class BackoffPolicy (W : Type) := policy_Retry : ExponentialBackOff → Backoff W.
Class BackoffPolicyLaws (W : Type) `{!BackoffPolicy W} : Prop := policy_laws eb :: @BackoffLaws W (policy_Retry eb).

(** ** Opening *)

Section database.
Context {W : Type} `{!Sqlx W, !BackoffPolicy W}.

Definition connection_backoff (timeout : duration) : ExponentialBackOff :=
  mkBackOff time_Second 2 (Z.quot timeout 4) timeout.

Definition openConnection (ctx : context) (config : Config) : M W (result nat) :=
  r ← sqlx_Open "postgres" (DSN_String (cfg_DSN config));
  match r with
  | Err e => mret (Err e)
  | Ok db =>
      err ← policy_Retry (connection_backoff (ConnectionTimeout config)) ctx (PingContext db ctx);
      match err with
      | Some e => _ ← sqlx_Close db; mret (Err e)
      | None => mret (Ok db)
      end
  end.

(** [sync.Once] of the process: the flag beside the world. *)
Definition enablePostgreSQLSquirrelPlaceholderFormat : M (bool * W) unit :=
  done ← get_obj;
  if (done : bool) then mret tt else _ ← modify_obj (λ _, true); on_env PlaceholderFormat_Dollar.

(** [NewDatabase] writes the default timeout to the configuration it was given. *)
Definition with_default_timeout (config : Config) : Config :=
  if (ConnectionTimeout config <=? 0)%Z
  then mkConfig (cfg_DSN config) (MaxOpenConnections config) (MaxIdleConnections config) defaultConnectionTimeout
  else config.
Definition NewDatabase (ctx : context) (config : Config) : M (bool * W) (result nat) :=
  let config := with_default_timeout config in
  r ← on_env (openConnection ctx config);
  match r with
  | Err e => mret (Err e)
  | Ok db =>
      _ ← on_env (SetMaxOpenConns db (MaxOpenConnections config));
      _ ← on_env (SetMaxIdleConns db (MaxIdleConnections config));
      _ ← enablePostgreSQLSquirrelPlaceholderFormat;
      mret (Ok db)
  end.
Definition database_Close (db : nat) : M W (option error) := sqlx_Close db.
End database.

(** ** The provider: the environment, the flag and the world *)

Section provider.
Context {W : Type} `{!Sqlx W, !BackoffPolicy W, !ParseLib} (error_Error : error → string).

(** [env.Must(env.Parse[string](key))], [env.Must(env.Parse[int](key))] and the
    optional duration *)
Definition must_env_string (key : string) : M (gmap string string) string :=
  v ← env_Must error_Error (env_Parse (mkType false BString) key);
  match v with VString s => mret s | _ => panic interfaceConversion end.
Definition must_env_int (key : string) : M (gmap string string) Z :=
  v ← env_Must error_Error (env_Parse (mkType false BInt) key);
  match v with VInt z => mret z | _ => panic interfaceConversion end.
Definition must_env_optional_duration (key : string) : M (gmap string string) (option duration) :=
  v ← env_Must error_Error (env_ParseOptional (mkType true BDuration) key);
  match v with
  | None => mret None
  | Some (VPtr (VDuration d)) => mret (Some d)
  | Some _ => panic interfaceConversion
  end.

Definition sql_config : M (gmap string string) Config :=
  user ← must_env_string "SQL_USER";
  password ← must_env_string "SQL_PASSWORD";
  address ← must_env_string "SQL_ADDRESS";
  database ← must_env_string "SQL_DATABASE";
  maxOpen ← must_env_int "SQL_MAX_OPEN_CONNECTIONS";
  maxIdle ← must_env_int "SQL_MAX_IDLE_CONNECTIONS";
  timeout ← must_env_optional_duration "SQL_CONNECTION_TIMEOUT";
  mret (mkConfig (mkDSN user password address database) maxOpen maxIdle (default 0%Z timeout)).

(** [sqlDatabaseProvider] *)
Definition sqlDatabaseProvider (ctx : context) : M (gmap string string * (bool * W)) nat :=
  config ← (λ '(e, w), let '(r, e') := sql_config e in (r, (e', w)));
  r ← on_env (NewDatabase ctx config);
  match r with
  | Err e => panic (error_Error (Errorf "open sql connection" e))
  | Ok db => mret db
  end.
End provider.

(** ** What the driver is relied on for *)

(** [opened]: the handles that are open; [limits]: what was last asked for a handle;
    [dollar]: the placeholder format was set.  Every operation returns. *)
Class SqlxSpec {W} `{!Sqlx W} (opened : W → gset nat) (limits : W → nat → Z * Z) (dollar : W → bool) : Prop := {
  open_spec driver dsn w : ∃ r w', sqlx_Open driver dsn w = (Ret r, w') ∧ dollar w' = dollar w ∧
    match r with Ok db => (db ∉ opened w) ∧ opened w' = {[db]} ∪ opened w | Err _ => opened w' = opened w end;
  ping_spec db ctx w : ∃ r w', PingContext db ctx w = (Ret r, w') ∧ opened w' = opened w ∧ dollar w' = dollar w;
  close_spec db w : ∃ r w', sqlx_Close db w = (Ret r, w') ∧ opened w' = opened w ∖ {[db]} ∧ dollar w' = dollar w;
  max_open_spec db n w : ∃ w', SetMaxOpenConns db n w = (Ret tt, w') ∧ opened w' = opened w ∧ dollar w' = dollar w ∧
    fst (limits w' db) = n;
  max_idle_spec db n w : ∃ w', SetMaxIdleConns db n w = (Ret tt, w') ∧ opened w' = opened w ∧ dollar w' = dollar w ∧
    limits w' db = (fst (limits w db), n);
  dollar_spec w : ∃ w', PlaceholderFormat_Dollar w = (Ret tt, w') ∧ opened w' = opened w ∧ (∀ db, limits w' db = limits w db) ∧ dollar w' = true;
}.
(** Retrying an operation that returns ends: the elapsed time is bounded. *)
Definition policy_returns {W} `{!BackoffPolicy W} : Prop := ∀ eb ctx (op : M W (option error)) w,
  (∀ w, ∃ r w', op w = (Ret r, w')) → ∃ r w', policy_Retry eb ctx op w = (Ret r, w').

Section theorems.
Context {W : Type} {HX : Sqlx W} {HB : BackoffPolicy W} {HBL : BackoffPolicyLaws W}.
Context (opened : W → gset nat) (limits : W → nat → Z * Z) (dollar : W → bool) {HS : SqlxSpec opened limits dollar}.
Context (Hret : policy_returns).

Lemma config_timeout_pos config : (0 < ConnectionTimeout (with_default_timeout config))%Z.
Proof. unfold with_default_timeout. destruct (Z.leb_spec (ConnectionTimeout config) 0); cbn; unfold defaultConnectionTimeout, time_Second; lia. Qed.

Lemma retry_opened eb db ctx w : ∃ r w', policy_Retry eb ctx (PingContext db ctx) w = (Ret r, w') ∧ opened w' = opened w ∧ dollar w' = dollar w.
Proof.
  destruct (Hret eb ctx (PingContext db ctx) w) as (r & w' & Hr).
  { intros w0. destruct (ping_spec (opened := opened) (dollar := dollar) db ctx w0) as (r & w' & H & _). by exists r, w'. }
  exists r, w'. split; [done|].
  refine (@retry_keeps W (policy_Retry eb) _ (λ w', opened w' = opened w ∧ dollar w' = dollar w) ctx _ _ w r w' _ Hr); [|done].
  intros w0 r0 w1 [H1 H2] Hp. destruct (ping_spec (opened := opened) (dollar := dollar) db ctx w0) as (r1 & w2 & Hp' & Ho & Hd).
  rewrite Hp in Hp'. injection Hp' as -> ->. by rewrite Ho, Hd.
Qed.

Lemma openConnection_spec ctx config w : ∃ r w', openConnection ctx config w = (Ret r, w') ∧ dollar w' = dollar w ∧
  match r with Ok db => (db ∉ opened w) ∧ opened w' = {[db]} ∪ opened w | Err _ => opened w' = opened w end.
Proof.
  unfold openConnection. destruct (open_spec (opened := opened) (dollar := dollar) "postgres" (DSN_String (cfg_DSN config)) w) as (r & w1 & Ho & Hd1 & H1).
  rewrite (M_bind_Ret _ _ _ _ _ Ho). destruct r as [db|e]; [|by exists (Err e), w1]. destruct H1 as [Hnew H1].
  destruct (retry_opened (connection_backoff (ConnectionTimeout config)) db ctx w1) as (r & w2 & Hr & H2 & Hd2).
  rewrite (M_bind_Ret _ _ _ _ _ Hr). destruct r as [e|].
  - destruct (close_spec (opened := opened) (dollar := dollar) db w2) as (r & w3 & Hc & H3 & Hd3). rewrite (M_bind_Ret _ _ _ _ _ Hc).
    exists (Err e), w3. split; [done|]. split; [congruence|]. rewrite H3, H2, H1. set_solver.
  - exists (Ok db), w2. split; [done|]. split; [congruence|]. split; [done|congruence].
Qed.

Lemma NewDatabase_opened ctx config done w : (done = true → dollar w = true) →
  ∃ r done' w', NewDatabase ctx config (done, w) = (Ret r, (done', w')) ∧ (done' = true → dollar w' = true) ∧
    match r with
    | Ok db => (db ∉ opened w) ∧ opened w' = {[db]} ∪ opened w ∧ dollar w' = true ∧
        limits w' db = (MaxOpenConnections config, MaxIdleConnections config)
    | Err _ => opened w' = opened w
    end.
Proof.
  intros Hdone. unfold NewDatabase.
  destruct (openConnection_spec ctx (with_default_timeout config) w) as (r & w1 & Ho & Hd1 & H1).
  rewrite (M_bind_Ret _ _ _ r (done, w1)) by (unfold on_env; by rewrite Ho).
  destruct r as [db|e]; [|exists (Err e), done, w1; by rewrite Hd1]. destruct H1 as [Hnew H1].
  replace (MaxOpenConnections (with_default_timeout config)) with (MaxOpenConnections config) by (unfold with_default_timeout; by case_match).
  replace (MaxIdleConnections (with_default_timeout config)) with (MaxIdleConnections config) by (unfold with_default_timeout; by case_match).
  destruct (max_open_spec (opened := opened) (limits := limits) (dollar := dollar) db (MaxOpenConnections config) w1) as (w2 & Hx & H2 & Hd2 & Hl2).
  rewrite (M_bind_Ret _ _ _ tt (done, w2)) by (unfold on_env; by rewrite Hx).
  destruct (max_idle_spec (opened := opened) (limits := limits) (dollar := dollar) db (MaxIdleConnections config) w2) as (w3 & Hi & H3 & Hd3 & Hl3).
  rewrite (M_bind_Ret _ _ _ tt (done, w3)) by (unfold on_env; by rewrite Hi). rewrite Hl2 in Hl3.
  unfold enablePostgreSQLSquirrelPlaceholderFormat. unfold_M. destruct done.
  - exists (Ok db), true, w3. assert (dollar w3 = true) as Hd by (rewrite Hd3, Hd2, Hd1; by apply Hdone). split_and!; [done..|congruence|done|done].
  - unfold on_env. destruct (dollar_spec (opened := opened) (limits := limits) (dollar := dollar) w3) as (w4 & Hp & H4 & Hl4 & Hd4). rewrite Hp.
    exists (Ok db), true, w4. split_and!; [done..|congruence|done|by rewrite Hl4].
Qed.

(** Opening the database leaves a connection open exactly when it succeeds:
    whether the driver refuses the address or the server never answers a ping
    within the backoff, an error leaves no handle open; on success exactly the
    returned handle is, new, given the limits of the configuration, and the
    placeholder format is set, now or by an earlier call.  A timeout that is not
    positive is the default, so that the backoff is never without a bound. *)
Theorem NewDatabase_spec ctx config done w (Hdone : done = true → dollar w = true) :
  (0 < ConnectionTimeout (with_default_timeout config))%Z ∧
  ∃ r done' w', NewDatabase ctx config (done, w) = (Ret r, (done', w')) ∧ (done' = true → dollar w' = true) ∧
    match r with
    | Ok db => (db ∉ opened w) ∧ opened w' = {[db]} ∪ opened w ∧ dollar w' = true ∧
        limits w' db = (MaxOpenConnections config, MaxIdleConnections config)
    | Err _ => opened w' = opened w
    end.
Proof. split; [apply config_timeout_pos|by apply NewDatabase_opened]. Qed.
End theorems.

(** ** Witness: a driver that answers the second ping *)

Record driverWorld := mkDriver { dr_opened : gset nat; dr_limits : nat → Z * Z; dr_dollar : bool; dr_pings : nat }.
Definition sample_Sqlx : Sqlx driverWorld := {|
  sqlx_Open := λ _ _ w, (Ret (Ok (fresh (dr_opened w))), mkDriver ({[fresh (dr_opened w)]} ∪ dr_opened w) (dr_limits w) (dr_dollar w) (dr_pings w));
  PingContext := λ _ _ w, (Ret (if 1 <=? dr_pings w then None else Some (ErrText "refused")), mkDriver (dr_opened w) (dr_limits w) (dr_dollar w) (S (dr_pings w)));
  sqlx_Close := λ db w, (Ret None, mkDriver (dr_opened w ∖ {[db]}) (dr_limits w) (dr_dollar w) (dr_pings w));
  SetMaxOpenConns := λ db n w, (Ret tt, mkDriver (dr_opened w) (λ k, if k =? db then (n, snd (dr_limits w k)) else dr_limits w k) (dr_dollar w) (dr_pings w));
  SetMaxIdleConns := λ db n w, (Ret tt, mkDriver (dr_opened w) (λ k, if k =? db then (fst (dr_limits w k), n) else dr_limits w k) (dr_dollar w) (dr_pings w));
  PlaceholderFormat_Dollar := λ w, (Ret tt, mkDriver (dr_opened w) (dr_limits w) true (dr_pings w));
|}.
Lemma sample_SqlxSpec : @SqlxSpec _ sample_Sqlx dr_opened dr_limits dr_dollar.
Proof.
  split; intros; try (by eexists _, _).
  - eexists _, _. split; [done|]. split; [done|]. split; [apply is_fresh|done].
  - eexists. split; [done|]. cbn. by rewrite Nat.eqb_refl.
  - eexists. split; [done|]. cbn. by rewrite Nat.eqb_refl.
  - eexists. done.
Qed.

Definition stop_policy : BackoffPolicy driverWorld := λ _, stopBackOff driverWorld.
Lemma stop_policy_laws : @BackoffPolicyLaws _ stop_policy.
Proof. intros eb. apply stopBackOff_laws. Qed.
Lemma stop_policy_returns : @policy_returns _ stop_policy.
Proof. intros eb ctx op w Hop. unfold policy_Retry, stop_policy, stopBackOff. destruct (Hop w) as (r & w' & Hr). rewrite (M_bind_Ret _ _ _ _ _ Hr). by eexists _, w'. Qed.

Definition sample_config : Config := mkConfig (mkDSN "u" "p" "localhost" "db") 10 2 0.
Definition closed_world : driverWorld := mkDriver ∅ (λ _, (0, 0)%Z) false 1.

Lemma NewDatabase_spec_witness :
  ∃ r done' w', @NewDatabase _ sample_Sqlx stop_policy context_Background sample_config (false, closed_world) = (Ret r, (done', w')) ∧
    match r with Ok db => dr_opened w' = {[db]} ∪ ∅ ∧ dr_limits w' db = (10, 2)%Z | Err _ => dr_opened w' = ∅ end.
Proof.
  destruct (@NewDatabase_spec _ sample_Sqlx stop_policy stop_policy_laws dr_opened dr_limits dr_dollar sample_SqlxSpec stop_policy_returns
    context_Background sample_config false closed_world ltac:(discriminate)) as (_ & r & done' & w' & H & _ & Hr).
  exists r, done', w'. split; [exact H|]. destruct r as [db|e]; [|exact Hr]. destruct Hr as (_ & Ho & _ & Hl). by split.
Defined.
