(* ===== verification/EventOutbox.v ===== *)
(** The events of the user service on their way out: the event dispatcher of
    internal/user/container.go over the bus producer of
    internal/pkg/cmd/container.go over the message storage, as the event
    dispatcher of the repository of users - the transactional outbox. *)
From S2P Require Import Prelude GoStrings Context Message Sql Persistence Table MessageStorage Bus Http HttpParser Lazy User UserRepo.

(** ** Wiring *)

Definition user_domain_Name : string := "user".
Definition TopicDomainEventUser `{!Kebab} : Topic := NewTopicDomainEvent user_domain_Name user_aggregate [].

(** An event as the message it is; [event_Value] is what [json.Marshal] sees of
    its struct. *)
Definition event_message (event_Value : event → string) (e : event) : StructuredMessage :=
  mkStructured (ev_reflectType e) (ev_ID e) (ev_type e) (ev_AggregateID e) (event_Value e).

Section wiring.
Context {W : Type} `{!MessageJSON, !Kebab, !Storage W, !HasClock W, !LogSink W, !Metrics W}.
Context (error_Error : error → string) (uuid_String : uuid → string) (show_time : option time → string).
Context (event_Value : event → string).

(** [messageBusProducerProvider] *)
Definition busProducer_opts (o : observer) (logger : Logger) : list (BusProducerConfig W → BusProducerConfig W) :=
  [WithBusProducerObservability o [FieldRequestID]; WithBusProducerMetrics;
   WithBusProducerLogging error_Error uuid_String show_time logger LevelDebug LevelWarn].
Definition messageBusProducerProvider (o : observer) (logger : Logger) : busProducerImpl W := NewBus (busProducer_opts o logger).

(** [eventDispatcherProvider] of internal/user *)
Definition blank_EventUserDeleted : StructuredMessage := event_message event_Value (EventUserDeleted uuid_Nil uuid_Nil).
Definition user_topicMessages : list (Topic * list (StructuredMessage * option KeyBuilder)) :=
  [(TopicDomainEventUser, [RegisterEvent uuid_String blank_EventUserDeleted])].
Definition user_eventDispatcherProvider (bus : busProducerImpl W) : outcome (busProducerImpl W) :=
  match bus_Register scheduled_producerImpl user_topicMessages [] bus with
  | (_, Some e) => Panic (error_Error (Errorf "register user messages" e))
  | (bus, None) => Ret bus
  end.

(** [eventDispatcher.Dispatch], as the repository's [event.Dispatcher] *)
Definition bus_dispatcher (bus : busProducerImpl W) : EventDispatcher W := λ ctx es,
  eventDispatcher_Dispatch bus ctx (event_message event_Value <$> es).
End wiring.

(** ** The events in the outbox *)

Section outbox_events.
Context `{!MessageJSON}.
Context (uuid_String : uuid → string) (event_Value : event → string) (topic : Topic).

(** The message that carries an event. *)
Definition carries (m : StructuredMessage) (msg : Message) : Prop :=
  msg_ID msg = sm_ID m ∧ msg_Topic msg = topic ∧ msg_Key msg = uuid_String (sm_AggregateID m) ∧
  ∃ meta, Serialize m meta = Ok (msg_Payload msg).

Abbreviation carries_event e msg := (carries (event_message event_Value e) msg).

(** The stored messages of the topic carry the events, one each and in order;
    [others] are the messages of other topics. *)
Definition in_topic (e : time * Message) : Prop := msg_Topic (snd e) = topic.
#[export] Instance in_topic_dec e : Decision (in_topic e).
Proof. unfold in_topic. apply _. Defined.
Definition outbox_holds (others stored : list (time * Message)) (evs : list event) : Prop :=
  Forall2 (λ ev e, carries_event ev (snd e)) evs (filter in_topic stored) ∧
  filter (λ e, ¬ in_topic e) stored = others.

Lemma carried_ids evs es : Forall2 (λ ev (e : time * Message), carries_event ev (snd e)) evs es →
  ev_ID <$> evs = (λ e, msg_ID (snd e)) <$> es.
Proof. induction 1 as [|ev e evs es (Hid & _) _ IH]; [done|]. rewrite !fmap_cons, IH. by rewrite Hid. Qed.

(** Storing the message of an event adds the event, unless it is there. *)
Lemma outbox_store others stored evs at_ ev msg :
  outbox_holds others stored evs → carries_event ev msg → outbox_holds others (store_one at_ stored msg) (add_event evs ev).
Proof.
  intros [Hall Hothers] Hc. pose proof (carried_ids _ _ Hall) as Hids. destruct Hc as (Hid & Ht & Hk & Hp).
  assert (Hex : Exists (λ e, same_message msg (snd e)) stored ↔ ev_ID ev ∈ ev_ID <$> evs).
  { rewrite Hids, Exists_exists, list_elem_of_fmap. unfold same_message. setoid_rewrite list_elem_of_filter. unfold in_topic.
    rewrite Ht. cbn in Hid. split; [intros (e & He & H1 & H2)|intros (e & H1 & H2 & He)]; exists e; (split_and!; [congruence..|]); done. }
  unfold store_one, add_event. destruct (decide _) as [Hx|Hx].
  - rewrite bool_decide_eq_true_2 by by apply Hex. done.
  - rewrite bool_decide_eq_false_2 by by rewrite <- Hex. split; rewrite filter_app.
    + apply Forall2_app; [done|]. rewrite filter_cons_True by done. rewrite filter_nil. by repeat constructor.
    + rewrite Hothers, filter_cons_False, filter_nil by (by intros Hn). by rewrite app_nil_r.
Qed.

Lemma add_event_elem evs ev : ev_ID ev ∈ ev_ID <$> add_event evs ev.
Proof. unfold add_event. case_bool_decide; [done|]. rewrite fmap_app, elem_of_app. right. by apply list_elem_of_singleton. Qed.
Lemma add_event_idemp evs ev : add_event (add_event evs ev) ev = add_event evs ev.
Proof. unfold add_event at 1. by rewrite bool_decide_eq_true_2 by apply add_event_elem. Qed.
Lemma add_event_replicate n evs ev : foldl add_event evs (replicate (S n) ev) = add_event evs ev.
Proof. revert evs. induction n as [|n IH]; intros evs; [done|]. change (foldl add_event (add_event evs ev) (replicate (S n) ev) = add_event evs ev).
  by rewrite IH, add_event_idemp. Qed.
End outbox_events.

(** ** The database with the table of users and the message storage *)

Section refinement.
Context {W S : Type} {HDB : DB W} {HNU : NewUUID W} {HC : HasClock W} {HL : LogSink W} {HMt : Metrics W}.
Context (committed : W → S) (working : W → nat → option S).
Context (rowsOf outboxOf : S → list (gmap string arg)).
Abbreviation at_ := (view committed working).

(** Nobody sees that the operation ran. *)
Definition unseen {A} (m : M W A) : Prop := ∀ w, ∃ a w', m w = (Ret a, w') ∧ ∀ t, at_ t w' = at_ t w.

(** The UUIDs of a table's rows, in the column [id]. *)
Definition has_id (id : uuid) (rows : list (gmap string arg)) : Prop := ∃ r, r ∈ rows ∧ r !! "id" = Some (AUuid id).

Class OutboxStore : Prop := {
  ob_statements :: StatementSpec W S committed working;
  ob_users t :: UserTable t (rows_seen committed working rowsOf t);
  ob_messages t :: MessageTable t (rows_seen committed working outboxOf t);
  ob_insert_user t ctx cols vals w r w' : db_exec t ctx (SInsert user_table cols vals user_conflict) w = (r, w') →
    outboxOf <$> at_ t w' = outboxOf <$> at_ t w;
  ob_insert_message t ctx cols vals w r w' : db_exec t ctx (SInsert message_table cols vals message_conflict) w = (r, w') →
    rowsOf <$> at_ t w' = rowsOf <$> at_ t w;
  ob_uuid w : ∃ id w', uuid_New w = (Ret id, w') ∧ (∀ t, at_ t w' = at_ t w) ∧
    ∀ t st, at_ t w = Some st → ¬ has_id id (rowsOf st) ∧ ¬ has_id id (outboxOf st);
  ob_get_errors t ctx q w e w' : db_get t ctx q w = (Ret (Err e), w') → error_has domain_ErrUserNotFound e = false ∧ foreign e;
  ob_clock : unseen time_Now;
  ob_emit level fields msg : unseen (emit level fields msg);
  ob_increment fields metric : unseen (Increment fields metric);
}.

Context {HJ : MessageJSON} {HK : Kebab}.
Context (error_Error : error → string) (uuid_String : uuid → string) (show_time : option time → string) (event_Value : event → string).
Context (others : list (time * Message)).

(** The events the message storage holds. *)
Definition outboxEvents (st : S) (evs : list event) : Prop :=
  ∃ stored, outboxOf st = stored_row <$> stored ∧ outbox_holds uuid_String event_Value TopicDomainEventUser others stored evs.

(** An operation that dispatches events on the target of the context: it
    returns, touches nothing else, and on success has added them. *)
Definition dispatches (ctx : context) (es : list event) (m : M W (option error)) : Prop :=
  ∀ w st evs, at_ (route ctx) w = Some st → outboxEvents st evs → ∃ err w', m w = (Ret err, w') ∧
    (∀ t', apart (route ctx) t' → at_ t' w' = at_ t' w) ∧
    (err = None → ∃ st', at_ (route ctx) w' = Some st' ∧ rowsOf st' = rowsOf st ∧ outboxEvents st' (foldl add_event evs es)).

Lemma dispatches_none ctx : dispatches ctx [] (mret None).
Proof. intros w st evs Hst He. exists None, w. split; [done|]. split; [done|]. intros _. by exists st. Qed.
Lemma dispatches_error ctx es e : dispatches ctx es (mret (Some e)).
Proof. intros w st evs Hst He. by exists (Some e), w. Qed.

Lemma dispatches_seq ctx es1 es2 m1 m2 : dispatches ctx es1 m1 → dispatches ctx es2 m2 →
  dispatches ctx (es1 ++ es2) (err ← m1; match err with Some e => mret (Some e) | None => m2 end).
Proof.
  intros H1 H2 w st evs Hst He. destruct (H1 w st evs Hst He) as (err & w1 & Hm1 & Hf1 & Hr1). rewrite (M_bind_Ret _ _ _ _ _ Hm1).
  destruct err as [e|]; [by exists (Some e), w1|]. destruct (Hr1 eq_refl) as (st1 & Hst1 & Hrows1 & He1).
  destruct (H2 w1 st1 _ Hst1 He1) as (err & w2 & Hm2 & Hf2 & Hr2). exists err, w2. split; [done|]. split.
  - intros t' Ht'. by rewrite Hf2, Hf1.
  - intros Hnone. destruct (Hr2 Hnone) as (st2 & Hst2 & Hrows2 & He2). exists st2. split; [done|]. split; [congruence|]. by rewrite foldl_app.
Qed.

(** Naming the error, and what runs before and after unseen. *)
Lemma dispatches_named ctx es m msg : dispatches ctx es m → dispatches ctx es (err ← m; mret (Errorf msg <$> err)).
Proof.
  intros H w st evs Hst He. destruct (H w st evs Hst He) as (err & w1 & Hm & Hf & Hr). rewrite (M_bind_Ret _ _ _ _ _ Hm).
  eexists _, w1. split; [done|]. split; [done|]. destruct err as [e|]; [done|]. intros _. by apply Hr.
Qed.
Lemma dispatches_after ctx es m (hook : option error → M W unit) :
  (∀ err, unseen (hook err)) → dispatches ctx es m → dispatches ctx es (err ← m; _ ← hook err; mret err).
Proof.
  intros Hhook H w st evs Hst He. destruct (H w st evs Hst He) as (err & w1 & Hm & Hf & Hr). rewrite (M_bind_Ret _ _ _ _ _ Hm).
  destruct (Hhook err w1) as ([] & w2 & Hh & Hv). rewrite (M_bind_Ret _ _ _ _ _ Hh). exists err, w2. split; [done|]. split.
  - intros t' Ht'. by rewrite Hv, Hf.
  - intros Hnone. destruct (Hr Hnone) as (st1 & Hst1 & ?). exists st1. by rewrite Hv.
Qed.
Lemma dispatches_before {A} ctx es (pre : M W A) (m : A → M W (option error)) :
  unseen pre → (∀ a, dispatches ctx es (m a)) → dispatches ctx es (a ← pre; m a).
Proof.
  intros Hpre H w st evs Hst He. destruct (Hpre w) as (a & w1 & Ha & Hv). rewrite (M_bind_Ret _ _ _ _ _ Ha).
  destruct (H a w1 st evs) as (err & w2 & Hm & Hf & Hr); [by rewrite Hv|done|]. exists err, w2. split; [done|]. split; [|done].
  intros t' Ht'. by rewrite Hf, Hv.
Qed.

Context {HOS : OutboxStore}.

Lemma log_unseen l ctx level msg : unseen (logger_Log l (Some ctx) level msg).
Proof.
  intros w. destruct (logger_Log_ctx l ctx level msg w) as [->|[fields ->]]; [by eexists _, w|]. apply ob_emit.
Qed.

Lemma message_store ctx at_ msg w st stored : view committed working (route ctx) w = Some st → outboxOf st = stored_row <$> stored →
  ∃ err w', MessageStorage_Store ctx at_ [msg] w = (Ret err, w') ∧ (∀ t', apart (route ctx) t' → view committed working t' w' = view committed working t' w) ∧
    (err = None → ∃ st', view committed working (route ctx) w' = Some st' ∧ rowsOf st' = rowsOf st ∧ outboxOf st' = stored_row <$> store_one at_ stored msg).
Proof.
  intros Hst Hrows. cbn [MessageStorage_Store].
  rewrite (table_ToSql_insert (TableSpec := ob_messages (route ctx))) by done.
  destruct (table_insert (TableSpec := ob_messages (route ctx)) ctx message_cols (message_vals at_ <$> [msg]) w) as (r & w1 & Hx & Hspec); [done|].
  destruct (exec_frame _ _ _ _ _ _ Hx) as [Hfr Hopen]. unfold ExecContext. rewrite (M_bind_Ret _ _ _ _ _ Hx). eexists _, w1.
  split; [done|]. split; [done|]. destruct r as [n|e]; [|done]. intros _. destruct Hopen as [st1 Hst1]; [by rewrite Hst|].
  exists st1. split; [done|]. pose proof (ob_insert_message _ _ _ _ _ _ _ Hx) as Hu. rewrite Hst, Hst1 in Hu. split; [by injection Hu|].
  apply (f_equal fst) in Hspec. cbn [fst] in Hspec. rewrite (rows_seen_at _ _ _ _ _ _ Hst1), (rows_seen_at _ _ _ _ _ _ Hst) in Hspec.
  rewrite Hspec, Hrows. apply (insert_rows_stored at_ [msg] stored).
Qed.

Lemma scheduled_dispatches ctx ev at_ msg :
  carries uuid_String TopicDomainEventUser (event_message event_Value ev) msg →
  dispatches ctx [ev] (scheduled_producerImpl ctx msg at_).
Proof.
  intros Hc. unfold scheduled_producerImpl. apply dispatches_before; [apply ob_clock|]. intros now. apply dispatches_named.
  intros w st evs Hst (stored & Hrows & Hh). destruct (message_store ctx (default now at_) msg w st stored Hst Hrows) as (err & w' & Hs & Hf & Hr).
  exists err, w'. split; [exact Hs|]. split; [done|]. intros Hnone. destruct (Hr Hnone) as (st' & Hst' & Hru & Hro).
  exists st'. split; [done|]. split; [done|]. eexists. split; [exact Hro|]. by apply outbox_store.
Qed.

(** What a registration of the event makes of the bus. *)
Abbreviation opts o logger := (busProducer_opts error_Error uuid_String show_time o logger).
Abbreviation user_bus o logger :=
  (user_eventDispatcherProvider error_Error uuid_String event_Value (messageBusProducerProvider error_Error uuid_String show_time o logger)).
Definition user_producer (o : observer) (logger : Logger) : BusProduce W :=
  buildProducer scheduled_producerImpl (baseConfig (NewBus (opts o logger)))
    (snd (RegisterEvent uuid_String (blank_EventUserDeleted event_Value))).

Lemma user_bus_registered o logger bus : user_bus o logger = Ret bus →
  bus_ok bus ∧ messageTopics bus = {["domain.EventUserDeleted" := [TopicDomainEventUser]]} ∧
  producers bus = {[(TopicDomainEventUser, "domain.EventUserDeleted") := user_producer o logger]}.
Proof.
  intros [= <-]. split; [|done].
  apply (register_topics_ok scheduled_producerImpl (user_topicMessages uuid_String event_Value)
    (baseConfig (messageBusProducerProvider error_Error uuid_String show_time o logger))
    (messageBusProducerProvider error_Error uuid_String show_time o logger)). by intros ???.
Qed.

Lemma dispatches_ext ctx es (m m' : M W (option error)) : (∀ w, m w = m' w) → dispatches ctx es m' → dispatches ctx es m.
Proof. intros Heq H w. rewrite Heq. apply H. Qed.

Lemma dispatches_same ctx es es' m : (∀ evs, foldl add_event evs es = foldl add_event evs es') → dispatches ctx es m → dispatches ctx es' m.
Proof. intros Heq H w st evs. rewrite <- Heq. apply H. Qed.

Lemma producer_dispatches o logger ctx at_ ev : ev_reflectType ev = "domain.EventUserDeleted" →
  dispatches ctx [ev] (user_producer o logger ctx TopicDomainEventUser (event_message event_Value ev) at_).
Proof.
  intros Hty. unfold user_producer, buildProducer. cbn [foldr NewBus baseConfig foldl opts busProducer_opts Middlewares MetadataBuilders
    WithBusProducerObservability WithBusProducerMetrics WithBusProducerLogging app].
  apply dispatches_after; [intros err; apply ob_increment|]. cbv zeta.
  apply dispatches_after; [intros [e|]; apply log_unseen|].
  set (meta := observability_metadata o [FieldRequestID] ctx ∪ ∅).
  destruct (Serialize (event_message event_Value ev) meta) as [payload|e] eqn:Es.
  - eapply dispatches_ext; [|apply dispatches_named, (scheduled_dispatches ctx ev at_
      (mkMessage (ev_ID ev) TopicDomainEventUser (uuid_String (ev_AggregateID ev)) payload))].
    + intros w. unfold base_produce, serializePayloadImpl. cbn [build_metadata]. unfold_M. fold meta. rewrite Es.
      cbn [snd RegisterEvent default event_message sm_ID sm_AggregateID sm_reflectType blank_EventUserDeleted].
      cbn. by rewrite Hty.
    + split_and!; [done..|]. by exists meta.
  - eapply dispatches_ext; [|apply dispatches_error]. intros w. unfold base_produce, serializePayloadImpl. cbn [build_metadata].
    unfold_M. fold meta. by rewrite Es.
Qed.

(** The calls of one event's messages. *)
Lemma run_calls_dispatches o logger bus ctx at_ (evs : list (event * nat)) : user_bus o logger = Ret bus →
  Forall (λ p, ev_reflectType p.1 = "domain.EventUserDeleted") evs →
  dispatches ctx (concat ((λ p, replicate p.2 p.1) <$> evs))
    (run_calls bus ctx at_ (concat ((λ p, replicate p.2 (TopicDomainEventUser, event_message event_Value p.1)) <$> evs))).
Proof.
  intros Hbus. destruct (user_bus_registered o logger bus Hbus) as (_ & _ & Hp).
  induction 1 as [|[ev n] evs Hty _ IH]; [apply dispatches_none|]. rewrite !fmap_cons. cbn [concat fst snd].
  eapply dispatches_ext; [intros w; apply run_calls_app|]. apply dispatches_seq; [|exact IH]. clear IH.
  induction n as [|n IH]; [apply dispatches_none|]. cbn [replicate run_calls].
  rewrite Hp. cbn [event_message sm_reflectType]. cbn [fst] in Hty. rewrite Hty, lookup_singleton_eq.
  apply (dispatches_seq ctx [ev]); [by apply producer_dispatches|by apply IH].
Qed.

Lemma foldl_add_counts evs (es : list (event * nat)) : Forall (λ p, p.2 ≠ 0) es →
  foldl add_event evs (concat ((λ p, replicate p.2 p.1) <$> es)) = foldl add_event evs (fst <$> es).
Proof.
  intros Hall. revert evs. induction Hall as [|[ev n] es Hn _ IH]; intros evs; [done|]. rewrite !fmap_cons. cbn [concat fst snd foldl].
  rewrite foldl_app. destruct n as [|n]; [done|]. by rewrite add_event_replicate, IH.
Qed.

Lemma count_type_pos m msgs : m ∈ msgs → count_type (sm_reflectType m) msgs ≠ 0.
Proof.
  intros Hm. unfold count_type, same_type. apply list_elem_of_In in Hm. intros Hz. apply length_zero_iff_nil in Hz.
  enough (In m (List.filter (λ x, String.eqb (sm_reflectType x) (sm_reflectType m)) msgs)) as Hin by by rewrite Hz in Hin.
  apply List.filter_In. split; [done|]. apply String.eqb_refl.
Qed.

Lemma bus_dispatches o logger bus ctx es : user_bus o logger = Ret bus →
  dispatches ctx es (bus_dispatcher event_Value bus ctx es).
Proof.
  intros Hbus. destruct (user_bus_registered o logger bus Hbus) as (Hok & Ht & _).
  unfold bus_dispatcher, eventDispatcher_Dispatch. destruct es as [|e es]; [apply dispatches_none|]. rewrite fmap_cons.
  rewrite <- (fmap_cons (event_message event_Value)). set (msgs := event_message event_Value <$> e :: es).
  apply dispatches_named. unfold bus_Produce.
  destruct (decide (Forall (λ ev, ev_reflectType ev = "domain.EventUserDeleted") (e :: es))) as [Hall|Hnot].
  - set (counted := (λ ev, (ev, count_type (ev_reflectType ev) msgs)) <$> e :: es).
    assert (Hcalls : calls bus msgs = concat ((λ p, replicate p.2 (TopicDomainEventUser, event_message event_Value p.1)) <$> counted)).
    { unfold calls, msgs at 2, counted. rewrite <- !list_fmap_compose. f_equal. apply list_fmap_ext. intros i ev Hev.
      rewrite Forall_lookup in Hall.
      assert (Htop : topics_of bus (event_message event_Value ev) = [TopicDomainEventUser]).
      { unfold topics_of. cbn [event_message sm_reflectType]. by rewrite (Hall i ev Hev), Ht, lookup_singleton_eq. }
      change ((λ t, (t, event_message event_Value ev)) <$>
          concat (replicate (count_type (ev_reflectType ev) msgs) (topics_of bus (event_message event_Value ev))) =
        replicate (count_type (ev_reflectType ev) msgs) (TopicDomainEventUser, event_message event_Value ev)).
      rewrite Htop. generalize (count_type (ev_reflectType ev) msgs) as n. induction n as [|n IH]; [done|].
      cbn [replicate concat app]. by rewrite fmap_cons, IH. }
    eapply dispatches_ext.
    + intros w. apply scheduleImpl_run; [done|]. apply Forall_fmap. eapply Forall_impl; [exact Hall|]. intros ev Hev. cbn.
      rewrite Hev, Ht, lookup_singleton_eq. by eexists.
    + rewrite Hcalls. assert (Hes : e :: es = fst <$> counted) by (unfold counted; rewrite <- list_fmap_compose; symmetry; apply list_fmap_id).
      assert (Hpos : Forall (λ p, p.2 ≠ 0) counted).
      { apply Forall_fmap, Forall_forall. intros ev Hev. apply (count_type_pos (event_message event_Value ev) msgs).
        unfold msgs. by apply list_elem_of_fmap_2. }
      rewrite Hes. eapply dispatches_same; [intros evs; by apply foldl_add_counts|].
      apply (run_calls_dispatches o logger bus ctx None counted Hbus). apply Forall_fmap. exact Hall.
  - eapply dispatches_ext; [|apply dispatches_error]. intros w. apply scheduleImpl_unknown; [done|].
    apply not_Forall_Exists in Hnot; [|apply _]. apply Exists_fmap. eapply Exists_impl; [exact Hnot|]. intros ev Hev. cbn.
    rewrite Ht, lookup_singleton_ne; [done|]. by intros H; apply Hev.
Qed.

(** The dispatcher over the bus and the message storage keeps what the
    repository of users relies on. *)
Lemma outbox_user_store o logger bus : user_bus o logger = Ret bus →
  @UserStore W S HDB (bus_dispatcher event_Value bus) HNU committed working rowsOf outboxEvents.
Proof.
  intros Hbus. split.
  - apply ob_statements.
  - apply ob_users.
  - intros t ctx cols vals w r w' st st' evs Hx Hst Hst' (stored & Hrows & Hh). exists stored. split; [|done].
    apply ob_insert_user in Hx. rewrite Hst, Hst' in Hx. injection Hx as ->. done.
  - intros ctx es w st evs Hst He. by apply (bus_dispatches o logger bus ctx es Hbus).
  - intros w. destruct (ob_uuid w) as (id & w' & Hid & Hv & Hfresh). exists id, w'. split; [done|]. split; [done|]. split.
    + intros t r Hr Hrid. unfold rows_seen in Hr. destruct (view committed working t w) as [st|] eqn:E; [|by apply elem_of_nil in Hr].
      apply (proj1 (Hfresh t st E)). by exists r.
    + intros t st evs Hst (stored & Hrows & Hall & _) Hin. apply (proj2 (Hfresh t st Hst)).
      rewrite (carried_ids _ _ _ _ _ Hall) in Hin. apply list_elem_of_fmap in Hin as ([at_ msg] & -> & [_ Hin]%list_elem_of_filter).
      exists (stored_row (at_, msg)). rewrite Hrows. split; [by apply list_elem_of_fmap_2|]. by destruct msg.
  - apply ob_get_errors.
Qed.

(** C2. The transactional outbox, end to end: deleting a user through the
    service, the SQL transaction, the repository, the event dispatcher, the bus
    producer with its observability, metrics and logging, and the message
    storage.  Whatever statement, serialization or commit fails, an error
    leaves the users and the outbox as they were; on success the commit holds
    the user marked as deleted together with one more message of the topic,
    which carries the event of the deletion - or both are as they were, when
    there is nobody to delete.  Messages of other topics stay. *)
Theorem user_Delete_outbox `{!TxSpec W S committed working} (t : transaction (W := W)) (Hcommit : quiet_commit committed working t)
    o logger bus ctx id w users evs stored (Hbus : user_bus o logger = Ret bus) (Htx : HasTransaction ctx = false)
    (Husers : rowsOf (committed w) = user_row <$> users) (Hclean : Forall (λ u, u_Changes u = []) users) (Hdist : users_distinct users)
    (Hstored : outboxOf (committed w) = stored_row <$> stored)
    (Hevents : outbox_holds uuid_String event_Value TopicDomainEventUser others stored evs)
    (Hperm : permission_Check ctx (CanDeleteUser id) = None) :
  ∃ err w', @user_Delete W (@userRepository W HDB (bus_dispatcher event_Value bus) HNU) (sql_Transaction t) HNU HC ctx id w = (Ret err, w') ∧
    ∃ users' evs' stored', rowsOf (committed w') = user_row <$> users' ∧ outboxOf (committed w') = stored_row <$> stored' ∧
      outbox_holds uuid_String event_Value TopicDomainEventUser others stored' evs' ∧
      match err with
      | Some e => users' = users ∧ evs' = evs
      | None => user_removed id (mkUserState users evs) (mkUserState users' evs')
      end.
Proof.
  pose proof (outbox_user_store o logger bus Hbus) as HUS.
  assert (Hclock : ∀ w, ∃ now w', time_Now w = (Ret now, w') ∧ ∀ t, view committed working t w' = view committed working t w)
    by apply ob_clock.
  assert (Hs : stores_users rowsOf outboxEvents (committed w) (mkUserState users evs)) by (split_and!; [done..|by exists stored]).
  pose proof (@user_Delete_over_sql W S HDB (bus_dispatcher event_Value bus) HNU committed working rowsOf outboxEvents _ HUS HC t Hcommit
    ctx id w (mkUserState users evs) Htx Hclock Hs Hdist) as Hspec.
  rewrite Hperm in Hspec. destruct Hspec as (err & w' & H & Hspec). exists err, w'. split; [done|].
  destruct err as [e|].
  - destruct Hspec as (H1 & _ & stored' & H3 & H4). exists users, evs, stored'. by split_and!.
  - destruct Hspec as ([users' evs'] & (H1 & _ & stored' & H3 & H4) & Hrem). exists users', evs', stored'. by split_and!.
Qed.
End refinement.

(** ** Witness: a server with the two tables, and a message of another topic *)

Abbreviation outboxServer := (server (list (gmap string arg) * list (gmap string arg))).
Definition outbox_DB : DB outboxServer :=
  pair_DB ["id"] (DoUpdate user_set_cols) message_table ["id"; "topic"] DoNothing.
Definition outbox_ids (s : list (gmap string arg) * list (gmap string arg)) : list N := row_id <$> (fst s ++ snd s).
Definition outbox_uuid : NewUUID outboxServer := λ w, (Ret (next_id outbox_ids w), w).
Definition outbox_clock : HasClock outboxServer := λ w, (Ret 1000%Z, w).
Definition no_log : LogSink outboxServer := λ _ _ _ w, (Ret tt, w).
Definition no_metrics : Metrics outboxServer := λ _ _ w, (Ret tt, w).
Definition plain_kebab : Kebab := λ s, s.

Lemma outbox_server_store :
  @OutboxStore outboxServer _ outbox_DB outbox_uuid outbox_clock no_log no_metrics sv_committed sv_working fst snd.
Proof.
  split; try (intros; intros w; by eexists _, w).
  - apply server_StatementSpec.
  - intros t. by apply pair_first.
  - intros t. apply pair_second.
  - intros t ctx cols vals w r w'. by apply pair_keeps_second.
  - intros t ctx cols vals w r w'. by apply pair_keeps_first.
  - intros w. eexists _, w. split; [done|]. split; [done|]. intros t st Hst.
    assert (Hnone : ∀ rows, rows ⊆ fst st ++ snd st → ¬ has_id (next_id outbox_ids w) rows).
    { intros rows Hsub (r & Hr & Hid). apply (next_id_fresh outbox_ids t w st Hst). apply list_elem_of_fmap.
      exists r. split; [unfold row_id; by rewrite Hid|by apply Hsub]. }
    split; apply Hnone; set_solver.
  - intros t ctx q w e w' Hq. destruct (pair_get_errors _ _ _ _ _ _ _ _ _ _ _ Hq) as [-> | ->]; by repeat constructor.
Qed.

Definition outbox_tx : transaction (W := outboxServer) := mkTransaction "user" None.
Lemma outbox_tx_quiet : quiet_commit sv_committed sv_working outbox_tx.
Proof. by intros f w Hf. Qed.

Definition other_message : time * Message := (3%Z, mkMessage 9 "task-queue" "" "p").
Definition outbox_sample : outboxServer := mkServer ([user_row sample_user], [stored_row other_message]) ∅.
Definition sample_observer : observer := mkObserver StubLogger ∅.
Definition sample_uuid_String (u : uuid) : string := pos_bits (encode u).

Lemma user_Delete_outbox_witness :
  ∃ bus err w',
    @user_eventDispatcherProvider outboxServer bitsJSON plain_kebab (@messageStorage _ outbox_DB) outbox_clock (λ _, "") sample_uuid_String (λ _, "")
      (@messageBusProducerProvider outboxServer no_log no_metrics (λ _, "") sample_uuid_String (λ _, "") sample_observer StubLogger) = Ret bus ∧
    @user_Delete outboxServer (@userRepository _ outbox_DB (@bus_dispatcher _ (λ _, "") bus) outbox_uuid)
      (@sql_Transaction _ outbox_DB outbox_tx) outbox_uuid outbox_clock user_5 5 outbox_sample = (Ret err, w') ∧
    (err = None → ∃ stored' ev msg, snd (sv_committed w') = stored_row <$> stored' ∧
       filter (in_topic (@TopicDomainEventUser plain_kebab)) stored' = [msg] ∧
       @carries bitsJSON sample_uuid_String (@TopicDomainEventUser plain_kebab) (event_message (λ _, "") (EventUserDeleted ev 5)) (snd msg)).
Proof.
  eexists.
  destruct (@user_Delete_outbox outboxServer _ outbox_DB outbox_uuid outbox_clock no_log no_metrics sv_committed sv_working fst snd
    bitsJSON plain_kebab (λ _, "") sample_uuid_String (λ _, "") (λ _, "") [other_message] outbox_server_store (server_TxSpec _ _ _)
    outbox_tx outbox_tx_quiet sample_observer StubLogger _ user_5 5 outbox_sample [sample_user] [] [other_message] eq_refl eq_refl eq_refl
    ltac:(by repeat constructor) sample_distinct eq_refl ltac:(by repeat constructor) eq_refl)
    as (err & w' & H & users' & evs' & stored' & _ & Hs & [Hall _] & Hspec).
  exists err, w'. split; [reflexivity|]. split; [exact H|]. intros ->.
  destruct Hspec as [[_ Hno]|(u & now & e & _ & _ & _ & _ & He & _)].
  - by destruct (Hno sample_user (list_elem_of_here _ _) eq_refl eq_refl).
  - cbn in He. subst evs'. apply Forall2_cons_inv_l in Hall as (m & rest & Hm & Hrest & Heq). apply Forall2_nil_inv_l in Hrest as ->.
    exists stored', e, m. split_and!; [exact Hs|exact Heq|exact Hm].
Defined.
