(* ===== verification/UserProfile.v ===== *)
(** internal/userprofile: profiles of users - the service, its permissions, its
    HTTP handlers, its repository, and its client of the user service. *)
From S2P Require Import Prelude GoStrings Context Message Parsing Sql Table Http HttpParser HttpServer Idk Lazy Persistence User UserHandlers.

(** ** Domain *)

Record UserProfile := mkProfile { up_ID : uuid; up_FirstName : string; up_LastName : string }.
Definition domain_ErrUserProfileNotFound : string := "domain.ErrUserProfileNotFound".

Class UserProfileRepository (W : Type) := {
  profile_Store : context → UserProfile → M W (option error);
  profile_FindByID : context → uuid → M W (result UserProfile);
  profile_DeleteByID : context → uuid → M W (option error);
}.

(** ** The user service as profiles see it (app/user) *)

Record UserInfo := mkUserInfo { ui_ID : uuid; ui_DeletedAt : option time }.
Definition user_ErrUserNotFound : string := "user.ErrUserNotFound".
Class RemoteUserService (W : Type) := remote_Get : context → uuid → M W (result UserInfo).

(** [EventUserDeleted] *)
Record UserDeleted := mkUserDeleted { de_EventID : uuid; de_UserID : uuid }.

(** ** Permissions *)

Definition CanGetUserProfile (id : uuid) : Permission Principal := λ a,
  match AuthPrincipal a with
  | None => Ok false
  | Some p =>
      match UserID p, AdminUserID p with
      | Some u, _ => Ok (bool_decide (u = id))
      | None, Some _ => Ok true
      | None, None => Ok false
      end
  end.
Definition CanUpdateUserProfile (id : uuid) : Permission Principal := λ a,
  match AuthPrincipal a with
  | None => Ok false
  | Some p =>
      match UserID p, AdminUserID p with
      | Some u, _ => Ok (bool_decide (u = id))
      | None, Some _ => Ok true
      | None, None => Ok false
      end
  end.

(** ** The service *)

Definition profile_ErrUserNotFound : string := "service.ErrUserNotFound".
Definition ErrUserProfileNotFound : string := "service.ErrUserProfileNotFound".
Definition ErrInvalidUserProfileData : string := "service.ErrInvalidUserProfileData".

(** [UserProfileData]: the generated converter copies the fields. *)
Abbreviation UserProfileData := UserProfile (only parsing).

(** No such user, or a deleted one. *)
Definition user_missing (r : result UserInfo) : bool :=
  match r with
  | Err e => errors_Is (Some e) (Some user_ErrUserNotFound)
  | Ok u => bool_decide (ui_DeletedAt u ≠ None)
  end.

Section service.
Context {W : Type} `{!RemoteUserService W, !UserProfileRepository W, !IdkService W, !Transaction W}.

Definition userprofile_Get (ctx : context) (id : uuid) : M W (result UserProfile) :=
  match permission_Check ctx (CanGetUserProfile id) with
  | Some e => mret (Err e)
  | None =>
      r ← profile_FindByID ctx id;
      match r with
      | Err e =>
          mret (Err (if errors_Is (Some e) (Some domain_ErrUserProfileNotFound) then ErrSentinel ErrUserProfileNotFound
                     else Errorf "find userprofile by id" e))
      | Ok profile =>
          u ← remote_Get ctx id;
          if user_missing u then mret (Err (ErrSentinel profile_ErrUserNotFound))
          else
            mret (match u with
                  | Err e => Err (Errorf "find user from userservice" e)
                  | Ok _ => Ok profile
                  end)
      end
  end.

Definition userprofile_Update (ctx : context) (data : UserProfile) : M W (option error) :=
  match permission_Check ctx (CanUpdateUserProfile (up_ID data)) with
  | Some e => mret (Some e)
  | None =>
      let firstName := TrimSpace (up_FirstName data) in
      let lastName := TrimSpace (up_LastName data) in
      if String.eqb firstName "" || String.eqb lastName "" then mret (Some (ErrSentinel ErrInvalidUserProfileData))
      else
        u ← remote_Get ctx (up_ID data);
        if user_missing u then mret (Some (ErrSentinel profile_ErrUserNotFound))
        else
          match u with
          | Err e => mret (Some (Errorf "find user from userservice" e))
          | Ok _ =>
              err ← profile_Store ctx (mkProfile (up_ID data) (up_FirstName data) (up_LastName data));
              mret (Errorf "store userprofile" <$> err)
          end
  end.

Definition deleted_key : string := "handle_user_deleted".

Definition handleUserDeletedImpl (evt : UserDeleted) (ctx : context) : M W (option error) :=
  err ← Service_Insert ctx (de_EventID evt) [deleted_key];
  match err with
  | Some e => mret (Some e)
  | None =>
      err ← profile_DeleteByID ctx (de_UserID evt);
      mret (match err with
            | None => None
            | Some e => if errors_Is err (Some domain_ErrUserProfileNotFound) then None
                        else Some (Errorf "delete userprofile by id" e)
            end)
  end.

Definition HandleUserDeleted (ctx : context) (evt : UserDeleted) : M W (option error) :=
  u ← remote_Get ctx (de_UserID evt);
  match u with
  | Err e =>
      if errors_Is (Some e) (Some user_ErrUserNotFound) then mret None else mret (Some (Errorf "find user from userservice" e))
  | Ok u =>
      if bool_decide (ui_DeletedAt u = None) then mret None
      else tx_WithinContext ctx (handleUserDeletedImpl evt) []
  end.
End service.

(** ** The repository (infra/sql) *)

Definition profile_table : string := "user_profile".
Definition profile_cols : list string := ["user_id"; "first_name"; "last_name"].
Definition profile_conflict : string :=
  "on conflict (user_id) do update set first_name = excluded.first_name, last_name = excluded.last_name, updated_at = now()".
Definition profile_vals (p : UserProfile) : list arg := [AUuid (up_ID p); AText (up_FirstName p); AText (up_LastName p)].
Definition scan_profile (r : list arg) : option UserProfile :=
  match r with [AUuid id; AText f; AText l] => Some (mkProfile id f l) | _ => None end.

Section repository.
Context {W : Type} `{!DB W}.

Definition profileRepository_Store (ctx : context) (p : UserProfile) : M W (option error) :=
  let q := SInsert profile_table profile_cols [profile_vals p] profile_conflict in
  match ToSql q with
  | Some e => mret (Some (Errorf "build query" e))
  | None => r ← ExecContext ctx q; mret (match r with Err e => Some e | Ok _ => None end)
  end.

Definition profile_query (id : uuid) : SelectBuilder :=
  mkSelect profile_cols profile_table [CEq "user_id" (AUuid id)] [] None [].

Definition profileRepository_FindByID (ctx : context) (id : uuid) : M W (result UserProfile) :=
  match ToSql (SSelect (profile_query id)) with
  | Some e => mret (Err (Errorf "build query" e))
  | None =>
      r ← GetContext ctx (SSelect (profile_query id));
      mret (match r with
            | Err e => if errors_Is (Some e) (Some sql_ErrNoRows) then Err (ErrSentinel domain_ErrUserProfileNotFound) else Err e
            | Ok row => match scan_profile row with Some p => Ok p | None => Err (ErrText "sql: Scan error on column") end
            end)
  end.

Definition profileRepository_DeleteByID (ctx : context) (id : uuid) : M W (option error) :=
  let q := SDelete profile_table [CEq "user_id" (AUuid id)] in
  match ToSql q with
  | Some e => mret (Some (Errorf "build query" e))
  | None =>
      r ← ExecContext ctx q;
      mret (match r with
            | Err e => Some e
            | Ok (Err e) => Some (Errorf "get rows affected" e)
            | Ok (Ok n) => if (n =? 0)%Z then Some (ErrSentinel domain_ErrUserProfileNotFound) else None
            end)
  end.

#[export] Instance userProfileRepository : UserProfileRepository W := {|
  profile_Store := profileRepository_Store;
  profile_FindByID := profileRepository_FindByID;
  profile_DeleteByID := profileRepository_DeleteByID;
|}.
End repository.

(** ** The client of the user service (infra/user/http) *)

(** [WithServiceNameAuth] and the name it sends. *)
Definition userprofile_ServiceName : ServiceName := "userProfile".
Definition WithServiceNameAuth {W} (name : ServiceName) : ClientOption W := WithRequestHeader HeaderAuthServiceName name.

Definition getUserByIDRoute : Route := mkClientRoute "GET" "/users/{userID}".

Section remote.
Context {W : Type} `{!UnicodeLatin, !UnicodeCase}.
Context (resty_Send : ClientImpl W → restyRequest → M W (result restyResponse)).
Context (uuid_String : uuid → string) (Decode_UserOut : string → result UserInfo).

Definition NewUserService (client : ClientImpl W) : ClientImpl W := client_With client [WithServiceNameAuth userprofile_ServiceName].

Definition remoteUserService_Get (client : ClientImpl W) (ctx : context) (userID : uuid) : M W (result UserInfo) :=
  '(resp, err) ← Send (resty_Send client) (SetPathParam "userID" (uuid_String userID) (NewRequest client ctx getUserByIDRoute));
  match err, resp with
  | Some e, _ => mret (Err (Errorf "request user.getUserByID" e))
  | None, None => panic nilDereference
  | None, Some resp =>
      if (p_StatusCode resp =? StatusNotFound)%Z then mret (Err (ErrSentinel user_ErrUserNotFound))
      else if negb (p_StatusCode resp =? StatusOK)%Z then mret (Err (ErrText "request user.getUserByID: invalid status code"))
      else
        body ← parsed (ParseResponse (p_RawResponse resp) (JSONBody Decode_UserOut) None);
        mret (match body with
              | Err e => Err (Errorf "user.getUserByID response" e)
              | Ok u => Ok u
              end)
  end.
End remote.

(** ** The HTTP handlers (infra/http) *)

Class UserProfileService (W : Type) := {
  ups_Get : context → uuid → M W (result UserProfile);
  ups_Update : context → UserProfile → M W (option error);
}.
#[export] Instance userProfileService {W} `{!RemoteUserService W, !UserProfileRepository W} : UserProfileService W :=
  {| ups_Get := userprofile_Get; ups_Update := userprofile_Update |}.

(** The JSON of the two bodies: the names, without the id. *)
Class UserProfileEncodings := {
  Decode_updateUserProfileIn : string → result (string * string);
  Marshal_UserProfileOut : string * string → result string;
}.

Section handlers.
Context {W : Type} `{!ParseLib, !UserProfileEncodings, !UserProfileService W}.

Definition GetUserProfileHandler_Handle : HandlerFunc (W := W) := λ l r,
  v ← parse_userID r;
  match v with
  | Err e => mret (Some e)
  | Ok userID =>
      p ← on_env (ups_Get (r_Context r) userID);
      match p with
      | Err e =>
          _ ← (if errors_Is (Some e) (Some profile_ErrUserNotFound) || errors_Is (Some e) (Some ErrUserProfileNotFound)
               then modify_obj (SetStatusCode l StatusNotFound) else mret tt);
          mret (Some e)
      | Ok p => _ ← modify_obj (SetJSONBody l (Marshal_UserProfileOut (up_FirstName p, up_LastName p))); mret None
      end
  end.

Definition UpdateUserProfileHandler_Handle : HandlerFunc (W := W) := λ l r,
  v ← parse_userID r;
  body ← parsed (ParseRequest r (JSONBody Decode_updateUserProfileIn) (match v with Err e => Some e | Ok _ => None end));
  match v, body with
  | Err e, _ | _, Err e => mret (Some e)
  | Ok userID, Ok (firstName, lastName) =>
      err ← on_env (ups_Update (r_Context r) (mkProfile userID firstName lastName));
      _ ← (if errors_Is err (Some ErrInvalidUserProfileData) then modify_obj (SetStatusCode l StatusBadRequest)
           else if errors_Is err (Some profile_ErrUserNotFound) then modify_obj (SetStatusCode l StatusNotFound)
           else mret tt);
      mret err
  end.

Definition GetUserProfileHandler : Handler (W := W) := mkHandler "GET" "/profile/{userID}" GetUserProfileHandler_Handle.
Definition UpdateUserProfileHandler : Handler (W := W) := mkHandler "PUT" "/profile/{userID}" UpdateUserProfileHandler_Handle.
End handlers.

(** ** What the service relies on *)

(** The profiles, and the keys of the events handled so far. *)
Record profiles := mkProfiles { ps_profiles : list UserProfile; ps_keys : gset uuid }.
Definition upsert_profile (p : UserProfile) (ps : list UserProfile) : list UserProfile :=
  if bool_decide (up_ID p ∈ up_ID <$> ps) then (λ q, if bool_decide (up_ID q = up_ID p) then p else q) <$> ps else ps ++ [p].
Definition remove_profile (id : uuid) (ps : list UserProfile) : list UserProfile := filter (λ p, up_ID p ≠ id) ps.
Definition with_profiles (f : list UserProfile → list UserProfile) (s : profiles) : profiles := mkProfiles (f (ps_profiles s)) (ps_keys s).
Definition with_key (k : uuid) (s : profiles) : profiles := mkProfiles (ps_profiles s) ({[k]} ∪ ps_keys s).

(** [event_key]: the idempotency key of an event's id. *)
Class ProfileStoreSpec {W} `{!UserProfileRepository W, !IdkService W} (event_key : uuid → uuid) (holds : target → W → profiles → Prop) : Prop := {
  insert_spec ctx e w s : holds (route ctx) w s → ∃ err w', Service_Insert ctx e [deleted_key] w = (Ret err, w') ∧ isolated holds ctx w w' ∧
    (err = None → (event_key e ∉ ps_keys s) ∧ holds (route ctx) w' (with_key (event_key e) s));
  store_spec ctx p w s : holds (route ctx) w s → ∃ err w', profile_Store ctx p w = (Ret err, w') ∧
    holds (route ctx) w' (match err with None => with_profiles (upsert_profile p) s | Some _ => s end);
  find_spec ctx id w s : holds (route ctx) w s → ∃ r w', profile_FindByID ctx id w = (Ret r, w') ∧ quiet holds w w' ∧
    match r with
    | Ok p => p ∈ ps_profiles s ∧ up_ID p = id
    | Err e => error_has domain_ErrUserProfileNotFound e = true → id ∉ up_ID <$> ps_profiles s
    end;
  delete_spec ctx id w s : holds (route ctx) w s → ∃ err w', profile_DeleteByID ctx id w = (Ret err, w') ∧ isolated holds ctx w w' ∧
    (errors_Is err (Some domain_ErrUserProfileNotFound) = true ∨ err = None → holds (route ctx) w' (with_profiles (remove_profile id) s));
}.
(** [ErrAlreadyInserted] is only said of a key that is recorded. *)
Class ProfileErrorSpec {W} `{!UserProfileRepository W, !IdkService W} (event_key : uuid → uuid) (holds : target → W → profiles → Prop) : Prop := {
  insert_error ctx e w s err w' : holds (route ctx) w s → Service_Insert ctx e [deleted_key] w = (Ret (Some err), w') →
    error_has ErrAlreadyInserted err = true → event_key e ∈ ps_keys s;
  delete_error ctx id w s err w' : holds (route ctx) w s → profile_DeleteByID ctx id w = (Ret (Some err), w') → error_has ErrAlreadyInserted err = false;
}.
(** The user service answers without touching the profiles, with what [valid]
    says of the user. *)
Class ProfilesSpec {W} `{!RemoteUserService W, !UserProfileRepository W, !IdkService W}
    (event_key : uuid → uuid) (holds : target → W → profiles → Prop) (valid : uuid → result UserInfo → Prop) : Prop := {
  profile_store :: ProfileStoreSpec event_key holds;
  remote_spec ctx id w s : holds (route ctx) w s → ∃ r w', remote_Get ctx id w = (Ret r, w') ∧ quiet holds w w' ∧ valid id r;
}.

(** The answer of the user service: the user is there and not deleted; it is
    there and deleted. *)
Definition answer_active (r : result UserInfo) : Prop := ∃ u, r = Ok u ∧ ui_DeletedAt u = None.
Definition answer_deleted (r : result UserInfo) : Prop := ∃ u, r = Ok u ∧ ui_DeletedAt u ≠ None.

Lemma user_missing_spec r : if user_missing r then ¬ answer_active r else (∃ e, r = Err e) ∨ answer_active r.
Proof.
  unfold user_missing, answer_active. destruct r as [u|e]; cbn [errors_Is].
  - case_bool_decide as Hd; [naive_solver|]. right. exists u. by destruct (ui_DeletedAt u).
  - destruct (error_has _ _); naive_solver.
Qed.

(** What handling the event of a deleted user leaves behind, given the answer of
    the user service: nothing changed when the user is not deleted; else the
    event is new and recorded, and exactly that user's profile is gone. *)
Definition deletion_handled (event_key : uuid → uuid) (evt : UserDeleted) (r : result UserInfo) (s s' : profiles) : Prop :=
  (s' = s ∧ ¬ answer_deleted r) ∨
  (answer_deleted r ∧ (event_key (de_EventID evt) ∉ ps_keys s) ∧
   s' = with_profiles (remove_profile (de_UserID evt)) (with_key (event_key (de_EventID evt)) s)).

Section theorems.
Context {W : Type} {HU : RemoteUserService W} {HR : UserProfileRepository W} {HI : IdkService W} {HT : Transaction W}.
Context (event_key : uuid → uuid) (holds : target → W → profiles → Prop) (valid : uuid → result UserInfo → Prop).
Context {HPS : ProfilesSpec event_key holds valid} {HTS : TransactionSpec holds}.

Lemma handleUserDeletedImpl_spec evt ctx w s :
  holds (route ctx) w s → ∃ err w', handleUserDeletedImpl evt ctx w = (Ret err, w') ∧ isolated holds ctx w w' ∧
    (err = None → ∃ s', holds (route ctx) w' s' ∧ (event_key (de_EventID evt) ∉ ps_keys s) ∧
       s' = with_profiles (remove_profile (de_UserID evt)) (with_key (event_key (de_EventID evt)) s)).
Proof.
  intros Hs. unfold handleUserDeletedImpl.
  destruct (insert_spec (holds := holds) ctx (de_EventID evt) w s Hs) as (err & w1 & Hi & Hiso1 & H1). rewrite (M_bind_Ret _ _ _ _ _ Hi).
  destruct err as [e|]; [by eexists _, w1|]. destruct (H1 eq_refl) as [Hnew Hs1].
  destruct (delete_spec (holds := holds) ctx (de_UserID evt) w1 _ Hs1) as (err & w2 & Hd & Hiso2 & H2). rewrite (M_bind_Ret _ _ _ _ _ Hd).
  eexists _, w2. split; [done|]. split; [by eapply isolated_trans|]. intros Herr. eexists. split; [|by split].
  apply H2. destruct err as [e|]; [|by right]. left. cbn [errors_Is] in *. by destruct (error_has _ _).
Qed.

(** The event of a deleted user, over the interfaces. *)
Theorem HandleUserDeleted_spec ctx evt w s (Htx : HasTransaction ctx = false) (Hs : holds (route ctx) w s) :
  ∃ r w1 err w', remote_Get ctx (de_UserID evt) w = (Ret r, w1) ∧ valid (de_UserID evt) r ∧
    HandleUserDeleted ctx evt w = (Ret err, w') ∧
    match err with
    | Some _ => holds (route ctx) w' s
    | None => ∃ s', holds (route ctx) w' s' ∧ deletion_handled event_key evt r s s'
    end.
Proof.
  unfold HandleUserDeleted. destruct (remote_spec (holds := holds) ctx (de_UserID evt) w s Hs) as (r & w1 & Hr & Hq & Hvalid).
  rewrite (M_bind_Ret _ _ _ _ _ Hr). exists r, w1. apply Hq in Hs. unfold deletion_handled. destruct r as [u|e].
  - case_bool_decide as Hd.
    { eexists None, w1. split_and!; [done..|]. exists s. split; [done|]. left. split; [done|]. intros (v & Hv & Hdv). naive_solver. }
    destruct (within_run holds ctx (handleUserDeletedImpl evt) [] w1 s (λ s', (event_key (de_EventID evt) ∉ ps_keys s) ∧
      s' = with_profiles (remove_profile (de_UserID evt)) (with_key (event_key (de_EventID evt)) s)) Htx Hs) as (err & w' & Hrun & Hin).
    { intros ctx' w2 _ H2 _. by apply handleUserDeletedImpl_spec. }
    exists err, w'. do 3 (split; [done|]). destruct err as [e|]; [done|]. destruct Hin as (s' & Hs' & Hnew & ->).
    eexists. split; [exact Hs'|]. right. split; [by exists u|done].
  - cbn [errors_Is]. destruct (error_has user_ErrUserNotFound e) eqn:E; eexists _, w1; split_and!; try done.
    exists s. split; [done|]. left. split; [done|]. by intros (v & Hv & _).
Qed.

Lemma upsert_profile_elem p q ps : q ∈ upsert_profile p ps → up_ID q = up_ID p → q = p.
Proof.
  unfold upsert_profile. case_bool_decide as Hin.
  - intros (x & -> & _)%list_elem_of_fmap. by case_bool_decide.
  - intros [Hq|Hq%list_elem_of_singleton]%elem_of_app Hid; [|done]. destruct Hin. rewrite <- Hid. by apply list_elem_of_fmap_2.
Qed.
Lemma upsert_profile_in p ps : up_ID p ∈ up_ID <$> upsert_profile p ps.
Proof.
  unfold upsert_profile. case_bool_decide as Hin; [|rewrite fmap_app; apply elem_of_app; right; by left].
  apply list_elem_of_fmap in Hin as (q & Hq & Hin). apply list_elem_of_fmap. exists p. split; [done|]. apply list_elem_of_fmap.
  exists q. split; [|done]. by rewrite bool_decide_eq_true_2.
Qed.

(** What a call of the service was given by those it calls itself, on the
    profiles [s]: the repository when it looked for the profile, the user
    service when it was asked for the user, the repository when it stored. *)
Definition was_found (id : uuid) (s : profiles) (f : result UserProfile) : Prop :=
  ∃ ctx w w', holds (route ctx) w s ∧ profile_FindByID ctx id w = (Ret f, w').
Definition was_told (id : uuid) (s : profiles) (u : result UserInfo) : Prop :=
  valid id u ∧ ∃ ctx w w', holds (route ctx) w s ∧ remote_Get ctx id w = (Ret u, w').
Definition was_stored (p : UserProfile) (s : profiles) (err : option error) : Prop :=
  ∃ ctx w w', holds (route ctx) w s ∧ profile_Store ctx p w = (Ret err, w').

(** Reading a profile changes nothing; what is found is stored under the id,
    and returned when the user is there and not deleted. *)
Definition read_result (id : uuid) (s : profiles) (r : result UserProfile) : Prop :=
  ∃ f, was_found id s f ∧
    match f with
    | Err e =>
        if error_has domain_ErrUserProfileNotFound e then r = Err (ErrSentinel ErrUserProfileNotFound) ∧ id ∉ up_ID <$> ps_profiles s
        else r = Err (Errorf "find userprofile by id" e)
    | Ok p => p ∈ ps_profiles s ∧ up_ID p = id ∧ ∃ u, was_told id s u ∧
        r = (if user_missing u then Err (ErrSentinel profile_ErrUserNotFound)
             else match u with Err e => Err (Errorf "find user from userservice" e) | Ok _ => Ok p end)
    end.

Lemma userprofile_Get_spec ctx id w s (Hs : holds (route ctx) w s) :
  ∃ r w', userprofile_Get ctx id w = (Ret r, w') ∧ holds (route ctx) w' s ∧
    match permission_Check ctx (CanGetUserProfile id) with
    | Some e => r = Err e
    | None => read_result id s r
    end.
Proof.
  unfold userprofile_Get. destruct (permission_Check ctx _) as [e|]; [by exists (Err e), w|].
  destruct (find_spec (holds := holds) ctx id w s Hs) as (f & w1 & Hf & Hq1 & Hr). rewrite (M_bind_Ret _ _ _ _ _ Hf).
  assert (was_found id s f) as Hfound by by exists ctx, w, w1. apply Hq1 in Hs.
  destruct f as [p|e]; cbn [errors_Is].
  - destruct (remote_spec (holds := holds) ctx id w1 s Hs) as (u & w2 & Hu & Hq2 & Hv). rewrite (M_bind_Ret _ _ _ _ _ Hu).
    assert (was_told id s u) as Htold by by split; [|exists ctx, w1, w2]. apply Hq2 in Hs.
    eexists (if user_missing u then _ else match u with Ok _ => _ | Err e => _ end), w2.
    split; [by destruct (user_missing u), u|]. split; [done|]. exists (Ok p). split; [done|]. split; [apply Hr|]. split; [apply Hr|].
    by exists u.
  - eexists _, w1. split_and!; [done..|]. exists (Err e). split; [done|]. destruct (error_has _ e) eqn:E; [|done]. split; [done|by apply Hr].
Qed.

(** Storing a profile: with two names that are more than white space, for a
    user who the user service says is there and not deleted, it is stored as
    given - with its spaces, although the names are checked without. *)
Definition update_result (data : UserProfile) (s : profiles) (err : option error) (s' : profiles) : Prop :=
  if decide (TrimSpace (up_FirstName data) = "" ∨ TrimSpace (up_LastName data) = "")
  then err = Some (ErrSentinel ErrInvalidUserProfileData) ∧ s' = s
  else ∃ u, was_told (up_ID data) s u ∧
    if user_missing u then err = Some (ErrSentinel profile_ErrUserNotFound) ∧ s' = s
    else match u with
         | Err e => err = Some (Errorf "find user from userservice" e) ∧ s' = s
         | Ok _ => ∃ r, was_stored data s r ∧ err = Errorf "store userprofile" <$> r ∧
             s' = match r with None => with_profiles (upsert_profile data) s | Some _ => s end
         end.

Lemma userprofile_Update_spec ctx data w s (Hs : holds (route ctx) w s) :
  ∃ err w' s', userprofile_Update ctx data w = (Ret err, w') ∧ holds (route ctx) w' s' ∧
    match permission_Check ctx (CanUpdateUserProfile (up_ID data)) with
    | Some e => err = Some e ∧ s' = s
    | None => update_result data s err s'
    end.
Proof.
  unfold userprofile_Update, update_result. destruct (permission_Check ctx _) as [e|]; [by eexists _, w, s|].
  destruct (String.eqb_spec (TrimSpace (up_FirstName data)) "") as [Hf|Hf];
    [eexists _, w, s; (split; [done|split; [done|]]); by rewrite decide_True by tauto|].
  destruct (String.eqb_spec (TrimSpace (up_LastName data)) "") as [Hl|Hl];
    [eexists _, w, s; (split; [done|split; [done|]]); by rewrite decide_True by tauto|]. cbn [orb].
  destruct (remote_spec (holds := holds) ctx (up_ID data) w s Hs) as (u & w1 & Hr & Hq1 & Hv). rewrite (M_bind_Ret _ _ _ _ _ Hr).
  assert (was_told (up_ID data) s u) as Htold by by split; [|exists ctx, w, w1]. apply Hq1 in Hs.
  case_decide; [naive_solver|].
  destruct (user_missing u) eqn:Em; [eexists _, w1, s; split_and!; [done..|exists u; by rewrite Em]|].
  destruct u as [u|e]; [|eexists _, w1, s; split_and!; [done..|exists (Err e); by rewrite Em]].
  replace (mkProfile _ _ _) with data by by destruct data.
  destruct (store_spec (holds := holds) ctx data w1 s Hs) as (err & w2 & Hst & H2). rewrite (M_bind_Ret _ _ _ _ _ Hst).
  eexists _, w2, _. split_and!; [done|exact H2|]. exists (Ok u). rewrite Em. split; [done|]. exists err. split_and!; [by exists ctx, w1, w2|done|].
  by destruct err.
Qed.
End theorems.
