(* ===== verification/UserProfileSql.v ===== *)
(** The profile service over a SQL database: the repository of profiles and the
    idempotency keys implement the interfaces the service is proved against,
    on two tables of one database. *)
From S2P Require Import Prelude GoStrings Context Message Sql Persistence Table MessageStorage Http HttpParser Idk Lazy User UserHandlers UserProfile.

Definition profile_set_cols : list string := ["first_name"; "last_name"].
Abbreviation ProfileTable := (TableSpec _ profile_table ["user_id"] profile_conflict (DoUpdate profile_set_cols)).

Definition profile_row (p : UserProfile) : gmap string arg := mk_row profile_cols (profile_vals p).

(** ** Lemmas: rows of profiles *)

Lemma scan_profile_row p : scan_profile (project profile_cols (profile_row p)) = Some p.
Proof. by destruct p. Qed.

Lemma same_profile_row p q : same_key ["user_id"] (profile_row p) (profile_row q) = bool_decide (up_ID q = up_ID p).
Proof.
  change (bool_decide (Some (AUuid (up_ID p)) = Some (AUuid (up_ID q))) && true = bool_decide (up_ID q = up_ID p)).
  rewrite andb_true_r. apply bool_decide_ext. split; [by intros [= ->]|by intros ->].
Qed.

Lemma update_profile_row p q : up_ID q = up_ID p → update_row profile_set_cols (profile_row p) (profile_row q) = profile_row p.
Proof.
  intros Hid. destruct p as [id f l], q as [id' f' l']. simpl in Hid. subst id'.
  apply map_eq. intros c. unfold update_row, profile_set_cols. cbn [foldr].
  change (profile_row (mkProfile id f l) !! "first_name") with (Some (AText f)).
  change (profile_row (mkProfile id f l) !! "last_name") with (Some (AText l)).
  unfold profile_row, mk_row, profile_cols, profile_vals. cbn -[insert lookup].
  repeat (rewrite lookup_insert; case_decide; [subst; try done|]); done.
Qed.

Lemma insert_profile p ps :
  insert_rows ["user_id"] (DoUpdate profile_set_cols) [profile_row p] (profile_row <$> ps) = (profile_row <$> upsert_profile p ps, 1%Z).
Proof.
  cbn [insert_rows]. unfold insert_row, upsert_profile.
  assert (existsb (same_key ["user_id"] (profile_row p)) (profile_row <$> ps) = bool_decide (up_ID p ∈ up_ID <$> ps)) as ->.
  { apply eq_true_iff_eq. rewrite existsb_exists, bool_decide_eq_true, list_elem_of_fmap. split.
    - intros (r & Hr & Hk). apply list_elem_of_In, list_elem_of_fmap in Hr as (v & -> & Hv).
      rewrite same_profile_row, bool_decide_eq_true in Hk. by exists v.
    - intros (v & Hid & Hv). exists (profile_row v). split; [by apply list_elem_of_In, list_elem_of_fmap_2|].
      by rewrite same_profile_row, bool_decide_eq_true. }
  case_bool_decide; [|by rewrite fmap_app]. f_equal. rewrite <- !list_fmap_compose. apply list_fmap_ext. intros i v _. unfold compose.
  rewrite same_profile_row. case_bool_decide; [by apply update_profile_row|done].
Qed.

Lemma eval_profile_id id p : eval_where [CEq "user_id" (AUuid id)] (profile_row p) = bool_decide (up_ID p = id).
Proof.
  change (bool_decide (AUuid (up_ID p) = AUuid id) && true = bool_decide (up_ID p = id)). rewrite andb_true_r.
  apply bool_decide_ext. split; [by intros [= ->]|by intros ->].
Qed.

Lemma delete_profile_rows id ps :
  filter (λ r, eval_where [CEq "user_id" (AUuid id)] r = false) (profile_row <$> ps) = profile_row <$> remove_profile id ps.
Proof.
  apply filter_fmap_pull. intros p. rewrite eval_profile_id, bool_decide_eq_false. done.
Qed.

(** ** The refinement *)

Section refinement.
Context {W S : Type} {HDB : DB W} {HRU : RemoteUserService W} (uuid_NewSHA1 : uuid → string → uuid).
Context (committed : W → S) (working : W → nat → option S).
(** The rows of the two tables. *)
Context (profilesOf keysOf : S → list (gmap string arg)).
Abbreviation at_ := (view committed working).

Definition table_seen (f : S → list (gmap string arg)) (t : target) (w : W) : list (gmap string arg) := default [] (f <$> at_ t w).

Class ProfileStore : Prop := {
  pst_statements :: StatementSpec W S committed working;
  pst_profiles t :: ProfileTable t (table_seen profilesOf t);
  pst_keys t :: IdkTable t (table_seen keysOf t);
  (** A statement on one table leaves the other alone. *)
  pst_insert_keys t ctx cols vals w r w' : db_exec t ctx (SInsert profile_table cols vals profile_conflict) w = (r, w') →
    keysOf <$> at_ t w' = keysOf <$> at_ t w;
  pst_delete_keys t ctx cs w r w' : db_exec t ctx (SDelete profile_table cs) w = (r, w') → keysOf <$> at_ t w' = keysOf <$> at_ t w;
  pst_insert_profiles t ctx cols vals w r w' : db_exec t ctx (SInsert idk_table cols vals idk_conflict) w = (r, w') →
    profilesOf <$> at_ t w' = profilesOf <$> at_ t w;
  pst_remote ctx id w : ∃ r w', remote_Get ctx id w = (Ret r, w') ∧ ∀ t, at_ t w' = at_ t w;
  (** The driver's errors are not the program's. *)
  pst_get_errors t ctx q w e w' : db_get t ctx q w = (Ret (Err e), w') → error_has domain_ErrUserProfileNotFound e = false;
  pst_exec_errors t ctx q w e w' : db_exec t ctx q w = (Ret (Err e), w') → error_has domain_ErrUserProfileNotFound e = false;
}.

Definition event_key (e : uuid) : uuid := uuid_NewSHA1 e deleted_key.

(** What the two tables hold. *)
Definition stores_profiles (st : S) (s : profiles) : Prop :=
  profilesOf st = profile_row <$> ps_profiles s ∧
  ∀ k, k ∈ ps_keys s ↔ ∃ r, r ∈ keysOf st ∧ r !! "key" = Some (AUuid k).
Definition profiles_view : target → W → profiles → Prop := tx_view committed working stores_profiles.

(** The keys of the rows [rs]. *)
Definition keys_are (ks : gset uuid) (rs : list (gmap string arg)) : Prop :=
  ∀ k, k ∈ ks ↔ ∃ r, r ∈ rs ∧ r !! "key" = Some (AUuid k).

Lemma profiles_view_seen t w s : profiles_view t w s →
  is_Some (at_ t w) ∧ table_seen profilesOf t w = profile_row <$> ps_profiles s ∧ keys_are (ps_keys s) (table_seen keysOf t w).
Proof. intros (st & Hv & Hp & Hk)%tx_view_state. unfold table_seen. rewrite Hv. by split_and!. Qed.
Lemma profiles_view_intro t w s :
  is_Some (at_ t w) → table_seen profilesOf t w = profile_row <$> ps_profiles s → keys_are (ps_keys s) (table_seen keysOf t w) →
  profiles_view t w s.
Proof. unfold table_seen. intros [st Hv]. unfold profiles_view. rewrite tx_view_state, Hv. cbn. intros Hp Hk. by exists st. Qed.

Context `{!ProfileStore}.

Lemma table_seen_same f t w w' : f <$> at_ t w' = f <$> at_ t w → table_seen f t w' = table_seen f t w.
Proof. unfold table_seen. by intros ->. Qed.

Lemma sql_insert_key_spec ctx e w s : profiles_view (route ctx) w s →
  ∃ err w', @ServiceImpl_Insert W (IdempotencyKeyStorage uuid_NewSHA1) ctx e [deleted_key] w = (Ret err, w') ∧
    isolated profiles_view ctx w w' ∧
    (err = None → (event_key e ∉ ps_keys s) ∧ profiles_view (route ctx) w' (with_key (event_key e) s)).
Proof.
  intros (Hopen & Hp & Hk)%profiles_view_seen. unfold ServiceImpl_Insert. cbn. unfold IdempotencyKeyStorage_Insert.
  change (insert_extra [deleted_key]) with deleted_key.
  rewrite (table_ToSql_insert (TableSpec := pst_keys (route ctx))) by done.
  destruct (table_insert (TableSpec := pst_keys (route ctx)) ctx idk_cols [idk_vals uuid_NewSHA1 e deleted_key] w) as (r & w1 & Hx & Hspec); [done|].
  destruct (exec_frame _ _ _ _ _ _ Hx) as [Hfr Ho]. unfold ExecContext. rewrite (M_bind_Ret _ _ _ _ _ Hx). eexists _, w1.
  split; [done|]. split; [by apply apart_isolated|]. rewrite insert_key_spec in Hspec.
  destruct r as [[n|e']|e']; [|done..]. destruct (existsb _ _) eqn:E; injection Hspec as Hspec ->; [done|]. intros _.
  apply not_true_iff_false in E. rewrite existsb_has_key in E. split; [by intros Hin%Hk|]. apply profiles_view_intro; [by apply Ho| |].
  - by rewrite (table_seen_same _ _ _ _ (pst_insert_profiles _ _ _ _ _ _ _ Hx)).
  - intros k. rewrite Hspec. cbn [ps_keys with_key]. rewrite elem_of_union, elem_of_singleton, (Hk k). split.
    + intros [->|(r & Hr & Hrk)]; [|exists r; split; [|done]; apply elem_of_app; by left].
      eexists. split; [apply elem_of_app; right; by left|reflexivity].
    + intros (r & [Hr| ->%list_elem_of_singleton]%elem_of_app & Hrk); [right; by exists r|]. left.
      change (Some (AUuid (event_key e)) = Some (AUuid k)) in Hrk. by injection Hrk.
Qed.

Lemma sql_store_profile_spec ctx p w s : profiles_view (route ctx) w s →
  ∃ err w', profileRepository_Store ctx p w = (Ret err, w') ∧
    profiles_view (route ctx) w' (match err with None => with_profiles (upsert_profile p) s | Some _ => s end).
Proof.
  intros (Hopen & Hp & Hk)%profiles_view_seen. unfold profileRepository_Store.
  rewrite (table_ToSql_insert (TableSpec := pst_profiles (route ctx))) by done.
  destruct (table_insert (TableSpec := pst_profiles (route ctx)) ctx profile_cols [profile_vals p] w) as (r & w1 & Hx & Hspec); [done|].
  destruct (exec_frame _ _ _ _ _ _ Hx) as [Hfr Ho]. unfold ExecContext. rewrite (M_bind_Ret _ _ _ _ _ Hx). eexists _, w1.
  split; [done|]. pose proof (table_seen_same _ _ _ _ (pst_insert_keys _ _ _ _ _ _ _ Hx)) as Hkeys.
  destruct r as [n|e]; (apply profiles_view_intro; [by apply Ho| |by rewrite Hkeys]).
  - apply (f_equal fst) in Hspec. cbn [fst] in Hspec. rewrite Hp in Hspec.
    change (mk_row profile_cols <$> [profile_vals p]) with [profile_row p] in Hspec. by rewrite insert_profile in Hspec.
  - by rewrite Hspec.
Qed.

Lemma sql_find_profile_spec ctx id w s : profiles_view (route ctx) w s →
  ∃ r w', profileRepository_FindByID ctx id w = (Ret r, w') ∧ quiet profiles_view w w' ∧
    match r with
    | Ok p => p ∈ ps_profiles s ∧ up_ID p = id
    | Err e => error_has domain_ErrUserProfileNotFound e = true → id ∉ up_ID <$> ps_profiles s
    end.
Proof.
  intros (_ & Hp & _)%profiles_view_seen. unfold profileRepository_FindByID.
  rewrite (table_ToSql (TableSpec := pst_profiles (route ctx))) by done.
  destruct (table_get (TableSpec := pst_profiles (route ctx)) ctx (profile_query id) w eq_refl) as (r & w1 & Hx & _ & Hspec).
  unfold GetContext. rewrite (M_bind_Ret _ _ _ _ _ Hx). eexists _, w1. split; [done|].
  split; [apply same_views_quiet, (get_frame _ _ _ _ _ _ Hx)|]. rewrite Hp in Hspec. destruct r as [out|e].
  - destruct Hspec as (r0 & rs & Hsel & ->). destruct (selects_elem _ _ _ r0 Hsel) as [Hin Hev]; [by left|].
    apply list_elem_of_fmap in Hin as (p & -> & Hin). cbn [profile_query sel_cols sel_where] in *. rewrite scan_profile_row.
    rewrite eval_profile_id, bool_decide_eq_true in Hev. done.
  - cbn [errors_Is]. destruct (error_has sql_ErrNoRows e) eqn:E; [|by rewrite (pst_get_errors _ _ _ _ _ _ Hx)].
    intros _ (p & -> & Hin)%list_elem_of_fmap. pose proof (eval_profile_id (up_ID p) p) as Hev. rewrite bool_decide_eq_true_2 in Hev by done.
    change (eval_where (sel_where (profile_query (up_ID p))) (profile_row p) = true) in Hev.
    rewrite (selects_nil _ _ (Hspec eq_refl)) in Hev; [done|done|done|]. by apply list_elem_of_fmap_2.
Qed.

Lemma sql_delete_profile_spec ctx id w s : profiles_view (route ctx) w s →
  ∃ err w', profileRepository_DeleteByID ctx id w = (Ret err, w') ∧ isolated profiles_view ctx w w' ∧
    (errors_Is err (Some domain_ErrUserProfileNotFound) = true ∨ err = None →
       profiles_view (route ctx) w' (with_profiles (remove_profile id) s)).
Proof.
  intros (Hopen & Hp & Hk)%profiles_view_seen. unfold profileRepository_DeleteByID.
  rewrite (table_ToSql_delete (TableSpec := pst_profiles (route ctx))).
  destruct (table_delete (TableSpec := pst_profiles (route ctx)) ctx [CEq "user_id" (AUuid id)] w) as (r & w1 & Hx & Hspec).
  destruct (exec_frame _ _ _ _ _ _ Hx) as [Hfr Ho]. unfold ExecContext. rewrite (M_bind_Ret _ _ _ _ _ Hx). eexists _, w1.
  split; [done|]. split; [by apply apart_isolated|]. pose proof (table_seen_same _ _ _ _ (pst_delete_keys _ _ _ _ _ _ Hx)) as Hkeys.
  intros Herr. destruct r as [n|e].
  - destruct Hspec as [Hspec _]. rewrite Hp, delete_profile_rows in Hspec.
    apply profiles_view_intro; [by apply Ho|done|by rewrite Hkeys].
  - destruct Herr as [Herr|]; [|done]. cbn [errors_Is] in Herr. by rewrite (pst_exec_errors _ _ _ _ _ _ Hx) in Herr.
Qed.

Lemma profile_store_over_sql :
  @ProfileStoreSpec W userProfileRepository (@ServiceImpl W (IdempotencyKeyStorage uuid_NewSHA1)) event_key profiles_view.
Proof. split; [apply sql_insert_key_spec|apply sql_store_profile_spec|apply sql_find_profile_spec|apply sql_delete_profile_spec]. Qed.
Lemma profiles_over_sql :
  @ProfilesSpec W HRU userProfileRepository (@ServiceImpl W (IdempotencyKeyStorage uuid_NewSHA1)) event_key profiles_view (λ _ _, True).
Proof.
  split; [apply profile_store_over_sql|].
  intros ctx id w s _. destruct (pst_remote ctx id w) as (r & w' & Hr & Hv). exists r, w'. split; [done|]. split; [by apply same_views_quiet|done].
Qed.
Context {HDE : DriverErrors W ErrAlreadyInserted}.

Lemma sql_insert_key_error ctx e w s err w' : profiles_view (route ctx) w s →
  @ServiceImpl_Insert W (IdempotencyKeyStorage uuid_NewSHA1) ctx e [deleted_key] w = (Ret (Some err), w') →
  error_has ErrAlreadyInserted err = true → event_key e ∈ ps_keys s.
Proof.
  intros (_ & _ & Hk)%profiles_view_seen Hrun Herr. unfold ServiceImpl_Insert in Hrun. cbn in Hrun. unfold IdempotencyKeyStorage_Insert in Hrun.
  change (insert_extra [deleted_key]) with deleted_key in Hrun.
  rewrite (table_ToSql_insert (TableSpec := pst_keys (route ctx))) in Hrun by done.
  destruct (table_insert (TableSpec := pst_keys (route ctx)) ctx idk_cols [idk_vals uuid_NewSHA1 e deleted_key] w) as (r & w1 & Hx & Hspec); [done|].
  unfold ExecContext in Hrun. rewrite (M_bind_Ret _ _ _ _ _ Hx) in Hrun. pose proof (driver_exec _ _ _ _ _ _ Hx) as Hdrv.
  destruct r as [[n|er]|er]; [|injection Hrun as <- _; by rewrite error_has_wrap, Hdrv in Herr..].
  rewrite insert_key_spec in Hspec. destruct (existsb _ _) eqn:E.
  - apply existsb_has_key in E. by apply Hk.
  - injection Hspec as _ ->. by injection Hrun.
Qed.

Lemma sql_delete_profile_error ctx id w s err w' : profiles_view (route ctx) w s →
  profileRepository_DeleteByID ctx id w = (Ret (Some err), w') → error_has ErrAlreadyInserted err = false.
Proof.
  intros _ Hrun. unfold profileRepository_DeleteByID in Hrun.
  rewrite (table_ToSql_delete (TableSpec := pst_profiles (route ctx))) in Hrun.
  apply M_bind_Ret_inv in Hrun as (r & w1 & Hx & Hrun). pose proof (driver_exec _ _ _ _ _ _ Hx) as Hdrv.
  unfold mret, M_ret in Hrun. destruct r as [[n|er]|er]; [case_match|..]; simplify_eq; [done|by rewrite error_has_wrap|done].
Qed.

Lemma profile_errors_over_sql :
  @ProfileErrorSpec W userProfileRepository (@ServiceImpl W (IdempotencyKeyStorage uuid_NewSHA1)) event_key profiles_view.
Proof. split; [apply sql_insert_key_error|apply sql_delete_profile_error]. Qed.

End refinement.

(** The two tables with a variable beside the database. *)
Lemma beside_ProfileStore {T W S} `{!DB W, !RemoteUserService W} (committed : W → S) (working : W → nat → option S) profilesOf keysOf :
  ProfileStore committed working profilesOf keysOf →
  @ProfileStore (T * W) S (DB_beside T W) (λ ctx id, on_env (remote_Get ctx id)) (committed ∘ snd) (working ∘ snd) profilesOf keysOf.
Proof.
  intros Hst. assert (Hview : ∀ t (w : T * W), view (committed ∘ snd) (working ∘ snd) t w = view committed working t w.2) by by intros [] [].
  split.
  - exact (beside_StatementSpec committed working (StatementSpec0 := @pst_statements _ _ _ _ _ _ _ _ Hst)).
  - intros t. destruct t; exact (beside_TableSpec _ _ _ _ _ _ (TableSpec0 := @pst_profiles _ _ _ _ _ _ _ _ Hst _)).
  - intros t. destruct t; exact (beside_TableSpec _ _ _ _ _ _ (TableSpec0 := @pst_keys _ _ _ _ _ _ _ _ Hst _)).
  - intros t ctx cols vals [v w] r [v' w'] [-> H]%on_env_inv. rewrite !Hview. by eapply pst_insert_keys.
  - intros t ctx cs [v w] r [v' w'] [-> H]%on_env_inv. rewrite !Hview. by eapply pst_delete_keys.
  - intros t ctx cols vals [v w] r [v' w'] [-> H]%on_env_inv. rewrite !Hview. by eapply pst_insert_profiles.
  - intros ctx id [v w]. destruct (pst_remote committed working profilesOf keysOf ctx id w) as (r & w' & Hr & H). exists r, (v, w').
    unfold remote_Get, on_env. unfold remote_Get in Hr. rewrite Hr. split; [done|]. intros t. rewrite !Hview. apply H.
  - intros t ctx q [v w] e [v' w'] [-> H]%on_env_inv. by eapply pst_get_errors.
  - intros t ctx q [v w] e [v' w'] [-> H]%on_env_inv. by eapply pst_exec_errors.
Qed.

(** ** Theorem: the event of a deleted user, over the database *)

(** C40. However often the event of a deleted user is delivered, whatever fails:
    an error - of a statement, of the commit, of the user service - commits
    nothing; success commits the removal of exactly that user's profile
    together with the idempotency key of the event, when the user service says
    that the user is deleted, and nothing otherwise.  An event whose key is
    committed never removes anything again, so a profile stored since then
    survives. *)
Theorem HandleUserDeleted_over_sql {W S : Type} `{!DB W, !RemoteUserService W} (uuid_NewSHA1 : uuid → string → uuid)
    (committed : W → S) (working : W → nat → option S) (profilesOf keysOf : S → list (gmap string arg))
    `{!TxSpec W S committed working} (Hstore : ProfileStore committed working profilesOf keysOf)
    (t : transaction (W := W)) (Hcommit : quiet_commit committed working t)
    (ctx : context) (evt : UserDeleted) (w : W) (s : profiles) (Htx : HasTransaction ctx = false)
    (Hs : stores_profiles profilesOf keysOf (committed w) s) :
  ∃ r w1 err w', remote_Get ctx (de_UserID evt) w = (Ret r, w1) ∧
    @HandleUserDeleted W _ userProfileRepository (@ServiceImpl W (IdempotencyKeyStorage uuid_NewSHA1)) (sql_Transaction t) ctx evt w =
      (Ret err, w') ∧
    match err with
    | Some _ => stores_profiles profilesOf keysOf (committed w') s
    | None => ∃ s', stores_profiles profilesOf keysOf (committed w') s' ∧ deletion_handled (event_key uuid_NewSHA1) evt r s s'
    end.
Proof.
  pose proof (route_outer ctx Htx) as Ho.
  pose proof (profiles_over_sql uuid_NewSHA1 committed working profilesOf keysOf) as HP.
  pose proof (sql_transaction_implements committed working (stores_profiles profilesOf keysOf) t Hcommit) as HT.
  destruct (@HandleUserDeleted_spec W _ userProfileRepository (@ServiceImpl W (IdempotencyKeyStorage uuid_NewSHA1)) (sql_Transaction t)
    _ _ _ HP HT ctx evt w s Htx) as (r & w1 & err & w' & Hr & _ & Hrun & Hspec); [by apply tx_view_outer|].
  exists r, w1, err, w'. split; [done|]. split; [done|]. destruct err as [e|]; [by apply (tx_view_outer committed working _ _ _ _ Ho)|].
  destruct Hspec as (s' & Hs' & Hh). exists s'. split; [|done]. by apply (tx_view_outer committed working _ _ _ _ Ho).
Qed.

(** ** Witnesses: a server with the two tables *)

Abbreviation twoTables := (list (gmap string arg) * list (gmap string arg))%type.
Abbreviation profileServer := (server twoTables).

Definition profiles_DB : DB profileServer := pair_DB ["user_id"] (DoUpdate profile_set_cols) idk_table ["key"] DoNothing.
(** The user service knows user 5, who is deleted, and user 6. *)
Definition profile_users : RemoteUserService profileServer := λ _ id w,
  (Ret (if (id =? 5)%N then Ok (mkUserInfo 5 (Some 10%Z)) else if (id =? 6)%N then Ok (mkUserInfo 6 None)
        else Err (ErrSentinel user_ErrUserNotFound)), w).

Lemma profile_server_store : @ProfileStore profileServer _ profiles_DB profile_users sv_committed sv_working fst snd.
Proof.
  split.
  - apply server_StatementSpec.
  - intros t. by apply pair_first.
  - intros t. apply pair_second.
  - intros t ctx cols vals w r w'. by apply pair_keeps_second.
  - intros t ctx cs w r w'. by apply pair_keeps_second.
  - intros t ctx cols vals w r w'. by apply pair_keeps_first.
  - intros ctx id w. by eexists _, w.
  - intros t ctx q w e w' Hq. by destruct (pair_get_errors _ _ _ _ _ _ _ _ _ _ _ Hq) as [-> | ->].
  - intros t ctx q w e w' Hq. by rewrite (pair_exec_errors _ _ _ _ _ _ _ _ _ _ _ Hq).
Qed.

Definition profile_tx : transaction (W := profileServer) := mkTransaction "profile" None.
Lemma profile_tx_quiet : quiet_commit sv_committed sv_working profile_tx.
Proof. by intros f w Hf. Qed.

(** The event 77 was handled before, and its user has a profile again. *)
Definition ann : UserProfile := mkProfile 5 "Ann" "Lee".
Definition handled_rows : twoTables := ([profile_row ann], [mk_row idk_cols (idk_vals sample_sha1 77 deleted_key)]).
Definition handled_state : profiles := mkProfiles [ann] {[sample_sha1 77 deleted_key]}.

Lemma handled_stored : stores_profiles fst snd handled_rows handled_state.
Proof.
  split; [done|]. intros k. cbn [ps_keys handled_state handled_rows snd]. rewrite elem_of_singleton. split.
  - intros ->. eexists. split; [by apply list_elem_of_here|done].
  - intros (r & ->%list_elem_of_singleton & Hr). by injection Hr.
Qed.

Lemma HandleUserDeleted_over_sql_witness :
  ∃ err w', @HandleUserDeleted profileServer profile_users (@userProfileRepository _ profiles_DB)
    (@ServiceImpl _ (@IdempotencyKeyStorage _ profiles_DB sample_sha1)) (@sql_Transaction _ profiles_DB profile_tx)
    context_Background (mkUserDeleted 77 5) (mkServer handled_rows ∅) = (Ret err, w') ∧
    fst (sv_committed w') = [profile_row ann].
Proof.
  destruct (@HandleUserDeleted_over_sql profileServer _ profiles_DB profile_users sample_sha1 sv_committed sv_working fst snd
    (server_TxSpec _ _ _) profile_server_store profile_tx profile_tx_quiet context_Background (mkUserDeleted 77 5) (mkServer handled_rows ∅)
    handled_state eq_refl handled_stored) as (r & w1 & err & w' & _ & H & Hspec).
  exists err, w'. split; [exact H|]. destruct err as [e|]; [exact (proj1 Hspec)|].
  destruct Hspec as (s' & [Hs' _] & [[-> _]|(_ & Hn & _)]); [exact Hs'|]. exfalso. apply Hn. apply (proj2 (elem_of_singleton _ (sample_sha1 77 deleted_key))); reflexivity.
Defined.
