(* ===== verification/EventDelivery.v ===== *)
(** The events of the user service on their way in: the message handlers of
    internal/userprofile/container.go on the bus listener of
    internal/pkg/cmd/container.go - however often a message is delivered and
    its handler retried, the profile is removed at most once. *)
From S2P Require Import Prelude GoStrings Context Message Queue Http HttpServer Sql Persistence Idk Bus Lazy Listener User UserRepo EventOutbox UserProfile UserProfileSql.

(** ** Wiring *)

Definition userprofile_domain_Name : string := "userProfile".
Definition SubscriberName `{!Kebab} : Subscriber := NewSubscriberService userprofile_domain_Name.

(** [EventUserDeleted] of internal/userprofile/app/user, as the message that was
    decoded, and [PayloadDeserializerImpl] at that type. *)
Definition user_EventUserDeleted (evt : UserDeleted) : StructuredMessage :=
  mkStructured "user.EventUserDeleted" (de_EventID evt) "user.deleted" (de_UserID evt) "".
Definition PayloadDeserializerImpl (Unmarshal : string → result UserDeleted) : PayloadDeserializer := λ payload,
  match Unmarshal payload with
  | Err e => Err (Errorf "json decode user.EventUserDeleted" e)
  | Ok evt => Ok (user_EventUserDeleted evt)
  end.

Section wiring.
Context {C W : Type} `{!Kebab, !LogSink W, !Metrics W, !MetricsDuration W, !HasClock W, !NewUUID W}.
Context `{!RemoteUserService W, !UserProfileRepository W, !IdkService W, !Transaction W}.
Context (error_Error : error → string) (uuid_String : uuid → string) (Unmarshal : string → result UserDeleted).
Context (get_consumer : Topic → Subscriber → M W (result C)).

(** [messageBusListenerProvider] *)
Definition busListener_opts (o : observer) (logger : Logger) : list (ListenerOption W) :=
  [WithHandlerObservability o [FieldRequestID]; WithHandlerMetrics;
   WithHandlerLogging error_Error uuid_String uuid_New logger LevelInfo LevelError; WithHandlerIdempotencyKeyErrorIgnoring].
Definition messageBusListenerProvider (o : observer) (logger : Logger) : busListener C W := NewBusListener (busListener_opts o logger).

(** The service's method as a handler of the decoded event. *)
Definition userDeleted_handler : TypedHandler W := λ ctx msg,
  on_env (HandleUserDeleted ctx (mkUserDeleted (sm_ID msg) (sm_AggregateID msg))).
Definition userprofile_topicHandlers : list (Topic * list (StructuredMessage * PayloadDeserializer * list (TypedHandler W))) :=
  [(TopicDomainEventUser,
    [RegisterEventHandlers (user_EventUserDeleted (mkUserDeleted uuid_Nil uuid_Nil)) (PayloadDeserializerImpl Unmarshal) [userDeleted_handler]])].

(** [MustRegisterMessageHandlers] *)
Definition MustRegisterMessageHandlers (registry : busListener C W) : M W (busListener C W) :=
  '(registry, err) ← RegisterHandlers get_consumer SubscriberName userprofile_topicHandlers [] registry;
  match err with
  | Some e => panic (error_Error (Errorf "register userProfile message handlers" e))
  | None => mret registry
  end.
End wiring.

(** ** The processing of a message keeps what its parts keep *)

Lemma plain_observe o fields md ctx : plain ctx → plain (observe_fields o fields md ctx).
Proof.
  revert ctx. induction fields as [|f fields IH]; intros ctx Hp; [done|]. cbn [observe_fields]. apply IH. repeat case_match; try done.
  by apply plain_WithField.
Qed.
#[export] Hint Resolve plain_observe : keeps.

Section keeps_processing.
Context {W : Type} {HJ : MessageJSON} {HO : JobOrder} {HC : CtxErr W} {HQ : ListenerProcessingQueue W}.
Context {HB1 : Backoff (list HandlerMetadata * W)} {HB2 : Backoff W} {HL1 : BackoffLaws (list HandlerMetadata * W)} {HL2 : BackoffLaws W}.
Context (l : ListenerImpl W) (deserializer : gmap string PayloadDeserializer) (J : W → Prop).
Abbreviation JH := (λ s : list HandlerMetadata * W, J s.2).

(** The hooks of the listener, its environment and its handlers keep [J]. *)
Class ListenerKeeps : Prop := {
  lk_ctx_Err ctx : keeps J (ctx_Err ctx);
  lk_ack ctx msg r : keeps J (AcknowledgeResult ctx msg r);
  lk_OnAck fn ctx msg r e : fn ∈ OnAcknowledgeResult l → keeps J (fn ctx msg r e);
  lk_OnResult fn ctx msg r : fn ∈ OnHandlerResult l → keeps J (fn ctx msg r);
  lk_OnNotFound fn ctx msg : fn ∈ OnHandlerNotFound l → keeps J (fn ctx msg);
  lk_OnUnknown fn ctx msg e : fn ∈ OnDeserializedUnknownMsg l → keeps J (fn ctx msg e);
  lk_OnDesError fn ctx msg e : fn ∈ OnDeserializedError l → keeps J (fn ctx msg e);
  lk_before fn ctx msg w r w' : fn ∈ OnBeforeHandleMessage l → plain ctx → J w → fn ctx msg w = (Ret r, w') → plain r ∧ J w';
}.

Lemma run_jobs_keeps (js : list (M (list HandlerMetadata * W) (option error))) first : Forall (keeps JH) js → keeps JH (run_jobs js first).
Proof.
  intros Hall. revert first. induction Hall as [|j js Hj _ IH]; intros first; [apply keeps_ret|]. cbn [run_jobs].
  apply keeps_bind; [done|]. intros err. apply IH.
Qed.
Lemma run_hooks_keeps {X} (body : X → M W unit) hooks : (∀ fn, fn ∈ hooks → keeps J (body fn)) → keeps J (run_hooks body hooks).
Proof.
  induction hooks as [|fn hooks IH]; intros Hall; [apply keeps_ret|]. cbn [run_hooks].
  apply keeps_bind; [apply Hall; by left|]. intros _. apply IH. intros fn' Hfn. apply Hall. by right.
Qed.

Context {HLK : ListenerKeeps}.

Lemma acknowledgeMessage_keeps ctx msgCtx msg r : keeps J (acknowledgeMessage l ctx msgCtx msg r).
Proof.
  apply retry_keeps. unfold acknowledge_once. apply keeps_bind; [apply lk_ctx_Err|]. intros cerr. case_match; [apply keeps_ret|].
  apply keeps_bind; [apply lk_ack|]. intros err. apply keeps_bind; [|intros _; apply keeps_ret].
  apply run_hooks_keeps. intros fn Hfn. by apply lk_OnAck.
Qed.

Lemma skip_keeps fuel ctx msg : keeps J (skipAndAckMessage l fuel ctx msg).
Proof.
  induction fuel as [|fuel IH]; [apply keeps_fuel|]. cbn [skipAndAckMessage]. apply keeps_bind; [apply lk_ctx_Err|].
  intros [e|]; [apply keeps_ret|]. apply keeps_bind; [apply acknowledgeMessage_keeps|]. intros [e|]; [exact IH|apply keeps_ret].
Qed.

Lemma handleLoop_keeps fuel ctx msgCtx msg m (hs : list (TypedHandler W)) :
  Forall (λ h : TypedHandler W, keeps JH (h msgCtx m)) hs → keeps JH (handleLoop l fuel ctx msgCtx msg m hs).
Proof.
  intros Hall. induction fuel as [|fuel IH]; [apply keeps_fuel|]. cbn [handleLoop]. apply keeps_bind; [apply keeps_on_env, lk_ctx_Err|].
  intros [e|]; [apply keeps_ret|]. apply keeps_bind.
  - apply run_jobs_keeps. rewrite job_order_perm. apply Forall_fmap. eapply Forall_impl; [exact Hall|].
    intros h Hh. by apply retry_keeps.
  - intros r. apply keeps_bind; [apply keeps_on_env, run_hooks_keeps; intros fn Hfn; by apply lk_OnResult|]. intros _.
    apply keeps_bind; [apply keeps_on_env, acknowledgeMessage_keeps|]. intros [e|]; [exact IH|apply keeps_ret].
Qed.

Lemma before_handle_keeps fns ctx msg w r w' : fns ⊆ OnBeforeHandleMessage l → plain ctx → J w →
  before_handle fns ctx msg w = (Ret r, w') → plain r ∧ J w'.
Proof.
  revert ctx w. induction fns as [|fn fns IH]; intros ctx w Hsub Hp HI H; [by injection H as <- <-|]. cbn [before_handle] in H.
  apply M_bind_Ret_inv in H as (c & w1 & H1 & H2). destruct (lk_before fn ctx msg w c w1) as [Hp1 HI1]; [|done..|].
  { apply Hsub. by left. }
  eapply IH; [|exact Hp1|exact HI1|exact H2]. intros x Hx. apply Hsub. by right.
Qed.

(** Processing a message keeps [J] when its handlers do, in every plain
    context. *)
Lemma processMessage_keeps fuel ctx msg : plain (cm_Context msg) →
  (∀ m meta hs msgCtx, Deserialize deserializer (msg_Payload (cm_Message msg)) = Ok (m, meta) → handlers l !! sm_Type m = Some hs →
     plain msgCtx → Forall (λ h : TypedHandler W, keeps JH (h msgCtx m)) hs) →
  keeps JH (processMessage l deserializer fuel ctx msg).
Proof.
  intros Hp Hh. unfold processMessage. destruct (Deserialize _ _) as [[m meta]|e] eqn:Ed.
  - destruct (handlers l !! sm_Type m) as [hs|] eqn:El.
    + intros [hp w] r [hp' w'] HI H. apply M_bind_Ret_inv in H as (c & [hp1 w1] & H1 & H). injection H1 as <- <- <-.
      apply M_bind_Ret_inv in H as (c & [hp2 w2] & H2 & H). apply on_env_inv in H2 as [-> H2].
      apply before_handle_keeps in H2 as [Hp2 HI2]; [|done|by apply plain_msg_meta|done].
      refine (handleLoop_keeps fuel ctx c msg m hs _ (_, w2) _ _ HI2 H). by eapply Hh.
    + apply keeps_bind; [apply keeps_on_env, run_hooks_keeps; intros fn Hfn; by apply lk_OnNotFound|].
      intros _. apply keeps_on_env, skip_keeps.
  - apply keeps_bind; [|intros _; apply keeps_on_env, skip_keeps]. apply keeps_on_env, run_hooks_keeps. intros fn.
    destruct (errors_Is _ _); intros Hfn; [by apply lk_OnUnknown|by apply lk_OnDesError].
Qed.
End keeps_processing.

(** ** The listener of the profile service keeps what its handler keeps *)

Section listening.
Context {C W : Type} {HJ : MessageJSON} {HJL : MessageJSONLaws} {HK : Kebab} {HO : JobOrder}.
Context {HCE : CtxErr W} {HQ : ListenerProcessingQueue W}.
Context {HB1 : Backoff (list HandlerMetadata * W)} {HB2 : Backoff W} {HL1 : BackoffLaws (list HandlerMetadata * W)} {HL2 : BackoffLaws W}.
Context {HL : LogSink W} {HMt : Metrics W} {HMD : MetricsDuration W} {HC : HasClock W} {HNU : NewUUID W}.
Context {HU : RemoteUserService W} {HR : UserProfileRepository W} {HI : IdkService W} {HT : Transaction W}.
Context (error_Error : error → string) (uuid_String : uuid → string) (event_Value : event → string).
Context (Unmarshal : string → result UserDeleted) (get_consumer : Topic → Subscriber → M W (result C)).
Context (J : W → Prop).

(** The queue, the context, the logs, the metrics, the clock and the UUIDs are
    beside what [J] is about. *)
Class BesideKeeps : Prop := {
  bk_ctx_Err ctx : keeps J (ctx_Err ctx);
  bk_ack ctx msg r : keeps J (AcknowledgeResult ctx msg r);
  bk_emit level fields text : keeps J (emit level fields text);
  bk_increment fields metric : keeps J (Increment fields metric);
  bk_duration fields metric d : keeps J (Duration fields metric d);
  bk_clock : keeps J time_Now;
  bk_uuid : keeps J uuid_New;
}.
Context {HBK : BesideKeeps}.

(** A middleware keeps what the handler keeps. *)
Definition handler_keeps (m : StructuredMessage) (h : TypedHandler W) : Prop :=
  ∀ ctx, plain ctx → keeps (λ s : list HandlerMetadata * W, J s.2) (h ctx m).

Lemma log_keeps l ctx level text : keeps J (logger_Log l (Some ctx) level text).
Proof.
  intros w a w' HJw H. destruct (logger_Log_ctx l ctx level text w) as [Heq|[fields Heq]]; rewrite Heq in H.
  - by injection H as _ <-.
  - eapply bk_emit; [exact HJw|exact H].
Qed.
Lemma keeps_GetHandlerMetadata ctx : keeps (λ s : list HandlerMetadata * W, J s.2) (GetHandlerMetadata ctx).
Proof. apply keeps_bind; [apply keeps_get_obj|intros; apply keeps_ret]. Qed.
#[local] Hint Resolve log_keeps bk_increment bk_duration bk_clock bk_uuid keeps_GetHandlerMetadata : keeps.

Lemma observability_keeps o fields m h : handler_keeps m h → handler_keeps m (observability_mw o fields h).
Proof. intros Hh ctx Hp. apply keeps_bind; [apply keeps_GetHandlerMetadata|]. intros meta. by apply Hh, plain_observe. Qed.

Lemma metrics_keeps m h : handler_keeps m h → handler_keeps m (metrics_mw h).
Proof. intros Hh ctx Hp. specialize (Hh ctx Hp). unfold metrics_mw. solve_keeps. Qed.

Lemma logging_keeps m logger il el h :
  handler_keeps m h → handler_keeps m (logging_mw error_Error uuid_String uuid_New logger il el h).
Proof.
  intros Hh ctx Hp. unfold logging_mw. apply keeps_bind; [eauto with keeps|]. intros id.
  pose proof (Hh _ (plain_WithContext logger ctx [("handlerCorrelation", uuid_String id)] Hp)). solve_keeps.
Qed.

Lemma mapping_keeps m fn h : handler_keeps m h → handler_keeps m (λ ctx msg, err ← h ctx msg; mret (fn err)).
Proof. intros Hh ctx Hp. specialize (Hh ctx Hp). solve_keeps. Qed.

Abbreviation deleted_blank := (user_EventUserDeleted (mkUserDeleted uuid_Nil uuid_Nil)).
Abbreviation wrapped o logger := (wrapHandler
  [observability_mw o [FieldRequestID]; metrics_mw; logging_mw error_Error uuid_String uuid_New logger LevelInfo LevelError;
   λ handler ctx msg, err ← handler ctx msg; mret (if errors_Is err (Some ErrAlreadyInserted) then None else err)]
  (typed_handler deleted_blank userDeleted_handler)).

(** The service handles the event and keeps [J]. *)
Definition service_keeps (evt : UserDeleted) : Prop := ∀ ctx w, plain ctx → J w → ∃ err w', HandleUserDeleted ctx evt w = (Ret err, w') ∧ J w'.

Lemma wrapped_keeps evt o logger : service_keeps evt → handler_keeps (user_EventUserDeleted evt) (wrapped o logger).
Proof.
  intros Hsvc. unfold wrapHandler. cbn [foldr]. apply observability_keeps, metrics_keeps, logging_keeps, mapping_keeps.
  intros ctx Hp. apply keeps_recover.
  - intros [hp w] HJw. cbn in HJw. destruct (Hsvc ctx w Hp HJw) as (err & w' & Hrun & Hw').
    unfold typed_handler, userDeleted_handler, on_env. cbn [user_EventUserDeleted sm_reflectType sm_ID sm_AggregateID].
    rewrite String.eqb_refl. replace (mkUserDeleted _ _) with evt by by destruct evt. by rewrite Hrun.
  - intros text. apply keeps_bind; [|intros; apply keeps_ret]. unfold updateHandlerMetadata. destruct (ctx_msg_meta ctx); eauto with keeps.
Qed.

(** What registration makes of the bus listener. *)
Lemma registered_listener o logger w b w' :
  MustRegisterMessageHandlers error_Error Unmarshal get_consumer
    (messageBusListenerProvider (C := C) error_Error uuid_String o logger) w = (Ret b, w') →
  ∃ c, bl_opts b = busListener_opts error_Error uuid_String o logger ∧
    bl_listeners b = {[(SubscriberName, TopicDomainEventUser) :=
      mkListenerData c {["user.deleted" := PayloadDeserializerImpl Unmarshal]}
        {["user.deleted" := [typed_handler deleted_blank userDeleted_handler]]} []]}.
Proof.
  unfold MustRegisterMessageHandlers. intros ([b1 err] & w1 & H1 & H)%M_bind_Ret_inv.
  cbn [RegisterHandlers userprofile_topicHandlers] in H1. apply M_bind_Ret_inv in H1 as ([b2 err2] & w2 & H2 & H1).
  unfold registerTopicHandlers in H2. cbn [messageBusListenerProvider NewBusListener bl_listeners] in H2. rewrite lookup_empty in H2.
  cbn in H2. apply M_bind_Ret_inv in H2 as (c & w3 & Hc & H2). destruct c as [c|e]; injection H2 as <- <- <-; injection H1 as <- <- <-; [|done].
  injection H as <- <-. by exists c.
Qed.

(** The hooks of the listener write to the log. *)
Lemma listener_keeps o logger hs : ListenerKeeps (NewListener hs (busListener_opts error_Error uuid_String o logger ++ [])) J.
Proof.
  split.
  - intros ctx. apply bk_ctx_Err.
  - intros ctx msg r. apply bk_ack.
  - intros fn ctx msg r e Hfn. cbn in Hfn. apply list_elem_of_singleton in Hfn as ->. unfold log_ack. solve_keeps.
  - intros fn ctx msg r Hfn. cbn in Hfn. by apply elem_of_nil in Hfn.
  - intros fn ctx msg Hfn. cbn in Hfn. apply list_elem_of_singleton in Hfn as ->. apply log_keeps.
  - intros fn ctx msg e Hfn. cbn in Hfn. apply list_elem_of_singleton in Hfn as ->. apply log_keeps.
  - intros fn ctx msg e Hfn. cbn in Hfn. apply list_elem_of_singleton in Hfn as ->. apply log_keeps.
  - intros fn ctx msg w r w' Hfn Hp HJw H. cbn in Hfn. apply list_elem_of_singleton in Hfn as ->.
    apply M_bind_Ret_inv in H as (id & w1 & H1 & H). injection H as <- <-. split; [by apply plain_WithContext|].
    by eapply bk_uuid.
Qed.

(** The messages of the topic, by what carries the event. *)
Lemma carried_event evt msg m meta :
  (∀ p, marshal_value (event_message event_Value (EventUserDeleted (de_EventID evt) (de_UserID evt))) = Ok p → Unmarshal p = Ok evt) →
  carries uuid_String TopicDomainEventUser (event_message event_Value (EventUserDeleted (de_EventID evt) (de_UserID evt))) msg →
  Deserialize {["user.deleted" := PayloadDeserializerImpl Unmarshal]} (msg_Payload msg) = Ok (m, meta) → m = user_EventUserDeleted evt.
Proof.
  intros Hjson (_ & _ & _ & meta' & Hs) Hd. unfold Serialize in Hs. destruct (marshal_value _) as [p|e] eqn:Ep; [|done].
  destruct (marshal_envelope _) as [data|e] eqn:Ee; [|done]. injection Hs as ->.
  apply unmarshal_marshal in Ee as (meta2 & Ee & _). unfold Deserialize in Hd. rewrite Ee in Hd.
  change (jm_Type _) with "user.deleted" in Hd. rewrite lookup_singleton_eq in Hd. cbn [jm_Payload jm_Meta] in Hd.
  rewrite (proj1 (ValidString_spec p) (marshal_valid _ _ Ep)) in Hd.
  unfold PayloadDeserializerImpl in Hd. rewrite (Hjson p eq_refl) in Hd. by injection Hd.
Qed.

(** Deliveries of messages, one after the other. *)
Fixpoint deliver (l : ListenerImpl W) (d : gmap string PayloadDeserializer) (ms : list (nat * context * ConsumerMessage)) :
    M (list HandlerMetadata * W) unit :=
  match ms with
  | [] => mret tt
  | (fuel, ctx, msg) :: ms' => _ ← processMessage l d fuel ctx msg; deliver l d ms'
  end.

(** Deliveries of messages that carry the event keep what handling it keeps. *)
Lemma deliveries_keep o logger w0 b w0' c d l evt ms
    (Hreg : MustRegisterMessageHandlers error_Error Unmarshal get_consumer
       (messageBusListenerProvider (C := C) error_Error uuid_String o logger) w0 = (Ret b, w0'))
    (Hl : fst (Workers b) !! (SubscriberName, TopicDomainEventUser) = Some (c, d, l))
    (Hjson : ∀ p, marshal_value (event_message event_Value (EventUserDeleted (de_EventID evt) (de_UserID evt))) = Ok p → Unmarshal p = Ok evt)
    (Hms : Forall (λ '(_, _, msg), plain (cm_Context msg) ∧
       carries uuid_String TopicDomainEventUser (event_message event_Value (EventUserDeleted (de_EventID evt) (de_UserID evt))) (cm_Message msg)) ms) :
  service_keeps evt → keeps (λ st : list HandlerMetadata * W, J st.2) (deliver l d ms).
Proof.
  intros Hsvc. destruct (registered_listener o logger w0 b w0' Hreg) as (c' & Hopts & Hlis).
  unfold Workers in Hl. cbn [fst] in Hl. rewrite lookup_fmap, Hlis, lookup_singleton_eq in Hl.
  cbn [fmap option_fmap option_map] in Hl. unfold make_listener in Hl. cbn [ld_Consumer ld_Deserializer ld_Handlers ld_ExtraOpts] in Hl.
  rewrite Hopts in Hl. injection Hl as <- <- <-.
  induction Hms as [|[[fuel ctx] msg] ms [Hp Hc] _ IH]; [apply keeps_ret|]. cbn [deliver].
  apply keeps_bind; [|intros; exact IH].
  apply processMessage_keeps; [by apply listener_keeps|done|].
  intros m meta hs msgCtx Hd Hhs Hpm. apply (carried_event evt _ _ _ Hjson Hc) in Hd as ->.
  change (sm_Type _) with "user.deleted" in Hhs.
  change (handlers _) with ((λ hs : list (TypedHandler W), wrapHandler
    (ListenerMiddlewares (NewListener {["user.deleted" := [typed_handler deleted_blank userDeleted_handler]]} (busListener_opts error_Error uuid_String o logger ++ []))) <$> hs)
    <$> ({["user.deleted" := [typed_handler deleted_blank userDeleted_handler]]} : gmap string (list (TypedHandler W)))) in Hhs.
  rewrite lookup_fmap, lookup_singleton_eq in Hhs. injection Hhs as <-. constructor; [|constructor].
  by apply (wrapped_keeps evt o logger Hsvc msgCtx).
Qed.
End listening.

(** ** The event of a deleted user *)

Section delivery.
Context {C W : Type} {HJ : MessageJSON} {HJL : MessageJSONLaws} {HK : Kebab} {HO : JobOrder}.
Context {HCE : CtxErr W} {HQ : ListenerProcessingQueue W}.
Context {HB1 : Backoff (list HandlerMetadata * W)} {HB2 : Backoff W} {HL1 : BackoffLaws (list HandlerMetadata * W)} {HL2 : BackoffLaws W}.
Context {HL : LogSink W} {HMt : Metrics W} {HMD : MetricsDuration W} {HC : HasClock W} {HNU : NewUUID W}.
Context {HU : RemoteUserService W} {HR : UserProfileRepository W} {HI : IdkService W} {HT : Transaction W}.
Context (event_key : uuid → uuid) (holds : target → W → profiles → Prop) (valid : uuid → result UserInfo → Prop).
Context {HPS : ProfilesSpec event_key holds valid} {HTS : TransactionSpec holds}.
Context (error_Error : error → string) (uuid_String : uuid → string) (event_Value : event → string).
Context (Unmarshal : string → result UserDeleted) (get_consumer : Topic → Subscriber → M W (result C)).

(** The queue, the context, the logs, the metrics, the clock and the UUIDs are
    beside the profiles. *)
Class Beside : Prop := {
  bs_ctx_Err ctx s : keeps (λ w, holds OnDB w s) (ctx_Err ctx);
  bs_ack ctx msg r s : keeps (λ w, holds OnDB w s) (AcknowledgeResult ctx msg r);
  bs_emit level fields text s : keeps (λ w, holds OnDB w s) (emit level fields text);
  bs_increment fields metric s : keeps (λ w, holds OnDB w s) (Increment fields metric);
  bs_duration fields metric d s : keeps (λ w, holds OnDB w s) (Duration fields metric d);
  bs_clock s : keeps (λ w, holds OnDB w s) time_Now;
  bs_uuid s : keeps (λ w, holds OnDB w s) uuid_New;
}.

(** What handling the event may leave of the profiles [s]: nothing changed, or
    the event recorded and the profile gone - for an event not recorded yet. *)
Definition removed_by (evt : UserDeleted) (s : profiles) : profiles :=
  with_profiles (remove_profile (de_UserID evt)) (with_key (event_key (de_EventID evt)) s).
Definition at_most_once (evt : UserDeleted) (s : profiles) (w : W) : Prop :=
  holds OnDB w s ∨ ((event_key (de_EventID evt) ∉ ps_keys s) ∧ holds OnDB w (removed_by evt s)).

Lemma keeps_at_most_once {A} (m : M W A) evt s : (∀ s, keeps (λ w, holds OnDB w s) m) → keeps (at_most_once evt s) m.
Proof. intros Hm w a w' [Hs|[Hk Hs]] H; [left|right; split; [done|]]; by eapply Hm. Qed.

Lemma HandleUserDeleted_once ctx evt s w : plain ctx → at_most_once evt s w →
  ∃ err w', HandleUserDeleted ctx evt w = (Ret err, w') ∧ at_most_once evt s w'.
Proof.
  intros Hp Hw. destruct (plain_route ctx Hp) as [Hr Htx].
  destruct Hw as [Hs|[Hk Hs]]; rewrite <- Hr in Hs;
    destruct (HandleUserDeleted_spec event_key holds valid ctx evt w _ Htx Hs) as (r & w1 & err & w' & _ & _ & Hrun & Hspec);
    exists err, w'; (split; [done|]); rewrite Hr in Hspec; unfold at_most_once.
  - destruct err as [e|]; [by left|]. destruct Hspec as (s' & Hs' & [[-> _]|(_ & Hk & ->)]); [by left|by right].
  - right. split; [done|]. destruct err as [e|]; [done|]. destruct Hspec as (s' & Hs' & [[-> _]|(_ & Hk2 & _)]); [done|].
    exfalso. apply Hk2. unfold removed_by. cbn. set_solver.
Qed.

Context {HBS : Beside}.

Lemma at_most_once_beside evt s : BesideKeeps (at_most_once evt s).
Proof.
  split; intros; apply keeps_at_most_once;
    [apply bs_ctx_Err|apply bs_ack|apply bs_emit|apply bs_increment|apply bs_duration|apply bs_clock|apply bs_uuid].
Qed.

(** C7. Delivered at least once, handled at most once: the listener that the
    user profile service registers - with its middlewares, retries and
    acknowledgements - given any number of deliveries of messages that carry
    the event of a deleted user, with whatever failures of the database, of the
    user service and of the acknowledgements in between, leaves the profiles
    as they were or exactly without that user's profile and with the event's
    idempotency key, and the latter only when the event was not handled
    before: a profile stored after that survives every redelivery. *)
Theorem event_removes_profile_once o logger w0 b w0' c d l evt ms hp w r hp' w' s
    (Hreg : MustRegisterMessageHandlers error_Error Unmarshal get_consumer
       (messageBusListenerProvider (C := C) error_Error uuid_String o logger) w0 = (Ret b, w0'))
    (Hl : fst (Workers b) !! (SubscriberName, TopicDomainEventUser) = Some (c, d, l))
    (Hjson : ∀ p, marshal_value (event_message event_Value (EventUserDeleted (de_EventID evt) (de_UserID evt))) = Ok p → Unmarshal p = Ok evt)
    (Hms : Forall (λ '(_, _, msg), plain (cm_Context msg) ∧
       carries uuid_String TopicDomainEventUser (event_message event_Value (EventUserDeleted (de_EventID evt) (de_UserID evt))) (cm_Message msg)) ms)
    (Hs : holds OnDB w s) (Hrun : deliver l d ms (hp, w) = (Ret r, (hp', w'))) :
  holds OnDB w' s ∨ ((event_key (de_EventID evt) ∉ ps_keys s) ∧ holds OnDB w' (removed_by evt s)).
Proof.
  assert (Hw' : at_most_once evt s w'); [|exact Hw'].
  refine (deliveries_keep error_Error uuid_String event_Value Unmarshal get_consumer (at_most_once evt s) (HBK := at_most_once_beside evt s)
    o logger w0 b w0' c d l evt ms Hreg Hl Hjson Hms _ (hp, w) r (hp', w') _ Hrun); [|by left].
  intros ctx v Hp. by apply HandleUserDeleted_once.
Qed.
End delivery.

(** ** Witness: two deliveries of an event, on the server of profiles *)

Definition struct_Value (e : event) : string := pos_bits (encode (ev_ID e, ev_AggregateID e)).
Definition struct_Unmarshal (s : string) : result UserDeleted :=
  match decode (bits_pos s) : option (N * N) with Some (e, u) => Ok (mkUserDeleted e u) | None => Err (ErrText "json") end.

Definition server_log : LogSink profileServer := λ _ _ _ w, (Ret tt, w).
Definition server_metrics : Metrics profileServer := λ _ _ w, (Ret tt, w).
Definition server_duration : MetricsDuration profileServer := λ _ _ _ w, (Ret tt, w).
Definition server_clock : HasClock profileServer := λ w, (Ret 1000%Z, w).
Definition server_uuid : NewUUID profileServer := λ w, (Ret 7%N, w).
Definition server_ctx_Err : CtxErr profileServer := λ _ w, (Ret None, w).
Definition server_queue : ListenerProcessingQueue profileServer := {|
  ProcessingTokens _ := 1; AddProcessing _ w := (Ret None, w); AcknowledgeResult _ _ _ w := (Ret None, w) |}.

Abbreviation server_holds := (profiles_view sv_committed sv_working fst snd).
Lemma server_beside : @Beside profileServer server_ctx_Err server_queue server_log server_metrics server_duration server_clock server_uuid server_holds.
Proof. split; intros; intros w a w' Hw [= _ <-]; exact Hw. Qed.

Definition deleted_5 : UserDeleted := mkUserDeleted 77 5.
Definition delivered_message : ConsumerMessage :=
  mkConsumerMessage 0 context_Background (mkMessage 77 (@TopicDomainEventUser plain_kebab) (sample_uuid_String 5)
    (match @Serialize bitsJSON (event_message struct_Value (EventUserDeleted 77 5)) ∅ with Ok p => p | Err _ => "" end)).
Definition unhandled_rows : twoTables := ([profile_row ann], []).
Definition unhandled_state : profiles := mkProfiles [ann] ∅.

Lemma unhandled_stored : stores_profiles fst snd unhandled_rows unhandled_state.
Proof. split; [done|]. intros k. cbn. split; [by intros ?%elem_of_empty|]. by intros (r & Hr%elem_of_nil & _). Qed.

Abbreviation server_provider := (@messageBusListenerProvider unit profileServer server_log server_metrics server_duration server_clock server_uuid
  (λ _, "") sample_uuid_String sample_observer (SlogLogger LevelInfo [])).
Abbreviation server_register := (@MustRegisterMessageHandlers unit profileServer plain_kebab profile_users (@userProfileRepository _ profiles_DB)
  (@ServiceImpl _ (@IdempotencyKeyStorage _ profiles_DB sample_sha1)) (@sql_Transaction _ profiles_DB profile_tx) (λ _, "") struct_Unmarshal
  (λ _ _, mret (Ok tt)) server_provider).
Abbreviation deliveries := [(1, context_Background, delivered_message); (1, context_Background, delivered_message)].

Lemma event_removes_profile_once_witness :
  ∃ b c d l hp' w', server_register (mkServer unhandled_rows ∅) = (Ret b, mkServer unhandled_rows ∅) ∧
    fst (Workers b) !! (@SubscriberName plain_kebab, @TopicDomainEventUser plain_kebab) = Some (c, d, l) ∧
    @deliver profileServer bitsJSON fifo server_ctx_Err server_queue (stopBackOff _) (stopBackOff _) l d deliveries
      ([], mkServer unhandled_rows ∅) = (Ret tt, (hp', w')) ∧
    (fst (sv_committed w') = [profile_row ann] ∨ fst (sv_committed w') = []).
Proof.
  do 6 eexists. split; [reflexivity|]. split; [reflexivity|]. split; [vm_compute; reflexivity|].
  pose proof (@profiles_over_sql profileServer _ profiles_DB profile_users sample_sha1 sv_committed sv_working fst snd profile_server_store) as HP.
  pose proof (@sql_transaction_implements profileServer _ profiles profiles_DB sv_committed sv_working (server_TxSpec _ _ _)
    (stores_profiles fst snd) profile_tx profile_tx_quiet) as HT.
  refine (match @event_removes_profile_once unit profileServer bitsJSON bitsJSON_laws plain_kebab fifo server_ctx_Err server_queue
    (stopBackOff _) (stopBackOff _) (stopBackOff_laws _) (stopBackOff_laws _) server_log server_metrics server_duration server_clock server_uuid
    profile_users (@userProfileRepository _ profiles_DB) (@ServiceImpl _ (@IdempotencyKeyStorage _ profiles_DB sample_sha1))
    (@sql_Transaction _ profiles_DB profile_tx) _ _ _ HP HT (λ _, "") sample_uuid_String struct_Value struct_Unmarshal (λ _ _, mret (Ok tt))
    server_beside sample_observer (SlogLogger LevelInfo []) (mkServer unhandled_rows ∅) _ _ _ _ _ deleted_5 deliveries [] (mkServer unhandled_rows ∅) tt _ _
    unhandled_state eq_refl eq_refl _ _ unhandled_stored _ with or_introl H => or_introl (proj1 H) | or_intror (conj _ H) => or_intror (proj1 H) end).
  - intros p [_ ->]%bits_value. unfold struct_Unmarshal. cbn [event_message sm_Value]. unfold struct_Value. rewrite bits_pos_bits, decode_encode. reflexivity.
  - repeat constructor; exists ∅; reflexivity.
  - vm_compute. reflexivity.
Defined.
