(* ===== verification/Container.v ===== *)
(** The HTTP side put together: internal/pkg/cmd/container.go (the server and
    its middlewares, the logger, the factory of clients) and the routes of
    internal/user/container.go and internal/userprofile/container.go; how a
    request passes the middlewares to the handler of its route. *)
From S2P Require Import Prelude GoStrings Context Message Parsing Database Http HttpParser HttpServer Sql Persistence Idk Lazy User UserHandlers UserRepo UserProfile Table UserProfileSql.

Definition HeaderRequestID : string := "X-Request-ID".

(** ** Providers of internal/pkg/cmd *)

Definition logLevelMap : gmap string Level := list_to_map
  [("disabled", LevelDisabled); ("debug", LevelDebug); ("info", LevelInfo); ("warn", LevelWarn); ("error", LevelError)].

(** [strcase.ToScreamingSnake] of github.com/iancoleman/strcase. *)
Class ScreamingSnake := ToScreamingSnakeCase : string → string.

(** The environment variables of the process. *)
Abbreviation environment := (gmap string string) (only parsing).

Section providers.
Context `{!ParseLib} (error_Error : error → string).

(** [loggerProvider] *)
Definition loggerProvider : M environment Logger :=
  r ← env_Parse (mkType false BString) "LOG_LEVEL";
  match r with
  | Err _ => mret (log_New LevelInfo)
  | Ok (VString logLevelStr) => mret (log_New (default LevelInfo (logLevelMap !! logLevelStr)))
  | Ok _ => panic interfaceConversion
  end.
(** [observerProvider] *)
Definition observerProvider (logger : Logger) : observer :=
  observability_New [WithFieldsLogging logger [FieldRequestID]].
End providers.

Section server.
Context {W : Type} `{!ParseLib, !UnicodeLatin, !UnicodeCase, !LogSink W, !Metrics W, !MetricsDuration W, !HasClock W, !NewUUID W}.
Context (error_Error : error → string) (uuid_String : uuid → string) (show_int : Z → string).
Abbreviation Middleware := (HttpHandler (W := W) → HttpHandler (W := W)).
(** gorilla/mux's [CORSMethodMiddleware] of the server's router. *)
Context (CORSMethodMiddleware : Middleware).

Definition tokenProviders : list (Request → option Token) := [UserIDTokenProvider; AdminUserIDTokenProvider; ServiceNameTokenProvider].

(** [httpServerProvider] *)
Definition server_middlewares (o : observer) (logger : Logger) : list Middleware :=
  [CORSMethodMiddleware;
   WithObservability o [(FieldRequestID, [ObservabilityFieldHeaderExtractor HeaderRequestID;
                                          ObservabilityFieldRandomUUIDExtractor uuid_New uuid_String])];
   WithMetrics show_int time_Now;
   Http.WithLogging error_Error uuid_String show_int logger LevelInfo LevelError [];
   WithAuth (λ _ token, mret (provider_Authenticate token)) tokenProviders].
Definition httpServer (o : observer) (logger : Logger) (address : string) : ServerImpl W :=
  NewServer [WithServerAddress address;
             WithHandlerOptions (WithHealthCheckOption None :: (WithMW <$> server_middlewares o logger))].
Definition httpServerProvider (o : observer) (logger : Logger) : M environment (ServerImpl W) :=
  address ← must_env_string error_Error "SERVICE_ADDRESS";
  mret (httpServer o logger address).

(** [httpClientFactoryProvider]: the base options of every client; and
    [HTTPClientFactory]. *)
Definition httpClientFactoryProvider (o : observer) (logger : Logger) : list (ClientOption W) :=
  [WithRequestObservability o [(FieldRequestID, HeaderRequestID)]; WithRequestMetrics show_int;
   WithRequestLogging error_Error uuid_String show_int logger LevelInfo LevelWarn].
Definition factory_InitRawClient (factory : list (ClientOption W)) (extraOpts : list (ClientOption W)) : ClientImpl W :=
  InitRawClient factory extraOpts.
Definition MustInitClient `{!ScreamingSnake} (factory : list (ClientOption W)) (dest : string) (extraOpts : list (ClientOption W)) :
    M environment (ClientImpl W) :=
  host ← must_env_string error_Error (ToScreamingSnakeCase dest +:+ "_SERVICE_URL");
  mret (InitClient factory dest host extraOpts).

(** [userServiceProvider] of internal/userprofile: its client of the user
    service; the destination is that service's domain name. *)
Definition user_Destination : string := "user".
Definition remoteUserServiceProvider `{!ScreamingSnake} (factory : list (ClientOption W)) : M environment (ClientImpl W) :=
  client ← MustInitClient factory user_Destination [];
  mret (NewUserService client).

(** *** The routes *)

Section routes.
Context `{!UserEncodings, !UserService W, !AuthenticationService W, !UserProfileEncodings, !UserProfileService W}.

Definition requires_authentication : list (HandlerOption W) := [WithMW WithAuthenticationRequirement].

(** [MustRegisterHTTPHandlers] of internal/user *)
Definition user_MustRegisterHTTPHandlers (registry : ServerImpl W) : ServerImpl W :=
  let registry := Register AuthenticateHandler [] registry in
  let registry := Register VerifyAuthenticationHandler [] registry in
  let registry := Register RegisterUserHandler [] registry in
  let registry := Register GetCurrentUserHandler requires_authentication registry in
  let registry := Register GetUserByIDHandler requires_authentication registry in
  Register DeleteUserByIDHandler requires_authentication registry.

(** [MustRegisterHTTPHandlers] of internal/userprofile *)
Definition userprofile_MustRegisterHTTPHandlers (registry : ServerImpl W) : ServerImpl W :=
  let registry := Register GetUserProfileHandler requires_authentication registry in
  Register UpdateUserProfileHandler requires_authentication registry.
End routes.
End server.

(** [transactionProvider] of the two containers: no callback on commit. *)
Definition user_transactionProvider {W} : transaction (W := W) := mkTransaction "user" None.
Definition userprofile_transactionProvider {W} : transaction (W := W) := mkTransaction "userProfile" None.

(** ** Serving a request *)

(** Who the headers of a request authenticate. *)
Definition request_principal `{!ParseLib} (r : Request) : option Principal :=
  match first_token tokenProviders r with
  | Some token => match provider_Authenticate token with Ok a => AuthPrincipal a | Err _ => None end
  | None => None
  end.

Lemma request_authenticated `{!ParseLib} r :
  match first_token tokenProviders r with
  | Some token => provider_Authenticate token = Ok (mkAuth (request_principal r))
  | None => request_principal r = None
  end.
Proof.
  pose proof (proj2 (proj2 (proj2 (proj2 (tokens_authenticate r))))) as Hall. unfold request_principal, tokenProviders.
  destruct (first_token _ r) as [t|]; [|done]. destruct (Hall t eq_refl) as (p & -> & _). done.
Qed.

(** [gorilla/mux] documents that its CORS middleware may set a header of the
    response and then calls the next handler. *)
Definition only_sets_headers {W} (mw : HttpHandler (W := W) → HttpHandler (W := W)) : Prop :=
  ∀ h w r st env, ∃ f, mw h w r (st, env) = h w r (set_header f st, env).

Section served.
Context {W S : Type} (J : W → S → Prop).

(** An operation that returns and is beside the state. *)
Definition beside {A} (m : M W A) : Prop := ∀ w, ∃ a w', m w = (Ret a, w') ∧ ∀ s, J w s → J w' s.

Lemma beside_ret {A} (a : A) : beside (mret a).
Proof. intros w. by exists a, w. Qed.
Lemma beside_bind {A B} (m : M W A) (f : A → M W B) : beside m → (∀ a, beside (f a)) → beside (a ← m; f a).
Proof.
  intros Hm Hf w. destruct (Hm w) as (a & w1 & H1 & J1). rewrite (M_bind_Ret _ _ _ _ _ H1).
  destruct (Hf a w1) as (b & w2 & H2 & J2). exists b, w2. split; [done|]. eauto.
Qed.

(** Requests like [r] in a plain context with the property [A] are answered: from
    [s], with a response, leaving [s'], as [Q] says. *)
Definition serves (r : Request) (A : context → Prop) (h : HttpHandler (W := W)) (Q : S → sentResponse → S → Prop) : Prop :=
  ∀ ctx st env s, plain ctx → A ctx → unanswered st → J env s → ∃ st' env' s',
    h ServerWriter (r_WithContext r ctx) (st, env) = (Ret tt, (st', env')) ∧ J env' s' ∧ Q s (sent st') s'.
(** What is said of the status and the body of the response. *)
Definition plainly (Q : S → Z → string → S → Prop) : S → sentResponse → S → Prop := λ s p s', Q s (rs_Status p) (rs_Body p) s'.
Definition any_context (ctx : context) : Prop := True.
Definition authenticated_as (p : option Principal) (ctx : context) : Prop := ctx_auth ctx = Some (mkAuth (InternalPrincipal <$> p)).

Lemma serves_headers mw r A h Q : only_sets_headers mw → serves r A h Q → serves r A (mw h) Q.
Proof. intros Hmw Hh ctx st env s Hp HA Hu HJ. destruct (Hmw h ServerWriter (r_WithContext r ctx) st env) as [f ->]. by apply Hh. Qed.

Lemma serves_metadata r h Q : serves r any_context h Q → serves r any_context (withHandlerMetadata h) Q.
Proof. intros Hh ctx st env s Hp HA Hu HJ. unfold withHandlerMetadata. unfold_M. by apply (Hh (with_http_meta _ ctx)). Qed.

(** What runs after the handler is beside the state. *)
Lemma serves_after r A h Q (f : httpState → M W unit) : (∀ st, beside (f st)) → serves r A h Q →
  ∀ ctx st env s, plain ctx → A ctx → unanswered st → J env s → ∃ st' env' s',
    (_ ← h ServerWriter (r_WithContext r ctx); q ← get_obj; on_env (f q)) (st, env) = (Ret tt, (st', env')) ∧
    J env' s' ∧ Q s (sent st') s'.
Proof.
  intros Hf Hh ctx st env s Hp HA Hu HJ. destruct (Hh ctx st env s Hp HA Hu HJ) as (st1 & env1 & s1 & H1 & HJ1 & HQ).
  rewrite (M_bind_Ret _ _ _ _ _ H1). unfold_M. unfold on_env. destruct (Hf st1 env1) as ([] & env2 & -> & H2).
  exists st1, env2, s1. split; [done|]. eauto.
Qed.

Lemma serves_observability o fields r h Q : (∀ r ex, ex ∈ concat (snd <$> fields) → beside (ex r)) →
  serves r any_context h Q → serves r any_context (WithObservability o fields h) Q.
Proof.
  intros Hex Hh ctx st env s Hp HA Hu HJ. unfold WithObservability.
  assert (∃ ctx' env', observe o fields (r_WithContext r ctx) env = (Ret (r_WithContext r ctx'), env') ∧ plain ctx' ∧ J env' s)
    as (ctx' & env' & Hob & Hp' & HJ').
  { clear HA Hh Hu. revert ctx env Hp HJ. induction fields as [|[field exs] fields IH]; intros ctx env Hp HJ; [by exists ctx, env|].
    assert (Hfirst : ∀ r, beside (first_value exs r)).
    { intros r0. assert (Hall : ∀ ex, ex ∈ exs → beside (ex r0)) by (intros ex Hin; apply Hex; cbn; set_solver). clear -Hall.
      induction exs as [|ex exs IH]; [apply beside_ret|]. cbn [first_value]. apply beside_bind; [apply Hall; by left|].
      intros v. case_match; [|apply beside_ret]. apply IH. intros ex' Hin. apply Hall. by right. }
    cbn [observe]. destruct (Hfirst (r_WithContext r ctx) env) as (v & env1 & H1 & J1). rewrite (M_bind_Ret _ _ _ _ _ H1).
    destruct (String.eqb v ""); (apply (IH ltac:(intros r0 ex Hin; apply Hex; cbn; set_solver)); [|by apply J1]); [done|].
    by apply plain_WithField. }
  unfold_M. unfold on_env. rewrite Hob. by apply Hh.
Qed.

Context {HL : LogSink W} {HMt : Metrics W} {HMD : MetricsDuration W} {HC : HasClock W} {HNU : NewUUID W} {HPL : ParseLib}.

(** The logs, the metrics, the clock and the UUIDs. *)
Class InfraBeside : Prop := {
  ib_emit level fields text : beside (emit level fields text);
  ib_increment fields metric : beside (Increment fields metric);
  ib_duration fields metric d : beside (Duration fields metric d);
  ib_clock : beside time_Now;
  ib_uuid : beside uuid_New;
}.
Context {HIB : InfraBeside}.
Context (error_Error : error → string) (uuid_String : uuid → string) (show_int : Z → string).

Lemma log_beside l ctx level text : beside (logger_Log l (Some ctx) level text).
Proof. intros w. destruct (logger_Log_ctx l ctx level text w) as [->|[fields ->]]; [by eexists _, w|]. apply ib_emit. Qed.

Lemma serves_metrics r h Q : serves r any_context h Q → serves r any_context (WithMetrics show_int time_Now h) Q.
Proof.
  intros Hh ctx st env s Hp HA Hu HJ. unfold WithMetrics. destruct (ib_clock env) as (t & env1 & H1 & J1).
  rewrite (M_bind_Ret _ _ _ t (st, env1)) by (unfold on_env; by rewrite H1).
  destruct (serves_after r any_context h Q (λ q, now ← time_Now;
    metric_result show_int (r_WithContext r ctx) (read_meta (ctx_http_meta ctx) q) (now - t)%Z)) with (ctx := ctx) (st := st) (env := env1) (s := s)
    as (st' & env' & s' & Hrun & HJ' & HQ); [|done|done|done|done|by apply J1|].
  - intros q. apply beside_bind; [apply ib_clock|]. intros now. unfold metric_result.
    apply beside_bind; [case_match; [apply ib_increment|apply beside_ret]|]. intros _. apply ib_duration.
  - exists st', env', s'. split; [|done]. rewrite <- Hrun. unfold_M. unfold on_env.
    destruct (h _ _ _) as [[] [st1 env2]]; [|done..]. by destruct (time_Now env2) as [[]].
Qed.

Lemma serves_logging logger il el excluded r h Q :
  serves r any_context h Q → serves r any_context (Http.WithLogging error_Error uuid_String show_int logger il el excluded h) Q.
Proof.
  intros Hh ctx st env s Hp HA Hu HJ. unfold Http.WithLogging. case_match; [by apply Hh|].
  apply (serves_after r any_context h Q (λ q,
    log_result error_Error uuid_String show_int logger il el (r_WithContext r ctx) (read_meta (ctx_http_meta ctx) q))); try done.
  intros q. unfold log_result. repeat case_match; apply log_beside.
Qed.

Lemma serves_auth r h Q : serves r (authenticated_as (request_principal r)) h Q →
  serves r any_context (WithAuth (λ _ token, mret (provider_Authenticate token)) tokenProviders h) Q.
Proof.
  intros Hh ctx st env s Hp HA Hu HJ. pose proof (request_authenticated r) as Hr. unfold WithAuth.
  change (first_token tokenProviders (r_WithContext r ctx)) with (first_token tokenProviders r).
  assert (Hun : ∀ f, unanswered (update_meta (ctx_http_meta ctx) f st)) by (intros f; by destruct (ctx_http_meta ctx)).
  destruct (first_token tokenProviders r) as [token|].
  - unfold_M. unfold on_env. rewrite Hr. unfold setHandlerAuthentication. unfold_M. by apply (Hh (WithAuthentication ctx _)).
  - unfold setHandlerAuthentication. unfold_M. apply (Hh (WithAuthentication ctx _)); try done.
    unfold authenticated_as. by rewrite Hr.
Qed.

Lemma serves_requirement r p h Q :
  match p with
  | None => ∀ s h, Q s (mkSent StatusUnauthorized "" h) s
  | Some p => serves r (authenticated_as (Some p)) h Q
  end → serves r (authenticated_as p) (WithAuthenticationRequirement h) Q.
Proof.
  intros Hh ctx st env s Hp HA Hu HJ. unfold WithAuthenticationRequirement, IsAuthenticated. cbn [r_Context r_WithContext].
  rewrite HA. destruct p as [p|]; [by apply Hh|]. cbn. unfold writeHandlerResult. unfold_M.
  eexists _, env, s. split; [done|]. split; [done|]. destruct Hu as (H1 & H2 & H3).
  unfold sent, w_WriteHeader, server_WriteHeader, sent_status. destruct (ctx_http_meta ctx); cbn [update_meta set_meta hs_status hs_body];
    rewrite H1; cbn; rewrite H2; apply Hh.
Qed.

(** How a handler with the writer [l] ended, for the request to be answered as
    [Q] says: with the status and the body it left in its writer, and its error. *)
Definition leaves (l : nat) (Q : sentResponse → S → Prop) (o : outcome (option error) * (httpState * W)) : Prop :=
  ∃ err st' env' s' pm code enc, o = (Ret err, (st', env')) ∧ J env' s' ∧ unanswered st' ∧
    hs_deferred st' !! l = Some (mkDeferred ServerWriter pm code "" enc) ∧ sendable (ok_if_zero (spec_status code enc err)) = true ∧
    Q (mkSent (ok_if_zero (spec_status code enc err)) (spec_body enc) (spec_header enc (hs_header st'))) s'.

(** A writer that nothing was written to yet. *)
Definition unwritten (l : nat) (st : httpState) : Prop :=
  unanswered st ∧ ∃ pm, hs_deferred st !! l = Some (mkDeferred ServerWriter pm statusNotSetValue "" None).

Lemma leaves_error l Q err st env s : unwritten l st → J env s → 
  Q (mkSent (ok_if_zero (error_status err)) "" (hs_header st)) s → leaves l Q (Ret err, (st, env)).
Proof.
  intros (Hu & pm & Hl) HJ HQ. exists err, st, env, s, pm, 0%Z, None. split_and!; [done..| |done].
  cbn. unfold error_status. by repeat case_match.
Qed.
Lemma leaves_status l Q err code st env s : unwritten l st → J env s → sendable code = true →
  Q (mkSent code "" (hs_header st)) s →
  leaves l Q (Ret err, (SetStatusCode l code st, env)).
Proof.
  intros (Hu & pm & Hl) HJ Hs HQ. assert (Hc : (code =? 0)%Z = false) by (destruct (Z.eqb_spec code 0); [by subst|done]).
  eexists err, _, env, s, pm, code, None. unfold spec_status, ok_if_zero. rewrite !Hc.
  split_and!; [done..|cbn; by rewrite lookup_alter_eq, Hl|done|done].
Qed.
Lemma leaves_body l Q body st env s : unwritten l st → J env s →
  Q (mkSent (match body with Ok _ => StatusOK | Err _ => StatusInternalServerError end) (spec_body (Some body))
       (spec_header (Some body) (hs_header st))) s →
  leaves l Q (Ret None, (SetJSONBody l body st, env)).
Proof.
  intros (Hu & pm & Hl) HJ HQ. eexists None, _, env, s, pm, 0%Z, (Some body). split_and!; [done..|cbn; by rewrite lookup_alter_eq, Hl|by destruct body|by destruct body].
Qed.

Lemma serves_wrapper r A (hf : HandlerFunc (W := W)) Q :
  (∀ l ctx st env s, plain ctx → A ctx → unwritten l st → J env s → leaves l (Q s) (hf l (r_WithContext r ctx) (st, env))) →
  serves r A (httpHandlerWrapper hf) Q.
Proof.
  intros Hhf ctx st env s Hp HA Hu HJ.
  destruct (newDeferredResponseWriter ServerWriter (r_WithContext r ctx) st) as [l st1] eqn:Hnew.
  rewrite (wrapper_run hf _ _ _ _ _ _ Hnew). apply newDeferred_spec in Hnew as [_ ->].
  change (r_Context (r_WithContext r ctx)) with ctx.
  destruct (Hhf l ctx (set_deferred <[l := mkDeferred ServerWriter (ctx_http_meta ctx) statusNotSetValue "" None]> st) env s)
    as (err & st' & env' & s' & pm & code & enc & H & HJ' & Hu' & Hw & Hc & HQ);
    [done..|split; [done|eexists; cbn; apply lookup_insert_eq]|done|].
  rewrite H. destruct (prepareWrite_eq l ctx err st' _ Hw eq_refl) as (Hd & _ & Hst & Hbo & Hwe & Hhd).
  cbn [dw_w dw_meta dw_httpCode dw_data dw_bodyEncoder] in *. cbn zeta.
  destruct (persist_server (W := W) l (prepareWrite l ctx err st') _ env' ltac:(rewrite Hd; apply lookup_insert_eq) eq_refl) as (H1 & _ & H2).
  { destruct Hu' as (? & ? & ?). split_and!; congruence. }
  { exact Hc. }
  eexists _, env', s'. split; [|split; [done|]].
  - unfold persist in H1. revert H1. unfold_M. by destruct (write_panics _ _); intros [= ].
  - cbn [dw_httpCode dw_data] in H2. by rewrite H2, Hhd.
Qed.
End served.

(** ** The routes of the two services *)

Lemma authenticated_Check p ctx (permission : Permission Principal) : authenticated_as p ctx →
  permission_Check ctx permission =
    match permission (mkAuth p) with
    | Err e => Some (Errorf "check permission" e)
    | Ok allowed => if allowed : bool then None else Some (ErrSentinel ErrPermissionDenied)
    end.
Proof. unfold authenticated_as, permission_Check, GetAuthentication. intros ->. by destruct p. Qed.

(** The user id of a path; anything else is a bad request. *)
Definition path_userID `{!ParseLib} (r : Request) : option uuid :=
  match r_Vars r !! "userID" with
  | Some v => match uuid_Parse v with Ok id => Some id | Err _ => None end
  | None => None
  end.
Lemma parse_userID_spec `{!ParseLib} {W} r ctx :
  match path_userID r with
  | Some id => @parse_userID W _ (r_WithContext r ctx) = mret (Ok id)
  | None => ∃ e, @parse_userID W _ (r_WithContext r ctx) = mret (Err e) ∧ error_has ErrParsingError e = true
  end.
Proof.
  unfold path_userID, parse_userID. unfold_M. unfold parsed, ParseRequest, PathParameter. cbn [dp_PathParameters requestDataProvider r_Vars r_WithContext].
  destruct (r_Vars r !! "userID") as [v|]; [|by eexists].
  unfold parseTypedValueImpl, ParseTypedValue, parse_switch. cbn [pt_base pt_pointer].
  destruct (uuid_Parse v) as [id|e]; [done|]. by eexists.
Qed.

(** The route of a server that leads to a handler. *)
Definition routes_to {W} (srv : ServerImpl W) (rt : Route_ W) (h : Handler (W := W)) : Prop :=
  rt ∈ router_Routes (srv_Router srv) ∧ rt_Method rt = h_Method h ∧ rt_Path rt = h_Path h.

(** The health check answers without a look at the data. *)
Lemma serves_health {W S} (J : W → S → Prop) r A : serves J r A (WithHealthCheck None) (plainly (λ s code body s', s' = s ∧ code = StatusOK ∧ body = health_body)).
Proof.
  intros ctx st env s Hp HA Hu HJ. unfold WithHealthCheck. unfold_M. eexists _, env, s. split; [done|]. split; [done|].
  destruct st as [h c sh i b m d e], Hu as (H1 & H2 & H3). cbn in *. by subst.
Qed.

Section routes_served.
Context {W S : Type} {HPL : ParseLib} {HUL : UnicodeLatin} {HUC : UnicodeCase}.
Context {HL : LogSink W} {HMt : Metrics W} {HMD : MetricsDuration W} {HC : HasClock W} {HNU : NewUUID W}.
Context (error_Error : error → string) (uuid_String : uuid → string) (show_int : Z → string).
Context (CORS : HttpHandler (W := W) → HttpHandler (W := W)) (Hcors : only_sets_headers CORS).
Context (J : W → S → Prop) {HIB : InfraBeside J}.

(** A request goes through the middlewares of the server to the subrouter of
    its route. *)
Lemma serves_route (srv : ServerImpl W) o logger rt r Q :
  router_MWs (srv_Router srv) = withHandlerMetadata :: server_middlewares error_Error uuid_String show_int CORS o logger →
  serves J r (authenticated_as (request_principal r)) (chain (rt_MWs rt) (rt_Handler rt)) Q →
  serves J r any_context (serve_route srv rt) Q.
Proof.
  intros Hmws Hin. unfold serve_route. rewrite Hmws. cbn [chain server_middlewares foldr].
  apply serves_metadata, serves_headers, serves_observability, (serves_metrics J (HIB := HIB)),
    (serves_logging J (HIB := HIB)), serves_auth, Hin; [done|].
  intros r0 ex [->|[->|[]%elem_of_nil]%elem_of_cons]%elem_of_cons; [apply beside_ret|].
  unfold ObservabilityFieldRandomUUIDExtractor. apply beside_bind; [apply (ib_uuid J (InfraBeside := HIB))|]. intros; apply beside_ret.
Qed.

(** What a server answers outside its public routes to a request that
    authenticates nobody. *)
Definition protects (srv : ServerImpl W) (public : list (string * string)) : Prop :=
  ∀ rt r st env s, rt ∈ router_Routes (srv_Router srv) → (rt_Method rt, rt_Path rt) ∉ public →
    first_token tokenProviders r = None → plain (r_Context r) → unanswered st → J env s →
    ∃ st' env', serve_route srv rt ServerWriter r (st, env) = (Ret tt, (st', env')) ∧ J env' s ∧
      sent_status st' = StatusUnauthorized ∧ hs_body st' = "".

Lemma protects_required (srv : ServerImpl W) o logger public :
  router_MWs (srv_Router srv) = withHandlerMetadata :: server_middlewares error_Error uuid_String show_int CORS o logger →
  (∀ rt, rt ∈ router_Routes (srv_Router srv) → (rt_Method rt, rt_Path rt) ∉ public → rt_MWs rt = [WithAuthenticationRequirement]) →
  protects srv public.
Proof.
  intros Hmws Hreq rt r st env s Hrt Hpub Htok Hp Hu HJ.
  destruct (serves_route srv o logger rt r (plainly (λ s code body s', s' = s ∧ code = StatusUnauthorized ∧ body = "")) Hmws)
    with (ctx := r_Context r) (st := st) (env := env) (s := s) as (st' & env' & s' & H & HJ' & -> & Hc & Hb); [|done..|].
  - rewrite (Hreq rt Hrt Hpub). pose proof (request_authenticated r) as Hr. rewrite Htok in Hr. rewrite Hr.
    by apply (serves_requirement J r None).
  - exists st', env'. split_and!; try done. by destruct r.
Qed.

Context {HUE : UserEncodings} {HUS : UserService W} {HAS : AuthenticationService W} {HPE : UserProfileEncodings} {HUPS : UserProfileService W}.
Abbreviation the_server := (httpServer error_Error uuid_String show_int CORS).

(** C13. The routes of the two services are these and no others, and beside the
    health check, the two authentication routes and the registration none of
    them does anything for a request without a usable user, admin or service
    token: through the whole chain of middlewares the answer is 401 with no
    body, and nothing but the logs, the metrics, the clock and the UUIDs is
    touched. *)
Theorem routes_protected o logger address :
  let user_srv := user_MustRegisterHTTPHandlers (the_server o logger address) in
  let profile_srv := userprofile_MustRegisterHTTPHandlers (the_server o logger address) in
  (λ rt, (rt_Method rt, rt_Path rt)) <$> router_Routes (srv_Router user_srv) =
    [("GET", "/healthz"); ("POST", "/auth"); ("POST", "/auth/verification"); ("POST", "/users");
     ("GET", "/current-user"); ("GET", "/users/{userID}"); ("DELETE", "/users/{userID}")] ∧
  (λ rt, (rt_Method rt, rt_Path rt)) <$> router_Routes (srv_Router profile_srv) =
    [("GET", "/healthz"); ("GET", "/profile/{userID}"); ("PUT", "/profile/{userID}")] ∧
  protects user_srv [("GET", "/healthz"); ("POST", "/auth"); ("POST", "/auth/verification"); ("POST", "/users")] ∧
  protects profile_srv [("GET", "/healthz")].
Proof.
  cbv zeta. split; [done|]. split; [done|].
  split; (apply (protects_required _ o logger); [done|]); intros rt Hrt Hpub; cbn in Hrt;
    repeat (apply elem_of_cons in Hrt as [->|Hrt]; [try done; destruct Hpub; cbn; set_solver|]); by apply elem_of_nil in Hrt.
Qed.
End routes_served.

(** *** The handlers, in a context with the principal of the request *)

(** The statuses a service's error may be answered with. *)
Definition error_code (code : Z) : Prop :=
  code = StatusBadRequest ∨ code = StatusUnauthorized ∨ code = StatusForbidden ∨ code = StatusInternalServerError.
Lemma error_status_code e : error_code (ok_if_zero (error_status (Some e))).
Proof. unfold error_code, error_status. repeat case_match; tauto. Qed.
(** An error that is not the program's own is an internal one. *)
Lemma foreign_status e : foreign e → ok_if_zero (error_status (Some e)) = StatusInternalServerError.
Proof.
  unfold foreign, own_errors. rewrite !Forall_cons. intros (_ & H1 & H2 & H3 & _). unfold error_status, errors_Is. by rewrite H1, H2, H3.
Qed.
(** A parsing error that is returned is a bad request. *)
Lemma bad_request e : error_has ErrParsingError e = true → ok_if_zero (error_status (Some e)) = StatusBadRequest.
Proof. intros He. unfold error_status. cbn. by rewrite He. Qed.

(** ** Witnesses *)

Section quiet_infrastructure.
Context {W S : Type} (J : W → S → Prop).
Definition no_emit : LogSink W := λ _ _ _ w, (Ret tt, w).
Definition no_increment : Metrics W := λ _ _ w, (Ret tt, w).
Definition no_duration : MetricsDuration W := λ _ _ _ w, (Ret tt, w).
Definition stopped_clock : HasClock W := λ w, (Ret 1000%Z, w).
Definition cors_header : HttpHandler (W := W) → HttpHandler (W := W) := λ h w r,
  _ ← modify_obj (set_header (header_Set "Access-Control-Allow-Methods" "GET,OPTIONS")); h w r.

Lemma cors_header_only : only_sets_headers cors_header.
Proof. intros h w r st env. by eexists. Qed.
Lemma quiet_infrastructure (new : NewUUID W) : beside J new →
  @InfraBeside W S J no_emit no_increment no_duration stopped_clock new.
Proof. intros Hnew. by split; try done; intros; intros w; eexists _, w. Qed.
End quiet_infrastructure.

(** A library that knows two UUIDs; encodings that say little. *)
Definition two_uuids : ParseLib := {|
  float64 := Z; ParseFloat := λ _, Err ErrSyntax; time_RFC3339 := λ _, Err ErrSyntax;
  time_RFC3339Nano := λ _, Err ErrSyntax; ParseDuration := λ _, Err ErrSyntax;
  uuid_Parse := λ s, if String.eqb s "u5" then Ok 5%N else if String.eqb s "u6" then Ok 6%N else Err ErrSyntax;
|}.
Definition plain_user_encodings : UserEncodings := {|
  Decode_credentials := λ _, Err ErrSyntax; Marshal_UserOut := λ _, Ok "{}"; Marshal_registerUserOut := λ _, Ok "{}";
  cookie_String := λ c, sc_Name c +:+ "=" +:+ sc_Value c; UserHandlers.uuid_String := λ _, "u" |}.
Definition plain_profile_encodings : UserProfileEncodings := {|
  Decode_updateUserProfileIn := λ s, Ok (s, "Ray"); Marshal_UserProfileOut := λ '(f, l), Ok (f +:+ " " +:+ l) |}.
Definition ascii_latin : UnicodeLatin := λ _, false.
Definition no_tokens : TokenGenerator memServer := {|
  tokens_Generate := λ _ _ w, (Ret (Err ErrSyntax), w); tokens_Decode := λ _ w, (Ret (Err ErrSyntax), w) |}.

(** A request for the path parameter [id], with the headers [h]. *)
Definition request_for (method id body : string) (h : gmap string (list string)) : Request :=
  mkRequest context_Background method "" "" ("/" +:+ id) "" ∅ h [] {["userID" := id]} "" body.
Definition as_user (id : string) : gmap string (list string) := header_Set HeaderAuthUserID id ∅.

Abbreviation mem_routes := (@user_MustRegisterHTTPHandlers memServer two_uuids ascii_latin id_case plain_user_encodings
  (@userService _ id_case memRepository memTransaction plain_encoder memUUID memClock)
  (@authenticationService _ id_case memRepository plain_encoder no_tokens memClock)).
Abbreviation mem_http := (@httpServer memServer two_uuids ascii_latin id_case no_emit no_increment no_duration memClock memUUID
  (λ _, "") (λ _, "") (λ _, "") cors_header (mkObserver StubLogger ∅) (SlogLogger LevelInfo []) ":80").
Definition delete_route : Route_ memServer := nth 6 (router_Routes (srv_Router (mem_routes mem_http))) (mkRoute "" "" "" [] (λ _ _, mret tt)).

Lemma routes_protected_witness :
  ∃ st' env', serve_route (mem_routes mem_http) delete_route ServerWriter (request_for "DELETE" "u5" "" ∅) (http_init, sample_users) =
    (Ret tt, (st', env')) ∧ sent_status st' = 401%Z ∧ mem_view OnDB env' sample_state.
Proof.
  destruct (@routes_protected memServer userState two_uuids ascii_latin id_case no_emit no_increment no_duration memClock memUUID
    (λ _, "") (λ _, "") (λ _, "") cors_header cors_header_only (mem_view OnDB) (quiet_infrastructure (mem_view OnDB) memUUID (λ w, ex_intro _ _ (ex_intro _ w (conj eq_refl (λ _ H, H))))) plain_user_encodings
    (@userService _ id_case memRepository memTransaction plain_encoder memUUID memClock)
    (@authenticationService _ id_case memRepository plain_encoder no_tokens memClock)
    plain_profile_encodings {| ups_Get := λ _ _ w, (Ret (Err ErrSyntax), w); ups_Update := λ _ _ w, (Ret None, w) |}
    (mkObserver StubLogger ∅) (SlogLogger LevelInfo []) ":80") as (_ & _ & Hp & _).
  destruct (Hp delete_route (request_for "DELETE" "u5" "" ∅) http_init sample_users sample_state) as (st' & env' & H & Hs & Hc & _).
  - do 6 right. left.
  - intros Hin. cbn in Hin. repeat (apply elem_of_cons in Hin as [Hin|Hin]; [discriminate|]). by apply elem_of_nil in Hin.
  - reflexivity.
  - by split.
  - by split_and!.
  - exact sample_seen.
  - by exists st', env'.
Defined.
