(* ===== verification/UserRoutes.v ===== *)
(** The user service over HTTP: what its handlers answer, through the whole
    server of Container, and leave of the users. *)
From S2P Require Import Prelude GoStrings Context Message Parsing Database Http HttpParser HttpServer Sql Persistence Idk Lazy User UserHandlers UserRepo UserProfile Table UserProfileSql Container.

Section users_served.
Context {W : Type} {HPL : ParseLib} {HUL : UnicodeLatin} {HUC : UnicodeCase}.
Context {HL : LogSink W} {HMt : Metrics W} {HMD : MetricsDuration W} {HC : HasClock W} {HNU : NewUUID W}.
Context {HR : UserRepository W} {HT : Transaction W} {HP : PasswordEncoder} {HTG : TokenGenerator W} {HUE : UserEncodings}.
Context (error_Error : error → string) (uuid_String : uuid → string) (show_int : Z → string).
Context (CORS : HttpHandler (W := W) → HttpHandler (W := W)) (Hcors : only_sets_headers CORS).
Context (holds : target → W → userState → Prop) {HRS : UserRepositorySpec holds} {HTS : TransactionSpec holds} {HQS : QuietSpec holds}.

(** The users as the database has them. *)
Definition users_seen (w : W) (s : userState) : Prop := holds OnDB w s ∧ users_distinct (us_users s).
Context {HIB : InfraBeside users_seen}.

(** What a request to delete a user gets, and leaves of the users. *)
Definition delete_answer (r : Request) (s : userState) (code : Z) (body : string) (s' : userState) : Prop :=
  body = "" ∧
  match request_principal r, path_userID r with
  | None, _ => code = StatusUnauthorized ∧ s' = s
  | Some p, None => code = StatusBadRequest ∧ s' = s
  | Some p, Some id =>
      match CanDeleteUser id (mkAuth (Some p)) with
      | Ok true => code = StatusOK ∧ user_removed id s s' ∨ error_code code ∧ s' = s
      | _ => code = StatusForbidden ∧ s' = s
      end
  end.

Lemma user_removed_distinct id s s' : users_distinct (us_users s) → user_removed id s s' → users_distinct (us_users s').
Proof. intros Hd [[-> _]|(u & now & ev & _ & _ & _ & _ & _ & Hd' & _)]; done. Qed.

Lemma DeleteUser_served r p : request_principal r = Some p →
  serves users_seen r (authenticated_as (Some p)) (httpHandlerWrapper DeleteUserByIDHandler_Handle) (plainly (delete_answer r)).
Proof.
  intros Hr. apply serves_wrapper. intros l ctx st env s Hp HA Hl [Hs Hd]. unfold plainly, delete_answer. rewrite Hr.
  destruct (plain_route ctx Hp) as [Hroute Htx]. pose proof (parse_userID_spec (W := W) r ctx) as Hparse.
  unfold DeleteUserByIDHandler_Handle. destruct (path_userID r) as [id|].
  - pose proof Hs as Hs0. rewrite <- Hroute in Hs0. pose proof (user_Delete_spec holds ctx id env s Htx Hs0 Hd) as Hspec. rewrite Hroute in Hspec.
    rewrite (authenticated_Check _ _ _ HA) in Hspec. rewrite Hparse. unfold_M. unfold on_env. cbn [us_Delete userService r_Context r_WithContext].
    destruct (CanDeleteUser id (mkAuth (Some p))) as [[]|e] eqn:Ec; [destruct Hspec as (err & w' & -> & Hspec)|rewrite Hspec..].
    + destruct err as [e|].
      * eapply (leaves_error _ _ _ _ _ _ s); [done..|]. split; [done|]. right. split; [apply error_status_code|done].
      * destruct Hspec as (s' & Hs' & Hrem). eapply (leaves_error _ _ _ _ _ _ s'); [done| |].
        -- split; [done|]. by apply (user_removed_distinct id s).
        -- split; [done|]. by left.
    + by eapply leaves_error.
    + exfalso. unfold CanDeleteUser in Ec. cbn in Ec. by repeat case_match.
  - destruct Hparse as (e & -> & He). eapply leaves_error; try done. split; [done|]. split; [by apply bad_request|done].
Qed.

(** What a request for a user gets. *)
Definition read_answer (r : Request) (s : userState) (code : Z) (body : string) (s' : userState) : Prop :=
  s' = s ∧
  match request_principal r, path_userID r with
  | None, _ => code = StatusUnauthorized ∧ body = ""
  | Some p, None => code = StatusBadRequest ∧ body = ""
  | Some p, Some id =>
      match CanReadUser id (mkAuth (Some p)) with
      | Ok true =>
          (code = StatusOK ∧ ∃ u, u ∈ us_users s ∧ u_ID u = id ∧ Marshal_UserOut (ToDTOUserData u) = Ok body) ∨
          (code = StatusNotFound ∧ body = "" ∧ id ∉ u_ID <$> us_users s) ∨
          (code = StatusInternalServerError ∧ body = "")
      | _ => code = StatusForbidden ∧ body = ""
      end
  end.

Lemma GetUserByID_served r p : request_principal r = Some p →
  serves users_seen r (authenticated_as (Some p)) (httpHandlerWrapper GetUserByIDHandler_Handle) (plainly (read_answer r)).
Proof.
  intros Hr. apply serves_wrapper. intros l ctx st env s Hp HA Hl [Hs Hd]. unfold plainly, read_answer. rewrite Hr.
  destruct (plain_route ctx Hp) as [Hroute _]. pose proof (parse_userID_spec (W := W) r ctx) as Hparse.
  unfold GetUserByIDHandler_Handle. destruct (path_userID r) as [id|].
  - pose proof Hs as Hs0. rewrite <- Hroute in Hs0. destruct (user_GetByID_spec holds ctx id env s Hs0) as (res & w' & Hrun & Hq & Hspec).
    assert (users_seen w' s) as Hs' by (split; [by apply Hq|done]).
    rewrite (authenticated_Check _ _ _ HA) in Hspec. rewrite Hparse. unfold_M. unfold on_env. cbn [us_GetByID userService r_Context r_WithContext].
    rewrite Hrun. destruct (CanReadUser id (mkAuth (Some p))) as [[]|e] eqn:Ec; [destruct res as [d|e]|subst res..].
    + destruct Hspec as (u & Hu & Hid & ->). apply leaves_body with s; [done..|]. split; [done|].
      destruct (Marshal_UserOut _) as [b|e] eqn:Em; [left; split; [done|by exists u]|by do 2 right].
    + destruct Hspec as [[-> Hno]|Hfor].
      * apply leaves_status with s; [done..|]. split; [done|]. right. by left.
      * pose proof Hfor as Hf. unfold foreign, own_errors in Hf. rewrite !Forall_cons in Hf. cbn [errors_Is].
        rewrite (proj1 Hf). apply leaves_error with s; [done..|]. split; [done|]. do 2 right.
        cbn [rs_Status]. by rewrite (foreign_status _ Hfor).
    + by apply leaves_error with s.
    + exfalso. unfold CanReadUser in Ec. cbn in Ec. by repeat case_match.
  - destruct Hparse as (e & -> & He). apply leaves_error with s; try done. split; [done|]. split; [by apply bad_request|done].
Qed.

(** What a request for the current user gets; it says 500, not 404, when that
    user is not there. *)
Definition current_answer (r : Request) (s : userState) (code : Z) (body : string) (s' : userState) : Prop :=
  s' = s ∧
  match p ← request_principal r; UserID p with
  | None => code = StatusUnauthorized ∧ body = ""
  | Some id =>
      (code = StatusOK ∧ ∃ u, u ∈ us_users s ∧ u_ID u = id ∧ Marshal_UserOut (ToDTOUserData u) = Ok body) ∨
      (code = StatusInternalServerError ∧ body = "")
  end.

Lemma own_user_readable id p : UserID p = Some id → CanReadUser id (mkAuth (Some p)) = Ok true.
Proof. intros Hid. unfold CanReadUser. cbn. rewrite Hid. by rewrite bool_decide_eq_true_2. Qed.

Lemma GetCurrentUser_served r p : request_principal r = Some p →
  serves users_seen r (authenticated_as (Some p)) (httpHandlerWrapper GetCurrentUserHandler_Handle) (plainly (current_answer r)).
Proof.
  intros Hr. apply serves_wrapper. intros l ctx st env s Hp HA Hl [Hs Hd]. unfold plainly, current_answer. rewrite Hr. cbn [mbind option_bind].
  destruct (plain_route ctx Hp) as [Hroute _]. unfold GetCurrentUserHandler_Handle. cbn [r_Context r_WithContext].
  assert (GetAuthentication (T := Principal) ctx = Some (mkAuth (Some p))) as -> by (unfold GetAuthentication; by rewrite HA).
  destruct (UserID p) as [id|] eqn:Hid; [|by apply leaves_error with s].
  pose proof Hs as Hs0. rewrite <- Hroute in Hs0. destruct (user_GetByID_spec holds ctx id env s Hs0) as (res & w' & Hrun & Hq & Hspec).
  assert (users_seen w' s) as Hs' by (split; [by apply Hq|done]).
  rewrite (authenticated_Check _ _ _ HA), (own_user_readable _ _ Hid) in Hspec. unfold_M. unfold on_env. cbn [us_GetByID userService].
  rewrite Hrun. destruct res as [d|e].
  - destruct Hspec as (u & Hu & Huid & ->). apply leaves_body with s; [done..|]. split; [done|].
    destruct (Marshal_UserOut _) as [b|e] eqn:Em; [left; split; [done|by exists u]|by right].
  - apply leaves_error with s; [done..|]. split; [done|]. right. destruct Hspec as [[-> _]|Hfor]; [done|].
    cbn [rs_Status]. by rewrite (foreign_status _ Hfor).
Qed.

(** *** Through the server *)

Abbreviation user_server o logger address :=
  (user_MustRegisterHTTPHandlers (httpServer error_Error uuid_String show_int CORS o logger address)).

(** The handlers, and the middlewares of their subrouters. *)
Definition user_handlers : list (Handler (W := W) * list (HttpHandler (W := W) → HttpHandler (W := W))) :=
  [(AuthenticateHandler, []); (VerifyAuthenticationHandler, []); (RegisterUserHandler, []);
   (GetCurrentUserHandler, [WithAuthenticationRequirement]); (GetUserByIDHandler, [WithAuthenticationRequirement]);
   (DeleteUserByIDHandler, [WithAuthenticationRequirement])].

Lemma user_route_served o logger address rt h mws r Q st env s :
  routes_to (user_server o logger address) rt h → (h, mws) ∈ user_handlers →
  serves users_seen r (authenticated_as (request_principal r)) (chain mws (httpHandlerWrapper (h_Handle h))) Q →
  plain (r_Context r) → unanswered st → users_seen env s →
  ∃ st' env' s', serve_route (user_server o logger address) rt ServerWriter r (st, env) = (Ret tt, (st', env')) ∧
    users_seen env' s' ∧ Q s (sent st') s'.
Proof.
  intros (Hrt & Hm & Hpa) Hh Hin Hp Hu Hs.
  assert (rt_MWs rt = mws ∧ rt_Handler rt = httpHandlerWrapper (h_Handle h)) as [Hmws Hha].
  { cbn in Hrt. unfold user_handlers in Hh.
    repeat (apply elem_of_cons in Hh as [[= -> ->]|Hh];
      [repeat (apply elem_of_cons in Hrt as [->|Hrt]; [done|]); by apply elem_of_nil in Hrt|]). by apply elem_of_nil in Hh. }
  destruct (serves_route error_Error uuid_String show_int CORS Hcors users_seen (user_server o logger address) o logger rt r Q eq_refl)
    with (ctx := r_Context r) (st := st) (env := env) (s := s) as (st' & env' & s' & H & HJ' & HQ); [|done..|].
  - by rewrite Hmws, Hha.
  - exists st', env', s'. by destruct r.
Qed.

(** A request behind the authentication requirement. *)
Lemma required_served r hf (Q : userState → Z → string → userState → Prop) :
  (request_principal r = None → ∀ s, Q s StatusUnauthorized "" s) →
  (∀ p, request_principal r = Some p → serves users_seen r (authenticated_as (Some p)) (httpHandlerWrapper hf) (plainly Q)) →
  serves users_seen r (authenticated_as (request_principal r)) (chain [WithAuthenticationRequirement] (httpHandlerWrapper hf)) (plainly Q).
Proof.
  intros Hnone Hsome. cbn [chain foldr]. apply serves_requirement. destruct (request_principal r) as [p|]; [by apply Hsome|].
  intros s h. by apply Hnone.
Qed.

Lemma read_route_served o logger address rt r st env s :
  routes_to (user_server o logger address) rt GetUserByIDHandler → plain (r_Context r) → unanswered st → users_seen env s →
  ∃ st' env', serve_route (user_server o logger address) rt ServerWriter r (st, env) = (Ret tt, (st', env')) ∧
    users_seen env' s ∧ read_answer r s (sent_status st') (hs_body st') s.
Proof.
  intros Hrt Hp Hu Hs.
  destruct (user_route_served o logger address rt GetUserByIDHandler [WithAuthenticationRequirement] r (plainly (read_answer r)) st env s)
    as (st' & env' & s' & H & HJ' & HQ); [done|by do 4 right; left| |done..|].
  - apply required_served; [|by apply GetUserByID_served]. intros Hr s0. unfold read_answer. by rewrite Hr.
  - assert (s' = s) as -> by apply HQ. by exists st', env'.
Qed.

(** C8. Deleting a user over HTTP, through the whole server: a request with a
    user or admin token and a user id in its path is answered 200 exactly when
    the deletion was committed - the user marked as deleted and its event
    dispatched, or nothing to delete -, and otherwise with an error and the
    users and events as they were: 403 unless the token is of the user itself
    or of an admin, 400 when the id is none, 401 without a token. *)
Theorem delete_user_over_http o logger address r rt st env s
    (Hrt : routes_to (user_server o logger address) rt DeleteUserByIDHandler)
    (Hplain : plain (r_Context r)) (Hun : unanswered st) (Hs : holds OnDB env s) (Hdist : users_distinct (us_users s)) :
  ∃ st' env' s',
    serve_route (user_server o logger address) rt ServerWriter r (st, env) = (Ret tt, (st', env')) ∧
    holds OnDB env' s' ∧ delete_answer r s (sent_status st') (hs_body st') s'.
Proof.
  destruct (user_route_served o logger address rt DeleteUserByIDHandler [WithAuthenticationRequirement] r (plainly (delete_answer r)) st env s)
    as (st' & env' & s' & H & [HJ' _] & HQ); [done|by do 5 right; left| |done..|by exists st', env', s'].
  apply required_served; [|by apply DeleteUser_served]. intros Hr s0. unfold delete_answer. by rewrite Hr.
Qed.
End users_served.

(** ** Witnesses *)

Lemma mem_infrastructure : @InfraBeside memServer _ (@users_seen memServer mem_view) no_emit no_increment no_duration memClock memUUID.
Proof. apply quiet_infrastructure. intros w. by eexists _, w. Qed.

Lemma delete_user_over_http_witness :
  ∃ st' env' s', serve_route (mem_routes mem_http) delete_route ServerWriter (request_for "DELETE" "u5" "" (as_user "u5")) (http_init, sample_users) =
    (Ret tt, (st', env')) ∧ mem_view OnDB env' s' ∧ (sent_status st' = 200%Z → user_removed 5 sample_state s').
Proof.
  destruct (@delete_user_over_http memServer two_uuids ascii_latin id_case no_emit no_increment no_duration memClock memUUID
    memRepository memTransaction plain_encoder no_tokens plain_user_encodings (λ _, "") (λ _, "") (λ _, "") cors_header cors_header_only
    mem_view memRepository_spec mem_transactions mem_quiet mem_infrastructure (mkObserver StubLogger ∅) (SlogLogger LevelInfo []) ":80"
    (request_for "DELETE" "u5" "" (as_user "u5")) delete_route http_init sample_users sample_state) as (st' & env' & s' & H & Hs' & _ & Hans).
  - split; [do 6 right; left|split; reflexivity].
  - by split.
  - by split_and!.
  - exact sample_seen.
  - exact sample_distinct.
  - exists st', env', s'. split; [exact H|]. split; [exact Hs'|]. intros Hok.
    change (request_principal _) with (Some (Context.mkPrincipal (Some 5%N) None None)) in Hans.
    change (path_userID _) with (Some 5%N) in Hans. cbn in Hans.
    destruct Hans as [[_ Hrem]|[[Hc|[Hc|[Hc|Hc]]] _]]; [exact Hrem|rewrite Hok in Hc; discriminate..].
Defined.
