(* ===== verification/SignIn.v ===== *)
(** Signing in over HTTP: registration, authentication and the verification of
    a session token by the handlers of internal/user/infra/http, through the
    whole server of Container. *)
From S2P Require Import Prelude GoStrings Context Message Parsing Database Http HttpParser HttpServer Sql Persistence Idk Lazy Bus User UserHandlers UserRepo Container UserRoutes.

Section sign_in.
Context {W : Type} {HPL : ParseLib} {HUL : UnicodeLatin} {HUC : UnicodeCase}.
Context {HL : LogSink W} {HMt : Metrics W} {HMD : MetricsDuration W} {HC : HasClock W} {HNU : NewUUID W}.
Context {HR : UserRepository W} {HT : Transaction W} {HP : PasswordEncoder} {HTC : TokenCodec} {HUE : UserEncodings}.
Context (error_Error : error → string) (uuid_text : uuid → string) (show_int : Z → string).
Context (CORS : HttpHandler (W := W) → HttpHandler (W := W)) (Hcors : only_sets_headers CORS).
Context (holds : target → W → userState → Prop) {HRS : UserRepositorySpec holds} {HTS : TransactionSpec holds} {HQS : QuietSpec holds}.
Context {HPE : PasswordEncoderLaws} {HTL : TokenCodecLaws} {HIB : InfraBeside (users_seen holds)}.

(** [http.Cookie.String] is only empty for an invalid name. *)
Context (Hcookie : ∀ t, cookie_String (NewUserSessionCookie t) ≠ "").

(** The credentials as the handlers pass them on. *)
Definition trimmed (c : UserCredentials) : UserCredentials := mkCredentials (TrimSpace (cr_Login c)) (TrimSpace (cr_Password c)).
Definition blank (c : UserCredentials) : Prop := TrimSpace (cr_Login c) = "" ∨ TrimSpace (cr_Password c) = "".
#[export] Instance blank_dec c : Decision (blank c).
Proof. apply _. Defined.
Definition login_of (c : UserCredentials) : string := ToLower (TrimSpace (cr_Login c)).
Definition hash_of (c : UserCredentials) : result string := HashPassword (TrimSpace (cr_Password c)).

(** *** Registration *)

Definition refused_code (code : Z) : Prop := error_code code ∨ code = StatusConflict.

(** What a request to register gets, and leaves of the users. *)
Definition register_answer (r : Request) (s : userState) (code : Z) (body : string) (s' : userState) : Prop :=
  match Decode_credentials (r_Body r) with
  | Err _ => code = StatusBadRequest ∧ body = "" ∧ s' = s
  | Ok c =>
      if decide (blank c) then code = StatusBadRequest ∧ body = "" ∧ s' = s
      else
        (∃ id hash, hash_of c = Ok hash ∧ registered id (login_of c) hash s s' ∧
           match Marshal_registerUserOut id with
           | Ok b => code = StatusCreated ∧ body = b
           | Err _ => code = StatusInternalServerError ∧ body = ""
           end) ∨
        (refused_code code ∧ body = "" ∧ s' = s)
  end.

Lemma Register_served r :
  serves (users_seen holds) r (authenticated_as (request_principal r)) (httpHandlerWrapper RegisterUserHandler_Handle) (plainly (register_answer r)).
Proof.
  apply serves_wrapper. intros l ctx st env s Hp HA Hl [Hs Hd]. unfold plainly, register_answer.
  destruct (plain_route ctx Hp) as [Hroute Htx]. unfold RegisterUserHandler_Handle. unfold_M. unfold parsed, ParseRequest, JSONBody.
  cbn [dp_Body requestDataProvider r_Body r_WithContext]. destruct (Decode_credentials (r_Body r)) as [c|e]; [|by apply leaves_error with s].
  unfold fail_with. unfold_M. unfold on_env. destruct (decide (blank c)) as [Hb|Hb].
  { destruct (String.eqb_spec (TrimSpace (cr_Login c)) ""); [by apply leaves_status with s|].
    destruct (String.eqb_spec (TrimSpace (cr_Password c)) ""); [by apply leaves_status with s|by destruct Hb]. }
  destruct (String.eqb_spec (TrimSpace (cr_Login c)) ""); [by destruct Hb; left|].
  destruct (String.eqb_spec (TrimSpace (cr_Password c)) ""); [by destruct Hb; right|].
  pose proof Hs as Hs0. rewrite <- Hroute in Hs0.
  destruct (user_Register_spec holds ctx (trimmed c) env s Htx Hs0 Hd) as (id & err & w' & Hrun & Hspec). rewrite Hroute in Hspec.
  change (mkCredentials (TrimSpace (cr_Login c)) (TrimSpace (cr_Password c))) with (trimmed c).
  cbn [us_Register userService r_Context r_WithContext]. rewrite Hrun. destruct err as [e|].
  - repeat case_match; simplify_eq.
    all: try (apply leaves_status with s; [done..|]; right; split_and!; [|done..]; unfold refused_code, error_code; cbn; tauto).
    apply leaves_error with s; [done..|]. right. split_and!; [|done..]. left. apply error_status_code.
  - destruct Hspec as (_ & _ & hash & s' & Hhash & Hs' & Hreg). cbn [errors_Is trimmed cr_Login cr_Password] in *.
    rewrite !TrimSpace_idemp in *.
    destruct Hl as (Hu & pm & Hl). eexists None, _, w', s', pm, StatusCreated, (Some (Marshal_registerUserOut id)).
    split_and!; [done|by split; [|apply Hreg]|done|cbn; by rewrite !lookup_alter_eq, Hl|by destruct (Marshal_registerUserOut id)|].
    left. exists id, hash. split_and!; [done..|]. by destruct (Marshal_registerUserOut id).
Qed.

(** *** Authentication *)

(** The users these credentials are of. *)
Definition may_log_in (c : UserCredentials) (s : userState) (u : User) : Prop :=
  active (us_users s) u ∧ u_Login u = login_of c ∧ hash_of c = Ok (u_PasswordHash u).
(** The response sets the session cookie for the token. *)
Definition sets_cookie (p : sentResponse) (t : SessionTokenData) : Prop :=
  cookie_String (NewUserSessionCookie t) ∈ default [] (rs_Header p !! canonical "Set-Cookie").
Definition week_token (token : string) (id : uuid) (created : time) : Prop := token_for token id created (created + userSessionTTL)%Z.

(** What a request to authenticate gets. *)
Definition authenticate_answer (r : Request) (s : userState) (p : sentResponse) (s' : userState) : Prop :=
  s' = s ∧ rs_Body p = "" ∧
  match Decode_credentials (r_Body r) with
  | Err _ => rs_Status p = StatusUnauthorized
  | Ok c =>
      if decide (blank c) then rs_Status p = StatusUnauthorized
      else
        (rs_Status p = StatusOK ∧ ∃ u now t, may_log_in c s u ∧ reads now ∧ week_token (st_Token t) (u_ID u) now ∧
           st_ValidTill t = (now + userSessionTTL)%Z ∧ sets_cookie p t) ∨
        (rs_Status p = StatusUnauthorized ∧ ∀ u, ¬ may_log_in c s u) ∨
        rs_Status p = StatusInternalServerError
  end.

Lemma unwritten_headers l st f : unwritten l st → unwritten l (set_header f st).
Proof. by intros [(? & ? & ?) Hw]. Qed.
Lemma SetCookie_set t st : SetCookie (cookie_String (NewUserSessionCookie t)) st = set_header (header_Add "Set-Cookie" (cookie_String (NewUserSessionCookie t))) st.
Proof. unfold SetCookie. destruct (String.eqb_spec (cookie_String (NewUserSessionCookie t)) "") as [E|]; [by apply Hcookie in E|done]. Qed.
Lemma header_Add_elem key v h : v ∈ default [] (header_Add key v h !! canonical key).
Proof. unfold header_Add. rewrite lookup_insert_eq. apply elem_of_app. right. by left. Qed.

Lemma Authenticate_served r :
  serves (users_seen holds) r (authenticated_as (request_principal r)) (httpHandlerWrapper AuthenticateHandler_Handle) (authenticate_answer r).
Proof.
  apply serves_wrapper. intros l ctx st env s Hp HA Hl [Hs Hd]. unfold authenticate_answer.
  destruct (plain_route ctx Hp) as [Hroute _]. unfold AuthenticateHandler_Handle. unfold_M. unfold parsed, ParseRequest, JSONBody.
  cbn [dp_Body requestDataProvider r_Body r_WithContext]. destruct (Decode_credentials (r_Body r)) as [c|e]; [|by apply leaves_status with s].
  unfold fail_with. unfold_M. unfold on_env. destruct (decide (blank c)) as [Hb|Hb].
  { destruct (String.eqb_spec (TrimSpace (cr_Login c)) ""); [by apply leaves_status with s|].
    destruct (String.eqb_spec (TrimSpace (cr_Password c)) ""); [by apply leaves_status with s|by destruct Hb]. }
  destruct (String.eqb_spec (TrimSpace (cr_Login c)) ""); [by destruct Hb; left|].
  destruct (String.eqb_spec (TrimSpace (cr_Password c)) ""); [by destruct Hb; right|].
  pose proof Hs as Hs0. rewrite <- Hroute in Hs0.
  destruct (auth_Authenticate_spec holds ctx (cr_Login (trimmed c)) (cr_Password (trimmed c)) env s Hs0 Hd) as (res & w' & Hrun & Hq & Hspec).
  change (TrimSpace (cr_Login c)) with (cr_Login (trimmed c)). change (TrimSpace (cr_Password c)) with (cr_Password (trimmed c)).
  cbn [as_Authenticate authenticationService r_Context r_WithContext]. rewrite Hrun.
  cbn [trimmed cr_Login cr_Password] in Hspec. rewrite !TrimSpace_idemp in Hspec.
  assert (users_seen holds w' s) as Hs' by (split; [by apply Hq|done]). destruct res as [t|e].
  - destruct Hspec as (u & now & Hok & Hread & Htok & Hv). rewrite SetCookie_set. apply leaves_error with s; [by apply unwritten_headers|done|].
    split_and!; [done..|]. left. split; [done|]. exists u, now, t. split_and!; [done..|apply header_Add_elem].
  - apply leaves_error with s; [done..|]. split_and!; [done..|]. right. destruct Hspec as [[-> Hno]|Hfor].
    + left. split; [done|]. destruct Hno as [H|[H|Hno]]; [by destruct Hb; left|by destruct Hb; right|exact Hno].
    + right. by apply foreign_status.
Qed.

(** *** Verification *)

Definition session_cookie (r : Request) : option string := c_Value <$> last_cookie userSessionCookieName (r_Cookies r).
Definition accepted_as (id : uuid) (p : sentResponse) : Prop :=
  rs_Status p = StatusOK ∧ header_Get (rs_Header p) HeaderAuthUserID = UserHandlers.uuid_String id.

(** What a request to verify a session gets; the clock is read at [now] and
    [now']. *)
Definition verify_answer (r : Request) (s : userState) (p : sentResponse) (s' : userState) : Prop :=
  s' = s ∧ rs_Body p = "" ∧
  match session_cookie r ≫= token_data with
  | None => rs_Status p = StatusUnauthorized
  | Some (id, created, till) => ∃ now now', reads now ∧ reads now' ∧
      if decide (till < now)%Z then rs_Status p = StatusUnauthorized
      else if decide (now' - userSessionRenewalInterval < created)%Z then accepted_as id p
      else
        (accepted_as id p ∧ (∃ u, active (us_users s) u ∧ u_ID u = id) ∧
           ∃ t c, reads c ∧ week_token (st_Token t) id c ∧ sets_cookie p t) ∨
        (rs_Status p = StatusUnauthorized ∧ ∀ u, active (us_users s) u → u_ID u ≠ id) ∨
        rs_Status p = StatusInternalServerError
  end.

Lemma elem_of_SetHeader_cookie v id st :
  v ∈ default [] (hs_header (SetHeader HeaderAuthUserID id (set_header (header_Add "Set-Cookie" v) st)) !! canonical "Set-Cookie").
Proof. cbn. unfold header_Set. rewrite lookup_insert_ne by by vm_compute. apply header_Add_elem. Qed.

Lemma parse_session_cookie r ctx :
  ParseRequest (r_WithContext r ctx) (CookieValue (mkType false BString) userSessionCookieName) None =
    Ret (match session_cookie r with Some t => Ok (VString t) | None => Err (cookieNotFound userSessionCookieName) end).
Proof.
  unfold ParseRequest, CookieValue, session_cookie. cbn [dp_Cookies requestDataProvider r_Cookies r_WithContext].
  by destruct (last_cookie _ _).
Qed.

Lemma accepted_header id st p :
  rs_Status p = StatusOK → rs_Header p = hs_header (SetHeader HeaderAuthUserID (UserHandlers.uuid_String id) st) → accepted_as id p.
Proof. intros Hs Hh. split; [done|]. rewrite Hh. unfold header_Get. cbn. unfold header_Set. by rewrite lookup_insert_eq. Qed.

Lemma VerifyAuthentication_served r :
  serves (users_seen holds) r (authenticated_as (request_principal r)) (httpHandlerWrapper VerifyAuthenticationHandler_Handle) (verify_answer r).
Proof.
  apply serves_wrapper. intros l ctx st env s Hp HA Hl [Hs Hd]. unfold verify_answer.
  destruct (plain_route ctx Hp) as [Hroute _]. unfold VerifyAuthenticationHandler_Handle. unfold_M. unfold parsed.
  rewrite parse_session_cookie. destruct (session_cookie r) as [token|]; [|by apply leaves_status with s].
  unfold on_env. cbn [as_VerifyAuthentication authenticationService r_Context r_WithContext mbind option_bind].
  destruct (token_data token) as [[[id created] till]|] eqn:Hdata; [|rewrite verify_junk by done; by apply leaves_error with s].
  destruct (clock_quiet (holds := holds) env) as (now & w1 & Hn & Hq1). destruct (clock_quiet (holds := holds) w1) as (now' & w2 & Hn' & Hq2).
  assert (Hs2 : holds (route ctx) w2 s) by (rewrite Hroute; by apply Hq2, Hq1).
  destruct (verify_data holds ctx token id created till now now' env w1 w2 s Hdata Hn Hn' Hs2 Hd) as (Hexp & Hnew & Hold).
  assert (Hreads : reads now ∧ reads now') by (split; [by exists env, w1|by exists w1, w2]). destruct Hreads as [Hr1 Hr2].
  assert (Hseen : ∀ w, quiet holds env w → users_seen holds w s) by (intros w Hq; split; [by apply Hq|done]).
  destruct (decide (till < now)%Z) as [Hlt|Hge].
  { rewrite (Hexp Hlt). apply leaves_error with s; [done|by apply Hseen|]. split_and!; [done..|]. exists now, now'. by rewrite decide_True. }
  assert (Hle : (now <= till)%Z) by lia. destruct (decide (now' - userSessionRenewalInterval < created)%Z) as [Hfresh|Hstale].
  { rewrite (Hnew Hle Hfresh). apply leaves_error with s; [by apply unwritten_headers|by apply Hseen; etrans|].
    split_and!; [done..|]. exists now, now'. rewrite decide_False, decide_True by done. split_and!; [done..|]. by eapply accepted_header. }
  destruct (Hold Hle ltac:(lia)) as (res & w3 & Hrun & Hq3 & Hspec). rewrite Hrun.
  assert (Hs3 : users_seen holds w3 s) by (apply Hseen; by do 2 (etrans; [eassumption|])). destruct res as [[id' tok]|e].
  - cbn [ad_UserID ad_RenewedToken] in *. destruct Hspec as (-> & Hact & t & -> & c & Hrc & Htok). rewrite SetCookie_set.
    apply leaves_error with s; [by do 2 apply unwritten_headers|done|]. split_and!; [done..|]. exists now, now'.
    rewrite !decide_False by done. split_and!; [done..|]. left. split; [by eapply accepted_header|]. split; [done|]. exists t, c.
    split_and!; [done..|]. apply elem_of_SetHeader_cookie.
  - apply leaves_error with s; [done..|]. split_and!; [done..|]. exists now, now'. rewrite !decide_False by done. split_and!; [done..|]. right.
    destruct Hspec as [[-> Hno]|Hfor]; [left|right; by apply foreign_status]. by split.
Qed.

(** *** Signing in *)

Abbreviation sign_in_server o logger address :=
  (@user_MustRegisterHTTPHandlers W HPL HUL HUC HUE userService authenticationService
     (httpServer error_Error uuid_text show_int CORS o logger address)).

(** Whatever request the server gets, it registers a user, deletes one or leaves
    the users as they are. *)
Definition user_change (s s' : userState) : Prop :=
  s' = s ∨ (∃ id login hash, registered id login hash s s') ∨ ∃ id, user_removed id s s'.

Lemma register_change r s p s' : plainly (register_answer r) s p s' → user_change s s'.
Proof.
  unfold plainly, register_answer, user_change. destruct (Decode_credentials _) as [c|e]; [|naive_solver].
  destruct (decide (blank c)); [naive_solver|]. intros [(id & hash & _ & Hreg & _)|(_ & _ & ->)]; [|by left]. right. left. by exists id, (login_of c), hash.
Qed.
Lemma delete_change r s p s' : plainly (delete_answer r) s p s' → user_change s s'.
Proof.
  unfold plainly, delete_answer, user_change. intros [_ H]. repeat case_match; try naive_solver.
Qed.

Lemma user_server_change o logger address rt r st env s :
  rt ∈ router_Routes (srv_Router (sign_in_server o logger address)) → plain (r_Context r) → unanswered st → users_seen holds env s →
  ∃ st' env' s', serve_route (sign_in_server o logger address) rt ServerWriter r (st, env) = (Ret tt, (st', env')) ∧
    users_seen holds env' s' ∧ user_change s s'.
Proof.
  intros Hrt Hp Hu Hs.
  assert (Hrule : ∀ Q, serves (users_seen holds) r (authenticated_as (request_principal r)) (chain (rt_MWs rt) (rt_Handler rt)) Q →
    (∀ s p s', Q s p s' → user_change s s') →
    ∃ st' env' s', serve_route (sign_in_server o logger address) rt ServerWriter r (st, env) = (Ret tt, (st', env')) ∧
      users_seen holds env' s' ∧ user_change s s').
  { intros Q Hin Hch. destruct (serves_route error_Error uuid_text show_int CORS Hcors (users_seen holds) (sign_in_server o logger address)
      o logger rt r Q eq_refl Hin (r_Context r) st env s) as (st' & env' & s' & H & HJ' & HQ); [done..|].
    exists st', env', s'. split; [by destruct r|]. split; [done|by eapply Hch]. }
  cbn in Hrt. repeat (apply elem_of_cons in Hrt as [->|Hrt]); [..|by apply elem_of_nil in Hrt]; cbn [rt_MWs rt_Handler] in Hrule.
  - eapply Hrule; [apply serves_health|]. intros ??? [-> _]. by left.
  - eapply Hrule; [apply Authenticate_served|]. intros ??? [-> _]. by left.
  - eapply Hrule; [apply VerifyAuthentication_served|]. intros ??? [-> _]. by left.
  - eapply Hrule; [apply Register_served|]. intros ???. apply register_change.
  - eapply Hrule; [apply (required_served holds r _ (current_answer r)); [|by apply GetCurrentUser_served]|].
    + intros Hr s0. unfold current_answer. by rewrite Hr.
    + intros ??? [-> _]. by left.
  - eapply Hrule; [apply (required_served holds r _ (read_answer r)); [|by apply GetUserByID_served]|].
    + intros Hr s0. unfold read_answer. by rewrite Hr.
    + intros ??? [-> _]. by left.
  - eapply Hrule; [apply (required_served holds r _ (delete_answer r)); [|by apply DeleteUser_served]|].
    + intros Hr s0. unfold delete_answer. by rewrite Hr.
    + intros ???. apply delete_change.
Qed.

Lemma registered_user_logs_in c id hash s s' u :
  registered id (login_of c) hash s s' → hash_of c = Ok hash →
  (∃ u, may_log_in c s' u) ∧ (may_log_in c s' u → u_ID u = id).
Proof.
  intros (_ & Hd & v & Hv & Heq & _) Hh.
  assert (Hf : u_ID v = id ∧ u_Login v = login_of c ∧ u_PasswordHash v = hash ∧ u_DeletedAt v = None) by (by rewrite Heq).
  destruct Hf as (H1 & H2 & H3 & H4). split.
  - exists v. split; [by split|]. split; [done|]. by rewrite Hh, H3.
  - intros ([Hu _] & Hl & _). by rewrite (unique_login (us_users s') u v) by (done || congruence).
Qed.

(** What the three answers together say of one user. *)
Lemma sign_in_flow r1 r2 r3 s s1 p1 p2 p3 :
  plainly (register_answer r1) s p1 s1 → authenticate_answer r2 s1 p2 s1 → verify_answer r3 s1 p3 s1 →
  Decode_credentials (r_Body r2) = Decode_credentials (r_Body r1) → rs_Status p1 = StatusCreated →
  rs_Status p2 = StatusInternalServerError ∨
  rs_Status p2 = StatusOK ∧ ∃ id t, Marshal_registerUserOut id = Ok (rs_Body p1) ∧ sets_cookie p2 t ∧
    (session_cookie r3 = Some (st_Token t) → (∀ t t', reads t → reads t' → (t' - t < userSessionRenewalInterval)%Z) → accepted_as id p3).
Proof.
  unfold plainly, register_answer, authenticate_answer, verify_answer. intros H1 (_ & _ & H2) (_ & _ & H3) Hsame Hok. rewrite Hsame in H2.
  destruct (Decode_credentials (r_Body r1)) as [c|e]; [|by rewrite Hok in H1; destruct H1].
  destruct (decide (blank c)) as [|_]; [by rewrite Hok in H1; destruct H1|].
  destruct H1 as [(id & hash & Hh & Hreg & Hm)|[Hc _]]; [|rewrite Hok in Hc; unfold refused_code, error_code in Hc; naive_solver lia].
  destruct (Marshal_registerUserOut id) as [b|e] eqn:Em; [|by rewrite Hok in Hm; destruct Hm]. destruct Hm as [_ ->].
  destruct (registered_user_logs_in c id hash s s1 (mkUser 0 "" "" None []) Hreg Hh) as [[v Hv] _].
  destruct H2 as [(Hst & u & now & t & Hlog & Hrd & Htok & _ & Hck)|[[_ Hno]|Hst]]; [|by destruct (Hno v)|by left].
  right. split; [done|]. exists id, t. split; [done|]. split; [done|]. intros Hr3 Hclock. rewrite Hr3 in H3. cbn in H3.
  rewrite (token_for_data _ _ _ _ Htok) in H3. destruct H3 as (now2 & now3 & Hn & Hn3 & H3).
  destruct (registered_user_logs_in c id hash s s1 u Hreg Hh) as [_ Hid]. rewrite (Hid Hlog) in H3.
  pose proof (Hclock now now2 Hrd Hn). pose proof (Hclock now now3 Hrd Hn3). unfold userSessionTTL, userSessionRenewalInterval, time_Hour, time_Minute, time_Second in *.
  rewrite decide_False, decide_True in H3 by lia. done.
Qed.

(** C4. Signing up and in over HTTP, through the whole server.  A registration
    is answered 201 with the id of an active user with the normalised login and
    the hash of the password - the one that was there, or one more -, or with
    an error that changes nothing; an authentication 200 with a week's session
    cookie for the one user with these credentials, 401 exactly when there is
    none, or 500; a verification of a session 401 for a token that says nothing
    or is expired, else 200 with the user's id in a header - without a look at
    the users for fifteen minutes, then, renewed, for active users only.  So
    the credentials of an answered registration are never refused, and the
    cookie they get is good for that very user. *)
Theorem sign_in_over_http o logger address up auth ver r1 r2 r3 st1 st2 st3 env s
    (Hup : routes_to (sign_in_server o logger address) up RegisterUserHandler)
    (Hauth : routes_to (sign_in_server o logger address) auth AuthenticateHandler)
    (Hver : routes_to (sign_in_server o logger address) ver VerifyAuthenticationHandler)
    (Hp : Forall plain (r_Context <$> [r1; r2; r3])) (Hu : Forall unanswered [st1; st2; st3])
    (Hs : holds OnDB env s) (Hdist : users_distinct (us_users s)) :
  ∃ st1' env1 s1, serve_route (sign_in_server o logger address) up ServerWriter r1 (st1, env) = (Ret tt, (st1', env1)) ∧
    register_answer r1 s (sent_status st1') (hs_body st1') s1 ∧
  ∃ st2' env2, serve_route (sign_in_server o logger address) auth ServerWriter r2 (st2, env1) = (Ret tt, (st2', env2)) ∧
    authenticate_answer r2 s1 (sent st2') s1 ∧
  ∃ st3' env3, serve_route (sign_in_server o logger address) ver ServerWriter r3 (st3, env2) = (Ret tt, (st3', env3)) ∧
    holds OnDB env3 s1 ∧ verify_answer r3 s1 (sent st3') s1 ∧
    (Decode_credentials (r_Body r2) = Decode_credentials (r_Body r1) → sent_status st1' = StatusCreated →
     sent_status st2' = StatusInternalServerError ∨
     sent_status st2' = StatusOK ∧ ∃ id t, Marshal_registerUserOut id = Ok (hs_body st1') ∧ sets_cookie (sent st2') t ∧
       (session_cookie r3 = Some (st_Token t) → (∀ t t', reads t → reads t' → (t' - t < userSessionRenewalInterval)%Z) →
        accepted_as id (sent st3'))).
Proof.
  rewrite !fmap_cons, !Forall_cons in Hp. rewrite !Forall_cons in Hu. destruct Hp as (Hp1 & Hp2 & Hp3 & _), Hu as (Hu1 & Hu2 & Hu3 & _).
  destruct (user_route_served error_Error uuid_text show_int CORS Hcors holds o logger address up RegisterUserHandler [] r1
    (plainly (register_answer r1)) st1 env s) as (st1' & env1 & s1 & H1 & Hs1 & HQ1); [done|by do 2 right; left|apply Register_served|done..|].
  destruct (user_route_served error_Error uuid_text show_int CORS Hcors holds o logger address auth AuthenticateHandler [] r2
    (authenticate_answer r2) st2 env1 s1) as (st2' & env2 & s2 & H2 & Hs2 & HQ2); [done|by left|apply Authenticate_served|done..|].
  assert (s2 = s1) as -> by apply HQ2.
  destruct (user_route_served error_Error uuid_text show_int CORS Hcors holds o logger address ver VerifyAuthenticationHandler [] r3
    (verify_answer r3) st3 env2 s1) as (st3' & env3 & s3 & H3 & Hs3 & HQ3); [done|by right; left|apply VerifyAuthentication_served|done..|].
  assert (s3 = s1) as -> by apply HQ3.
  exists st1', env1, s1. split; [done|]. split; [done|]. exists st2', env2. split; [done|]. split; [done|].
  exists st3', env3. split; [done|]. split; [by apply Hs3|]. split; [done|]. intros Hsame Hok.
  exact (sign_in_flow r1 r2 r3 s s1 (sent st1') (sent st2') (sent st3') HQ1 HQ2 HQ3 Hsame Hok).
Qed.
End sign_in.

(** ** Witnesses *)

(** A body is a login and a password, separated by a colon. *)
Definition colon_encodings : UserEncodings := {|
  Decode_credentials := λ b, match Split b ":" with [l; p] => Ok (mkCredentials l p) | _ => Err ErrSyntax end;
  Marshal_UserOut := λ _, Ok "{}"; Marshal_registerUserOut := λ id, Ok (if N.eqb id 5 then "u5" else "u6");
  cookie_String := λ c, sc_Name c +:+ "=" +:+ sc_Value c; UserHandlers.uuid_String := λ id, if N.eqb id 5 then "u5" else "u6" |}.

Abbreviation colon_server := (@user_MustRegisterHTTPHandlers memServer two_uuids ascii_latin id_case colon_encodings
  (@userService _ id_case memRepository memTransaction plain_encoder memUUID memClock)
  (@authenticationService _ id_case memRepository plain_encoder (@tokenGenerator _ bits_codec memClock) memClock) mem_http).
Definition colon_route (i : nat) : Route_ memServer := nth i (router_Routes (srv_Router colon_server)) (mkRoute "" "" "" [] (λ _ _, mret tt)).
Definition post (body : string) (cs : list Cookie) : Request := mkRequest context_Background "POST" "" "" "/" "" ∅ ∅ cs ∅ "" body.

(** The cookie alice gets at 1000. *)
Definition alice_token : string := pos_bits (encode (5%N, 1000%Z, (1000 + userSessionTTL)%Z)).

(** The status and the body of an answer. *)
Definition answered (x : outcome unit * (httpState * memServer)) : option (Z * string) :=
  match x with (Ret _, (st, _)) => Some (sent_status st, hs_body st) | _ => None end.

Lemma sign_in_over_http_witness :
  ∃ st1 env1 st2 env2 st3 env3 t,
    serve_route colon_server (colon_route 3) ServerWriter (post "Alice : pw" []) (http_init, sample_users) = (Ret tt, (st1, env1)) ∧
    serve_route colon_server (colon_route 1) ServerWriter (post "Alice : pw" []) (http_init, env1) = (Ret tt, (st2, env2)) ∧
    serve_route colon_server (colon_route 2) ServerWriter (post "" [mkCookie "ust" alice_token]) (http_init, env2) = (Ret tt, (st3, env3)) ∧
    (sent_status st2 = 500%Z ∨ @sets_cookie colon_encodings (sent st2) t ∧ (st_Token t = alice_token → @accepted_as colon_encodings 5 (sent st3))).
Proof.
  assert (Hup : answered (serve_route colon_server (colon_route 3) ServerWriter (post "Alice : pw" []) (http_init, sample_users)) = Some (201%Z, "u5"))
    by (vm_compute; reflexivity).
  destruct (@sign_in_over_http memServer two_uuids ascii_latin id_case no_emit no_increment no_duration memClock memUUID
    memRepository memTransaction plain_encoder bits_codec colon_encodings (λ _, "") (λ _, "") (λ _, "") cors_header cors_header_only
    mem_view memRepository_spec mem_transactions mem_quiet plain_encoder_laws bits_codec_laws mem_infrastructure ltac:(done)
    (mkObserver StubLogger ∅) (SlogLogger LevelInfo []) ":80" (colon_route 3) (colon_route 1) (colon_route 2)
    (post "Alice : pw" []) (post "Alice : pw" []) (post "" [mkCookie "ust" alice_token]) http_init http_init http_init sample_users sample_state)
    as (st1 & env1 & s1 & H1 & _ & st2 & env2 & H2 & _ & st3 & env3 & H3 & _ & _ & Hflow).
  - split; [do 3 right; left|split; reflexivity].
  - split; [do 1 right; left|split; reflexivity].
  - split; [do 2 right; left|split; reflexivity].
  - by repeat constructor.
  - by repeat constructor.
  - exact sample_seen.
  - exact sample_distinct.
  - rewrite H1 in Hup. injection Hup as Hstatus Hbody. exists st1, env1, st2, env2, st3, env3.
    destruct (Hflow eq_refl Hstatus) as [H|(_ & id & t & Hid & Hck & Hacc)].
    + exists (mkSessionToken "" 0). split; [exact H1|]. split; [exact H2|]. split; [exact H3|]. by left.
    + exists t. split; [exact H1|]. split; [exact H2|]. split; [exact H3|]. right. split; [exact Hck|]. intros Ht.
      rewrite Hbody in Hid. cbn in Hid. destruct (N.eqb_spec id 5) as [->|]; [|discriminate].
      apply Hacc; [by rewrite Ht|]. intros a b (w1 & w2 & Ha) (w3 & w4 & Hb). injection Ha as <- _. injection Hb as <- _. by vm_compute.
Defined.
