(* ===== verification/ProfileRoutes.v ===== *)
(** The profile service over HTTP: what its handlers answer, through the whole
    server of Container, and leave of the profiles. *)
From S2P Require Import Prelude GoStrings Context Message Parsing Database Http HttpParser HttpServer Sql Persistence Idk Lazy User UserHandlers UserRepo UserProfile Table UserProfileSql Container.

(** ** The handlers, over any service

    The status an error of the service is answered with: what the handler set,
    else what the writer takes from the error. *)
Definition get_error_status (e : error) : Z :=
  if error_has profile_ErrUserNotFound e || error_has ErrUserProfileNotFound e then StatusNotFound else error_status (Some e).
Definition update_error_status (e : error) : Z :=
  if error_has ErrInvalidUserProfileData e then StatusBadRequest
  else if error_has profile_ErrUserNotFound e then StatusNotFound else error_status (Some e).

Lemma error_status_set e : ok_if_zero (error_status (Some e)) = error_status (Some e).
Proof. unfold error_status. by repeat case_match. Qed.
Lemma error_status_wrap msg e : error_status (Some (Errorf msg e)) = error_status (Some e).
Proof. unfold error_status, errors_Is. by rewrite !error_has_wrap. Qed.
Lemma get_error_wrap msg e : get_error_status (Errorf msg e) = get_error_status e.
Proof. unfold get_error_status. by rewrite !error_has_wrap, error_status_wrap. Qed.
Lemma update_error_wrap msg e : update_error_status (Errorf msg e) = update_error_status e.
Proof. unfold update_error_status. by rewrite !error_has_wrap, error_status_wrap. Qed.

Lemma error_status_failed e : error_status (Some e) ≠ StatusOK.
Proof. unfold error_status. by repeat case_match. Qed.
Lemma get_error_failed e : get_error_status e ≠ StatusOK.
Proof. unfold get_error_status. case_match; [done|apply error_status_failed]. Qed.
Lemma update_error_failed e : update_error_status e ≠ StatusOK.
Proof. unfold update_error_status. repeat case_match; [done..|apply error_status_failed]. Qed.

Section handlers.
Context {W S : Type} {HPL : ParseLib} {HPE : UserProfileEncodings} {HUP : UserProfileService W} (J : W → S → Prop).

(** An answer, given what the service returned for whom ([R]). *)
Definition get_result (R : Principal → uuid → S → result UserProfile → S → Prop) (r : Request) (s : S) (code : Z) (body : string) (s' : S) : Prop :=
  match request_principal r, path_userID r with
  | None, _ => code = StatusUnauthorized ∧ body = "" ∧ s' = s
  | Some p, None => code = StatusBadRequest ∧ body = "" ∧ s' = s
  | Some p, Some id => ∃ res, R p id s res s' ∧
      match res with
      | Err e => code = get_error_status e ∧ body = ""
      | Ok u =>
          match Marshal_UserProfileOut (up_FirstName u, up_LastName u) with
          | Ok b => code = StatusOK ∧ body = b
          | Err _ => code = StatusInternalServerError ∧ body = ""
          end
      end
  end.
Definition update_outcome (R : Principal → UserProfile → S → option error → S → Prop) (r : Request) (s : S) (code : Z) (body : string) (s' : S) : Prop :=
  body = "" ∧
  match request_principal r, path_userID r, Decode_updateUserProfileIn (r_Body r) with
  | None, _, _ => code = StatusUnauthorized ∧ s' = s
  | Some p, Some id, Ok (firstName, lastName) => ∃ err, R p (mkProfile id firstName lastName) s err s' ∧
      code = match err with Some e => update_error_status e | None => StatusOK end
  | Some p, _, _ => code = StatusBadRequest ∧ s' = s
  end.

(** The service keeps [J] and returns what [R] says. *)
Definition gets (R : Principal → uuid → S → result UserProfile → S → Prop) : Prop := ∀ p ctx id w s,
  plain ctx → authenticated_as (Some p) ctx → J w s → ∃ res w' s', ups_Get ctx id w = (Ret res, w') ∧ J w' s' ∧ R p id s res s'.
Definition updates (R : Principal → UserProfile → S → option error → S → Prop) : Prop := ∀ p ctx data w s,
  plain ctx → authenticated_as (Some p) ctx → J w s → ∃ err w' s', ups_Update ctx data w = (Ret err, w') ∧ J w' s' ∧ R p data s err s'.

Lemma get_handler_served R r p : request_principal r = Some p → gets R →
  serves J r (authenticated_as (Some p)) (httpHandlerWrapper GetUserProfileHandler_Handle) (plainly (get_result R r)).
Proof.
  intros Hr HR. apply serves_wrapper. intros l ctx st env s Hp HA Hl Hs. unfold plainly, get_result. rewrite Hr.
  pose proof (parse_userID_spec (W := W) r ctx) as Hparse. unfold GetUserProfileHandler_Handle. destruct (path_userID r) as [id|].
  - destruct (HR p ctx id env s Hp HA Hs) as (res & w' & s' & Hrun & Hs' & HQ). rewrite Hparse. unfold_M. unfold on_env.
    cbn [r_Context r_WithContext]. rewrite Hrun. destruct res as [u|e]; cbn [errors_Is].
    + eapply leaves_body; [done..|]. exists (Ok u). split; [done|]. by destruct (Marshal_UserProfileOut _).
    + destruct (_ || _) eqn:E.
      * eapply leaves_status; try done. exists (Err e). unfold get_error_status. by rewrite E.
      * eapply leaves_error; try done. exists (Err e). unfold get_error_status. rewrite E. cbn [rs_Status]. by rewrite error_status_set.
  - destruct Hparse as (e & -> & He). eapply leaves_error; try done. split; [by apply bad_request|done].
Qed.

Lemma update_handler_served R r p : request_principal r = Some p → updates R →
  serves J r (authenticated_as (Some p)) (httpHandlerWrapper UpdateUserProfileHandler_Handle) (plainly (update_outcome R r)).
Proof.
  intros Hr HR. apply serves_wrapper. intros l ctx st env s Hp HA Hl Hs. unfold plainly, update_outcome. rewrite Hr.
  pose proof (parse_userID_spec (W := W) r ctx) as Hparse. unfold UpdateUserProfileHandler_Handle. destruct (path_userID r) as [id|].
  - rewrite Hparse. unfold_M. unfold parsed, ParseRequest, JSONBody. cbn [dp_Body requestDataProvider r_Body r_WithContext].
    destruct (Decode_updateUserProfileIn (r_Body r)) as [[f la]|e]; [|by eapply leaves_error].
    destruct (HR p ctx (mkProfile id f la) env s Hp HA Hs) as (err & w' & s' & Hrun & Hs' & HQ). unfold on_env.
    cbn [r_Context r_WithContext]. rewrite Hrun.
    destruct err as [e|]; [cbn [errors_Is]; destruct (error_has _ e) eqn:E1; [|destruct (error_has profile_ErrUserNotFound e) eqn:E2]|].
    + eapply leaves_status; try done. split; [done|]. exists (Some e). unfold update_error_status. by rewrite E1.
    + eapply leaves_status; try done. split; [done|]. exists (Some e). unfold update_error_status. by rewrite E1, E2.
    + eapply leaves_error; try done. split; [done|]. exists (Some e). unfold update_error_status. rewrite E1, E2. cbn [rs_Status].
      by rewrite error_status_set.
    + eapply leaves_error; try done. split; [done|]. by exists None.
  - destruct Hparse as (e & -> & He). unfold_M. eapply leaves_error; try done. split; [done|]. split; [by apply bad_request|done].
Qed.
End handlers.

(** ** The routes of a server *)

Section routes_served.
Context {W S : Type} {HPL : ParseLib} {HUL : UnicodeLatin} {HUC : UnicodeCase} {HPE : UserProfileEncodings} {HUP : UserProfileService W}.
Context {HL : LogSink W} {HMt : Metrics W} {HMD : MetricsDuration W} {HC : HasClock W} {HNU : NewUUID W}.
Context (error_Error : error → string) (uuid_String : uuid → string) (show_int : Z → string).
Context (CORS : HttpHandler (W := W) → HttpHandler (W := W)) (Hcors : only_sets_headers CORS).
Context (J : W → S → Prop) {HIB : InfraBeside J}.

Abbreviation profile_server o logger address :=
  (userprofile_MustRegisterHTTPHandlers (httpServer error_Error uuid_String show_int CORS o logger address)).

Lemma profile_route_served o logger address rt h r Q st env s :
  routes_to (profile_server o logger address) rt h → h ∈ [GetUserProfileHandler; UpdateUserProfileHandler] →
  match request_principal r with
  | None => ∀ s h, Q s (mkSent StatusUnauthorized "" h) s
  | Some p => serves J r (authenticated_as (Some p)) (httpHandlerWrapper (h_Handle h)) Q
  end → plain (r_Context r) → unanswered st → J env s →
  ∃ st' env' s', serve_route (profile_server o logger address) rt ServerWriter r (st, env) = (Ret tt, (st', env')) ∧
    J env' s' ∧ Q s (sent st') s'.
Proof.
  intros (Hrt & Hm & Hpa) Hh Hin Hp Hu Hs.
  assert (rt_MWs rt = [WithAuthenticationRequirement] ∧ rt_Handler rt = httpHandlerWrapper (h_Handle h)) as [Hmws Hha].
  { cbn in Hrt. apply elem_of_cons in Hh as [->|[->|[]%elem_of_nil]%elem_of_cons];
      repeat (apply elem_of_cons in Hrt as [->|Hrt]; [done|]); by apply elem_of_nil in Hrt. }
  destruct (serves_route error_Error uuid_String show_int CORS Hcors J (profile_server o logger address) o logger rt r Q eq_refl)
    with (ctx := r_Context r) (st := st) (env := env) (s := s) as (st' & env' & s' & H & HJ' & HQ); [|done..|].
  - rewrite Hmws, Hha. cbn [chain foldr]. by apply serves_requirement.
  - exists st', env', s'. by destruct r; split_and!.
Qed.

Lemma get_route_served R o logger address rt r st env s :
  gets J R → routes_to (profile_server o logger address) rt GetUserProfileHandler → plain (r_Context r) → unanswered st → J env s →
  ∃ st' env' s', serve_route (profile_server o logger address) rt ServerWriter r (st, env) = (Ret tt, (st', env')) ∧
    J env' s' ∧ get_result R r s (sent_status st') (hs_body st') s'.
Proof.
  intros HR Hrt Hp Hu Hs. eapply (profile_route_served o logger address rt GetUserProfileHandler r (plainly (get_result R r))); try done; [by left|].
  destruct (request_principal r) as [p|] eqn:Hr; [by apply get_handler_served|]. intros s0 h0. unfold plainly, get_result. by rewrite Hr.
Qed.
Lemma update_route_served R o logger address rt r st env s :
  updates J R → routes_to (profile_server o logger address) rt UpdateUserProfileHandler → plain (r_Context r) → unanswered st → J env s →
  ∃ st' env' s', serve_route (profile_server o logger address) rt ServerWriter r (st, env) = (Ret tt, (st', env')) ∧
    J env' s' ∧ update_outcome R r s (sent_status st') (hs_body st') s'.
Proof.
  intros HR Hrt Hp Hu Hs.
  eapply (profile_route_served o logger address rt UpdateUserProfileHandler r (plainly (update_outcome R r))); try done; [by right; left|].
  destruct (request_principal r) as [p|] eqn:Hr; [by apply update_handler_served|]. intros s0 h0. unfold plainly, update_outcome. by rewrite Hr.
Qed.

(** Whatever request the server gets, it is the health check, or one of the two. *)
Lemma profile_server_served Rg Ru o logger address rt r st env s :
  gets J Rg → updates J Ru →
  rt ∈ router_Routes (srv_Router (profile_server o logger address)) → plain (r_Context r) → unanswered st → J env s →
  ∃ st' env' s', serve_route (profile_server o logger address) rt ServerWriter r (st, env) = (Ret tt, (st', env')) ∧ J env' s' ∧
    (s' = s ∨ get_result Rg r s (sent_status st') (hs_body st') s' ∨ update_outcome Ru r s (sent_status st') (hs_body st') s').
Proof.
  intros Hg Hup Hrt Hp Hu Hs. cbn in Hrt. repeat (apply elem_of_cons in Hrt as [->|Hrt]); [..|by apply elem_of_nil in Hrt].
  - destruct (serves_route error_Error uuid_String show_int CORS Hcors J (profile_server o logger address) o logger
      (mkRoute (getRouteName "GET" healthPath) "GET" healthPath [] (WithHealthCheck None)) r _ eq_refl (serves_health J r _))
      with (ctx := r_Context r) (st := st) (env := env) (s := s) as (st' & env' & s' & H & HJ' & -> & _); [done..|].
    exists st', env', s. split; [by destruct r|]. split; [done|by left].
  - destruct (get_route_served Rg o logger address (mkRoute (getRouteName "GET" "/profile/{userID}") "GET" "/profile/{userID}"
      [WithAuthenticationRequirement] (httpHandlerWrapper GetUserProfileHandler_Handle)) r st env s)
      as (st' & env' & s' & H & Hs' & HQ); [done|split; [do 1 right; left|done]|done..|].
    exists st', env', s'. split; [done|]. split; [done|]. right. by left.
  - destruct (update_route_served Ru o logger address (mkRoute (getRouteName "PUT" "/profile/{userID}") "PUT" "/profile/{userID}"
      [WithAuthenticationRequirement] (httpHandlerWrapper UpdateUserProfileHandler_Handle)) r st env s)
      as (st' & env' & s' & H & Hs' & HQ); [done|split; [do 2 right; left|done]|done..|].
    exists st', env', s'. split; [done|]. split; [done|]. by do 2 right.
Qed.
End routes_served.

(** ** The program's service *)

Section profiles_served.
Context {W : Type} {HPL : ParseLib} {HUL : UnicodeLatin} {HUC : UnicodeCase}.
Context {HL : LogSink W} {HMt : Metrics W} {HMD : MetricsDuration W} {HC : HasClock W} {HNU : NewUUID W}.
Context {HU : RemoteUserService W} {HR : UserProfileRepository W} {HI : IdkService W} {HPE : UserProfileEncodings}.
Context (error_Error : error → string) (uuid_String : uuid → string) (show_int : Z → string).
Context (CORS : HttpHandler (W := W) → HttpHandler (W := W)) (Hcors : only_sets_headers CORS).
Context (event_key : uuid → uuid) (holds : target → W → profiles → Prop).
Context (valid : uuid → result UserInfo → Prop) {HPS : ProfilesSpec event_key holds valid}.

(** The profiles as the database has them. *)
Definition profiles_seen (w : W) (s : profiles) : Prop := holds OnDB w s.
Context {HIB : InfraBeside profiles_seen}.

(** What a request for a profile gets: [was_found] is what the repository
    found, [was_told] what the user service said. *)
Definition get_answer (r : Request) (s : profiles) (code : Z) (body : string) (s' : profiles) : Prop :=
  s' = s ∧
  match request_principal r, path_userID r with
  | None, _ => code = StatusUnauthorized ∧ body = ""
  | Some p, None => code = StatusBadRequest ∧ body = ""
  | Some p, Some id =>
      match CanGetUserProfile id (mkAuth (Some p)) with
      | Ok true => ∃ f, was_found holds id s f ∧
          match f with
          | Err e => body = "" ∧
              (if error_has domain_ErrUserProfileNotFound e then code = StatusNotFound ∧ id ∉ up_ID <$> ps_profiles s
               else code = get_error_status e)
          | Ok p => p ∈ ps_profiles s ∧ up_ID p = id ∧ ∃ u, was_told holds valid id s u ∧
              if user_missing u then code = StatusNotFound ∧ body = ""
              else match u with
                   | Err e => code = get_error_status e ∧ body = ""
                   | Ok _ =>
                       match Marshal_UserProfileOut (up_FirstName p, up_LastName p) with
                       | Ok b => code = StatusOK ∧ body = b
                       | Err _ => code = StatusInternalServerError ∧ body = ""
                       end
                   end
          end
      | _ => code = StatusForbidden ∧ body = ""
      end
  end.

(** What a request to store a profile gets, and leaves of the profiles. *)
Definition update_answer (r : Request) (s : profiles) (code : Z) (body : string) (s' : profiles) : Prop :=
  body = "" ∧
  match request_principal r, path_userID r, Decode_updateUserProfileIn (r_Body r) with
  | None, _, _ => code = StatusUnauthorized ∧ s' = s
  | Some p, Some id, Ok (firstName, lastName) =>
      match CanUpdateUserProfile id (mkAuth (Some p)) with
      | Ok true =>
          if decide (TrimSpace firstName = "" ∨ TrimSpace lastName = "") then code = StatusBadRequest ∧ s' = s
          else ∃ u, was_told holds valid id s u ∧
            if user_missing u then code = StatusNotFound ∧ s' = s
            else match u with
                 | Err e => code = update_error_status e ∧ s' = s
                 | Ok _ => ∃ err, was_stored holds (mkProfile id firstName lastName) s err ∧
                     match err with
                     | None => code = StatusOK ∧ s' = with_profiles (upsert_profile (mkProfile id firstName lastName)) s
                     | Some e => code = update_error_status e ∧ s' = s
                     end
                 end
      | _ => code = StatusForbidden ∧ s' = s
      end
  | Some p, _, _ => code = StatusBadRequest ∧ s' = s
  end.

(** What the service returns, for a principal. *)
Definition gets_for (p : Principal) (id : uuid) (s : profiles) (res : result UserProfile) (s' : profiles) : Prop :=
  s' = s ∧ match CanGetUserProfile id (mkAuth (Some p)) with
           | Ok true => read_result holds valid id s res
           | _ => res = Err (ErrSentinel ErrPermissionDenied)
           end.
Definition updates_for (p : Principal) (data : UserProfile) (s : profiles) (err : option error) (s' : profiles) : Prop :=
  match CanUpdateUserProfile (up_ID data) (mkAuth (Some p)) with
  | Ok true => update_result holds valid data s err s'
  | _ => err = Some (ErrSentinel ErrPermissionDenied) ∧ s' = s
  end.

Lemma service_gets : gets profiles_seen gets_for.
Proof.
  intros p ctx id w s Hp HA Hs. destruct (plain_route ctx Hp) as [Hroute _]. unfold profiles_seen in *. rewrite <- Hroute in Hs.
  destruct (userprofile_Get_spec event_key holds valid ctx id w s Hs) as (res & w' & Hrun & Hs' & Hspec). rewrite Hroute in Hs'.
  exists res, w', s. split; [done|]. split; [done|]. split; [done|]. rewrite (authenticated_Check _ _ _ HA) in Hspec.
  destruct (CanGetUserProfile id (mkAuth (Some p))) as [[]|e] eqn:Ec; [done..|]. exfalso. unfold CanGetUserProfile in Ec. cbn in Ec. by repeat case_match.
Qed.
Lemma service_updates : updates profiles_seen updates_for.
Proof.
  intros p ctx data w s Hp HA Hs. destruct (plain_route ctx Hp) as [Hroute _]. unfold profiles_seen in *. rewrite <- Hroute in Hs.
  destruct (userprofile_Update_spec event_key holds valid ctx data w s Hs) as (err & w' & s' & Hrun & Hs' & Hspec). rewrite Hroute in Hs'.
  exists err, w', s'. split; [done|]. split; [done|]. unfold updates_for. rewrite (authenticated_Check _ _ _ HA) in Hspec.
  destruct (CanUpdateUserProfile _ (mkAuth (Some p))) as [[]|e] eqn:Ec; [done..|]. exfalso. unfold CanUpdateUserProfile in Ec. cbn in Ec. by repeat case_match.
Qed.

Lemma get_result_answer r s code body s' : get_result gets_for r s code body s' → get_answer r s code body s'.
Proof.
  unfold get_result, get_answer. destruct (request_principal r) as [p|]; [|naive_solver]. destruct (path_userID r) as [id|]; [|naive_solver].
  intros (res & [-> Hres] & Hcode). split; [done|]. destruct (CanGetUserProfile _ _) as [[]|]; [|by subst res..].
  destruct Hres as ([pr|e] & Hf & Hr); [exists (Ok pr)|exists (Err e)]; (split; [done|]).
  - destruct Hr as (Hin & Hid & u & Hu & ->). split; [done|]. split; [done|]. exists u. split; [done|].
    destruct (user_missing u); [done|]. destruct u as [u|e]; [done|]. by rewrite get_error_wrap in Hcode.
  - destruct (error_has _ e); [destruct Hr as [-> Hno]|subst res]; destruct Hcode as [-> ->]; [done|]. by rewrite get_error_wrap.
Qed.
Lemma update_outcome_answer r s code body s' : update_outcome updates_for r s code body s' → update_answer r s code body s'.
Proof.
  unfold update_outcome, update_answer. intros [-> H]. split; [done|]. destruct (request_principal r) as [p|]; [|done].
  destruct (path_userID r) as [id|]; [|done]. destruct (Decode_updateUserProfileIn _) as [[f l]|]; [|done].
  destruct H as (err & Hres & ->). unfold updates_for, update_result in Hres. cbn [up_ID up_FirstName up_LastName] in Hres.
  destruct (CanUpdateUserProfile _ _) as [[]|]; [|by destruct Hres as [-> ->]..]. case_decide; [by destruct Hres as [-> ->]|].
  destruct Hres as (u & Hu & Hres). exists u. split; [done|]. destruct (user_missing u); [by destruct Hres as [-> ->]|].
  destruct u as [u|e]; [|destruct Hres as [-> ->]; by rewrite update_error_wrap].
  destruct Hres as (st & Hst & -> & ->). exists st. split; [done|]. destruct st as [e|]; [|done]. cbn. by rewrite update_error_wrap.
Qed.

(** What two requests that succeeded say of each other. *)
Lemma update_stored r s body s' : update_answer r s StatusOK body s' → ∃ id f l, path_userID r = Some id ∧
  Decode_updateUserProfileIn (r_Body r) = Ok (f, l) ∧ s' = with_profiles (upsert_profile (mkProfile id f l)) s.
Proof.
  intros [_ H]. destruct (request_principal r) as [p|]; [|by destruct H]. destruct (path_userID r) as [id|]; [|by destruct H].
  destruct (Decode_updateUserProfileIn _) as [[f l]|e]; [|by destruct H]. exists id, f, l. split; [done|]. split; [done|].
  destruct (CanUpdateUserProfile _ _) as [[]|]; [|by destruct H..]. case_decide; [by destruct H|].
  destruct H as (u & _ & H). destruct (user_missing u); [by destruct H|].
  destruct u as [u|e]; [|by destruct H as [H%eq_sym%update_error_failed _]].
  destruct H as ([e|] & _ & H); [by destruct H as [H%eq_sym%update_error_failed _]|by destruct H].
Qed.
Lemma get_found r s body s' : get_answer r s StatusOK body s' → ∃ p,
  p ∈ ps_profiles s ∧ path_userID r = Some (up_ID p) ∧ Marshal_UserProfileOut (up_FirstName p, up_LastName p) = Ok body.
Proof.
  intros [_ H]. destruct (request_principal r) as [p|]; [|by destruct H]. destruct (path_userID r) as [id|]; [|by destruct H].
  destruct (CanGetUserProfile _ _) as [[]|]; [|by destruct H..]. destruct H as ([pr|e] & _ & H).
  - destruct H as (Hin & <- & u & _ & H). exists pr. split; [done|]. split; [done|]. destruct (user_missing u); [by destruct H|].
    destruct u as [u|e]; [|by destruct H as [H%eq_sym%get_error_failed _]]. by destruct (Marshal_UserProfileOut _) as [b|e]; destruct H as [? ->].
  - destruct H as [_ H]. destruct (error_has _ e); [by destruct H|]. by apply eq_sym, get_error_failed in H.
Qed.
Lemma read_back r1 r2 s s1 b1 b2 : update_answer r1 s StatusOK b1 s1 → get_answer r2 s1 StatusOK b2 s1 → path_userID r2 = path_userID r1 →
  ∃ names, Decode_updateUserProfileIn (r_Body r1) = Ok names ∧ Marshal_UserProfileOut names = Ok b2.
Proof.
  intros (id & f & l & Hid & Hd & ->)%update_stored (p & Hin & Hp & Hm)%get_found Heq. rewrite Heq, Hid in Hp. injection Hp as ->.
  apply (upsert_profile_elem (mkProfile (up_ID p) f l)) in Hin; [|done]. exists (f, l). split; [done|]. by rewrite Hin in Hm.
Qed.

Abbreviation profile_server o logger address :=
  (userprofile_MustRegisterHTTPHandlers (httpServer error_Error uuid_String show_int CORS o logger address)).

(** C9. A profile over HTTP, through the whole server.  A request to store a
    profile is answered 401 without a token, 400 when the id is none, the body
    is not understood or a name is blank, 403 unless the token is of the user
    itself or of an admin, 404 when the user service says that the user is not
    there or deleted, and otherwise 200 exactly when the repository stored the
    profile in its body under the id in its path; an error of the user service
    or of the repository has the status of that error, and the profiles are
    changed by nothing but a 200.  A request for the profile changes nothing:
    401, 400 and 403 as before, 404 when there is no profile or the user
    service says that the user is not there or deleted, 200 with the stored
    names otherwise - an error of the repository, of the user service or of the
    encoding has its own status and no body.  So the names read back after a
    profile was stored are the ones that were sent. *)
Theorem profile_over_http o logger address put get r1 r2 st1 st2 env s
    (Hput : routes_to (profile_server o logger address) put UpdateUserProfileHandler)
    (Hget : routes_to (profile_server o logger address) get GetUserProfileHandler)
    (Hp1 : plain (r_Context r1)) (Hp2 : plain (r_Context r2)) (Hu1 : unanswered st1) (Hu2 : unanswered st2) (Hs : holds OnDB env s) :
  ∃ st1' env1 s1,
    serve_route (profile_server o logger address) put ServerWriter r1 (st1, env) = (Ret tt, (st1', env1)) ∧
    holds OnDB env1 s1 ∧ update_answer r1 s (sent_status st1') (hs_body st1') s1 ∧
    ∃ st2' env2,
      serve_route (profile_server o logger address) get ServerWriter r2 (st2, env1) = (Ret tt, (st2', env2)) ∧
      holds OnDB env2 s1 ∧ get_answer r2 s1 (sent_status st2') (hs_body st2') s1 ∧
      (sent_status st1' = StatusOK → sent_status st2' = StatusOK → path_userID r2 = path_userID r1 →
       ∃ names, Decode_updateUserProfileIn (r_Body r1) = Ok names ∧ Marshal_UserProfileOut names = Ok (hs_body st2')).
Proof.
  destruct (update_route_served error_Error uuid_String show_int CORS Hcors profiles_seen updates_for o logger address put r1 st1 env s)
    as (st1' & env1 & s1 & H1 & Hs1 & HQ1); [exact service_updates|done..|]. apply update_outcome_answer in HQ1.
  destruct (get_route_served error_Error uuid_String show_int CORS Hcors profiles_seen gets_for o logger address get r2 st2 env1 s1)
    as (st2' & env2 & s2 & H2 & Hs2 & HQ2); [exact service_gets|done..|]. apply get_result_answer in HQ2.
  assert (s2 = s1) as -> by apply HQ2. exists st1', env1, s1. split; [done|]. split; [done|]. split; [done|].
  exists st2', env2. split; [done|]. split; [done|]. split; [done|]. intros Hok1 Hok2 Hid.
  rewrite Hok1 in HQ1. rewrite Hok2 in HQ2. by eapply read_back.
Qed.
End profiles_served.

(** ** Witnesses *)

Lemma profile_infrastructure : @InfraBeside profileServer _
  (profiles_seen (tx_view sv_committed sv_working (stores_profiles fst snd))) no_emit no_increment no_duration stopped_clock (λ w, (Ret 7%N, w)).
Proof. apply quiet_infrastructure. intros w. by eexists _, w. Qed.

Abbreviation profile_routes := (@userprofile_MustRegisterHTTPHandlers profileServer two_uuids ascii_latin id_case plain_profile_encodings
  (@userProfileService _ profile_users (@userProfileRepository _ profiles_DB))).
Abbreviation profile_http := (@httpServer profileServer two_uuids ascii_latin id_case no_emit no_increment no_duration stopped_clock (λ w, (Ret 7%N, w))
  (λ _, "") (λ _, "") (λ _, "") cors_header (mkObserver StubLogger ∅) (SlogLogger LevelInfo []) ":80").
Definition profile_route (i : nat) : Route_ profileServer :=
  nth i (router_Routes (srv_Router (profile_routes profile_http))) (mkRoute "" "" "" [] (λ _ _, mret tt)).

Lemma profile_over_http_witness :
  ∃ st1 env1 st2 env2,
    serve_route (profile_routes profile_http) (profile_route 2) ServerWriter (request_for "PUT" "u6" "Bob" (as_user "u6"))
      (http_init, mkServer handled_rows ∅) = (Ret tt, (st1, env1)) ∧
    serve_route (profile_routes profile_http) (profile_route 1) ServerWriter (request_for "GET" "u6" "" (as_user "u6")) (http_init, env1) =
      (Ret tt, (st2, env2)) ∧
    (sent_status st1 = 200%Z → sent_status st2 = 200%Z → hs_body st2 = "Bob Ray").
Proof.
  pose proof (@profiles_over_sql profileServer _ profiles_DB profile_users sample_sha1 sv_committed sv_working fst snd profile_server_store) as HP.
  destruct (@profile_over_http profileServer two_uuids ascii_latin id_case no_emit no_increment no_duration stopped_clock (λ w, (Ret 7%N, w))
    profile_users (@userProfileRepository _ profiles_DB) (@ServiceImpl _ (@IdempotencyKeyStorage _ profiles_DB sample_sha1)) plain_profile_encodings
    (λ _, "") (λ _, "") (λ _, "") cors_header cors_header_only _ _ _ HP profile_infrastructure (mkObserver StubLogger ∅) (SlogLogger LevelInfo []) ":80"
    (profile_route 2) (profile_route 1) (request_for "PUT" "u6" "Bob" (as_user "u6")) (request_for "GET" "u6" "" (as_user "u6")) http_init http_init
    (mkServer handled_rows ∅) handled_state) as (st1 & env1 & s1 & H1 & _ & _ & st2 & env2 & H2 & _ & _ & Hback).
  - split; [do 2 right; left|by split].
  - split; [right; left|by split].
  - by split.
  - by split.
  - by split_and!.
  - by split_and!.
  - exact handled_stored.
  - exists st1, env1, st2, env2. split; [exact H1|]. split; [exact H2|]. intros Hok1 Hok2.
    destruct (Hback Hok1 Hok2 eq_refl) as (names & Hd & Hm). injection Hd as <-. injection Hm as <-. reflexivity.
Defined.
