(* ===== verification/RemoteUsers.v ===== *)
(** The profile service's client of the user service, answered by the user
    service's server: internal/userprofile/infra/user/http over pkg/http's
    client, a network, and the routes of internal/user.  The two services are
    processes of one world: [users_of] is the world of the user service. *)
From S2P Require Import Prelude GoStrings Context Message Parsing Database Http HttpParser HttpServer Sql Persistence Idk Lazy User UserHandlers UserRepo UserProfile Table UserProfileSql Container UserRoutes SignIn.

(** The headers a token is read from. *)
Definition token_headers : list string := [HeaderAuthUserID; HeaderAuthAdminUserID; HeaderAuthServiceName].
(** What a client sets a header to for all its requests. *)
Definition client_header {W} (client : ClientImpl W) (key : string) : string :=
  foldl (λ v '(h, x), if String.eqb (canonical h) (canonical key) then x else v) "" (rc_Header (RESTClient (client_core client))).

Section remote.
(* the user service *)
Context {U : Type} {HPL : ParseLib} {HUL : UnicodeLatin} {HUC : UnicodeCase}.
Context {HL : LogSink U} {HMt : Metrics U} {HMD : MetricsDuration U} {HC : HasClock U} {HNU : NewUUID U}.
Context {HR : UserRepository U} {HT : Transaction U} {HP : PasswordEncoder} {HTC : TokenCodec} {HUE : UserEncodings}.
Context (user_Error : error → string) (user_uuid : uuid → string) (user_int : Z → string).
Context (CORS : HttpHandler (W := U) → HttpHandler (W := U)) (Hcors : only_sets_headers CORS).
Context (users : target → U → userState → Prop) {HRS : UserRepositorySpec users} {HTS : TransactionSpec users} {HQS : QuietSpec users}.
Context {HIB : InfraBeside (users_seen users)}.
Context (o : observer) (logger : Logger) (address : string).
Abbreviation users_server := (@user_MustRegisterHTTPHandlers U HPL HUL HUC HUE userService authenticationService
  (httpServer user_Error user_uuid user_int CORS o logger address)).

(* its client *)
Context {W : Type} (users_of : W → U) (profiles_at : target → W → profiles → Prop).
Context (resty_Send : ClientImpl W → restyRequest → M W (result restyResponse)) (uuid_Text : uuid → string).
Context (Decode_UserOut : string → result UserInfo) (client : ClientImpl W).

Definition user_request (ctx : context) (id : uuid) : restyRequest :=
  rw_Request (SetPathParam "userID" (uuid_Text id) (NewRequest client ctx getUserByIDRoute)).

(** The request as it arrives: routed with its path parameter, with the token
    headers of the client. *)
Definition arrives (id : uuid) (r : Request) : Prop :=
  r_Vars r !! "userID" = Some (uuid_Text id) ∧ plain (r_Context r) ∧
  Forall (λ key, header_Get (r_Header r) key = client_header client key) token_headers.

(** An error that is none of the program's. *)
Definition not_ours (e : error) : Prop := error_has user_ErrUserNotFound e = false ∧ error_has ErrAlreadyInserted e = false.

(** The documented behaviour of resty, the network and gorilla/mux: a request
    fails, before or after the server handled it, or is answered with what the
    server sent.  An error of theirs is not the program's; the profiles are
    another process' business. *)
Class UserNetwork : Prop := {
  network_get ctx id w : ∃ res w', resty_Send client (user_request ctx id) w = (Ret res, w') ∧ quiet profiles_at w w' ∧
    (users_of w' = users_of w ∧ (∃ e, res = Err e) ∨
     ∃ rt r st st', routes_to users_server rt GetUserByIDHandler ∧ arrives id r ∧ unanswered st ∧
       serve_route users_server rt ServerWriter r (st, users_of w) = (Ret tt, (st', users_of w')) ∧
       ((∃ e, res = Err e) ∨ ∃ p, res = Ok p ∧ p_StatusCode p = sent_status st' ∧ response_Body p = hs_body st' ∧ is_Some (p_RawResponse p)));
  network_errors ctx id w e w' : resty_Send client (user_request ctx id) w = (Ret (Err e), w') → not_ours e;
  (** Both sides use the same texts: UUIDs, and the JSON of a user. *)
  uuid_texts id : uuid_Parse (uuid_Text id) = Ok id;
  user_texts d body : Marshal_UserOut d = Ok body → Decode_UserOut body = Ok (mkUserInfo (ud_ID d) (ud_DeletedAt d));
  decode_errors body e : Decode_UserOut body = Err e → not_ours e;
}.
Context {HN : UserNetwork}.

(** The client sends the name of its service and is otherwise nobody. *)
Context (Hservice : client_header client HeaderAuthServiceName = userprofile_ServiceName)
  (Hnobody : client_header client HeaderAuthUserID = "" ∧ client_header client HeaderAuthAdminUserID = "")
  (Hmws : ResponseMWs (client_core client) = []).

Lemma arrived_principal id r : arrives id r → request_principal r = Some (Context.mkPrincipal None None (Some userprofile_ServiceName)).
Proof.
  intros (_ & _ & Hh). unfold token_headers in Hh. rewrite !Forall_cons in Hh. destruct Hh as (H1 & H2 & H3 & _), Hnobody as [Hn1 Hn2].
  destruct (tokens_authenticate r) as (_ & _ & Hs & _). unfold request_principal, tokenProviders.
  rewrite Hs; [|congruence|congruence|by rewrite H3, Hservice]. cbn. by rewrite H3, Hservice.
Qed.
Lemma arrived_id id r : arrives id r → path_userID r = Some id.
Proof. intros (Hv & _). unfold path_userID. by rewrite Hv, uuid_texts. Qed.

(** What the user service says of a user, given its users. *)
Definition says (s : userState) (id : uuid) (r : result UserInfo) : Prop :=
  match r with
  | Ok i => ∃ u, u ∈ us_users s ∧ u_ID u = id ∧ i = mkUserInfo id (u_DeletedAt u)
  | Err e => (error_has user_ErrUserNotFound e = true → id ∉ u_ID <$> us_users s) ∧ error_has ErrAlreadyInserted e = false
  end.

Lemma remote_get_spec ctx id w s : users_seen users (users_of w) s →
  ∃ r w', remoteUserService_Get resty_Send uuid_Text Decode_UserOut client ctx id w = (Ret r, w') ∧
    quiet profiles_at w w' ∧ users_seen users (users_of w') s ∧ says s id r.
Proof.
  intros Hs. destruct (network_get ctx id w) as (res & w' & Hrun & Hq & Hres). unfold remoteUserService_Get, Send.
  change (rw_Request (SetPathParam "userID" (uuid_Text id) (NewRequest client ctx getUserByIDRoute))) with (user_request ctx id).
  change (rw_responseMWs _) with (ResponseMWs (client_core client)). rewrite Hmws. rewrite M_bind_assoc, (M_bind_Ret _ _ _ _ _ Hrun).
  assert (Hfail : ∀ e, res = Err e → says s id (Err (Errorf "request user.getUserByID" e))).
  { intros e ->. destruct (network_errors _ _ _ _ _ Hrun) as [H1 H2]. cbn. by rewrite H1, H2. }
  destruct Hres as [[Hw [e ->]]|(rt & r & st & st' & Hrt & Harr & Hun & Hserve & Hres)].
  { eexists _, w'. split; [done|]. split; [done|]. split; [by rewrite Hw|by apply Hfail]. }
  destruct (read_route_served user_Error user_uuid user_int CORS Hcors users o logger address rt r st (users_of w) s)
    as (st2 & u2 & H2 & Hs2 & _ & Hans); [done|apply Harr|done|done|].
  rewrite Hserve in H2. injection H2 as <- <-.
  rewrite (arrived_principal id r Harr), (arrived_id id r Harr) in Hans. cbn in Hans.
  destruct Hres as [[e ->]|(p & -> & Hcode & Hbody & Hraw)].
  { eexists _, w'. split; [done|]. split; [done|]. split; [done|by apply Hfail]. }
  cbn [foldl]. rewrite M_ret_bind, Hcode.
  destruct Hans as [(Hok & u & Hu & Hid & Hm)|[(H404 & _ & Hno)|[H500 _]]].
  - rewrite Hok. cbn. unfold parsed. unfold_M. unfold ParseResponse, JSONBody.
    assert (dp_Body (responseDataProvider (p_RawResponse p)) = hs_body st') as ->.
    { rewrite <- Hbody. unfold response_Body, responseDataProvider. destruct (p_RawResponse p) as [rp|]; [|done]. by destruct (hr_Request rp). }
    rewrite (user_texts _ _ Hm). exists (Ok (mkUserInfo (u_ID u) (u_DeletedAt u))), w'.
    split; [done|]. split; [done|]. split; [done|]. exists u. rewrite Hid. done.
  - rewrite H404. exists (Err (ErrSentinel user_ErrUserNotFound)), w'. split; [done|]. split; [done|]. split; [done|]. split; [by intros _|done].
  - rewrite H500. exists (Err (ErrText "request user.getUserByID: invalid status code")), w'. by split_and!.
Qed.
(** The profiles, with the users as they are. *)
Definition beside_users (s : userState) (t : target) (w : W) (sp : profiles) : Prop := profiles_at t w sp ∧ users_seen users (users_of w) s.

Definition remoteUsers : RemoteUserService W := remoteUserService_Get resty_Send uuid_Text Decode_UserOut client.

(** The user service, over HTTP, is one the profile service can rely on. *)
Lemma remote_implements {HPR : UserProfileRepository W} {HI : IdkService W} event_key s :
  ProfileStoreSpec event_key (beside_users s) → @ProfilesSpec W remoteUsers _ _ event_key (beside_users s) (says s).
Proof.
  intros Hst. split; [exact Hst|]. intros ctx id w sp [Hsp Hs].
  destruct (remote_get_spec ctx id w s Hs) as (r & w' & Hrun & Hq & Hs' & Hsay). exists r, w'. split; [done|]. split; [|done].
  intros t a [Ha _]. split; [by apply Hq|done].
Qed.
End remote.

(** The client that the profile service's container makes. *)
Section provided.
Context {W : Type} {HPL : ParseLib} {HUL : UnicodeLatin} {HUC : UnicodeCase} {HSS : ScreamingSnake}.
Context {HL : LogSink W} {HMt : Metrics W} {HMD : MetricsDuration W}.
Context (error_Error : error → string) (uuid_String : uuid → string) (show_int : Z → string).

Lemma provided_client (o : observer) (logger : Logger) env client env' :
  remoteUserServiceProvider error_Error (httpClientFactoryProvider error_Error uuid_String show_int o logger) env = (Ret client, env') →
  client_header (W := W) client HeaderAuthServiceName = userprofile_ServiceName ∧
  (client_header client HeaderAuthUserID = "" ∧ client_header client HeaderAuthAdminUserID = "") ∧
  ResponseMWs (client_core client) = [].
Proof.
  unfold remoteUserServiceProvider, MustInitClient. rewrite M_bind_assoc. intros (host & env1 & _ & H)%M_bind_Ret_inv.
  injection H as <- _. split; [by vm_compute|]. by split.
Qed.
End provided.
