(* ===== verification/Acknowledged.v ===== *)
(** What the broker may forget: the listener of EventDelivery acknowledges the
    event of a deleted user only when the profile is removed - with the removal
    at most once, exactly once. *)
From S2P Require Import Prelude GoStrings Context Message Queue Http HttpServer Sql Persistence Idk Bus Lazy Listener User UserRepo EventOutbox UserProfile Table UserProfileSql EventDelivery.

Section acknowledged.
Context {C W : Type} {HJ : MessageJSON} {HJL : MessageJSONLaws} {HK : Kebab} {HO : JobOrder}.
Context {HCE : CtxErr W} {HQ : ListenerProcessingQueue W}.
Context {HB1 : Backoff (list HandlerMetadata * W)} {HB2 : Backoff W} {HL1 : BackoffLaws (list HandlerMetadata * W)} {HL2 : BackoffLaws W}.
Context {HL : LogSink W} {HMt : Metrics W} {HMD : MetricsDuration W} {HC : HasClock W} {HNU : NewUUID W}.
Context {HU : RemoteUserService W} {HR : UserProfileRepository W} {HI : IdkService W} {HT : Transaction W}.
Context (event_key : uuid → uuid) (holds : target → W → profiles → Prop) (valid : uuid → result UserInfo → Prop).
Context {HPS : ProfilesSpec event_key holds valid} {HTS : TransactionSpec holds} {HBS : Beside holds}.
Context {HPE : ProfileErrorSpec event_key holds} {HTE : TransactionErrors holds ErrAlreadyInserted}.
Context (error_Error : error → string) (uuid_String : uuid → string) (event_Value : event → string).
Context (Unmarshal : string → result UserDeleted) (get_consumer : Topic → Subscriber → M W (result C)).

(** The broker was told that a message is handled; nothing else of the listener
    and its handler is such a message. *)
Context (acked : W → bool).
Abbreviation pending := (λ w, acked w = false).
Class AckObserved : Prop := {
  ao_ctx_Err ctx : keeps pending (ctx_Err ctx);
  ao_failed ctx msg e : keeps pending (AcknowledgeResult ctx msg (Some e));
  ao_emit level fields text : keeps pending (emit level fields text);
  ao_increment fields metric : keeps pending (Increment fields metric);
  ao_duration fields metric d : keeps pending (Duration fields metric d);
  ao_clock : keeps pending time_Now;
  ao_uuid : keeps pending uuid_New;
  ao_remote ctx id : keeps pending (remote_Get ctx id);
  ao_insert ctx key extra : keeps pending (Service_Insert ctx key extra);
  ao_delete ctx id : keeps pending (profile_DeleteByID ctx id);
  ao_within ctx fn locks : (∀ ctx', keeps pending (fn ctx')) → keeps pending (tx_WithinContext ctx fn locks);
}.
Context {HAO : AckObserved}.

Context (evt : UserDeleted) (s : profiles).
(** The user service says that the user is deleted, or fails with an error of
    its own. *)
Context (Hdeleted : ∀ r, valid (de_UserID evt) r → match r with
  | Ok u => ui_DeletedAt u ≠ None
  | Err e => error_has user_ErrUserNotFound e = false ∧ error_has ErrAlreadyInserted e = false
  end).
Abbreviation key := (event_key (de_EventID evt)).

(** The event is handled: once, now or before. *)
Definition handled_once (w : W) : Prop :=
  ∃ sp, holds OnDB w sp ∧ key ∈ ps_keys sp ∧ (sp = s ∨ (key ∉ ps_keys s) ∧ sp = removed_by event_key evt s).
(** Acknowledged only when it is. *)
Definition acked_once (w : W) : Prop := (acked w = false ∧ at_most_once event_key holds evt s w) ∨ handled_once w.

(** An operation that leaves the profiles to others. *)
Definition stays {A} (m : M W A) : Prop := ∀ sp, keeps (at_most_once event_key holds evt sp) m.

Lemma handled_acked w : handled_once w → acked_once w.
Proof. by right. Qed.
Lemma stays_handled {A} (m : M W A) : stays m → keeps handled_once m.
Proof.
  intros Hm w a w' (sp & Hsp & Hk & Hor) H. exists sp. split; [|done]. by destruct (Hm sp w a w' (or_introl Hsp) H) as [Hs|[Hn _]].
Qed.
Lemma stays_acked {A} (m : M W A) : stays m → keeps pending m → keeps acked_once m.
Proof.
  intros Hm Hp w a w' [[Hn Hs]|Hh] H; [left|right; by eapply (stays_handled m)]. split; [by eapply Hp|by eapply Hm].
Qed.

(** *** The handler *)

(** From a state where nothing is acknowledged for nothing, to one; with a result
    that [good] holds of, the event is handled. *)
Definition settles (good : option error → Prop) (m : M (list HandlerMetadata * W) (option error)) : Prop :=
  ∀ st r st', acked_once st.2 → m st = (Ret r, st') → acked_once st'.2 ∧ (good r → handled_once st'.2).
Abbreviation succeeded := (λ r : option error, r = None).
Abbreviation known := (λ r : option error, r = None ∨ errors_Is r (Some ErrAlreadyInserted) = true).

Lemma pending_handle ctx : keeps pending (HandleUserDeleted ctx evt).
Proof.
  apply keeps_bind; [apply ao_remote|]. intros [u|e]; [|case_match; apply keeps_ret]. case_match; [apply keeps_ret|].
  apply ao_within. intros ctx'. apply keeps_bind; [apply ao_insert|]. intros [e|]; [apply keeps_ret|].
  apply keeps_bind; [apply ao_delete|]. intros; apply keeps_ret.
Qed.

Lemma impl_already ctx w sp e w' : holds (route ctx) w sp →
  handleUserDeletedImpl evt ctx w = (Ret (Some e), w') → error_has ErrAlreadyInserted e = true → key ∈ ps_keys sp.
Proof.
  intros Hs Hrun He. unfold handleUserDeletedImpl in Hrun.
  destruct (insert_spec (holds := holds) ctx (de_EventID evt) w sp Hs) as (err & w1 & Hi & _ & H1). rewrite (M_bind_Ret _ _ _ _ _ Hi) in Hrun.
  destruct err as [er|]; [injection Hrun as -> _; by eapply (insert_error (holds := holds))|].
  destruct (H1 eq_refl) as [_ Hs1]. apply M_bind_Ret_inv in Hrun as (err & w2 & Hd & Hrun). destruct err as [er|]; [|by injection Hrun].
  destruct (errors_Is _ _); [by injection Hrun|]. injection Hrun as <- _. rewrite error_has_wrap in He.
  by rewrite (delete_error (holds := holds) _ _ _ _ _ _ Hs1 Hd) in He.
Qed.

(** The state the handler finds, and the one it leaves. *)
Lemma handle_known ctx w sp err w' : plain ctx → holds OnDB w sp → (sp = s ∨ (key ∉ ps_keys s) ∧ sp = removed_by event_key evt s) →
  HandleUserDeleted ctx evt w = (Ret err, w') → known err → handled_once w'.
Proof.
  intros Hp Hs Hor Hrun Hgood. destruct (plain_route ctx Hp) as [Hroute Htx]. rewrite <- Hroute in Hs.
  unfold HandleUserDeleted in Hrun. destruct (remote_spec (holds := holds) ctx (de_UserID evt) w sp Hs) as (r & w1 & Hr & Hq & Hv).
  rewrite (M_bind_Ret _ _ _ _ _ Hr) in Hrun. apply Hq in Hs. apply Hdeleted in Hv. destruct r as [u|e].
  2: { destruct Hv as [Hv1 Hv2]. cbn [errors_Is] in Hrun. rewrite Hv1 in Hrun. injection Hrun as <- _.
    destruct Hgood as [|Hg]; [done|]. cbn [errors_Is] in Hg. by rewrite error_has_wrap, Hv2 in Hg. }
  rewrite bool_decide_eq_false_2 in Hrun by done.
  destruct (within_run holds ctx (handleUserDeletedImpl evt) [] w1 sp (λ s', (key ∉ ps_keys sp) ∧ s' = removed_by event_key evt sp) Htx Hs)
    as (err' & w2 & Hrun' & Hin).
  { intros ctx' w3 _ H3 _. by apply (handleUserDeletedImpl_spec event_key holds valid). }
  rewrite Hrun in Hrun'. injection Hrun' as <- <-. destruct err as [e|].
  - rewrite Hroute in Hin. exists sp. split; [done|]. split; [|done]. destruct Hgood as [|Hg]; [done|].
    eapply (within_error (holds := holds) ctx (handleUserDeletedImpl evt) [] w1 sp); [done|done| |exact Hrun|exact Hg].
    intros ctx' w3 e' w4 _ H3 Hr4 He'. by eapply impl_already.
  - destruct Hin as (s' & Hs' & Hk & ->). rewrite Hroute in Hs'. destruct Hor as [->|[Hn ->]].
    + exists (removed_by event_key evt s). split; [done|]. split; [unfold removed_by; cbn; set_solver|by right].
    + exfalso. apply Hk. unfold removed_by. cbn. set_solver.
Qed.

Lemma handle_settles ctx w err w' : plain ctx → acked_once w → HandleUserDeleted ctx evt w = (Ret err, w') →
  acked_once w' ∧ (known err → handled_once w').
Proof.
  intros Hp Hw Hrun. split.
  - revert Hw Hrun. apply stays_acked; [|apply pending_handle]. intros sp w0 a w0' Hs H.
    destruct (HandleUserDeleted_once event_key holds valid ctx evt sp w0 Hp Hs) as (e & w2 & H2 & Hs2). rewrite H in H2. by injection H2 as _ <-.
  - destruct Hw as [[_ [Hs|[Hn Hs]]]|(sp & Hs & _ & Hor)]; intros Hg; eapply handle_known; try done; [by left|by right].
Qed.

(** *** The middlewares *)

Definition handler_settles (good : option error → Prop) (h : TypedHandler W) : Prop :=
  ∀ ctx, plain ctx → settles good (h ctx (user_EventUserDeleted evt)).

(** What runs after the handler, with its result. *)
Lemma settles_then good (m : M (list HandlerMetadata * W) (option error)) k : settles good m →
  (∀ err st r st', k err st = (Ret r, st') → r = err ∧ ∀ P, (P = acked_once ∨ P = handled_once) → P st.2 → P st'.2) →
  settles good (err ← m; k err).
Proof.
  intros Hm Hk st r st' Hst (err & st1 & H1 & H2)%M_bind_Ret_inv. destruct (Hm _ _ _ Hst H1) as [Ha Hg].
  destruct (Hk _ _ _ _ H2) as [-> HP]. split; [by apply HP; [left|]|]. intros Hr. apply HP; [by right|]. by apply Hg.
Qed.
Lemma settles_after {A} good (m : M (list HandlerMetadata * W) A) k : keeps (λ st : list HandlerMetadata * W, acked_once st.2) m →
  (∀ a, settles good (k a)) → settles good (a ← m; k a).
Proof. intros Hm Hk st r st' Hst (a & st1 & H1 & H2)%M_bind_Ret_inv. eapply Hk, H2. by eapply Hm. Qed.

#[local] Instance once_beside sp : BesideKeeps (at_most_once event_key holds evt sp) := at_most_once_beside event_key holds evt sp.

(** The environment of the handler, in both states. *)
Definition side {A} (m : M W A) : Prop := ∀ P, (P = acked_once ∨ P = handled_once) → keeps P m.
Lemma side_of {A} (m : M W A) : stays m → keeps pending m → side m.
Proof. intros Hs Hp P [->| ->]; [by apply stays_acked|by apply stays_handled]. Qed.
Lemma pending_log l ctx level text : keeps pending (logger_Log l (Some ctx) level text).
Proof.
  intros w a w' Hw H. destruct (logger_Log_ctx l ctx level text w) as [Heq|[fields Heq]]; rewrite Heq in H; [by injection H as _ <-|].
  by eapply ao_emit.
Qed.
Lemma side_log l ctx level text : side (logger_Log l (Some ctx) level text).
Proof. apply side_of; [intros sp; apply (log_keeps (at_most_once event_key holds evt sp))|apply pending_log]. Qed.
Lemma side_increment fields metric : side (Increment fields metric).
Proof. apply side_of; [intros sp; apply (once_beside sp)|apply ao_increment]. Qed.
Lemma side_duration fields metric d : side (Duration fields metric d).
Proof. apply side_of; [intros sp; apply (once_beside sp)|apply ao_duration]. Qed.
Lemma side_clock : side time_Now.
Proof. apply side_of; [intros sp; apply (once_beside sp)|apply ao_clock]. Qed.
Lemma side_uuid : side uuid_New.
Proof. apply side_of; [intros sp; apply (once_beside sp)|apply ao_uuid]. Qed.

(** Steps after the handler that keep both states and give its result. *)
Lemma tail_settles good (m : M (list HandlerMetadata * W) (option error)) k : settles good m →
  (∀ err P, (P = acked_once ∨ P = handled_once) → keeps (λ st : list HandlerMetadata * W, P st.2) (k err)) →
  (∀ err st r st', k err st = (Ret r, st') → r = err) → settles good (err ← m; k err).
Proof. intros Hm Hk Hr. apply settles_then; [done|]. intros err st r st' H. split; [by eapply Hr|]. intros P HP Hst. by eapply Hk. Qed.

Lemma metrics_settles good h : handler_settles good h → handler_settles good (metrics_mw h).
Proof.
  intros Hh ctx Hp. unfold metrics_mw. apply settles_after; [by apply keeps_on_env, side_clock; left|]. intros started.
  apply tail_settles; [by apply Hh| |].
  - intros err P HP. pose proof (side_increment) as H1. pose proof side_duration as H2. pose proof (side_clock P HP) as H3.
    apply keeps_bind; [apply keeps_GetHandlerMetadata|]. intros meta.
    apply keeps_bind; [case_match; [by apply keeps_on_env, H1|apply keeps_ret]|]. intros _.
    apply keeps_bind; [by apply keeps_on_env|]. intros now. apply keeps_bind; [by apply keeps_on_env, H2|]. intros; apply keeps_ret.
  - intros err st r st' (a & st1 & _ & (b & st2 & _ & (c & st3 & _ & (e & st4 & _ & [= <- _])%M_bind_Ret_inv)%M_bind_Ret_inv)%M_bind_Ret_inv)%M_bind_Ret_inv.
    done.
Qed.

Lemma logging_settles good logger il el h :
  handler_settles good h → handler_settles good (logging_mw error_Error uuid_String uuid_New logger il el h).
Proof.
  intros Hh ctx Hp. unfold logging_mw. apply settles_after; [by apply keeps_on_env, side_uuid; left|]. intros id.
  apply tail_settles; [by apply Hh, plain_WithContext| |].
  - intros err P HP. pose proof side_log as H1. apply keeps_bind; [apply keeps_GetHandlerMetadata|]. intros meta.
    repeat case_match; (apply keeps_bind; [by apply keeps_on_env, H1|intros; apply keeps_ret]).
  - intros err st r st' (a & st1 & _ & H)%M_bind_Ret_inv.
    repeat case_match; apply M_bind_Ret_inv in H as (b & st2 & _ & H); by injection H as <- _.
Qed.

Lemma observability_settles good o fields h : handler_settles good h → handler_settles good (observability_mw o fields h).
Proof. intros Hh ctx Hp. apply settles_after; [apply keeps_GetHandlerMetadata|]. intros meta. by apply Hh, plain_observe. Qed.

Lemma ignoring_settles h : handler_settles known h →
  handler_settles succeeded (λ ctx msg, err ← h ctx msg; mret (if errors_Is err (Some ErrAlreadyInserted) then None else err)).
Proof.
  intros Hh ctx Hp st r st' Hst (err & st1 & H1 & [= <- <-])%M_bind_Ret_inv. destruct (Hh ctx Hp _ _ _ Hst H1) as [Ha Hg].
  split; [done|]. intros Hr. apply Hg. destruct (errors_Is err _) eqn:E; [by right|by left].
Qed.

Abbreviation deleted_blank := (user_EventUserDeleted (mkUserDeleted uuid_Nil uuid_Nil)).
Abbreviation the_handler := (typed_handler (W := W) deleted_blank userDeleted_handler).

Lemma panicking_settles : handler_settles known (wrapWithPanicHandler the_handler).
Proof.
  intros ctx Hp [hp w] r [hp' w'] Hw Hrun. cbn [snd] in *. unfold wrapWithPanicHandler, recover, typed_handler, userDeleted_handler in Hrun.
  cbn [user_EventUserDeleted sm_reflectType sm_ID sm_AggregateID] in Hrun. rewrite String.eqb_refl in Hrun.
  replace (mkUserDeleted _ _) with evt in Hrun by by destruct evt.
  assert (∃ sp, at_most_once event_key holds evt sp w) as [sp Hsp].
  { destruct Hw as [[_ Hs]|(sp & Hs & _)]; [by exists s|exists sp; by left]. }
  destruct (HandleUserDeleted_once event_key holds valid ctx evt sp w Hp Hsp) as (err & w1 & H1 & _).
  unfold on_env in Hrun. rewrite H1 in Hrun. injection Hrun as <- <- <-. by apply (handle_settles ctx w).
Qed.

Lemma wrapped_settles o logger : handler_settles succeeded (wrapHandler
  [observability_mw o [FieldRequestID]; metrics_mw; logging_mw error_Error uuid_String uuid_New logger LevelInfo LevelError;
   λ handler ctx msg, err ← handler ctx msg; mret (if errors_Is err (Some ErrAlreadyInserted) then None else err)] the_handler).
Proof.
  unfold wrapHandler. cbn [foldr]. apply observability_settles, metrics_settles, logging_settles, ignoring_settles, panicking_settles.
Qed.

(** *** The loops of the listener *)

Lemma retry_settles ctx m : settles succeeded m → settles succeeded (Retry ctx m).
Proof.
  intros Hm st r st' Hst H.
  assert (∃ r', attempts m st (Ret r') st' ∧ (r = None → r' = None)) as (r' & Hat & Hr).
  { destruct r as [e|]; [apply retry_error in H as [e' H]; by exists (Some e')|apply retry_nil in H; by exists None]. }
  enough (acked_once st'.2 ∧ (r' = None → handled_once st'.2)) as [Ha Hh] by (split; [done|]; intros Hn; by apply Hh, Hr).
  clear H Hr r. remember (Ret r') as out eqn:Ho. induction Hat as [st out st' Hop|st e st1 out st' Hop _ _ IH]; subst; [by apply (Hm st)|].
  apply IH; [|done]. by apply (Hm _ _ _ Hst Hop).
Qed.

Lemma run_jobs_settles js first st r st' : Forall (settles succeeded) js → acked_once st.2 →
  (first = None → js ≠ [] ∨ handled_once st.2) → run_jobs js first st = (Ret r, st') → acked_once st'.2 ∧ (r = None → handled_once st'.2).
Proof.
  intros Hall. revert first st. induction Hall as [|j js Hj _ IH]; intros first st Hst Hf H.
  - injection H as <- <-. split; [done|]. intros Hn. by destruct (Hf Hn).
  - cbn [run_jobs] in H. apply M_bind_Ret_inv in H as (err & st1 & H1 & H2). destruct (Hj _ _ _ Hst H1) as [Ha Hg].
    eapply IH; [exact Ha| |exact H2]. destruct first as [e|]; [done|]. intros Hn. right. by apply Hg.
Qed.

Section listener.
Context (o : observer) (logger : Logger) (hs0 : gmap string (list (TypedHandler W))).
Abbreviation l := (NewListener hs0 (busListener_opts error_Error uuid_String o logger ++ [])).

Lemma acknowledge_stays ctx msgCtx msg r : stays (acknowledgeMessage l ctx msgCtx msg r).
Proof. intros sp. apply acknowledgeMessage_keeps. apply (listener_keeps error_Error uuid_String _ (HBK := once_beside sp)). Qed.

Lemma acknowledge_pending ctx msgCtx msg e : keeps pending (acknowledgeMessage l ctx msgCtx msg (Some e)).
Proof.
  apply retry_keeps. unfold acknowledge_once. apply keeps_bind; [apply ao_ctx_Err|]. intros cerr. case_match; [apply keeps_ret|].
  apply keeps_bind; [apply ao_failed|]. intros err. apply keeps_bind; [|intros; apply keeps_ret].
  change (OnAcknowledgeResult l) with [log_ack (W := W) error_Error uuid_String logger LevelError]. cbn [run_hooks].
  apply keeps_bind; [|intros; apply keeps_ret]. unfold log_ack. destruct err; [|apply keeps_ret].
  apply pending_log.
Qed.

Lemma jobs_settle ctx msgCtx m (hs : list (TypedHandler W)) : Forall (λ h : TypedHandler W, settles succeeded (h msgCtx m)) hs →
  Forall (settles succeeded) (job_order ((λ handler : TypedHandler W, Retry ctx (handler msgCtx m)) <$> hs)).
Proof. intros Hall. rewrite job_order_perm. apply Forall_fmap. eapply Forall_impl; [exact Hall|]. intros h. apply retry_settles. Qed.

(** A listener that is not stopped, on a queue that takes no failed result. *)
Definition insists : Prop := (∀ ctx w c w', ctx_Err ctx w ≠ (Ret (Some c), w')) ∧ no_nack (E := W).

Lemma nack_refused ctx msgCtx msg e w w' : insists → acknowledgeMessage l ctx msgCtx msg (Some e) w ≠ (Ret None, w').
Proof.
  intros [Hgo Hno] H. unfold acknowledgeMessage in H. apply retry_nil in H. remember (Ret None) as out eqn:Ho. induction H as [w out w' Hop|w er w1 out w' _ _ _ IH]; subst; [|by apply IH].
  unfold acknowledge_once in Hop. rename Hop into H. apply M_bind_Ret_inv in H as (cerr & w1 & Hc & H). destruct cerr as [c|]; [by eapply Hgo|].
  rewrite bool_decide_eq_true_2 in H by done. cbn [andb errors_Is] in H. apply M_bind_Ret_inv in H as (err & w2 & Ha & H).
  destruct err as [er|]; [|by eapply Hno]. apply M_bind_Ret_inv in H as (u & w3 & _ & H). unfold mret, M_ret in H. by case_match.
Qed.

(** Handling ends in a state where nothing is acknowledged for nothing; without a
    stop, in one where the event is handled. *)
Lemma handleLoop_ends fuel ctx msgCtx msg m (hs : list (TypedHandler W)) st r st' : hs ≠ [] →
  Forall (λ h : TypedHandler W, settles succeeded (h msgCtx m)) hs → acked_once st.2 →
  handleLoop l fuel ctx msgCtx msg m hs st = (Ret r, st') → acked_once st'.2 ∧ (insists → handled_once st'.2).
Proof.
  intros Hne Hall. assert (Hctx : keeps acked_once (ctx_Err ctx)).
  { apply stays_acked; [intros sp; apply keeps_at_most_once; intros sp'; by eapply bs_ctx_Err|by apply ao_ctx_Err]. }
  revert st. induction fuel as [|fuel IH]; intros [hp w] Hst H; [done|]. cbn [handleLoop] in H.
  apply M_bind_Ret_inv in H as (d & [hp0 w0] & [-> Hd]%on_env_inv & H). pose proof (Hctx _ _ _ Hst Hd) as Hst0.
  destruct d as [c|]; [injection H as <- <-; split; [done|]; intros [Hgo _]; by apply Hgo in Hd|].
  apply M_bind_Ret_inv in H as (herr & [hp1 w1] & H1 & H).
  apply run_jobs_settles in H1 as [Ha Hg]; [|by apply jobs_settle|done|].
  2: { intros _. left. intros Hnil. pose proof (job_order_perm ((λ handler : TypedHandler W, Retry ctx (handler msgCtx m)) <$> hs)) as Hperm.
    rewrite Hnil in Hperm. apply Permutation_nil_l, eq_sym, fmap_nil_inv in Hperm. done. }
  apply M_bind_Ret_inv in H as (u & st2 & Hu & H). cbn in Hu. unfold on_env in Hu. injection Hu as <- <-.
  apply M_bind_Ret_inv in H as (err & [hp2 w2] & [-> Hack]%on_env_inv & H). cbn [snd] in *.
  assert (acked_once w2 ∧ (insists → err = None → handled_once w2)) as [Ha2 Hg2].
  { destruct herr as [e|].
    - split; [refine (stays_acked _ _ _ _ _ _ Ha Hack); [apply acknowledge_stays|apply acknowledge_pending]|].
      intros Hin ->. by eapply nack_refused in Hack.
    - assert (handled_once w2) by (refine (stays_handled _ _ _ _ _ _ Hack); [apply acknowledge_stays|by apply Hg]). split; [by right|done]. }
  destruct err as [er|]; [exact (IH (hp1, w2) Ha2 H)|]. injection H as _ <-. split; [done|]. intros Hin. by apply Hg2.
Qed.
End listener.

(** *** Deliveries *)

(** The JSON of the event is read as it was written. *)
Definition event_json : Prop :=
  ∀ p, marshal_value (event_message event_Value (EventUserDeleted (de_EventID evt) (de_UserID evt))) = Ok p → Unmarshal p = Ok evt.
Abbreviation brings msg :=
  (carries uuid_String TopicDomainEventUser (event_message event_Value (EventUserDeleted (de_EventID evt) (de_UserID evt))) msg).

Lemma carried_decodes msg : event_json → brings msg →
  ∃ meta, Deserialize {["user.deleted" := PayloadDeserializerImpl Unmarshal]} (msg_Payload msg) = Ok (user_EventUserDeleted evt, meta).
Proof.
  intros Hjson (_ & _ & _ & meta & Hs). unfold Serialize in Hs. destruct (marshal_value _) as [p|e] eqn:Ep; [|done].
  destruct (marshal_envelope _) as [data|e] eqn:Ee; [|done]. injection Hs as ->.
  apply unmarshal_marshal in Ee as (meta2 & Ee & _). unfold Deserialize. rewrite Ee.
  change (jm_Type _) with "user.deleted". rewrite lookup_singleton_eq. cbn [jm_Payload jm_Meta].
  rewrite (proj1 (ValidString_spec p) (marshal_valid _ _ Ep)). unfold PayloadDeserializerImpl. rewrite (Hjson p Ep). by eexists.
Qed.

Section deliveries.
Context (o : observer) (logger : Logger).
Abbreviation registered := ({["user.deleted" := [the_handler]]} : gmap string (list (TypedHandler W))).
Abbreviation the_listener := (NewListener registered (busListener_opts error_Error uuid_String o logger ++ [])).
Abbreviation the_deserializer := ({["user.deleted" := PayloadDeserializerImpl Unmarshal]} : gmap string PayloadDeserializer).

Lemma before_acked ctx msg : plain ctx → ∀ w c w', acked_once w →
  before_handle (OnBeforeHandleMessage the_listener) ctx msg w = (Ret c, w') → plain c ∧ acked_once w'.
Proof.
  intros Hp w c w' Hw H. change (OnBeforeHandleMessage the_listener) with
    [λ (ctx : context) (_ : Message), id ← uuid_New; mret (logger_WithContext logger ctx [("consumerCorrelation", uuid_String id)]) : M W context] in H.
  cbn [before_handle] in H. apply M_bind_Ret_inv in H as (c1 & w1 & H1 & [= <- <-]).
  apply M_bind_Ret_inv in H1 as (id & w2 & H1 & [= <- <-]). split; [by apply plain_WithContext|].
  eapply side_uuid; [by left|exact Hw|exact H1].
Qed.

Lemma processMessage_ends fuel ctx msg st r st' : event_json → plain (cm_Context msg) → brings (cm_Message msg) → acked_once st.2 →
  processMessage the_listener the_deserializer fuel ctx msg st = (Ret r, st') → acked_once st'.2 ∧ (insists → handled_once st'.2).
Proof.
  intros Hjson Hp Hb. destruct (carried_decodes _ Hjson Hb) as [meta Hd]. unfold processMessage. rewrite Hd.
  change (sm_Type _) with "user.deleted". change (handlers the_listener) with ((λ hs : list (TypedHandler W), wrapHandler
    (ListenerMiddlewares the_listener) <$> hs) <$> registered). rewrite lookup_fmap, lookup_singleton_eq. cbn [fmap option_fmap option_map].
  destruct st as [hp w]. intros Hw (c & [hp1 w1] & [= <- <- <-] & H)%M_bind_Ret_inv.
  apply M_bind_Ret_inv in H as (c & [hp2 w2] & [-> H2]%on_env_inv & H).
  apply before_acked in H2 as [Hp2 Hw2]; [|by apply plain_msg_meta|done].
  refine (handleLoop_ends o logger registered fuel ctx c msg _ _ (_, w2) r st' _ _ Hw2 H); [by intros ?|].
  constructor; [|constructor]. by apply (wrapped_settles o logger).
Qed.

Lemma deliver_ends ms st r st' : event_json → Forall (λ '(_, _, msg), plain (cm_Context msg) ∧ brings (cm_Message msg)) ms → acked_once st.2 →
  deliver the_listener the_deserializer ms st = (Ret r, st') → acked_once st'.2 ∧ (insists → ms ≠ [] → handled_once st'.2).
Proof.
  intros Hjson Hms. revert st. induction Hms as [|[[fuel ctx] msg] ms [Hp Hb] _ IH]; intros st Hst H; [by injection H as _ <-|]. cbn [deliver] in H.
  apply M_bind_Ret_inv in H as (u & st1 & H1 & H). destruct (processMessage_ends _ _ _ _ _ _ Hjson Hp Hb Hst H1) as [Ha1 Hg1].
  destruct (IH _ Ha1 H) as [Ha Hg]. split; [done|]. intros Hin _. destruct ms; [injection H as _ <-; by apply Hg1|by apply Hg].
Qed.
End deliveries.

(** C1. Exactly once: after any number of deliveries of the event of a deleted
    user, and whatever failed in between - the user service, a statement, the
    commit, the acknowledgement itself -, if the listener of the user profile
    service has told the broker that such a message is handled then that user's
    profile is gone and the event's key recorded, as one transaction leaves
    them; where the key was recorded before, the profiles are as they were.  Until
    then the message is the broker's to deliver again - and on a queue that
    takes no failed result a listener that is not stopped does not let go of
    the message before that. *)
Theorem acknowledged_after_removal o logger w0 b w0' c d l ms hp w r hp' w'
    (Hreg : MustRegisterMessageHandlers error_Error Unmarshal get_consumer
       (messageBusListenerProvider (C := C) error_Error uuid_String o logger) w0 = (Ret b, w0'))
    (Hl : fst (Workers b) !! (SubscriberName, TopicDomainEventUser) = Some (c, d, l))
    (Hjson : event_json) (Hms : Forall (λ '(_, _, msg), plain (cm_Context msg) ∧ brings (cm_Message msg)) ms)
    (Hs : holds OnDB w s) (Hnot : acked w = false) (Hrun : deliver l d ms (hp, w) = (Ret r, (hp', w'))) :
  (acked w' = true ∨ insists ∧ ms ≠ []) → holds OnDB w' (if decide (key ∈ ps_keys s) then s else removed_by event_key evt s).
Proof.
  destruct (registered_listener error_Error uuid_String Unmarshal get_consumer o logger w0 b w0' Hreg) as (c' & Hopts & Hlis).
  unfold Workers in Hl. cbn [fst] in Hl. rewrite lookup_fmap, Hlis, lookup_singleton_eq in Hl.
  cbn [fmap option_fmap option_map] in Hl. unfold make_listener in Hl. cbn [ld_Consumer ld_Deserializer ld_Handlers ld_ExtraOpts] in Hl.
  rewrite Hopts in Hl. injection Hl as <- <- <-. intros Hend.
  assert (Hw : acked_once w) by (left; split; [done|by left]).
  destruct (deliver_ends o logger ms (hp, w) r (hp', w') Hjson Hms Hw Hrun) as [Ha Hg]. cbn [snd] in *.
  assert (handled_once w') as (sp & Hsp & Hk & Hor).
  { destruct Hend as [Hack|[Hin Hne]]; [|by apply Hg]. destruct Ha as [[Hn _]|Hh]; [by rewrite Hn in Hack|done]. }
  destruct (decide _) as [Hin|Hnin]; destruct Hor as [->|[Hn ->]]; done.
Qed.
End acknowledged.

(** ** Witness: a broker that notes what it is told, beside the server of profiles *)

(** A variable beside the database keeps its value. *)
Section kept.
Context {T W : Type} {HDB : DB W} (v : T).
Abbreviation at_v := (λ s : T * W, s.1 = v).

Lemma kept_on_env {A} (m : M W A) : keeps at_v (on_env m).
Proof. by intros [u w] a [u' w'] Hu [-> _]%on_env_inv. Qed.

Lemma kept_acquireLocks ctx tx locks : keeps at_v (@acquireLocks _ (DB_beside T W) ctx tx locks).
Proof.
  induction locks as [|l locks IH]; [apply keeps_ret|]. cbn [acquireLocks]. apply keeps_bind; [|intros; case_match; [apply keeps_ret|exact IH]].
  unfold withTransactionLevelLock. apply keeps_bind; [apply kept_on_env|]. intros; case_match; apply keeps_ret.
Qed.

Lemma kept_WithinContext (t : transaction (W := T * W)) ctx fn locks : t_onCommit t = None → (∀ ctx', keeps at_v (fn ctx')) →
  keeps at_v (@WithinContext _ (DB_beside T W) t ctx fn locks).
Proof.
  intros Ht Hfn. assert (Hrun : ∀ b tx ctx', keeps at_v (@runWithin _ (DB_beside T W) t b tx ctx' fn locks)).
  { intros b tx ctx'. unfold runWithin. rewrite Ht. pose proof (kept_acquireLocks ctx' tx (sort_locks locks)). pose proof (Hfn ctx').
    apply keeps_bind; [done|]. intros [e|]; [apply keeps_ret|]. apply keeps_bind; [done|]. intros [e|]; [apply keeps_ret|].
    destruct b; [apply keeps_ret|]. apply keeps_bind; [apply kept_on_env|]. intros [e|]; [apply keeps_ret|].
    apply keeps_bind; intros; apply keeps_ret. }
  unfold WithinContext. case_match; [apply Hrun|]. apply keeps_bind; [apply kept_on_env|]. intros [tx|e]; [|apply keeps_ret].
  intros w a w' Hw H0. unfold rollbackOnError in H0. destruct (runWithin _ _ _ _ _ _ w) as [[[e|]|msg| |] w1] eqn:E; [|by injection H0 as _ <-; eapply Hrun|done..].
  apply M_bind_Ret_inv in H0 as (u & w2 & H2 & [= _ <-]). eapply kept_on_env; [|exact H2]. by eapply Hrun.
Qed.
End kept.

(** The server of profiles, and whether the broker was told that a message is
    handled. *)
Abbreviation brokerServer := (bool * profileServer)%type.
Definition broker_queue : ListenerProcessingQueue brokerServer := {|
  ProcessingTokens _ := 1; AddProcessing _ w := (Ret None, w);
  AcknowledgeResult _ _ r '(told, w) := (Ret None, (match r with None => true | Some _ => told end, w)) |}.
Definition broker_log : LogSink brokerServer := λ _ _ _ w, (Ret tt, w).
Definition broker_metrics : Metrics brokerServer := λ _ _ w, (Ret tt, w).
Definition broker_duration : MetricsDuration brokerServer := λ _ _ _ w, (Ret tt, w).
Definition broker_clock : HasClock brokerServer := λ w, (Ret 1000%Z, w).
Definition broker_uuid : NewUUID brokerServer := λ w, (Ret 7%N, w).
Definition broker_ctx_Err : CtxErr brokerServer := λ _ w, (Ret None, w).
Definition broker_users : RemoteUserService brokerServer := λ ctx id, on_env (@remote_Get _ profile_users ctx id).
Definition broker_DB : DB brokerServer := @DB_beside bool profileServer profiles_DB.
Definition broker_tx : transaction (W := brokerServer) := mkTransaction "profile" None.
Abbreviation broker_idk := (@ServiceImpl _ (@IdempotencyKeyStorage _ broker_DB sample_sha1)).
Abbreviation broker_transactions := (@sql_Transaction _ broker_DB broker_tx).
Abbreviation broker_holds := (profiles_view (sv_committed ∘ snd) (sv_working ∘ snd) fst snd : target → brokerServer → profiles → Prop).

Lemma profiles_DriverErrors x : @DriverErrors profileServer profiles_DB x.
Proof.
  split.
  - intros t ctx q w r w' Hrun. cbn in Hrun. destruct q; [..|by injection Hrun as <- _];
      unfold sv_run in Hrun; (destruct (sv_at t w); [|by simplify_eq]);
      unfold pair_exec, exec_rows in Hrun; repeat case_match; by simplify_eq.
  - by intros c ctx w e w' [=].
  - intros t w e w' Hrun. cbn in Hrun. by case_match; simplify_eq.
Qed.

Lemma broker_ProfileStore : @ProfileStore brokerServer twoTables broker_DB broker_users (sv_committed ∘ snd) (sv_working ∘ snd) fst snd.
Proof. exact (@beside_ProfileStore bool profileServer twoTables profiles_DB profile_users sv_committed sv_working fst snd profile_server_store). Qed.

(** What its user service says. *)
Definition broker_says (id : uuid) (r : result UserInfo) : Prop := id = 5%N → r = Ok (mkUserInfo 5 (Some 10%Z)).
Lemma broker_profiles : @ProfilesSpec brokerServer broker_users (@userProfileRepository _ broker_DB) broker_idk (event_key sample_sha1)
  broker_holds broker_says.
Proof.
  split; [exact (@profile_store_over_sql _ _ broker_DB broker_users sample_sha1 _ _ fst snd broker_ProfileStore)|].
  intros ctx id [told w] s Hs. eexists _, (told, w). split; [reflexivity|]. split; [done|]. by intros ->.
Qed.

Lemma broker_TxSpec : @TxSpec brokerServer twoTables broker_DB (sv_committed ∘ snd) (sv_working ∘ snd).
Proof. exact (@beside_TxSpec bool profileServer twoTables profiles_DB sv_committed sv_working (server_TxSpec _ _ _)). Qed.

Lemma broker_beside : @Beside brokerServer broker_ctx_Err broker_queue broker_log broker_metrics broker_duration broker_clock broker_uuid broker_holds.
Proof. split; intros; intros [told w] a [told' w'] Hw [= _ <- <-]; exact Hw. Qed.

Lemma broker_observed : @AckObserved brokerServer broker_ctx_Err broker_queue broker_log broker_metrics broker_duration broker_clock broker_uuid
  broker_users (@userProfileRepository _ broker_DB) broker_idk broker_transactions fst.
Proof.
  split; try (intros; intros [told w] a [told' w'] Hw [= _ <- <-]; exact Hw).
  - intros ctx key extra. cbn. unfold ServiceImpl_Insert. cbn. unfold IdempotencyKeyStorage_Insert. cbn.
    apply keeps_bind; [intros w a w'; apply (kept_on_env (W := profileServer) false)|intros; apply keeps_ret].
  - intros ctx id. cbn. unfold profileRepository_DeleteByID. cbn.
    apply keeps_bind; [intros w a w'; apply (kept_on_env (W := profileServer) false)|intros; apply keeps_ret].
  - intros ctx fn locks Hfn. by apply kept_WithinContext.
Qed.

Abbreviation broker_register := (@MustRegisterMessageHandlers unit brokerServer plain_kebab broker_users (@userProfileRepository _ broker_DB)
  broker_idk broker_transactions (λ _, "") struct_Unmarshal (λ _ _, mret (Ok tt))).
Abbreviation broker_provider := (@messageBusListenerProvider unit brokerServer broker_log broker_metrics broker_duration broker_clock broker_uuid
  (λ _, "") sample_uuid_String sample_observer (SlogLogger LevelInfo [])).
Definition untold : brokerServer := (false, mkServer unhandled_rows ∅).
(** The listener as it is registered. *)
Definition broker_bus : busListener unit brokerServer :=
  match broker_register broker_provider untold with (Ret b, _) => b | _ => broker_provider end.
Definition broker_worker : unit * gmap string PayloadDeserializer * ListenerImpl brokerServer :=
  default (tt, ∅, NewListener ∅ []) (fst (Workers broker_bus) !! (@SubscriberName plain_kebab, @TopicDomainEventUser plain_kebab)).
Lemma broker_registered : broker_register broker_provider untold = (Ret broker_bus, untold).
Proof. reflexivity. Qed.
Lemma broker_working : fst (Workers broker_bus) !! (@SubscriberName plain_kebab, @TopicDomainEventUser plain_kebab) =
  Some (tt, snd (fst broker_worker), snd broker_worker).
Proof. reflexivity. Qed.
(** Two deliveries of the event of user 5. *)
Definition told : outcome unit * (list HandlerMetadata * brokerServer) :=
  @deliver brokerServer bitsJSON fifo broker_ctx_Err broker_queue (stopBackOff _) (stopBackOff _) (snd broker_worker) (snd (fst broker_worker))
    deliveries ([], untold).

Lemma acknowledged_after_removal_witness :
  ∃ hp' w', told = (Ret tt, (hp', (true, w'))) ∧ fst (sv_committed w') = [].
Proof.
  exists (fst (snd told)), (snd (snd (snd told))). split; [vm_compute; reflexivity|].
  pose proof (@sql_transaction_implements brokerServer twoTables profiles broker_DB _ _ broker_TxSpec
    (stores_profiles fst snd) broker_tx ltac:(by intros f w Hf)) as HT.
  pose proof (@acknowledged_after_removal unit brokerServer bitsJSON bitsJSON_laws plain_kebab fifo broker_ctx_Err broker_queue
    (stopBackOff _) (stopBackOff _) (stopBackOff_laws _) (stopBackOff_laws _) broker_log broker_metrics broker_duration broker_clock broker_uuid
    broker_users (@userProfileRepository _ broker_DB) broker_idk broker_transactions (event_key sample_sha1) broker_holds broker_says
    broker_profiles HT broker_beside
    (@profile_errors_over_sql _ _ broker_DB broker_users sample_sha1 _ _ fst snd broker_ProfileStore
      (@beside_DriverErrors bool profileServer profiles_DB _ (profiles_DriverErrors _)))
    (@sql_transaction_errors brokerServer twoTables profiles broker_DB _ _ broker_TxSpec (stores_profiles fst snd) _
      (@beside_DriverErrors bool profileServer profiles_DB _ (profiles_DriverErrors _)) broker_tx)
    (λ _, "") sample_uuid_String struct_Value struct_Unmarshal (λ _ _, mret (Ok tt)) fst broker_observed deleted_5 unhandled_state
    ltac:(by intros r Hr; rewrite (Hr eq_refl)) sample_observer (SlogLogger LevelInfo []) untold broker_bus untold tt (snd (fst broker_worker))
    (snd broker_worker) deliveries [] untold tt (fst (snd told)) (snd (snd told)) broker_registered broker_working) as Hthm.
  refine (proj1 (Hthm _ _ unhandled_stored eq_refl _ (or_introl _))).
  - intros p [_ ->]%bits_value. unfold struct_Unmarshal. cbn [event_message sm_Value]. unfold struct_Value. rewrite bits_pos_bits, decode_encode. reflexivity.
  - repeat constructor; exists ∅; reflexivity.
  - vm_compute. reflexivity.
  - vm_compute. reflexivity.
Defined.
