(* ===== verification/Services.v ===== *)
(** The two services together: the requests their servers answer, and the
    deliveries of the user service's events, all of them overlapping; what
    holds of users and profiles in every state they reach. *)
From stdpp Require Import gmultiset.
From S2P Require Import Prelude GoStrings Context Message Queue Parsing Database Http HttpParser HttpServer Sql Persistence Idk Bus Lazy Listener User UserHandlers UserRepo EventOutbox UserProfile Table UserProfileSql EventDelivery Container UserRoutes SignIn ProfileRoutes RemoteUsers.

(** ** The system, one change at a time

    What the two services share, and what is under way: the users whom updates
    were told to be active and whose profile they did not store yet, one entry
    per update; and the users whose profile such an update stored after they
    were deleted. *)
Record system := mkSystem {
  sy_users : userState;
  sy_profiles : profiles;
  sy_asked : gmultiset uuid;
  sy_late : gset uuid;
}.
Definition with_users (su : userState) (s : system) : system := mkSystem su (sy_profiles s) (sy_asked s) (sy_late s).
Definition on_profiles (f : profiles → profiles) (s : system) : system := mkSystem (sy_users s) (f (sy_profiles s)) (sy_asked s) (sy_late s).
Definition asks (id : uuid) (s : system) : system := mkSystem (sy_users s) (sy_profiles s) (sy_asked s ⊎ {[+ id +]}) (sy_late s).
Definition answered (id : uuid) (s : system) : system := mkSystem (sy_users s) (sy_profiles s) (sy_asked s ∖ {[+ id +]}) (sy_late s).

(** The user is there and not deleted. *)
Definition is_active (id : uuid) (su : userState) : Prop := Exists (λ u, u_ID u = id ∧ u_DeletedAt u = None) (us_users su).
#[export] Instance is_active_dec id su : Decision (is_active id su).
Proof. unfold is_active. apply _. Defined.

(** The profile is stored; late, when the user is no longer active. *)
Definition stores (p : UserProfile) (s : system) : system :=
  mkSystem (sy_users s) (with_profiles (upsert_profile p) (sy_profiles s)) (sy_asked s ∖ {[+ up_ID p +]})
    (if decide (is_active (up_ID p) (sy_users s)) then sy_late s else {[up_ID p]} ∪ sy_late s).

Section system.
Context (event_key : uuid → uuid).

(** A change: a transaction of the user service; an answer of the user service
    to an update of a profile, the storing of that profile, or its failure;
    the transaction that handles a dispatched event. *)
Inductive sys_step (s : system) : system → Prop :=
  | UsersChange su : user_change (sy_users s) su → sys_step s (with_users su s)
  | Answered id : is_active id (sy_users s) → sys_step s (asks id s)
  | Stored p : up_ID p ∈ sy_asked s → sys_step s (stores p s)
  | NotStored id : id ∈ sy_asked s → sys_step s (answered id s)
  | Handled ev id : EventUserDeleted ev id ∈ us_events (sy_users s) → event_key ev ∉ ps_keys (sy_profiles s) →
      sys_step s (on_profiles (removed_by event_key (mkUserDeleted ev id)) s).
Abbreviation sys_steps := (rtc sys_step).

(** What is under way elsewhere changes nothing of a step. *)
Lemma sys_step_asks id s s' : sys_step s s' → sys_step (asks id s) (asks id s').
Proof.
  intros [su Hsu|i Hi|p Hp|i Hi|ev i Hev Hk].
  - exact (UsersChange (asks id s) su Hsu).
  - replace (asks id (asks i s)) with (asks i (asks id s)) by (unfold asks; cbn; f_equal; multiset_solver). by apply Answered.
  - replace (asks id (stores p s)) with (stores p (asks id s)) by (unfold asks, stores; cbn in *; f_equal; multiset_solver).
    apply Stored. cbn. multiset_solver.
  - replace (asks id (answered i s)) with (answered i (asks id s)) by (unfold asks, answered; cbn in *; f_equal; multiset_solver).
    apply NotStored. cbn. multiset_solver.
  - exact (Handled (asks id s) ev i Hev Hk).
Qed.
Lemma sys_steps_asks id s s' : sys_steps s s' → sys_steps (asks id s) (asks id s').
Proof. intros H. induction H as [|s s1 s' Hs _ IH]; [done|]. eapply rtc_l; [by apply sys_step_asks|done]. Qed.

(** ** Users and profiles that go together *)

(** The event of the user is dispatched and not handled yet. *)
Definition awaited (s : system) (id : uuid) : Prop :=
  ∃ ev, EventUserDeleted ev id ∈ us_events (sy_users s) ∧ event_key ev ∉ ps_keys (sy_profiles s).
(** Two events with one idempotency key, a collision of SHA-1: the second to be
    handled is taken for the first. *)
Definition keys_collide (su : userState) : Prop :=
  ∃ e1 e2, e1 ∈ us_events su ∧ e2 ∈ us_events su ∧ ev_ID e1 ≠ ev_ID e2 ∧ event_key (ev_ID e1) = event_key (ev_ID e2).

(** Events are of deleted users, each of its own; keys are of events; a profile
    is of an active user, or of one whose deletion is not handled yet, or it
    was stored late, or keys collide. *)
Record consistent (s : system) : Prop := mkConsistent {
  cs_users : users_distinct (us_users (sy_users s));
  cs_events e : e ∈ us_events (sy_users s) →
    ∃ ev id u, e = EventUserDeleted ev id ∧ u ∈ us_users (sy_users s) ∧ u_ID u = id ∧ u_DeletedAt u ≠ None;
  cs_once : NoDup (ev_ID <$> us_events (sy_users s));
  cs_keys k : k ∈ ps_keys (sy_profiles s) → ∃ e, e ∈ us_events (sy_users s) ∧ k = event_key (ev_ID e);
  cs_asked id : id ∈ sy_asked s → id ∈ u_ID <$> us_users (sy_users s);
  cs_late id : id ∈ sy_late s → ∃ u, u ∈ us_users (sy_users s) ∧ u_ID u = id ∧ u_DeletedAt u ≠ None;
  cs_profiles p : p ∈ ps_profiles (sy_profiles s) → ∃ u, u ∈ us_users (sy_users s) ∧ u_ID u = up_ID p ∧
    (u_DeletedAt u = None ∨ awaited s (up_ID p) ∨ up_ID p ∈ sy_late s ∨ keys_collide (sy_users s));
}.

Lemma consistent_empty : consistent (mkSystem (mkUserState [] []) (mkProfiles [] ∅) ∅ ∅).
Proof.
  split; cbn; [by split; constructor|by intros ? ?%elem_of_nil|constructor|set_solver|multiset_solver|set_solver|by intros ? ?%elem_of_nil].
Qed.

Lemma event_unique su ev id id' : NoDup (ev_ID <$> us_events su) →
  EventUserDeleted ev id ∈ us_events su → EventUserDeleted ev id' ∈ us_events su → id = id'.
Proof.
  intros Hd [i Hi]%list_elem_of_lookup [j Hj]%list_elem_of_lookup.
  assert (i = j) as ->; [|rewrite Hi in Hj; by injection Hj].
  eapply (NoDup_lookup _ i j ev); [exact Hd|..]; rewrite list_lookup_fmap; [by rewrite Hi|by rewrite Hj].
Qed.

Lemma keys_collide_more su su' : us_events su ⊆ us_events su' → keys_collide su → keys_collide su'.
Proof. intros Hsub (e1 & e2 & H1 & H2 & H). exists e1, e2. split; [by apply Hsub|]. split; [by apply Hsub|done]. Qed.

Lemma consistent_registered s su id login hash : consistent s → registered id login hash (sy_users s) su → consistent (with_users su s).
Proof.
  intros [Hd He Ho Hk Ha Hl Hp] (Hev & Hd' & u & _ & _ & Hor).
  assert (Hsub : us_users (sy_users s) ⊆ us_users su) by (destruct Hor as [->|[-> _]]; [done|by intros x Hx; apply elem_of_app; left]).
  split; cbn [sy_users sy_profiles sy_asked sy_late with_users]; rewrite ?Hev; [done| |done|done|..].
  - intros e Hin. destruct (He e Hin) as (ev & i & v & -> & Hv & Hi & Hdel). exists ev, i, v. split_and!; try done. by apply Hsub.
  - intros i (v & -> & Hv)%Ha%list_elem_of_fmap. by apply list_elem_of_fmap_2, Hsub.
  - intros i (v & Hv & H)%Hl. exists v. split; [by apply Hsub|done].
  - intros p Hin. destruct (Hp p Hin) as (v & Hv & Hi & Hor'). exists v. split; [by apply Hsub|]. split; [done|].
    unfold awaited, keys_collide in *. cbn. by rewrite Hev.
Qed.

Lemma consistent_removed s su id : consistent s → user_removed id (sy_users s) su → consistent (with_users su s).
Proof.
  intros [Hd He Ho Hk Ha Hl Hp] [[-> _]|(u & now & ev & Hu & Hid & Hact & Hfresh & Hev & Hd' & Hin)]; [by split|].
  assert (Hsub : us_events (sy_users s) ⊆ us_events su) by (rewrite Hev; intros e Hein; apply elem_of_app; by left).
  assert (Hmoved : ∀ v, v ∈ us_users (sy_users s) → ∃ v', v' ∈ us_users su ∧ u_ID v' = u_ID v ∧ (u_DeletedAt v ≠ None → u_DeletedAt v' ≠ None) ∧
    (u_ID v ≠ id → v' = v)).
  { intros v Hv. destruct (decide (u_ID v = id)) as [Hvid|Hne].
    - eexists. split; [apply Hin; by left|]. by split_and!.
    - exists v. split; [apply Hin; by right|]. done. }
  split; cbn [sy_users sy_profiles sy_asked sy_late with_users]; [done|..].
  - rewrite Hev. intros e [Hein| ->%list_elem_of_singleton]%elem_of_app.
    + destruct (He e Hein) as (ev' & i & v & -> & Hv & Hi & Hdel). destruct (Hmoved v Hv) as (v' & Hv' & Hi' & Hdel' & _).
      exists ev', i, v'. split_and!; [done..|congruence|by apply Hdel'].
    + eexists ev, id, _. split; [done|]. split; [apply Hin; by left|]. done.
  - rewrite Hev, fmap_app. apply NoDup_app. split_and!; [done| |apply NoDup_singleton]. by intros x Hx ->%list_elem_of_singleton.
  - intros k Hk'. destruct (Hk k Hk') as (e & Hein & ->). exists e. split; [by apply Hsub|done].
  - intros i (v & -> & Hv)%Ha%list_elem_of_fmap. destruct (Hmoved v Hv) as (v' & Hv' & <- & _). by apply list_elem_of_fmap_2.
  - intros i (v & Hv & <- & Hdel)%Hl. destruct (Hmoved v Hv) as (v' & Hv' & Hi' & Hdel' & _). exists v'. split; [done|]. split; [done|by apply Hdel'].
  - intros p Hpin. destruct (Hp p Hpin) as (v & Hv & Hi & Hor). destruct (Hmoved v Hv) as (v' & Hv' & Hi' & _ & Hsame).
    exists v'. split; [done|]. split; [congruence|]. destruct (decide (u_ID v = id)) as [Hvid|Hne].
    + right. destruct (decide (event_key ev ∈ ps_keys (sy_profiles s))) as [Hkin|Hnk].
      * right. right. destruct (Hk _ Hkin) as (e & Hein & Heq). exists (EventUserDeleted ev id), e.
        split; [rewrite Hev; apply elem_of_app; right; by left|]. split; [by apply Hsub|]. split; [|done].
        intros Heq'. apply Hfresh. cbn in Heq'. rewrite Heq'. by apply list_elem_of_fmap_2.
      * left. exists ev. split; [|done]. cbn. rewrite Hev. apply elem_of_app; right. apply list_elem_of_singleton; congruence.
    + rewrite (Hsame Hne). destruct Hor as [Hor|[(ev' & Hev' & Hnk)|[Hor|Hor]]]; [by left|right..].
      * left. exists ev'. split; [by apply Hsub|done].
      * right. by left.
      * right. right. by apply (keys_collide_more (sy_users s)).
Qed.

Lemma consistent_stored s p : consistent s → up_ID p ∈ sy_asked s → consistent (stores p s).
Proof.
  intros [Hd He Ho Hk Ha Hl Hp] Hin. split; cbn [sy_users sy_profiles sy_asked sy_late stores]; [done..| | |].
  - intros i Hi. apply Ha. multiset_solver.
  - intros i Hi. case_decide as Hact; [by apply Hl|]. apply elem_of_union in Hi as [->%elem_of_singleton|Hi]; [|by apply Hl].
    apply Ha, list_elem_of_fmap in Hin as (u & Hid & Hu). exists u. split; [done|]. split; [done|]. intros Hdel. apply Hact.
    apply Exists_exists. by exists u.
  - intros q Hq. destruct (decide (up_ID q = up_ID p)) as [Heq|Hne].
    + apply Ha, list_elem_of_fmap in Hin as (u & Hid & Hu). case_decide as Hact.
      * apply Exists_exists in Hact as (v & Hv & Hvid & Hact). exists v. split; [done|]. split; [congruence|by left].
      * exists u. split; [done|]. split; [congruence|]. right. right. left. set_solver.
    + assert (Hold : q ∈ ps_profiles (sy_profiles s)).
      { cbn in Hq. unfold upsert_profile in Hq. case_bool_decide.
        - apply list_elem_of_fmap in Hq as (x & -> & Hx). case_bool_decide; done.
        - apply elem_of_app in Hq as [Hq| ->%list_elem_of_singleton]; done. }
      destruct (Hp q Hold) as (u & Hu & Hid & Hor). exists u. split; [done|]. split; [done|].
      destruct Hor as [Hor|[Hor|[Hor|Hor]]]; [by left|right; by left|right; right; left|by do 3 right]. case_decide; set_solver.
Qed.

Lemma consistent_handled s ev id : consistent s → EventUserDeleted ev id ∈ us_events (sy_users s) →
  consistent (on_profiles (removed_by event_key (mkUserDeleted ev id)) s).
Proof.
  intros [Hd He Ho Hk Ha Hl Hp] Hin. split; cbn [sy_users sy_profiles sy_asked sy_late on_profiles]; [done..| | | |]; [|done..|].
  - intros k [->%elem_of_singleton|Hk']%elem_of_union; [by exists (EventUserDeleted ev id)|by apply Hk].
  - intros p [Hne Hpin]%list_elem_of_filter. destruct (Hp p Hpin) as (u & Hu & Hid & Hor). exists u. split; [done|]. split; [done|].
    destruct Hor as [Hor|[(ev' & Hev' & Hnk)|Hor]]; [by left| |by do 2 right]. right.
    destruct (decide (event_key ev' = event_key ev)) as [Heq|Hneq].
    + destruct (decide (ev' = ev)) as [->|Hevs]; [destruct Hne; by eapply (event_unique (sy_users s))|].
      right. right. by exists (EventUserDeleted ev' (up_ID p)), (EventUserDeleted ev id).
    + left. exists ev'. split; [done|]. by intros [?%elem_of_singleton|Hin']%elem_of_union.
Qed.

Lemma sys_step_consistent s s' : consistent s → sys_step s s' → consistent s'.
Proof.
  intros Hc [su [->|[(id & login & hash & Hr)|[id Hr]]]|id Hact|p Hp|id Hid|ev id Hev _].
  - by destruct Hc.
  - by eapply consistent_registered.
  - by eapply consistent_removed.
  - destruct Hc as [Hd He Ho Hk Ha Hl Hp]. split; try done. intros i Hi. cbn in Hi. apply gmultiset_elem_of_disj_union in Hi as [Hi| ->%gmultiset_elem_of_singleton].
    + by apply Ha.
    + apply Exists_exists in Hact as (u & Hu & <- & _). by apply list_elem_of_fmap_2.
  - by apply consistent_stored.
  - destruct Hc as [Hd He Ho Hk Ha Hl Hp]. split; try done. intros i Hi. cbn in Hi. apply Ha. multiset_solver.
  - by apply consistent_handled.
Qed.
Lemma sys_steps_consistent s s' : consistent s → sys_steps s s' → consistent s'.
Proof. intros Hc Hs. induction Hs as [|s s1 s' Hst _ IH]; [done|]. by eapply IH, sys_step_consistent. Qed.

(** Once every event is handled, the profiles are of active users, but for the
    late ones. *)
Lemma consistent_drained s : consistent s → ¬ keys_collide (sy_users s) →
  (∀ e, e ∈ us_events (sy_users s) → event_key (ev_ID e) ∈ ps_keys (sy_profiles s)) →
  ∀ p, p ∈ ps_profiles (sy_profiles s) → is_active (up_ID p) (sy_users s) ∨ up_ID p ∈ sy_late s.
Proof.
  intros Hc Hno Hall p Hin. destruct (cs_profiles _ Hc p Hin) as (u & Hu & Hid & [Hact|[(ev & Hev & Hnk)|[Hlate|Hcol]]]); [|..|by right|done].
  - left. apply Exists_exists. by exists u.
  - destruct Hnk. by apply (Hall _ Hev).
Qed.

(** Events stay dispatched. *)
Lemma sys_step_events s s' : sys_step s s' → us_events (sy_users s) ⊆ us_events (sy_users s').
Proof.
  intros [su [->|[(id & login & hash & Hev & _)|[id [[-> _]|(u & now & ev & _ & _ & _ & _ & Hev & _)]]]]|id Hact|p Hp|id Hid|ev id Hev _]; try done; cbn.
  - by rewrite Hev.
  - rewrite Hev. intros e He. apply elem_of_app. by left.
Qed.
Lemma sys_steps_events s s' : sys_steps s s' → us_events (sy_users s) ⊆ us_events (sy_users s').
Proof. intros Hs. induction Hs as [|s s1 s' Hst _ IH]; [done|]. etrans; [by apply sys_step_events|done]. Qed.
End system.

(** ** The services

    What others do before a call of the user service reaches it, and while its
    answer is on the way back. *)
Definition amid {W} (before : M W unit) (R : RemoteUserService W) (after : M W unit) : RemoteUserService W := λ ctx id,
  _ ← before; r ← @remote_Get W R ctx id; _ ← after; mret r.

Section services.
(* the user service *)
Context {U : Type} {HPL : ParseLib} {HUL : UnicodeLatin} {HUC : UnicodeCase}.
Context {HLU : LogSink U} {HMU : Metrics U} {HDU : MetricsDuration U} {HCU : HasClock U} {HNU : NewUUID U}.
Context {HRU : UserRepository U} {HTU : Transaction U} {HPU : PasswordEncoder} {HTC : TokenCodec} {HUE : UserEncodings}.
Context (user_Error : error → string) (user_uuid : uuid → string) (user_int : Z → string).
Context (user_CORS : HttpHandler (W := U) → HttpHandler (W := U)) (Huser_cors : only_sets_headers user_CORS).
Context (users : target → U → userState → Prop) {HRS : UserRepositorySpec users} {HTS : TransactionSpec users} {HQS : QuietSpec users}.
Context {HPEL : PasswordEncoderLaws} {HTL : TokenCodecLaws} {HIU : InfraBeside (users_seen users)}.
Context (Hcookie : ∀ t, cookie_String (NewUserSessionCookie t) ≠ "").
Context (user_o : observer) (user_logger : Logger) (user_address : string).
Abbreviation users_server := (@user_MustRegisterHTTPHandlers U HPL HUL HUC HUE userService authenticationService
  (httpServer user_Error user_uuid user_int user_CORS user_o user_logger user_address)).

(* the profile service, its client of the user service, and its listener *)
Context {C W : Type} {HLW : LogSink W} {HMW : Metrics W} {HDW : MetricsDuration W} {HCW : HasClock W} {HNW : NewUUID W}.
Context {HRP : UserProfileRepository W} {HI : IdkService W} {HTP : Transaction W} {HPE : UserProfileEncodings}.
Context {HJ : MessageJSON} {HJL : MessageJSONLaws} {HK : Kebab} {HO : JobOrder} {HCE : CtxErr W} {HQ : ListenerProcessingQueue W}.
Context {HB1 : Backoff (list HandlerMetadata * W)} {HB2 : Backoff W} {HBL1 : BackoffLaws (list HandlerMetadata * W)} {HBL2 : BackoffLaws W}.
Context (error_Error : error → string) (uuid_String : uuid → string) (show_int : Z → string).
Context (CORS : HttpHandler (W := W) → HttpHandler (W := W)) (Hcors : only_sets_headers CORS).
Context (o : observer) (logger : Logger) (address : string).
Context (users_of : W → U) (profiles_at : target → W → profiles → Prop).
Context (resty_Send : ClientImpl W → restyRequest → M W (result restyResponse)) (uuid_Text : uuid → string).
Context (Decode_UserOut : string → result UserInfo) (client : ClientImpl W).
Context {HN : UserNetwork user_Error user_uuid user_int user_CORS user_o user_logger user_address users_of profiles_at
  resty_Send uuid_Text Decode_UserOut client}.
Context (Hservice : client_header client HeaderAuthServiceName = userprofile_ServiceName)
  (Hnobody : client_header client HeaderAuthUserID = "" ∧ client_header client HeaderAuthAdminUserID = "")
  (Hmws : ResponseMWs (client_core client) = []).
Abbreviation remote := (remoteUsers resty_Send uuid_Text Decode_UserOut client).
Abbreviation profiles_server R := (@userprofile_MustRegisterHTTPHandlers W HPL HUL HUC HPE (@userProfileService W R HRP)
  (httpServer error_Error uuid_String show_int CORS o logger address)).

(* the profile service minds its own business *)
Context (event_key : uuid → uuid).
Abbreviation both su := (beside_users users users_of profiles_at su).
Context {HPS : ∀ su, ProfileStoreSpec event_key (both su)} {HTPS : ∀ su, TransactionSpec (both su)}.
Context {HIP : ∀ su, InfraBeside (profiles_seen (both su))} {HBS : ∀ su, Beside (both su)}.

(* the JSON of an event is read as it was written *)
Context (event_Value : event → string) (Unmarshal : string → result UserDeleted) (get_consumer : Topic → Subscriber → M W (result C)).
Context (Hjson : ∀ ev id p, marshal_value (event_message event_Value (EventUserDeleted ev id)) = Ok p → Unmarshal p = Ok (mkUserDeleted ev id)).

(** The users and the profiles are those of the system. *)
Definition seen (w : W) (s : system) : Prop := both (sy_users s) OnDB w (sy_profiles s).
Abbreviation sys_steps := (rtc (sys_step event_key)).

(** What others do while a request or a delivery waits for the user service:
    whatever it is, it moves the system on. *)
Definition moves (m : M W unit) : Prop := ∀ w s, seen w s → ∃ w' s', m w = (Ret tt, w') ∧ seen w' s' ∧ sys_steps s s'.

(** The listener of the profile service, as it is registered, over a client. *)
Definition listens (R : RemoteUserService W) (d : gmap string PayloadDeserializer) (l : ListenerImpl W) : Prop :=
  ∃ w0 b w0' c, @MustRegisterMessageHandlers C W HK R HRP HI HTP error_Error Unmarshal get_consumer
      (messageBusListenerProvider (C := C) error_Error uuid_String o logger) w0 = (Ret b, w0') ∧
    fst (Workers b) !! (SubscriberName, TopicDomainEventUser) = Some (c, d, l).

(** One of the services at work, with others at work while it waits: a request
    to the user service, which the profiles do not see; a request to the
    profile service, which asks the user service over the network; deliveries,
    however many, of an event that the user service has dispatched. *)
Inductive acts (w w' : W) : Prop :=
  | UserRequest rt r st st' :
      rt ∈ router_Routes (srv_Router users_server) → plain (r_Context r) → unanswered st →
      serve_route users_server rt ServerWriter r (st, users_of w) = (Ret tt, (st', users_of w')) →
      quiet profiles_at w w' → acts w w'
  | ProfileRequest before after rt r st st' : moves before → moves after →
      rt ∈ router_Routes (srv_Router (profiles_server (amid before remote after))) → plain (r_Context r) → unanswered st →
      serve_route (profiles_server (amid before remote after)) rt ServerWriter r (st, w) = (Ret tt, (st', w')) → acts w w'
  | Delivery before after d l ev id ms hp hp' : moves before → moves after → listens (amid before remote after) d l →
      (∀ su, users_seen users (users_of w) su → EventUserDeleted ev id ∈ us_events su) →
      Forall (λ '(_, _, msg), plain (cm_Context msg) ∧
        carries uuid_String TopicDomainEventUser (event_message event_Value (EventUserDeleted ev id)) (cm_Message msg)) ms →
      deliver l d ms (hp, w) = (Ret tt, (hp', w')) → acts w w'.

(** *** Each moves the system on *)

Lemma HP su : @ProfilesSpec W remote HRP HI event_key (both su) (says su).
Proof.
  exact (remote_implements user_Error user_uuid user_int user_CORS Huser_cors users user_o user_logger user_address
    users_of profiles_at resty_Send uuid_Text Decode_UserOut client Hservice Hnobody Hmws event_key su (HPS su)).
Qed.

(** A call of the user service is answered from the users as they are at some
    moment of it. *)
Definition answers (R : RemoteUserService W) : Prop := ∀ ctx id w s, seen w s → ∃ r w' s1 s',
  @remote_Get W R ctx id w = (Ret r, w') ∧ seen w' s' ∧ sys_steps s s1 ∧ says (sy_users s1) id r ∧ sys_steps s1 s'.

Lemma amid_answers before after : moves before → moves after → answers (amid before remote after).
Proof.
  intros Hb Ha ctx id w s Hs. destruct (Hb w s Hs) as (w1 & s1 & H1 & [Hp1 Hu1] & Hs1).
  destruct (remote_get_spec user_Error user_uuid user_int user_CORS Huser_cors users user_o user_logger user_address
    users_of profiles_at resty_Send uuid_Text Decode_UserOut client Hservice Hnobody Hmws ctx id w1 (sy_users s1) Hu1) as (r & w2 & H2 & Hq & Hu2 & Hr).
  destruct (Ha w2 s1) as (w3 & s3 & H3 & Hs3 & Hst3); [split; [by apply Hq|done]|].
  exists r, w3, s1, s3. split; [|done]. unfold amid, remote_Get. rewrite (M_bind_Ret _ _ _ _ _ H1).
  unfold remote_Get in H2. rewrite (M_bind_Ret _ _ _ _ _ H2). by rewrite (M_bind_Ret _ _ _ _ _ H3).
Qed.

Lemma says_active su id u : says su id (Ok u) → ui_DeletedAt u = None → is_active id su.
Proof. intros (v & Hv & Hid & ->) Hd. apply Exists_exists. by exists v. Qed.

Section interfered.
Context (R : RemoteUserService W) (HR : answers R).

Lemma update_moves : updates (HUP := @userProfileService W R HRP) seen (λ _ _ s _ s', sys_steps s s').
Proof.
  intros p ctx data w s Hp _ Hs. destruct (plain_route ctx Hp) as [Hroute _]. cbn [ups_Update userProfileService]. unfold userprofile_Update.
  destruct (permission_Check _ _); [by eexists _, w, s|]. destruct (_ || _); [by eexists _, w, s|].
  destruct (HR ctx (up_ID data) w s Hs) as (u & w1 & s1 & s2 & H1 & Hs2 & Hst1 & Hu & Hst2). rewrite (M_bind_Ret _ _ _ _ _ H1).
  destruct (user_missing u) eqn:Em; [eexists _, w1, s2; split_and!; [done..|by etrans]|].
  destruct u as [u|e]; [|eexists _, w1, s2; split_and!; [done..|by etrans]].
  assert (Hact : is_active (up_ID data) (sy_users s1)).
  { eapply says_active; [done|]. cbn in Em. apply bool_decide_eq_false in Em. by destruct (ui_DeletedAt u); [destruct Em|]. }
  assert (Hasked : sys_steps s (asks (up_ID data) s2)).
  { etrans; [exact Hst1|]. eapply rtc_l; [by apply Answered|]. by apply sys_steps_asks. }
  replace (mkProfile _ _ _) with data by by destruct data. destruct Hs2 as [Hsp Hsu].
  assert (Hat : both (sy_users s2) (route ctx) w1 (sy_profiles s2)) by by rewrite Hroute; split.
  destruct (store_spec (holds := both (sy_users s2)) ctx data w1 _ Hat) as (err & w2 & H2 & Hs3).
  rewrite (M_bind_Ret _ _ _ _ _ H2), Hroute in *. destruct err as [e|].
  - eexists _, w2, (answered (up_ID data) (asks (up_ID data) s2)). split; [done|]. split; [exact Hs3|].
    eapply rtc_r; [exact Hasked|]. apply NotStored. cbn. multiset_solver.
  - eexists _, w2, (stores data (asks (up_ID data) s2)). split; [done|]. split; [exact Hs3|].
    eapply rtc_r; [exact Hasked|]. apply Stored. cbn. multiset_solver.
Qed.

Lemma get_moves : gets (HUP := @userProfileService W R HRP) seen (λ _ _ s _ s', sys_steps s s').
Proof.
  intros p ctx id w s Hp _ Hs. destruct (plain_route ctx Hp) as [Hroute _]. cbn [ups_Get userProfileService]. unfold userprofile_Get.
  destruct (permission_Check _ _); [by eexists _, w, s|].
  assert (Hat : both (sy_users s) (route ctx) w (sy_profiles s)) by by rewrite Hroute.
  destruct (find_spec (holds := both (sy_users s)) ctx id w _ Hat) as (f & w1 & Hf & Hq & _). rewrite (M_bind_Ret _ _ _ _ _ Hf).
  assert (Hs1 : seen w1 s) by by apply Hq. destruct f as [pr|e]; [|by eexists _, w1, s].
  destruct (HR ctx id w1 s Hs1) as (u & w2 & s1 & s2 & H2 & Hs2 & Hst1 & Hu & Hst2). rewrite (M_bind_Ret _ _ _ _ _ H2).
  destruct (user_missing u); eexists _, w2, s2; (split; [done|]; split; [done|by etrans]).
Qed.

(** The infrastructure is beside the system, too. *)
Lemma seen_infra : InfraBeside seen.
Proof.
  assert (Hof : ∀ A (m : M W A), (∀ su, beside (profiles_seen (both su)) m) → beside seen m).
  { intros A m Hm w. destruct (Hm (mkUserState [] []) w) as (a & w' & H & _). exists a, w'. split; [done|]. intros s Hs.
    destruct (Hm (sy_users s) w) as (a2 & w2 & H2 & Hk). rewrite H in H2. injection H2 as <- <-. by apply Hk. }
  split; intros; apply Hof; intros su; apply (HIP su).
Qed.

Lemma profile_request_moves rt r st st' w w' s :
  rt ∈ router_Routes (srv_Router (profiles_server R)) → plain (r_Context r) → unanswered st →
  serve_route (profiles_server R) rt ServerWriter r (st, w) = (Ret tt, (st', w')) → seen w s → ∃ s', seen w' s' ∧ sys_steps s s'.
Proof.
  intros Hrt Hp Hu Hrun Hs.
  destruct (profile_server_served (HUP := @userProfileService W R HRP) error_Error uuid_String show_int CORS Hcors seen (HIB := seen_infra)
    _ _ o logger address rt r st w s get_moves update_moves Hrt Hp Hu Hs) as (st2 & w2 & s' & Hrun2 & Hs' & Hans).
  rewrite Hrun in Hrun2. injection Hrun2 as _ <-. exists s'. split; [done|]. unfold get_result, update_outcome in Hans.
  destruct Hans as [->|[Hans|[_ Hans]]]; [done|repeat case_match; naive_solver..].
Qed.

(** Handling a dispatched event. *)
Lemma handling_moves evt s0 : EventUserDeleted (de_EventID evt) (de_UserID evt) ∈ us_events (sy_users s0) →
  @service_keeps W R HRP HI HTP (λ w, ∃ s, seen w s ∧ sys_steps s0 s) evt.
Proof.
  intros Hev ctx w Hp (s & Hs & Hst). destruct (plain_route ctx Hp) as [Hroute Htx]. unfold HandleUserDeleted.
  destruct (HR ctx (de_UserID evt) w s Hs) as (u & w1 & s1 & s2 & H1 & Hs2 & Hst1 & _ & Hst2). rewrite (M_bind_Ret _ _ _ _ _ H1).
  assert (Hall : sys_steps s0 s2) by (etrans; [exact Hst|by etrans]).
  destruct u as [u|e]; [|case_match; eexists _, w1; (split; [done|]); by exists s2].
  case_bool_decide; [eexists _, w1; (split; [done|]); by exists s2|].
  assert (Hat : both (sy_users s2) (route ctx) w1 (sy_profiles s2)) by by rewrite Hroute.
  destruct (within_run (both (sy_users s2)) ctx (handleUserDeletedImpl evt) [] w1 _ (λ sp, event_key (de_EventID evt) ∉ ps_keys (sy_profiles s2) ∧
    sp = removed_by event_key evt (sy_profiles s2)) Htx Hat) as (err & w' & Hrun & Hin).
  { intros ctx' w2 _ H2 _. exact (@handleUserDeletedImpl_spec W remote HRP HI event_key (both (sy_users s2)) (says (sy_users s2)) (HP _) evt ctx' w2 _ H2). }
  exists err, w'. split; [done|]. rewrite Hroute in Hin. destruct err as [e|]; [by exists s2|]. destruct Hin as (sp & Hsp & Hk & ->).
  exists (on_profiles (removed_by event_key (mkUserDeleted (de_EventID evt) (de_UserID evt))) s2).
  split; [by destruct evt|]. eapply rtc_r; [exact Hall|]. apply Handled; [|done]. by apply (sys_steps_events event_key s0 s2).
Qed.

Lemma delivery_moves d l ev id ms hp hp' w w' s : listens R d l → EventUserDeleted ev id ∈ us_events (sy_users s) →
  Forall (λ '(_, _, msg), plain (cm_Context msg) ∧
    carries uuid_String TopicDomainEventUser (event_message event_Value (EventUserDeleted ev id)) (cm_Message msg)) ms →
  deliver l d ms (hp, w) = (Ret tt, (hp', w')) → seen w s → ∃ s', seen w' s' ∧ sys_steps s s'.
Proof.
  intros (w0 & b & w0' & c & Hreg & Hl) Hev Hms Hrun Hs.
  assert (Hof : ∀ A (m : M W A), (∀ su sp, keeps (λ w, both su OnDB w sp) m) → keeps (λ w, ∃ s', seen w s' ∧ sys_steps s s') m).
  { intros A m Hm v a v' (s1 & Hs1 & Hst) H. exists s1. split; [|done]. by eapply Hm. }
  assert (HBK : BesideKeeps (λ w, ∃ s', seen w s' ∧ sys_steps s s')) by (split; intros; apply Hof; intros su sp; apply (HBS su)).
  refine (@deliveries_keep C W HJ HJL HK HO HCE HQ HB1 HB2 HBL1 HBL2 HLW HMW HDW HCW HNW R HRP HI HTP error_Error uuid_String event_Value
    Unmarshal get_consumer _ HBK o logger w0 b w0' c d l (mkUserDeleted ev id) ms Hreg Hl (Hjson ev id) Hms
    (handling_moves (mkUserDeleted ev id) s Hev) (hp, w) tt (hp', w') _ Hrun). by exists s.
Qed.
End interfered.

Lemma acts_move w w' s : acts w w' → seen w s → ∃ s', seen w' s' ∧ sys_steps s s'.
Proof.
  intros [rt r st st' Hrt Hp Hu Hrun Hq|before after rt r st st' Hb Ha Hrt Hp Hu Hrun|before after d l ev id ms hp hp' Hb Ha Hl Hev Hms Hrun] Hs.
  - destruct Hs as [Hsp Hsu].
    destruct (user_server_change user_Error user_uuid user_int user_CORS Huser_cors users Hcookie user_o user_logger user_address
      rt r st (users_of w) (sy_users s)) as (st2 & u2 & su' & Hrun2 & Hsu' & Hch); [done..|].
    rewrite Hrun in Hrun2. injection Hrun2 as _ <-. exists (with_users su' s). split; [split; [by apply Hq|done]|].
    by apply rtc_once, UsersChange.
  - exact (profile_request_moves _ (amid_answers _ _ Hb Ha) rt r st st' w w' s Hrt Hp Hu Hrun Hs).
  - exact (delivery_moves _ (amid_answers _ _ Hb Ha) d l ev id ms hp hp' w w' s Hl (Hev _ (proj2 Hs)) Hms Hrun Hs).
Qed.

Lemma acts_all_move w w' s : rtc acts w w' → seen w s → ∃ s', seen w' s' ∧ sys_steps s s'.
Proof.
  intros Ha. revert s. induction Ha as [w|w w1 w' H1 _ IH]; intros s Hs; [by exists s|].
  destruct (acts_move w w1 s H1 Hs) as (s1 & Hs1 & Hst1). destruct (IH s1 Hs1) as (s' & Hs' & Hst'). exists s'. split; [done|by etrans].
Qed.

(** So what others do may itself be requests and deliveries. *)
Lemma acting_moves m : (∀ w, ∃ w', m w = (Ret tt, w') ∧ rtc acts w w') → moves m.
Proof.
  intros Hm w s Hs. destruct (Hm w) as (w' & Hrun & Ha). destruct (acts_all_move w w' s Ha Hs) as (s' & H1 & H2). by exists w', s'.
Qed.

(** C3. The two services as one system.  Whatever requests their servers get
    and whatever deliveries of dispatched events the profile service's listener
    gets, one after the other or overlapping - while one waits for the user
    service, any others, run to their ends or to where they wait themselves -,
    with any failures of the stores, of the network between them and of the
    broker: the users and the profiles change by transactions of the user
    service, by storing a profile of a user that the user service said to be
    active, and by handling a dispatched event, each once.  In every state
    these reach, every profile is of a user that the user service has, and
    that user is active, or its deletion is still to be handled, or the profile
    was stored by an update that the deletion overtook ([sy_late]), or two
    dispatched events have the same idempotency key; every key recorded is of
    a dispatched event.  So without such a collision, once the events
    dispatched have been handled, a profile of a user who is deleted is one
    that an overtaken update stored. *)
Theorem services_stay_consistent w s w'
    (Hw : seen w s) (Hc : consistent event_key s) (Hacts : rtc acts w w') :
  ∃ s', seen w' s' ∧ sys_steps s s' ∧
    ∀ s1, sys_steps s s1 → consistent event_key s1 ∧
      (¬ keys_collide event_key (sy_users s1) → (∀ e, e ∈ us_events (sy_users s1) → event_key (ev_ID e) ∈ ps_keys (sy_profiles s1)) →
       ∀ p, p ∈ ps_profiles (sy_profiles s1) → is_active (up_ID p) (sy_users s1) ∨ up_ID p ∈ sy_late s1).
Proof.
  destruct (acts_all_move w w' s Hacts Hw) as (s' & Hs' & Hst).
  exists s'. split; [done|]. split; [done|]. intros s1 Hs1. pose proof (sys_steps_consistent event_key s s1 Hc Hs1) as Hc1.
  split; [done|]. by apply consistent_drained.
Qed.
End services.

(** ** Witness: the event of a deleted user, with both services in memory *)

(** The profiles, while the users stay what they are. *)
Section beside_fact.
Context {W : Type} (holds : target → W → profiles → Prop) (C : Prop).
Definition with_fact (t : target) (w : W) (s : profiles) : Prop := holds t w s ∧ C.

Lemma quiet_fact w w' : quiet holds w w' → quiet with_fact w w'.
Proof. intros Hq t a [Ha HC]. split; [by apply Hq|done]. Qed.
Lemma isolated_fact ctx w w' : isolated holds ctx w w' → isolated with_fact ctx w w'.
Proof. intros Hi Ht t a Ho [Ha HC]. split; [by apply Hi|done]. Qed.
Lemma fact_isolated ctx w w' : C → isolated with_fact ctx w w' → isolated holds ctx w w'.
Proof. intros HC Hi Ht t a Ho Ha. by destruct (Hi Ht t a Ho (conj Ha HC)). Qed.

Lemma fact_store `{!UserProfileRepository W, !IdkService W} event_key :
  ProfileStoreSpec event_key holds → ProfileStoreSpec event_key with_fact.
Proof.
  intros Hst. split.
  - intros ctx e w s [Hs HC]. destruct (insert_spec (holds := holds) ctx e w s Hs) as (err & w' & H & Hi & Hn). exists err, w'.
    split; [done|]. split; [by apply isolated_fact|]. intros He. destruct (Hn He). by split; [|split].
  - intros ctx p w s [Hs HC]. destruct (store_spec (holds := holds) ctx p w s Hs) as (err & w' & H & Hs'). by exists err, w'.
  - intros ctx id w s [Hs HC]. destruct (find_spec (holds := holds) ctx id w s Hs) as (r & w' & H & Hq & Hr). exists r, w'.
    split; [done|]. split; [by apply quiet_fact|done].
  - intros ctx id w s [Hs HC]. destruct (delete_spec (holds := holds) ctx id w s Hs) as (err & w' & H & Hi & Hd). exists err, w'.
    split; [done|]. split; [by apply isolated_fact|]. intros He. by split; [apply Hd|].
Qed.

Lemma fact_transactions `{!Transaction W} : TransactionSpec holds → TransactionSpec with_fact.
Proof.
  intros Htx. split.
  - intros ctx fn locks w a Q Hn [Ha HC] Hfn. destruct (within_run holds ctx fn locks w a Q Hn Ha) as (err & w' & H & Hq).
    { intros ctx' w1 Ht H1 H2. destruct (Hfn ctx' w1 Ht (conj H1 HC) (conj H2 HC)) as (err & w2 & Hr & Hi & He). exists err, w2.
      split; [done|]. split; [by eapply fact_isolated|]. intros Hnone. destruct (He Hnone) as (a' & [Ha' _] & HQ). by exists a'. }
    exists err, w'. split; [done|]. destruct err; [done|]. destruct Hq as (a' & Ha' & HQ). by exists a'.
  - intros T zero ctx fn locks w a Q Hn [Ha HC] Hfn. destruct (within_result_run holds zero ctx fn locks w a Q Hn Ha) as (v & err & w' & H & Hq).
    { intros ctx' w1 Ht H1 H2. destruct (Hfn ctx' w1 Ht (conj H1 HC) (conj H2 HC)) as (v & err & w2 & Hr & Hi & He). exists v, err, w2.
      split; [done|]. split; [by eapply fact_isolated|]. intros Hnone. destruct (He Hnone) as (a' & [Ha' _] & HQ). by exists a'. }
    exists v, err, w'. split; [done|]. destruct err; [done|]. destruct Hq as (a' & Ha' & HQ). by exists a'.
  - apply (lock_route holds).
  - apply (lock_HasTransaction holds).
Qed.
End beside_fact.

(** UUIDs and users as texts that are read as they were written. *)
Definition bits_uuids : ParseLib := {|
  float64 := Z; ParseFloat := λ _, Err ErrSyntax; time_RFC3339 := λ _, Err ErrSyntax;
  time_RFC3339Nano := λ _, Err ErrSyntax; ParseDuration := λ _, Err ErrSyntax;
  uuid_Parse := λ s, match decode (bits_pos s) : option N with Some id => Ok id | None => Err ErrSyntax end;
|}.
Definition bits_uuid (id : uuid) : string := pos_bits (encode id).
Definition bits_encodings : UserEncodings := {|
  Decode_credentials := λ _, Err ErrSyntax; Marshal_registerUserOut := λ id, Ok (bits_uuid id);
  Marshal_UserOut := λ d, Ok (pos_bits (encode (ud_ID d, ud_DeletedAt d)));
  cookie_String := λ c, sc_Name c +:+ "=" +:+ sc_Value c; UserHandlers.uuid_String := bits_uuid |}.
Definition bits_UserOut (s : string) : result UserInfo :=
  match decode (bits_pos s) : option (N * option Z) with Some (id, del) => Ok (mkUserInfo id del) | None => Err (ErrText "json") end.

Abbreviation bits_server := (@user_MustRegisterHTTPHandlers memServer bits_uuids ascii_latin id_case bits_encodings
  (@userService _ id_case memRepository memTransaction plain_encoder memUUID memClock)
  (@authenticationService _ id_case memRepository plain_encoder (@tokenGenerator _ bits_codec memClock) memClock)
  (@httpServer memServer bits_uuids ascii_latin id_case no_emit no_increment no_duration memClock memUUID
    (λ _, "") (λ _, "") (λ _, "") cors_header (mkObserver StubLogger ∅) (SlogLogger LevelInfo []) ":80")).
Definition bits_read_route : Route_ memServer := nth 5 (router_Routes (srv_Router bits_server)) (mkRoute "" "" "" [] (λ _ _, mret tt)).

(** Reading a user changes nothing at all. *)
Lemma mem_read_still ctx id w : ∃ res, @user_GetByID memServer memRepository ctx id w = (Ret res, w).
Proof.
  unfold user_GetByID. destruct (permission_Check _ _); [by eexists|]. unfold_M. cbn [repo_FindOne memRepository].
  repeat case_match; simplify_eq; by eexists.
Qed.
Lemma bits_read_still w r st : plain (r_Context r) → unanswered st →
  ∃ st', serve_route bits_server bits_read_route ServerWriter r (st, w) = (Ret tt, (st', w)).
Proof.
  intros Hp Hu.
  assert (Hin : serves (λ w' (_ : unit), w' = w) r (authenticated_as (@request_principal bits_uuids r)) (chain (rt_MWs bits_read_route) (rt_Handler bits_read_route)) (λ _ _ _, True)).
  { change (rt_MWs bits_read_route) with [@WithAuthenticationRequirement memServer].
    change (rt_Handler bits_read_route) with (httpHandlerWrapper (@GetUserByIDHandler_Handle memServer bits_uuids bits_encodings
      (@userService _ id_case memRepository memTransaction plain_encoder memUUID memClock))). cbn [chain foldr]. apply serves_requirement.
    destruct (request_principal r) as [p|] eqn:Hr; [|done]. apply serves_wrapper. intros l ctx st0 env [] Hpc HA Hl ->.
    pose proof (@parse_userID_spec bits_uuids memServer r ctx) as Hparse. unfold GetUserByIDHandler_Handle.
    destruct (path_userID r) as [id|]; [|destruct Hparse as (e & -> & _); by apply leaves_error with tt].
    rewrite Hparse. unfold_M. unfold on_env. cbn [us_GetByID userService r_Context r_WithContext].
    destruct (mem_read_still ctx id w) as [[u|e] ->]; [by apply leaves_body with tt|].
    destruct (errors_Is _ _); [by apply leaves_status with tt|by apply leaves_error with tt]. }
  destruct (serves_route (λ _, "") (λ _, "") (λ _, "") cors_header cors_header_only (λ w' (_ : unit), w' = w)
    (HIB := quiet_infrastructure _ memUUID (λ w1, ex_intro _ _ (ex_intro _ w1 (conj eq_refl (λ _ H, H)))))
    bits_server (mkObserver StubLogger ∅) (SlogLogger LevelInfo []) bits_read_route r _ eq_refl Hin (r_Context r) st w tt)
    as (st' & w' & s' & H & -> & _); [done..|]. exists st'. by destruct r.
Qed.

(** User 5 is deleted; its event is dispatched, its profile still there. *)
Definition gone_user : User := mkUser 5 "alice" "md5:pw" (Some 900%Z) [].
Definition gone_state : userState := mkUserState [gone_user] [EventUserDeleted 77 5].
Definition gone_users : memServer := mkServer gone_state ∅.

Lemma gone_seen su : users_seen mem_view gone_users su → su = gone_state.
Proof. intros [[Hs _]%mem_view_at _]. by injection Hs. Qed.
Definition gone_system : system := mkSystem gone_state unhandled_state ∅ ∅.
Lemma gone_consistent : consistent (λ e, sample_sha1 e deleted_key) gone_system.
Proof.
  split; cbn.
  - by split; apply NoDup_singleton.
  - intros e ->%list_elem_of_singleton. exists 77%N, 5%N, gone_user. split_and!; [done|by left|done|done].
  - apply NoDup_singleton.
  - by intros k ?%elem_of_empty.
  - intros id Hid. multiset_solver.
  - by intros k ?%elem_of_empty.
  - intros p ->%list_elem_of_singleton. exists gone_user. split; [by left|]. split; [done|right; left]. exists 77%N. split; [by left|].
    by intros ?%elem_of_empty.
Qed.

(** The network between them: a request arrives with its path parameter and the
    headers of its client. *)
Definition path_params (q : restyRequest) : gmap string string :=
  foldl (λ m op, match op with OpPathParam k v => <[k := v]> m | _ => m end) ∅ (q_ops q).
Definition client_headers (client : ClientImpl profileServer) : gmap string (list string) :=
  foldl (λ h '(k, v), header_Set k v h) ∅ (rc_Header (RESTClient (client_core client))).
Definition arriving (client : ClientImpl profileServer) (q : restyRequest) : Request :=
  mkRequest context_Background (q_Method q) "" "" (q_URL q) "" ∅ (client_headers client) [] (path_params q) "" "".
Definition bits_network (client : ClientImpl profileServer) (q : restyRequest) : M profileServer (result restyResponse) := λ w,
  match serve_route bits_server bits_read_route ServerWriter (arriving client q) (http_init, gone_users) with
  | (Ret _, (st, _)) => (Ret (Ok (mkRestyResponse (sent_status st) (Some q) (Some (mkResponse None (sent_status st) (hs_header st) [] (hs_body st))) 0)), w)
  | _ => (Ret (Err ErrSyntax), w)
  end.
Definition bits_client : ClientImpl profileServer :=
  @NewUserService profileServer (@NewClient profileServer [WithClientDestination "user" "http://user"]).

Lemma bits_user_network : @UserNetwork memServer bits_uuids ascii_latin id_case no_emit no_increment no_duration memClock memUUID
  memRepository memTransaction plain_encoder bits_codec bits_encodings (λ _, "") (λ _, "") (λ _, "") cors_header
  (mkObserver StubLogger ∅) (SlogLogger LevelInfo []) ":80" profileServer (λ _, gone_users) server_holds bits_network bits_uuid bits_UserOut bits_client.
Proof.
  split.
  - intros ctx id w. set (q := user_request bits_uuid bits_client ctx id).
    destruct (bits_read_still gone_users (arriving bits_client q) http_init) as [st' Hrun]; [by split|by split_and!|].
    eexists _, w. unfold bits_network. rewrite Hrun. split; [done|]. split; [done|]. right.
    exists bits_read_route, (arriving bits_client q), http_init, st'. split; [split; [do 5 right; left|done]|].
    split; [|split; [by split_and!|split; [done|right; eexists; split; [done|by split_and!]]]].
    split; [done|]. split; [by split|]. repeat constructor.
  - intros ctx id w e w'. unfold bits_network. destruct (serve_route _ _ _ _ _) as [[] [st u]]; intros H; try discriminate; injection H as <- _; by split.
  - intros id. cbn. unfold bits_uuid. by rewrite bits_pos_bits, decode_encode.
  - intros x body [= <-]. unfold bits_UserOut. by rewrite bits_pos_bits, decode_encode.
  - intros body e. unfold bits_UserOut. destruct (decode _) as [[]|]; [done|]. intros [= <-]. by split.
Qed.

Abbreviation bits_remote := (@remoteUsers ascii_latin id_case profileServer bits_network bits_uuid bits_UserOut bits_client).
Abbreviation bits_register R := (@MustRegisterMessageHandlers unit profileServer plain_kebab R (@userProfileRepository _ profiles_DB)
  (@ServiceImpl _ (@IdempotencyKeyStorage _ profiles_DB sample_sha1)) (@sql_Transaction _ profiles_DB profile_tx) (λ _, "") struct_Unmarshal
  (λ _ _, mret (Ok tt)) server_provider).

Lemma bits_infra su : @InfraBeside profileServer _ (profiles_seen (beside_users mem_view (λ _, gone_users) server_holds su))
  server_log server_metrics server_duration server_clock server_uuid.
Proof. split; intros; intros w; eexists _, w; (split; [reflexivity|done]). Qed.
Lemma bits_beside su : @Beside profileServer server_ctx_Err server_queue server_log server_metrics server_duration server_clock server_uuid
  (beside_users mem_view (λ _, gone_users) server_holds su).
Proof. split; intros; intros w a w' Hw [= _ <-]; exact Hw. Qed.

(** The listener as it is registered, over a client. *)
Definition bits_bus (R : RemoteUserService profileServer) : busListener unit profileServer :=
  match bits_register R (mkServer unhandled_rows ∅) with (Ret b, _) => b | _ => server_provider end.
Definition bits_worker (R : RemoteUserService profileServer) : unit * gmap string PayloadDeserializer * ListenerImpl profileServer :=
  default (tt, ∅, NewListener ∅ []) (fst (Workers (bits_bus R)) !! (@SubscriberName plain_kebab, @TopicDomainEventUser plain_kebab)).
Lemma bits_listens R : listens (HK := plain_kebab) (HLW := server_log) (HMW := server_metrics) (HDW := server_duration) (HCW := server_clock) (HNW := server_uuid)
  (HRP := @userProfileRepository _ profiles_DB)
  (HI := @ServiceImpl _ (@IdempotencyKeyStorage _ profiles_DB sample_sha1)) (HTP := @sql_Transaction _ profiles_DB profile_tx)
  (λ _, "") sample_uuid_String sample_observer (SlogLogger LevelInfo []) struct_Unmarshal (λ _ _, mret (Ok tt)) R
  (snd (fst (bits_worker R))) (snd (bits_worker R)).
Proof. exists (mkServer unhandled_rows ∅), (bits_bus R), (mkServer unhandled_rows ∅), tt. split; reflexivity. Qed.
Definition bits_deliver (R : RemoteUserService profileServer) (w : profileServer) : outcome unit * (list HandlerMetadata * profileServer) :=
  @deliver profileServer bitsJSON fifo server_ctx_Err server_queue (stopBackOff _) (stopBackOff _) (snd (bits_worker R)) (snd (fst (bits_worker R)))
    [(1, context_Background, delivered_message)] ([], w).

(** While one delivery waits for the answer of the user service, another one of
    the same message is handled. *)
Definition undisturbed : RemoteUserService profileServer := amid (mret tt) bits_remote (mret tt).
Definition another : M profileServer unit := λ w, match bits_deliver undisturbed w with (Ret tt, (_, w')) => (Ret tt, w') | _ => (Ret tt, w) end.
Definition disturbed : RemoteUserService profileServer := amid (mret tt) bits_remote another.

Lemma bits_cookie t : @cookie_String bits_encodings (NewUserSessionCookie t) ≠ "".
Proof. done. Qed.
Lemma bits_store su : @ProfileStoreSpec profileServer (@userProfileRepository _ profiles_DB)
  (@ServiceImpl _ (@IdempotencyKeyStorage _ profiles_DB sample_sha1)) (λ e, sample_sha1 e deleted_key) (beside_users mem_view (λ _ : profileServer, gone_users) server_holds su).
Proof.
  refine (fact_store server_holds (users_seen mem_view gone_users su) _ _). exact (@profile_store_over_sql profileServer _ profiles_DB profile_users sample_sha1 sv_committed sv_working fst snd profile_server_store).
Qed.
Lemma bits_transactions su : @TransactionSpec profileServer profiles
  (beside_users mem_view (λ _, gone_users) server_holds su) (@sql_Transaction _ profiles_DB profile_tx).
Proof.
  refine (fact_transactions server_holds (users_seen mem_view gone_users su) _). exact (@sql_transaction_implements profileServer _ profiles profiles_DB sv_committed sv_working (server_TxSpec _ _ _)
    (stores_profiles fst snd) profile_tx profile_tx_quiet).
Qed.
Lemma bits_json ev id p : @marshal_value bitsJSON (event_message struct_Value (EventUserDeleted ev id)) = Ok p →
  struct_Unmarshal p = Ok (mkUserDeleted ev id).
Proof.
  intros [_ ->]%bits_value. unfold struct_Unmarshal. cbn [event_message sm_Value]. unfold struct_Value. by rewrite bits_pos_bits, decode_encode.
Qed.

(** The services of the theorem, in memory. *)
Abbreviation on_bits f := (f memServer bits_uuids ascii_latin id_case no_emit no_increment no_duration memClock memUUID
  memRepository memTransaction plain_encoder bits_codec bits_encodings (λ _, "") (λ _, "") (λ _, "") cors_header cors_header_only
  mem_view memRepository_spec mem_transactions mem_quiet plain_encoder_laws bits_codec_laws mem_infrastructure bits_cookie
  (mkObserver StubLogger ∅) (SlogLogger LevelInfo []) ":80"
  unit profileServer server_log server_metrics server_duration server_clock server_uuid (@userProfileRepository _ profiles_DB)
  (@ServiceImpl _ (@IdempotencyKeyStorage _ profiles_DB sample_sha1)) (@sql_Transaction _ profiles_DB profile_tx) plain_profile_encodings
  bitsJSON bitsJSON_laws plain_kebab fifo server_ctx_Err server_queue (stopBackOff _) (stopBackOff _) (stopBackOff_laws _) (stopBackOff_laws _)
  (λ _, "") sample_uuid_String (λ _, "") cors_header cors_header_only sample_observer (SlogLogger LevelInfo []) ":81"
  (λ _, gone_users) server_holds bits_network bits_uuid bits_UserOut bits_client bits_user_network eq_refl (conj eq_refl eq_refl) eq_refl
  (λ e, sample_sha1 e deleted_key) bits_store bits_transactions bits_infra bits_beside struct_Value struct_Unmarshal (λ _ _, mret (Ok tt)) bits_json)
  (only parsing).

Lemma another_moves : moves mem_view (λ _, gone_users) server_holds (λ e, sample_sha1 e deleted_key) another.
Proof.
  assert (Hnone : moves mem_view (λ _, gone_users) server_holds (λ e, sample_sha1 e deleted_key) (mret tt)) by by intros w s Hs; exists w, s.
  apply (on_bits (@acting_moves)). intros w. unfold another. destruct (bits_deliver undisturbed w) as [[[]| | |] [hp w']] eqn:E;
    (eexists; split; [reflexivity|]); [|apply rtc_refl..].
  apply rtc_once. eapply Delivery with (ev := 77%N) (id := 5%N); [exact Hnone|exact Hnone|apply bits_listens| | |exact E].
  - intros su ->%gone_seen. by left.
  - repeat constructor; exists ∅; reflexivity.
Qed.

Lemma services_stay_consistent_witness :
  ∃ hp' w', bits_deliver disturbed (mkServer unhandled_rows ∅) = (Ret tt, (hp', w')) ∧ fst (sv_committed w') = [] ∧
    ∃ s, beside_users mem_view (λ _, gone_users) server_holds (sy_users s) OnDB w' (sy_profiles s) ∧ consistent (λ e, sample_sha1 e deleted_key) s.
Proof.
  exists (fst (snd (bits_deliver disturbed (mkServer unhandled_rows ∅)))), (snd (snd (bits_deliver disturbed (mkServer unhandled_rows ∅)))).
  split; [vm_compute; reflexivity|]. split; [vm_compute; reflexivity|].
  refine (match on_bits (@services_stay_consistent) (mkServer unhandled_rows ∅) gone_system
      (snd (snd (bits_deliver disturbed (mkServer unhandled_rows ∅)))) _ gone_consistent _
    with ex_intro _ s (conj H1 (conj H2 H3)) => ex_intro _ s (conj H1 (proj1 (H3 s H2))) end).
  - split; [exact unhandled_stored|]. split; [|by split; apply NoDup_singleton]. apply mem_view_at. split; [done|]. by repeat constructor.
  - apply rtc_once. eapply Delivery with (ev := 77%N) (id := 5%N) (before := mret tt) (after := another) (hp := [])
      (ms := [(1, context_Background, delivered_message)])
      (hp' := fst (snd (bits_deliver disturbed (mkServer unhandled_rows ∅)))); [|exact another_moves|apply bits_listens|..].
    + by intros w s Hs; exists w, s.
    + intros su ->%gone_seen. by left.
    + repeat constructor; exists ∅; reflexivity.
    + vm_compute. reflexivity.
Defined.

(** ** A late profile

    [Update] of the profile service asks the user service and then stores, in
    no transaction: when the user is deleted and the event of it handled in
    between, the profile is stored afterwards, and no redelivery of the event
    removes it. *)
Definition gone_remote : RemoteUserService profileServer := λ _ id w, (Ret (Ok (mkUserInfo id (Some 10%Z))), w).
Definition handle_deleted_6 : M profileServer (option error) :=
  @HandleUserDeleted profileServer gone_remote (@userProfileRepository _ profiles_DB)
    (@ServiceImpl _ (@IdempotencyKeyStorage _ profiles_DB sample_sha1)) (@sql_Transaction _ profiles_DB profile_tx)
    context_Background (mkUserDeleted 88 6).
Definition user_6 : context := WithAuthentication context_Background (mkAuth (Some (Context.mkPrincipal (Some 6%N) None None))).
Definition bob : UserProfile := mkProfile 6 "Bob" "Ray".

(** The update succeeds, the event was handled - its redelivery is refused -,
    and the profile of the deleted user is there. *)
Definition late_update : M profileServer (option error * option error) :=
  err ← @userprofile_Update profileServer (amid (mret tt) profile_users (_ ← handle_deleted_6; mret tt)) (@userProfileRepository _ profiles_DB) user_6 bob;
  err' ← handle_deleted_6; mret (err, err').

Lemma profile_outlives_user :
  match late_update (mkServer unhandled_rows ∅) with
  | (Ret (None, Some e), w) =>
      error_has ErrAlreadyInserted e = true ∧ (lookup "user_id" <$> fst (sv_committed w)) = [Some (AUuid 5); Some (AUuid 6)]
  | _ => False
  end.
Proof. vm_compute. by split. Qed.
