(* ===== verification/Wiring.v ===== *)
(** The programs of src/cmd: how the containers of internal/pkg/cmd,
    internal/user and internal/userprofile are wired by lazy loaders
    (pkg/lazy), in which order starting a program runs their providers, and
    what [Close] leaves behind. *)
From S2P Require Import Prelude GoStrings Context Message Parsing Database Sql Migration Http HttpServer Bus Lazy Listener User Worker EventOutbox UserProfile EventDelivery Container.
From stdpp Require finite.

(** ** Lazy loaders that load one another

    A provider as the loads and the effects of its body, in the order Go
    evaluates them. *)
Inductive step (Node Effect : Type) := Need (n : Node) | Do (e : Effect).
Arguments Need {Node Effect} n.
Arguments Do {Node Effect} e.

(** The [sync.Once] of a loader: a second [Do] waits for the first, which never
    ends when they are the same call; a panic counts as done. *)
Inductive status := Loading | Loaded | Panicked.
#[export] Instance status_eq_dec : EqDecision status.
Proof. solve_decision. Defined.

Section lazy_graph.
Context {Node Effect W : Type} `{Countable Node}.
Context (body : Node → list (step Node Effect)) (perform : Effect → M W unit).
Abbreviation G := (gmap Node status).

Definition run_step (load : Node → M (G * W) unit) (s : step Node Effect) : M (G * W) unit :=
  match s with Need n => load n | Do e => on_env (perform e) end.

(** The end of the function of [Do], on return and on panic. *)
Definition finishing (n : Node) (m : M (G * W) unit) : M (G * W) unit := λ s,
  match m s with
  | (Ret _, (st, w)) => (Ret tt, (<[n := Loaded]> st, w))
  | (Panic msg, (st, w)) => (Panic msg, (<[n := Panicked]> st, w))
  | r => r
  end.

(** [MustLoad]; the fuel is the depth of the loads. *)
Fixpoint load (fuel : nat) (n : Node) : M (G * W) unit :=
  match fuel with
  | O => out_of_fuel
  | S fuel =>
      st ← get_obj;
      match st !! n with
      | Some Loading => block
      | Some _ => mret tt
      | None =>
          _ ← modify_obj <[n := Loading]>;
          finishing n (for_each (run_step (load fuel)) (body n))
      end
  end.
Definition run_steps (fuel : nat) (ss : list (step Node Effect)) : M (G * W) unit := for_each (run_step (load fuel)) ss.

(** *** The straight line: what is done, in which order *)

Inductive action := Perform (e : Effect) | Finish (n : Node).

Definition plan_step (plan : gset Node → Node → option (list action * gset Node)) (acc : option (list action * gset Node))
    (s : step Node Effect) : option (list action * gset Node) :=
  '(acts, loaded) ← acc;
  match s with
  | Do e => Some (acts ++ [Perform e], loaded)
  | Need n => '(acts', loaded) ← plan loaded n; Some (acts ++ acts', loaded)
  end.

(** The actions of a load, and the loaders that are loaded after it; [None] when
    it would load a loader that is being loaded. *)
Fixpoint plan (fuel : nat) (path loaded : gset Node) (n : Node) : option (list action * gset Node) :=
  match fuel with
  | O => None
  | S fuel =>
      if decide (n ∈ path) then None
      else if decide (n ∈ loaded) then Some ([], loaded)
      else
        '(acts, loaded) ← foldl (plan_step (plan fuel ({[n]} ∪ path))) (Some ([], loaded)) (body n);
        Some (acts ++ [Finish n], {[n]} ∪ loaded)
  end.
Definition plan_steps (fuel : nat) (ss : list (step Node Effect)) : option (list action * gset Node) :=
  foldl (plan_step (plan fuel ∅)) (Some ([], ∅)) ss.

Definition run_action (a : action) : M (gset Node * W) unit :=
  match a with Perform e => on_env (perform e) | Finish n => modify_obj (union {[n]}) end.
Definition run_actions (acts : list action) : M (gset Node * W) unit := for_each run_action acts.

(** *** Loading is the straight line *)

(** The loaders agree: those loaded, those being loaded, and none panicked. *)
Definition agrees (path loaded : gset Node) (st : G) : Prop :=
  (∀ n, st !! n = Some Loaded ↔ n ∈ loaded) ∧ (∀ n, st !! n = Some Loading ↔ n ∈ path) ∧ ∀ n, st !! n ≠ Some Panicked.

(** [m] does the actions: the same outcome, world and loaded loaders; the loads
    around it stay as they are. *)
Definition does (path loaded : gset Node) (m : M (G * W) unit) (acts : list action) : Prop := ∀ st w, agrees path loaded st →
  let '(o, (loaded', w')) := run_actions acts (loaded, w) in
  ∃ st', m (st, w) = (o, (st', w')) ∧ (∀ n, st' !! n = Some Loaded ↔ n ∈ loaded') ∧ (∀ n, n ∈ path → st' !! n = Some Loading) ∧
    (o = Ret tt → agrees path loaded' st').
(** The loaders that are loaded when the actions are done. *)
Definition loads_to (loaded : gset Node) (acts : list action) : gset Node :=
  foldl (λ d a, match a with Finish n => {[n]} ∪ d | Perform _ => d end) loaded acts.

Lemma for_each_app {A B} (f : A → M B unit) xs ys w : for_each f (xs ++ ys) w = (_ ← for_each f xs; for_each f ys) w.
Proof.
  revert w. induction xs as [|x xs IH]; intros w; [done|]. cbn [for_each app]. rewrite M_bind_assoc. unfold_M.
  by destruct (f x w) as [[]].
Qed.

Lemma run_actions_loaded acts loaded w w' loaded' : run_actions acts (loaded, w) = (Ret tt, (loaded', w')) → loaded' = loads_to loaded acts.
Proof.
  revert loaded w. induction acts as [|a acts IH]; intros loaded w Hrun; [by injection Hrun|].
  apply M_bind_Ret_inv in Hrun as (u & [l1 w1] & H1 & Hrun). apply IH in Hrun. destruct a; cbn in H1.
  - apply on_env_inv in H1 as [-> _]. exact Hrun.
  - injection H1 as _ <- _. exact Hrun.
Qed.

Lemma does_seq path loaded m1 m2 acts1 acts2 : does path loaded m1 acts1 → does path (loads_to loaded acts1) m2 acts2 →
  does path loaded (_ ← m1; m2) (acts1 ++ acts2).
Proof.
  intros H1 H2 st w Hst. unfold run_actions. rewrite for_each_app. specialize (H1 st w Hst). unfold run_actions in H1.
  destruct (for_each run_action acts1 (loaded, w)) as [o1 [l1 w1]] eqn:E1. destruct H1 as (st1 & Hm1 & Hl1 & Hp1 & Ha1).
  unfold_M. rewrite E1, Hm1. destruct o1 as [[]|msg| |]; try (exists st1; by split_and!).
  apply run_actions_loaded in E1 as Hl. subst l1. specialize (Ha1 eq_refl). specialize (H2 st1 w1 Ha1). unfold run_actions in H2.
  destruct (for_each run_action acts2 (loads_to loaded acts1, w1)) as [o2 [l2 w2]]. exact H2.
Qed.
Lemma does_nothing path loaded : does path loaded (mret tt) [].
Proof. intros st w Hst. exists st. by split_and!; [|apply Hst..|]. Qed.
Lemma does_effect path loaded e : does path loaded (on_env (perform e)) [Perform e].
Proof.
  intros st w Hst. unfold run_actions. cbn [for_each run_action]. unfold on_env. unfold_M. destruct (perform e w) as [[[]|msg| |] w1];
    (exists st; by split_and!; [|apply Hst..|]).
Qed.

Lemma does_ext path loaded m m' acts : (∀ s, m s = m' s) → does path loaded m' acts → does path loaded m acts.
Proof. intros Heq Hm st w Hst. rewrite Heq. by apply Hm. Qed.

(** The steps of a body, given that loads follow their plans. *)
Lemma does_steps ld pl path ss acts0 loaded0 acts loaded m0 :
  (∀ loaded n acts loaded', pl loaded n = Some (acts, loaded') → does path loaded (ld n) acts ∧ loads_to loaded acts = loaded') →
  ∀ start, does path start m0 acts0 → loads_to start acts0 = loaded0 →
  foldl (plan_step pl) (Some (acts0, loaded0)) ss = Some (acts, loaded) →
  does path start (_ ← m0; for_each (run_step ld) ss) acts ∧ loads_to start acts = loaded.
Proof.
  intros Hpl start. revert acts0 loaded0 m0. induction ss as [|s ss IH]; intros acts0 loaded0 m0 H0 Hl0 Hplan.
  { cbn in Hplan. injection Hplan as <- <-. split; [|done]. eapply does_ext; [|exact H0]. intros x. cbn [for_each]. unfold_M.
    by destruct (m0 x) as [[[]|msg| |] y]. }
  cbn [foldl] in Hplan. destruct (plan_step pl (Some (acts0, loaded0)) s) as [[acts1 loaded1]|] eqn:E.
  2:{ exfalso. clear -Hplan. induction ss as [|s' ss IH]; [done|]. by apply IH. }
  assert (does path start (_ ← m0; run_step ld s) acts1 ∧ loads_to start acts1 = loaded1) as [H1 Hl1].
  { destruct s as [n|e]; cbn in E.
    - destruct (pl loaded0 n) as [[acts' l']|] eqn:En; [|done]. cbn in E. injection E as <- <-. destruct (Hpl _ _ _ _ En) as [Hd Hl].
      split; [apply does_seq; [done|by rewrite Hl0]|]. unfold loads_to in *. by rewrite foldl_app, Hl0.
    - injection E as <- <-. split; [apply does_seq; [done|apply does_effect]|]. unfold loads_to in *. by rewrite foldl_app, Hl0. }
  destruct (IH acts1 loaded1 (_ ← m0; run_step ld s) H1 Hl1 Hplan) as [Hd Hl]. split; [|done].
  eapply does_ext; [|exact Hd]. intros x. cbn [for_each]. by rewrite M_bind_assoc.
Qed.

Lemma agrees_loading path loaded st n : n ∉ path → n ∉ loaded → agrees path loaded st → agrees ({[n]} ∪ path) loaded (<[n := Loading]> st).
Proof.
  intros Hp Hl (H1 & H2 & H3). split_and!; intros m; destruct (decide (m = n)) as [->|Hne];
    rewrite ?lookup_insert_eq, ?lookup_insert_ne by done; rewrite ?H1, ?H2; try done; set_solver.
Qed.
Lemma agrees_loaded path loaded st n : n ∉ path → agrees ({[n]} ∪ path) loaded st → agrees path ({[n]} ∪ loaded) (<[n := Loaded]> st).
Proof.
  intros Hp (H1 & H2 & H3). split_and!; intros m; destruct (decide (m = n)) as [->|Hne];
    rewrite ?lookup_insert_eq, ?lookup_insert_ne by done; rewrite ?H1, ?H2; try done; set_solver.
Qed.

Lemma load_does fuel path loaded n acts loaded' :
  plan fuel path loaded n = Some (acts, loaded') → does path loaded (load fuel n) acts ∧ loads_to loaded acts = loaded'.
Proof.
  revert path loaded n acts loaded'. induction fuel as [|fuel IH]; intros path loaded n acts loaded' Hplan; [done|]. cbn [plan] in Hplan.
  destruct (decide (n ∈ path)) as [|Hp]; [done|]. destruct (decide (n ∈ loaded)) as [Hn|Hn].
  { injection Hplan as <- <-. split; [|done]. intros st w Hst. exists st. split_and!; [|apply Hst..|done].
    cbn [load]. unfold_M. by rewrite (proj2 (proj1 Hst n) Hn). }
  destruct (foldl _ _ (body n)) as [[acts1 loaded1]|] eqn:E; [|done]. cbn in Hplan. injection Hplan as <- <-.
  destruct (does_steps (load fuel) (plan fuel ({[n]} ∪ path)) ({[n]} ∪ path) (body n) [] loaded acts1 loaded1 (mret tt)
    ltac:(intros; by apply IH) loaded (does_nothing _ _) eq_refl E) as [Hd Hl].
  split; [|unfold loads_to in *; by rewrite foldl_app, Hl].
  intros st w Hst. unfold run_actions. rewrite for_each_app. cbn [load]. unfold_M.
  assert (st !! n = None) as ->.
  { destruct (st !! n) as [[]|] eqn:Es; [..|done].
    - by apply (proj1 (proj2 Hst)) in Es.
    - by apply (proj1 Hst) in Es.
    - by apply (proj2 (proj2 Hst)) in Es. }
  specialize (Hd (<[n:=Loading]> st) w (agrees_loading _ _ _ _ Hp Hn Hst)). unfold run_actions in Hd.
  destruct (for_each run_action acts1 (loaded, w)) as [o [l1 w1]] eqn:E1. destruct Hd as (st' & Hrun & Hld & Hpa & Hag).
  unfold finishing. unfold_M. rewrite Hrun.
  assert (Hpath : ∀ s m, m ∈ path → (<[n := s]> st') !! m = Some Loading).
  { intros s m Hm. rewrite lookup_insert_ne by (by intros ->). apply Hpa. set_solver. }
  destruct o as [[]|msg| |].
  - eexists. split; [done|]. specialize (Hag eq_refl). apply (agrees_loaded _ _ _ _ Hp) in Hag. split_and!; [apply Hag|by apply Hpath|done].
  - eexists. split; [done|]. split_and!; [|by apply Hpath|done]. intros m. rewrite <- Hld.
    destruct (decide (m = n)) as [->|Hne]; [|by rewrite lookup_insert_ne]. rewrite lookup_insert_eq, Hpa by set_solver. done.
  - exists st'. split_and!; [done..|intros m Hm; apply Hpa; set_solver|done].
  - exists st'. split_and!; [done..|intros m Hm; apply Hpa; set_solver|done].
Qed.

(** What starting from nothing loaded comes to: the effects, in a row. *)
Definition effects_of (acts : list action) : list Effect := omap (λ a, match a with Perform e => Some e | Finish _ => None end) acts.

Lemma run_actions_effects acts loaded w :
  let '(o, (_, w')) := run_actions acts (loaded, w) in for_each perform (effects_of acts) w = (o, w').
Proof.
  revert loaded w. induction acts as [|[e|n] acts IH]; intros loaded w; [done|..]; unfold run_actions; cbn [for_each run_action effects_of omap list_omap]; unfold_M.
  - unfold on_env. cbn [for_each]. unfold_M. destruct (perform e w) as [[[]|msg| |] w1]; try done. apply IH.
  - apply IH.
Qed.

Lemma agrees_nothing : agrees ∅ ∅ ∅.
Proof. split_and!; intros n; rewrite lookup_empty; set_solver. Qed.

Lemma run_steps_does fuel ss acts loaded : plan_steps fuel ss = Some (acts, loaded) → does ∅ ∅ (run_steps fuel ss) acts.
Proof.
  intros Hplan. destruct (does_steps (load fuel) (plan fuel ∅) ∅ ss [] ∅ acts loaded (mret tt) (load_does fuel ∅) ∅
    (does_nothing _ _) eq_refl Hplan) as [Hd _]. eapply does_ext; [|exact Hd]. done.
Qed.

(** A loader whose provider is one effect that cannot fail is loaded or was
    not asked for. *)
Lemma atomic_loader n0 e0 fuel ss w o st' w' : body n0 = [Do e0] → (∀ w, ∃ w', perform e0 w = (Ret tt, w')) →
  run_steps fuel ss (∅, w) = (o, (st', w')) → st' !! n0 = None ∨ st' !! n0 = Some Loaded.
Proof.
  intros Hbody He0. set (Q := λ s : G * W, s.1 !! n0 = None ∨ s.1 !! n0 = Some Loaded).
  assert (Hseq : ∀ ld ss, (∀ n, steady Q (ld n)) → steady Q (for_each (run_step ld) ss)).
  { intros ld ss0 Hld. induction ss0 as [|s ss0 IH]; [apply steady_ret|]. cbn [for_each]. apply steady_bind; [|intros; exact IH].
    destruct s as [n|e]; [apply Hld|]. intros [st w0] HQ. cbn [run_step]. unfold on_env. by destruct (perform e w0). }
  assert (Hload : ∀ fuel n, steady Q (load fuel n)).
  { intros f. induction f as [|f IH]; intros n [st w0] HQ; [done|]. cbn [load]. unfold_M.
    destruct (st !! n) as [[]|] eqn:Es; [exact HQ..|]. unfold finishing. destruct (decide (n = n0)) as [->|Hne].
    - rewrite Hbody. cbn [for_each run_step]. unfold_M. unfold on_env. destruct (He0 w0) as [w1 ->]. cbn. right. apply lookup_insert_eq.
    - assert (HQ1 : Q (<[n := Loading]> st, w0)) by (unfold Q; cbn; by rewrite lookup_insert_ne).
      specialize (Hseq (load f) (body n) IH _ HQ1). destruct (for_each _ _ _) as [[u|msg| |] [st1 w1]]; cbn in Hseq |- *;
        unfold Q in *; cbn in *; rewrite ?lookup_insert_ne by done; exact Hseq. }
  intros Hrun. specialize (Hseq (load fuel) ss (Hload fuel) (∅, w)). unfold run_steps in Hrun. rewrite Hrun in Hseq. apply Hseq.
  unfold Q. cbn. left. apply lookup_empty.
Qed.
End lazy_graph.

(** ** The loaders of the program *)

Inductive node :=
(* InfrastructureContainer *)
| MetricsLoader | LoggerLoader | ObserverLoader | AuthLoader | ClockLoader | DBLoader | DBMigrationsLoader | MessageStorageLoader
| IDKStorageLoader | MessageStorageConsumersLoader | ConsumerProviderLoader | BusProducerLoader | IDKServiceImplLoader
| IdempotencyKeysLoader | IdempotencyKeysCleanerLoader | HTTPServerLoader | HTTPClientFactoryLoader | EventDispatcherLoader
| TaskSchedulerLoader | MessageBusListenerLoader
(* internal/user *)
| UserEventDispatcherLoader | UserTransactionLoader | UserSQLContainerLoader | UserRepoLoader | UserDTOConverterLoader
| PasswordEncoderLoader | SessionTokenGeneratorLoader | UserPermissionServiceLoader | AuthServiceLoader | UserServiceLoader
| UserHTTPDTOConverterLoader | AuthenticateHandlerLoader | VerifyAuthenticationHandlerLoader | RegisterUserHandlerLoader
| GetCurrentUserHandlerLoader | GetUserByIDHandlerLoader | DeleteUserByIDHandlerLoader
(* internal/userprofile *)
| ProfileTransactionLoader | ProfileSQLContainerLoader | UserProfileRepoLoader | ProfileDTOConverterLoader
| ProfilePermissionServiceLoader | RemoteDTOConverterLoader | RemoteUserServiceLoader | ProfileServiceImplLoader
| UserProfileServiceLoader | ProfileHTTPDTOConverterLoader | GetUserProfileHandlerLoader | UpdateUserProfileHandlerLoader.
#[export] Instance node_eq_dec : EqDecision node.
Proof. solve_decision. Defined.

(** A loader's number, its place among the constructors. *)
Definition all_nodes : list node :=
  [MetricsLoader; LoggerLoader; ObserverLoader; AuthLoader; ClockLoader; DBLoader; DBMigrationsLoader; MessageStorageLoader;
   IDKStorageLoader; MessageStorageConsumersLoader; ConsumerProviderLoader; BusProducerLoader; IDKServiceImplLoader;
   IdempotencyKeysLoader; IdempotencyKeysCleanerLoader; HTTPServerLoader; HTTPClientFactoryLoader; EventDispatcherLoader;
   TaskSchedulerLoader; MessageBusListenerLoader;
   UserEventDispatcherLoader; UserTransactionLoader; UserSQLContainerLoader; UserRepoLoader; UserDTOConverterLoader;
   PasswordEncoderLoader; SessionTokenGeneratorLoader; UserPermissionServiceLoader; AuthServiceLoader; UserServiceLoader;
   UserHTTPDTOConverterLoader; AuthenticateHandlerLoader; VerifyAuthenticationHandlerLoader; RegisterUserHandlerLoader;
   GetCurrentUserHandlerLoader; GetUserByIDHandlerLoader; DeleteUserByIDHandlerLoader;
   ProfileTransactionLoader; ProfileSQLContainerLoader; UserProfileRepoLoader; ProfileDTOConverterLoader;
   ProfilePermissionServiceLoader; RemoteDTOConverterLoader; RemoteUserServiceLoader; ProfileServiceImplLoader;
   UserProfileServiceLoader; ProfileHTTPDTOConverterLoader; GetUserProfileHandlerLoader; UpdateUserProfileHandlerLoader].
#[export] Instance node_finite : finite.Finite node.
Proof.
  refine {| finite.enum := all_nodes |}.
  - apply (bool_decide_unpack _). by vm_compute.
  - intros n. apply (bool_decide_unpack _). by destruct n; vm_compute.
Defined.

#[export] Instance node_countable : Countable node := finite.finite_countable.

(** The sources of migrations, and what a provider does besides loading. *)
Inductive source := MessageStorageSource | IdempotencyKeySource | UserSource | UserProfileSource.
Inductive job := TermSignalAwaiter | HTTPListener | DeleteOutdatedKeys | StorageConsumerWorkers | BusListenerWorkers | ProcessStorageConsumers.
Inductive effect :=
| GetEnv (key : string)
| GetServiceURL (dest : string)
| ReadLogLevel
| OpenDatabase
| Migrate (s : source)
| RegisterUserMessages
| RegisterMessageHandlers
| RunJobs (jobs : list job).
Abbreviation provider := (list (step node effect)).

(** *** internal/pkg/cmd/container.go *)

Definition loggerProvider_steps : provider := [Do ReadLogLevel].
Definition observerProvider_steps : provider := [Need LoggerLoader].
Definition sqlDatabaseProvider_steps : provider := [Do OpenDatabase].
Definition sqlMigrationsProvider : provider := [Need DBLoader; Need LoggerLoader].
Definition sqlMessageStorageProvider : provider := [Need DBMigrationsLoader; Do (Migrate MessageStorageSource); Need DBLoader].
Definition sqlIDKStorageProvider : provider := [Need DBMigrationsLoader; Do (Migrate IdempotencyKeySource); Need DBLoader].
Definition httpServerProvider_steps : provider :=
  [Do (GetEnv "SERVICE_ADDRESS"); Need ObserverLoader; Need MetricsLoader; Need LoggerLoader; Need AuthLoader].
Definition httpClientFactoryProvider_steps : provider := [Need ObserverLoader; Need MetricsLoader; Need LoggerLoader].
Definition messageBusListenerProvider_steps : provider :=
  [Need ConsumerProviderLoader; Need ObserverLoader; Need MetricsLoader; Need LoggerLoader].
Definition messageStorageConsumerProvider : provider := [Need MessageStorageLoader; Need MetricsLoader; Need LoggerLoader].
Definition messageBusProducerProvider_steps : provider :=
  [Need MessageStorageLoader; Need ObserverLoader; Need MetricsLoader; Need LoggerLoader].
Definition idkServiceProvider : provider := [Need IDKStorageLoader].
Definition eventDispatcherProvider : provider := [Need BusProducerLoader].
Definition taskSchedulerProvider : provider := [Need BusProducerLoader].

(** [NewInfrastructureContainer]: the loaders and their providers. *)
Definition NewInfrastructureContainer (n : node) : provider :=
  match n with
  | LoggerLoader => loggerProvider_steps
  | ObserverLoader => observerProvider_steps
  | DBLoader => sqlDatabaseProvider_steps
  | DBMigrationsLoader => sqlMigrationsProvider
  | MessageStorageLoader => sqlMessageStorageProvider
  | IDKStorageLoader => sqlIDKStorageProvider
  | MessageStorageConsumersLoader => messageStorageConsumerProvider
  | ConsumerProviderLoader => [Need MessageStorageConsumersLoader]
  | BusProducerLoader => messageBusProducerProvider_steps
  | IDKServiceImplLoader => idkServiceProvider
  | IdempotencyKeysLoader => [Need IDKServiceImplLoader]
  | IdempotencyKeysCleanerLoader => [Need IDKServiceImplLoader]
  | HTTPServerLoader => httpServerProvider_steps
  | HTTPClientFactoryLoader => httpClientFactoryProvider_steps
  | EventDispatcherLoader => eventDispatcherProvider
  | TaskSchedulerLoader => taskSchedulerProvider
  | MessageBusListenerLoader => messageBusListenerProvider_steps
  | _ => []
  end.

(** *** internal/user/container.go and internal/user/infra/container.go *)

Definition user_eventDispatcherProvider_steps : provider := [Need EventDispatcherLoader; Do RegisterUserMessages].
Definition user_transactionProvider_steps : provider := [Need DBLoader].
Definition user_NewSQLContainer : provider := [Need DBMigrationsLoader; Do (Migrate UserSource)].
Definition userRepoProvider : provider := [Need DBLoader; Need UserEventDispatcherLoader].
Definition authServiceProvider : provider :=
  [Need UserSQLContainerLoader; Need UserRepoLoader; Need SessionTokenGeneratorLoader; Need PasswordEncoderLoader].
Definition user_userServiceProvider : provider :=
  [Need UserSQLContainerLoader; Need UserRepoLoader; Need PasswordEncoderLoader; Need UserPermissionServiceLoader;
   Need UserTransactionLoader; Need UserDTOConverterLoader].
Definition user_NewDependencyContainer (n : node) : provider :=
  match n with
  | UserEventDispatcherLoader => user_eventDispatcherProvider_steps
  | UserTransactionLoader => user_transactionProvider_steps
  | UserSQLContainerLoader => user_NewSQLContainer
  | UserRepoLoader => userRepoProvider
  | AuthServiceLoader => authServiceProvider
  | UserServiceLoader => user_userServiceProvider
  | AuthenticateHandlerLoader | VerifyAuthenticationHandlerLoader => [Need AuthServiceLoader]
  | RegisterUserHandlerLoader | GetCurrentUserHandlerLoader | GetUserByIDHandlerLoader => [Need UserServiceLoader; Need UserHTTPDTOConverterLoader]
  | DeleteUserByIDHandlerLoader => [Need UserServiceLoader]
  | _ => []
  end.
(** [MustRegisterHTTPHandlers]: the handlers it loads; registering them is pure. *)
Definition user_MustRegisterHTTPHandlers_steps : provider :=
  [Need AuthenticateHandlerLoader; Need VerifyAuthenticationHandlerLoader; Need RegisterUserHandlerLoader;
   Need GetCurrentUserHandlerLoader; Need GetUserByIDHandlerLoader; Need DeleteUserByIDHandlerLoader].

(** *** internal/userprofile/container.go and internal/userprofile/infra/container.go *)

Definition userprofile_transactionProvider_steps : provider := [Need DBLoader].
Definition userprofile_NewSQLContainer : provider := [Need DBMigrationsLoader; Do (Migrate UserProfileSource)].
Definition userProfileRepoProvider : provider := [Need DBLoader].
Definition userServiceProvider_steps : provider :=
  [Need HTTPClientFactoryLoader; Do (GetServiceURL user_Destination); Need RemoteDTOConverterLoader].
Definition userProfileServiceProvider : provider :=
  [Need RemoteUserServiceLoader; Need ProfileSQLContainerLoader; Need UserProfileRepoLoader; Need ProfilePermissionServiceLoader;
   Need IdempotencyKeysLoader; Need ProfileTransactionLoader; Need ProfileDTOConverterLoader].
Definition userprofile_NewDependencyContainer (n : node) : provider :=
  match n with
  | ProfileTransactionLoader => userprofile_transactionProvider_steps
  | ProfileSQLContainerLoader => userprofile_NewSQLContainer
  | UserProfileRepoLoader => userProfileRepoProvider
  | RemoteUserServiceLoader => userServiceProvider_steps
  | ProfileServiceImplLoader => userProfileServiceProvider
  | UserProfileServiceLoader => [Need ProfileServiceImplLoader]
  | GetUserProfileHandlerLoader => [Need ProfileServiceImplLoader; Need ProfileHTTPDTOConverterLoader]
  | UpdateUserProfileHandlerLoader => [Need ProfileServiceImplLoader]
  | _ => []
  end.
Definition userprofile_MustRegisterHTTPHandlers_steps : provider := [Need GetUserProfileHandlerLoader; Need UpdateUserProfileHandlerLoader].
Definition MustRegisterMessageHandlers_steps : provider := [Need UserProfileServiceLoader; Do RegisterMessageHandlers].

(** Every loader has one provider. *)
Definition program (n : node) : provider :=
  NewInfrastructureContainer n ++ user_NewDependencyContainer n ++ userprofile_NewDependencyContainer n.

(** *** The four programs, up to the deferred [Close] *)

Definition user_service : provider :=
  [Need HTTPServerLoader] ++ user_MustRegisterHTTPHandlers_steps ++
  [Need LoggerLoader; Do (RunJobs [TermSignalAwaiter; HTTPListener])].
Definition user_profile_service : provider :=
  [Need HTTPServerLoader] ++ userprofile_MustRegisterHTTPHandlers_steps ++
  [Need LoggerLoader; Do (RunJobs [TermSignalAwaiter; HTTPListener])].
Definition message_handler_worker : provider :=
  [Need MessageBusListenerLoader] ++ MustRegisterMessageHandlers_steps ++
  [Need MessageStorageConsumersLoader; Need LoggerLoader;
   Do (RunJobs [StorageConsumerWorkers; BusListenerWorkers; TermSignalAwaiter; ProcessStorageConsumers])].
Definition idk_cleaner_task : provider :=
  [Need LoggerLoader; Need IdempotencyKeysCleanerLoader; Do (RunJobs [TermSignalAwaiter; DeleteOutdatedKeys])].

(** The depth of the loads. *)
Definition wiring_fuel : nat := 16.
(** ** What the effects do *)

(** The files embedded by data/sql/user and data/sql/userprofile. *)
Definition sql_lines (lines : list string) : string := String.concat newline lines.
Definition user_migrationFiles : list DirEntry :=
  [mkDirEntry "2023-08-03-001-create-user-table.sql" false
     (Ok (sql_lines
       ["create table if not exists " +:+ quoted "user" +:+ " (";
        "    id            uuid primary key,";
        "    login         text        not null unique,";
        "    password_hash text        not null,";
        "    created_at    timestamptz not null default current_timestamp,";
        "    updated_at    timestamptz not null default current_timestamp,";
        "    deleted_at    timestamptz          default null";
        ")"]))].
Definition userprofile_migrationFiles : list DirEntry :=
  [mkDirEntry "2024-12-23-001-create-user-profile-table.sql" false
     (Ok (sql_lines
       ["create table if not exists user_profile (";
        "    user_id    uuid primary key,";
        "    first_name text        not null,";
        "    last_name  text        not null,";
        "    created_at timestamptz not null default current_timestamp,";
        "    updated_at timestamptz not null default current_timestamp";
        ")"]))].
Definition user_Migrations : result (list Migration) := FSMigrations (Ok user_migrationFiles).
Definition userprofile_Migrations : result (list Migration) := FSMigrations (Ok userprofile_migrationFiles).
Definition source_migrations (s : source) : result (list Migration) :=
  match s with
  | MessageStorageSource => MessageStorageMigrations
  | IdempotencyKeySource => IdempotencyKeyMigrations
  | UserSource => user_Migrations
  | UserProfileSource => userprofile_Migrations
  end.

(** The process beside the world: its environment, squirrel's flag, the values
    the loaders of the logger and of the database hold, and the status the Go
    runtime ended it with, if it did. *)
Record process := mkProcess {
  p_env : gmap string string;
  p_placeholder : bool;
  p_Logger : option Logger;
  p_DB : option nat;
  p_crashed : option Z;
}.

(** [Run] of pkg/cmd: the jobs of a program, concurrently (Worker models the
    group they run in); its panic is one of a job, in a goroutine of the
    group's pool. *)
Class Jobs (W : Type) := Run : context → list job → M W (option error).

Section effects.
Context {C W : Type} {HPL : ParseLib} {HSS : ScreamingSnake} {HK : Kebab} {HMJ : MessageJSON}.
Context {HX : Sqlx W} {HBP : BackoffPolicy W} {HD : DB W} {HSt : Storage W} {HJ : Jobs W}.
Context {HL : LogSink W} {HMt : Metrics W} {HMD : MetricsDuration W} {HC : HasClock W} {HNU : NewUUID W}.
Context {HRU : RemoteUserService W} {HR : UserProfileRepository W} {HI : Idk.IdkService W} {HT : Persistence.Transaction W}.
Context (error_Error : error → string) (uuid_String : uuid → string) (show_time : option time → string) (event_Value : event → string).
Context (Unmarshal : string → result UserDeleted) (get_consumer : Topic → Subscriber → M W (result C)) (stack : string).

Definition on_environment {A} (m : M (gmap string string) A) : M (process * W) A := λ '(p, w),
  let '(r, e) := m (p_env p) in (r, (mkProcess e (p_placeholder p) (p_Logger p) (p_DB p) (p_crashed p), w)).
Definition on_database {A} (m : M (gmap string string * (bool * W)) A) : M (process * W) A := λ '(p, w),
  let '(r, (e, (b, w'))) := m (p_env p, (p_placeholder p, w)) in (r, (mkProcess e b (p_Logger p) (p_DB p) (p_crashed p), w')).
Definition set_Logger (l : Logger) (p : process) : process := mkProcess (p_env p) (p_placeholder p) (Some l) (p_DB p) (p_crashed p).
Definition set_DB (db : nat) (p : process) : process := mkProcess (p_env p) (p_placeholder p) (p_Logger p) (Some db) (p_crashed p).
Definition set_crashed (code : Z) (p : process) : process := mkProcess (p_env p) (p_placeholder p) (p_Logger p) (p_DB p) (Some code).

(** The logger of the container: the value of its loader. *)
Definition with_logger {A} (f : Logger → M (process * W) A) : M (process * W) A :=
  p ← get_obj;
  match p_Logger p with Some l => f l | None => panic nilDereference end.

(** What runs in goroutines of its own: a panic there is recovered by nobody,
    and the runtime ends the process with status 2 at once; [main] goes no
    further. *)
Definition in_goroutines {A} (m : M W A) : M (process * W) A := λ '(p, w),
  match m w with
  | (Panic _, w') => (Blocked, (set_crashed 2 p, w'))
  | (o, w') => (o, (p, w'))
  end.

Definition perform (e : effect) : M (process * W) unit :=
  match e with
  | GetEnv key => _ ← on_environment (must_env_string error_Error key); mret tt
  | GetServiceURL dest => _ ← on_environment (must_env_string error_Error (ToScreamingSnakeCase dest +:+ "_SERVICE_URL")); mret tt
  | ReadLogLevel => l ← on_environment loggerProvider; modify_obj (set_Logger l)
  | OpenDatabase => db ← on_database (sqlDatabaseProvider error_Error context_Background); modify_obj (set_DB db)
  | Migrate s => with_logger (λ logger, on_env (MustRegister error_Error logger context_Background [source_migrations s]))
  | RegisterUserMessages =>
      with_logger (λ logger,
        match user_eventDispatcherProvider error_Error uuid_String event_Value
                (messageBusProducerProvider error_Error uuid_String show_time (observerProvider logger) logger) with
        | Ret _ => mret tt
        | Panic msg => panic msg
        | Blocked => block
        | OutOfFuel => out_of_fuel
        end)
  | RegisterMessageHandlers =>
      with_logger (λ logger,
        _ ← on_env (MustRegisterMessageHandlers error_Error Unmarshal get_consumer
                      (messageBusListenerProvider (C := C) error_Error uuid_String (observerProvider logger) logger));
        mret tt)
  | RunJobs jobs => err ← in_goroutines (Run context_Background jobs); MustRun error_Error err
  end.

(** *** The programs with their deferred [Close] *)

Abbreviation Program := (M (gmap node status * (process * W))).
Abbreviation load_loader := (load program perform wiring_fuel).

Definition log_failure (f : Logger → Logger) (msg : string) : Program unit :=
  _ ← load_loader LoggerLoader;
  on_env (with_logger (λ logger, on_env (logger_Log (f logger) (Some context_Background) LevelError msg))).

Definition close_database : Program unit :=
  st ← get_obj;
  if decide (st !! DBLoader = Some Loaded) then
    p ← on_env get_obj;
    match p_DB p with
    | None => panic nilDereference
    | Some db =>
        err ← on_env (on_env (database_Close db));
        match err with
        | Some e => log_failure (λ l, logger_WithError error_Error l (Some e)) "failed to close postgresql database"
        | None => mret tt
        end
    end
  else mret tt.

(** The exit code: [os.Exit(1)] is deferred once the panic is logged. *)
Definition exiting (code : Z) (m : Program unit) : Program Z := λ s,
  match m s with
  | (Ret _, s') | (Panic _, s') => (Ret code, s')
  | (Blocked, s') => (Blocked, s')
  | (OutOfFuel, s') => (OutOfFuel, s')
  end.
Definition Close (panicMsg : option string) : Program Z :=
  match panicMsg with
  | Some msg =>
      _ ← log_failure (λ l, logger_With l [("panic.message", msg); ("panic.stack", stack)]) "app failed with panic";
      exiting 1 close_database
  | None => _ ← close_database; mret 0%Z
  end.

Definition main (ss : provider) : Program Z := λ s,
  match run_steps program perform wiring_fuel ss s with
  | (Ret _, s') => Close None s'
  | (Panic msg, s') => Close (Some msg) s'
  | (Blocked, s') => (Blocked, s')
  | (OutOfFuel, s') => (OutOfFuel, s')
  end.

(** *** Starting *)

(** The programs, with what starting them does. *)
Definition programs : list (provider * list effect) :=
  [(user_service,
    [GetEnv "SERVICE_ADDRESS"; ReadLogLevel; OpenDatabase; Migrate UserSource; Migrate MessageStorageSource; RegisterUserMessages;
     RunJobs [TermSignalAwaiter; HTTPListener]]);
   (user_profile_service,
    [GetEnv "SERVICE_ADDRESS"; ReadLogLevel; GetServiceURL "user"; OpenDatabase; Migrate UserProfileSource;
     Migrate IdempotencyKeySource; RunJobs [TermSignalAwaiter; HTTPListener]]);
   (message_handler_worker,
    [OpenDatabase; ReadLogLevel; Migrate MessageStorageSource; GetServiceURL "user"; Migrate UserProfileSource;
     Migrate IdempotencyKeySource; RegisterMessageHandlers;
     RunJobs [StorageConsumerWorkers; BusListenerWorkers; TermSignalAwaiter; ProcessStorageConsumers]]);
   (idk_cleaner_task,
    [ReadLogLevel; OpenDatabase; Migrate IdempotencyKeySource; RunJobs [TermSignalAwaiter; DeleteOutdatedKeys]])].

(** The two effects come right before the ends of their loaders, and the
    database is opened once. *)
Inductive marked : bool → list (action (Node := node) (Effect := effect)) → Prop :=
| marked_nil db : marked db []
| marked_open acts : marked true acts → marked false (Perform OpenDatabase :: Finish DBLoader :: acts)
| marked_level db acts : marked db acts → marked db (Perform ReadLogLevel :: Finish LoggerLoader :: acts)
| marked_effect db e acts : e ≠ OpenDatabase → e ≠ ReadLogLevel → marked db acts → marked db (Perform e :: acts)
| marked_finish db n acts : n ≠ DBLoader → n ≠ LoggerLoader → marked db acts → marked db (Finish n :: acts).

Definition planned (x : provider * list effect) : Prop :=
  ∃ acts, fst <$> plan_steps program wiring_fuel x.1 = Some acts ∧ effects_of acts = x.2 ∧ marked false acts.
Lemma programs_planned : Forall planned programs.
Proof.
  unfold programs. repeat (apply Forall_cons; split); [..|apply Forall_nil_2]; eexists _; (split; [vm_compute; reflexivity|]); (split; [reflexivity|]);
    repeat first [apply marked_nil|apply marked_open|apply marked_level|apply marked_effect; [discriminate..|]|apply marked_finish; [discriminate..|]].
Qed.

(** C14. Starting a program through the lazy loaders of its containers comes to
    its effects in a row, whatever each of them does: every provider runs at
    most once, no loader waits for itself, the migrations of the service and of
    what it is built on are performed - each source once - after the database
    was opened and before the first job runs, and nothing runs after a failure. *)
Theorem programs_start_in_order p es w (Hp : (p, es) ∈ programs) :
  ∃ st, run_steps program perform wiring_fuel p (∅, w) = let '(o, w') := for_each perform es w in (o, (st, w')).
Proof.
  destruct (proj1 (Forall_forall _ _) programs_planned _ Hp) as (acts & E & Hes & _). cbn [fst snd] in *. subst es.
  apply fmap_Some in E as ([acts' loaded] & E & ->). cbn [fst].
  pose proof (run_steps_does program perform wiring_fuel p acts' loaded E ∅ w (agrees_nothing program)) as Hd.
  pose proof (run_actions_effects perform acts' ∅ w) as He. destruct (run_actions perform acts' (∅, w)) as [o [l w']].
  destruct Hd as (st & Hrun & _). exists st. by rewrite He, Hrun.
Qed.

(** *** Ending *)

Context (opened : W → gset nat) (limits : W → nat → Z * Z) (dollar : W → bool).
Definition driver_at (O : gset nat) (b : bool) (w : W) : Prop := opened w = O ∧ dollar w = b.

(** Only opening and closing a database opens and closes one. *)
Class SteadyInfra : Prop := {
  si_sqlx :: SqlxSpec opened limits dollar;
  si_policy :: BackoffPolicyLaws W;
  si_returns : policy_returns (W := W);
  si_db O b :: SteadyDB (driver_at O b);
  si_jobs O b ctx jobs : steady (driver_at O b) (Run ctx jobs);
  si_consumer O b topic subscriber : steady (driver_at O b) (get_consumer topic subscriber);
  si_emit level fields msg w : ∃ w', emit level fields msg w = (Ret tt, w');
}.
Context {HSI : SteadyInfra}.

(** The process as far as the database and the logger go. *)
Definition process_at (db : option nat) (logger : option Logger) (done : bool) (O : gset nat) (b : bool) (s : process * W) : Prop :=
  p_DB s.1 = db ∧ p_Logger s.1 = logger ∧ p_placeholder s.1 = done ∧ driver_at O b s.2.

Lemma steady_on_environment {A} db logger done O b (m : M (gmap string string) A) : steady (process_at db logger done O b) (on_environment m).
Proof. intros [p w] Hs. unfold on_environment. by destruct (m (p_env p)). Qed.
Lemma steady_goroutines {A} db logger done O b (m : M W A) : steady (driver_at O b) m → steady (process_at db logger done O b) (in_goroutines m).
Proof. intros Hm [p w] (H1 & H2 & H3 & H4). specialize (Hm w H4). unfold in_goroutines. by destruct (m w) as [[]]. Qed.
Lemma steady_process {A} db logger done O b (m : M W A) : steady (driver_at O b) m → steady (process_at db logger done O b) (on_env m).
Proof. intros Hm [p w] (H1 & H2 & H3 & H4). specialize (Hm w H4). unfold on_env. by destruct (m w). Qed.
Lemma steady_with_logger {A} db logger done O b (f : Logger → M (process * W) A) :
  (∀ l, steady (process_at db logger done O b) (f l)) → steady (process_at db logger done O b) (with_logger f).
Proof. intros Hf [p w] Hs. unfold with_logger. unfold_M. case_match; [by apply Hf|done]. Qed.
#[local] Hint Resolve steady_on_environment steady_with_logger : steady.

Lemma perform_steady e db logger done O b : e ≠ OpenDatabase → e ≠ ReadLogLevel → steady (process_at db logger done O b) (perform e).
Proof.
  intros H1 H2. destruct e as [key|dest| | |s| | |jobs]; try done; cbn [perform].
  - solve_steady.
  - solve_steady.
  - apply steady_with_logger. intros l. apply steady_process. apply (steady_MustRegister error_Error l (driver_at O b) (HS := si_db O b)).
  - apply steady_with_logger. intros l. destruct (user_eventDispatcherProvider _ _ _ _); solve_steady; by intros w.
  - apply steady_with_logger. intros l. apply steady_bind; [|solve_steady]. apply steady_process.
    unfold MustRegisterMessageHandlers. apply steady_bind; [|intros [b0 []]; solve_steady].
    cbn [RegisterHandlers userprofile_topicHandlers]. apply steady_bind; [|intros [b0 []]; solve_steady].
    unfold registerTopicHandlers. pose proof (si_consumer O b). solve_steady.
  - apply steady_bind; [apply steady_goroutines, si_jobs|]. intros [e|]; solve_steady.
Qed.

(** Opening the database, and reading the level of the log. *)
Lemma perform_OpenDatabase p w o p' w' O b : p_DB p = None → (p_placeholder p = true → b = true) → driver_at O b w →
  perform OpenDatabase (p, w) = (o, (p', w')) →
  p_Logger p' = p_Logger p ∧ ∃ b', (p_placeholder p' = true → b' = true) ∧
    match o with
    | Ret _ => ∃ db, p_DB p' = Some db ∧ (db ∉ O) ∧ driver_at ({[db]} ∪ O) b' w'
    | _ => p_DB p' = None ∧ driver_at O b' w'
    end.
Proof.
  intros Hdb Hph [HO Hb]. cbn [perform]. unfold_M. unfold on_database, sqlDatabaseProvider. unfold_M.
  destruct (sql_config error_Error (p_env p)) as [[config|msg| |] e]; try by (intros [= <- <- <-]; split; [done|exists b]).
  unfold on_env. rewrite <- HO, <- Hb in *.
  destruct (NewDatabase_opened opened limits dollar si_returns context_Background config (p_placeholder p) w Hph)
    as (r & done' & w1 & -> & Hd & Hr).
  destruct r as [db|err]; intros [= <- <- <-]; cbn; (split; [done|]); exists (dollar w1); (split; [done|]).
  - destruct Hr as (Hnew & Ho & _). exists db. by split_and!.
  - by split_and!.
Qed.

Lemma perform_ReadLogLevel s : ∃ logger e, perform ReadLogLevel s =
  (Ret tt, (mkProcess e (p_placeholder s.1) (Some logger) (p_DB s.1) (p_crashed s.1), s.2)).
Proof.
  destruct s as [p w]. cbn [perform]. unfold_M. unfold on_environment, loggerProvider, env_Parse, LookupEnv. unfold_M.
  destruct (p_env p !! "LOG_LEVEL") as [v|]; [|by eexists _, _]. cbn. by eexists _, _.
Qed.

(** The database is open exactly when its loader is loaded; the logger is there
    exactly when its loader is. *)
Definition consistent (O : gset nat) (l : gset node) (s : process * W) : Prop := ∃ db logger done b,
  process_at db logger done (match db with Some d => {[d]} ∪ O | None => O end) b s ∧
  (∀ d, db = Some d → d ∉ O) ∧ (done = true → b = true) ∧ (DBLoader ∈ l ↔ db ≠ None) ∧ (LoggerLoader ∈ l ↔ logger ≠ None).

Lemma run_consistent O db acts : marked db acts → ∀ l s o l' s', consistent O l s → (db = false → p_DB s.1 = None) →
  run_actions perform acts (l, s) = (o, (l', s')) → consistent O l' s'.
Proof.
  induction 1 as [db|acts Hm IH|db acts Hm IH|db e acts H1 H2 Hm IH|db n acts H1 H2 Hm IH]; intros l [p w] o l' s' Hc Hdb Hrun;
    destruct Hc as (odb & logger & done & b & (Hpdb & Hplog & Hpdone & Hat) & Hnew & Hph & Hind & Hinl); cbn [fst snd] in *;
    unfold run_actions in *; cbn [for_each run_action] in Hrun; unfold_M.
  - injection Hrun as <- <- <-. by exists odb, logger, done, b.
  - specialize (Hdb eq_refl). rewrite Hdb in Hpdb. subst odb. unfold on_env in Hrun.
    destruct (perform OpenDatabase (p, w)) as [o1 [p1 w1]] eqn:E.
    destruct (perform_OpenDatabase p w o1 p1 w1 O b Hdb ltac:(by rewrite Hpdone) Hat E) as (Hlog & b' & Hph' & Hres). rewrite Hplog in Hlog.
    destruct o1 as [u|msg| |].
    + destruct Hres as (db & Hdb' & Hfresh & Hat'). eapply (IH _ (p1, w1)); [|done|exact Hrun].
      exists (Some db), logger, (p_placeholder p1), b'. split_and!; cbn; try done; [by intros d [= <-]|set_solver|set_solver].
    + injection Hrun as <- <- <-. exists None, logger, (p_placeholder p1), b'. destruct Hres. by split_and!.
    + injection Hrun as <- <- <-. exists None, logger, (p_placeholder p1), b'. destruct Hres. by split_and!.
    + injection Hrun as <- <- <-. exists None, logger, (p_placeholder p1), b'. destruct Hres. by split_and!.
  - unfold on_env in Hrun. destruct (perform_ReadLogLevel (p, w)) as (lg & e & Hl). rewrite Hl in Hrun. cbn [fst snd] in *.
    eapply IH; [| |exact Hrun]; [|exact Hdb].
    exists odb, (Some lg), done, b. split_and!; cbn; try done; set_solver.
  - pose proof (perform_steady e odb logger done (match odb with Some d => {[d]} ∪ O | None => O end) b H1 H2 (p, w)
      (conj Hpdb (conj Hplog (conj Hpdone Hat)))) as Hst.
    unfold on_env in Hrun. destruct (perform e (p, w)) as [o1 [p1 w1]]. cbn [snd] in Hst. pose proof Hst as (Hpdb1 & _).
    assert (Hc1 : consistent O l (p1, w1)) by by exists odb, logger, done, b.
    destruct o1 as [u|msg| |]; try (injection Hrun as <- <- <-; exact Hc1).
    eapply (IH _ (p1, w1)); [exact Hc1| |exact Hrun]. intros Hf. cbn [fst] in *. rewrite Hpdb1, <- Hpdb. by apply Hdb.
  - eapply (IH _ (p, w)); [|exact Hdb|exact Hrun]. exists odb, logger, done, b. split_and!; try done; set_solver.
Qed.

(** The logger can be used: it is loaded, or its loader was not asked yet. *)
Definition logger_ready (st : gmap node status) (logger : option Logger) : Prop :=
  (st !! LoggerLoader = Some Loaded ∧ logger ≠ None) ∨ (st !! LoggerLoader = None ∧ logger = None).

Lemma log_failure_spec f msg st p w db logger done O b : process_at db logger done O b (p, w) → logger_ready st logger →
  ∃ st' p' w' logger', log_failure f msg (st, (p, w)) = (Ret tt, (st', (p', w'))) ∧ process_at db (Some logger') done O b (p', w') ∧
    st' !! DBLoader = st !! DBLoader ∧ st' !! LoggerLoader = Some Loaded.
Proof.
  intros Hp Hready. unfold log_failure.
  assert (∃ st1 p1 lg, load_loader LoggerLoader (st, (p, w)) = (Ret tt, (st1, (p1, w))) ∧ process_at db (Some lg) done O b (p1, w) ∧
    st1 !! DBLoader = st !! DBLoader ∧ st1 !! LoggerLoader = Some Loaded) as (st1 & p1 & lg & Hload & Hp1 & Hst1 & Hlg1).
  { destruct Hready as [[Hst Hlg]|[Hst Hlg]]; unfold wiring_fuel; cbn [load]; unfold_M; rewrite Hst.
    - destruct logger as [lg|]; [|done]. by exists st, p, lg.
    - change (program LoggerLoader) with [Do (Node := node) ReadLogLevel]. unfold finishing. cbn [for_each run_step]. unfold_M. unfold on_env.
      destruct (perform_ReadLogLevel (p, w)) as (lg & e & ->). cbn [fst snd].
      eexists _, _, lg. split; [done|]. destruct Hp as (H1 & H2 & H3 & H4). cbn [fst snd] in *.
      split; [by split_and!|]. split; [|apply lookup_insert_eq]. by rewrite !lookup_insert_ne. }
  rewrite (M_bind_Ret _ _ _ _ _ Hload). destruct Hp1 as (H1 & H2 & H3 & H4). cbn [fst snd] in *.
  unfold on_env at 1, with_logger. unfold_M. rewrite H2. unfold on_env.
  destruct (logger_Log_ctx (f lg) context_Background LevelError msg w) as [->|[fields ->]].
  - exists st1, p1, w, lg. by split_and!.
  - pose proof (sd_emit (driver_at O b) (SteadyDB := si_db O b) LevelError fields msg w H4) as He.
    destruct (si_emit LevelError fields msg w) as [w1 Hw1]. rewrite Hw1 in *. exists st1, p1, w1, lg. by split_and!.
Qed.

Lemma close_database_spec O st p w odb logger done b :
  process_at odb logger done (match odb with Some d => {[d]} ∪ O | None => O end) b (p, w) → (∀ d, odb = Some d → d ∉ O) →
  (st !! DBLoader = Some Loaded ↔ odb ≠ None) → logger_ready st logger →
  ∃ st' p' w', close_database (st, (p, w)) = (Ret tt, (st', (p', w'))) ∧ opened w' = O.
Proof.
  intros Hp Hnew Hst Hready. unfold close_database. unfold_M. case_decide as Hd.
  - destruct odb as [db|]; [|by destruct (proj1 Hst Hd)]. unfold on_env at 1. destruct Hp as (H1 & H2 & H3 & H4 & H5). cbn [fst snd] in *.
    rewrite H1. unfold on_env, database_Close. destruct (close_spec (opened := opened) (dollar := dollar) db w) as (r & w1 & -> & Ho & Hdo).
    assert (Hat : driver_at O b w1). { split; [|congruence]. rewrite Ho, H4. specialize (Hnew db eq_refl). set_solver. }
    destruct r as [e|]; [|by exists st, p, w1; split; [|apply Hat]].
    destruct (log_failure_spec (λ l, logger_WithError error_Error l (Some e)) "failed to close postgresql database" st p w1 (Some db) logger done O b
      ltac:(by split_and!) Hready) as (st' & p' & w' & lg & Hlog & Hat' & _). rewrite Hlog. exists st', p', w'. split; [done|]. apply Hat'.
  - exists st, p, w. split; [done|]. destruct odb as [db|]; [|apply Hp]. exfalso. by apply Hd, Hst.
Qed.

(** *** Crashing: only the jobs, the last of the effects, run in goroutines *)

Definition uncrashed (s : process * W) : Prop := p_crashed s.1 = None.

Lemma perform_uncrashed e : (∀ jobs, e ≠ RunJobs jobs) → steady uncrashed (perform e).
Proof.
  assert (Henv : ∀ A (m : M (gmap string string) A), steady uncrashed (on_environment m)).
  { intros A m [p w] Hs. unfold on_environment. by destruct (m (p_env p)). }
  assert (Hworld : ∀ A (m : M W A), steady uncrashed (on_env m)) by (intros A m [p w] Hs; unfold on_env; by destruct (m w)).
  assert (Hlog : ∀ f : Logger → M (process * W) unit, (∀ l, steady uncrashed (f l)) → steady uncrashed (with_logger f)).
  { intros f Hf [p w] Hs. unfold with_logger. unfold_M. case_match; [by apply Hf|done]. }
  intros Hne. destruct e as [key|dest| | |s| | |jobs]; cbn [perform]; try by destruct (Hne jobs).
  - apply steady_bind; [apply Henv|]. intros; apply steady_ret.
  - apply steady_bind; [apply Henv|]. intros; apply steady_ret.
  - apply steady_bind; [apply Henv|]. by intros l [p w].
  - apply steady_bind; [|by intros db [p w]]. intros [p w] Hs. unfold on_database. by destruct (sqlDatabaseProvider _ _ _) as [? [? []]].
  - apply Hlog. intros l. apply Hworld.
  - apply Hlog. intros l. destruct (user_eventDispatcherProvider _ _ _ _); by intros [p w].
  - apply Hlog. intros l. apply steady_bind; [apply Hworld|]. intros; apply steady_ret.
Qed.

Lemma perform_jobs_crash jobs s : uncrashed s → let '(o, s') := perform (RunJobs jobs) s in
  uncrashed s' ∨ (o = Blocked ∧ p_crashed s'.1 = Some 2%Z ∧ ∃ msg w1, Run context_Background jobs w1 = (Panic msg, s'.2)).
Proof.
  destruct s as [p w]. intros Hs. cbn [perform]. unfold_M. unfold in_goroutines.
  destruct (Run context_Background jobs w) as [[err|msg| |] w1] eqn:E; [|right|by left..].
  - destruct err as [e|]; by left.
  - split; [done|]. split; [done|]. by exists msg, w.
Qed.

(** The jobs are run last, after the database was opened. *)
Definition jobs_last (acts : list (action (Node := node) (Effect := effect))) : Prop := ∃ init jobs,
  acts = init ++ [Perform (RunJobs jobs)] ∧ Forall (λ a, match a with Perform (RunJobs _) => False | _ => True end) init ∧
  DBLoader ∈ loads_to ∅ init.
Definition jobs_lastb (acts : list (action (Node := node) (Effect := effect))) : bool :=
  match rev acts with
  | Perform (RunJobs _) :: init =>
      forallb (λ a, match a with Perform (RunJobs _) => false | _ => true end) init && bool_decide (DBLoader ∈ loads_to ∅ (rev init))
  | _ => false
  end.
Lemma jobs_lastb_spec acts : jobs_lastb acts = true → jobs_last acts.
Proof.
  unfold jobs_lastb. destruct (rev acts) as [|[[]|] init] eqn:E; try done. intros [Hall Hdb%bool_decide_eq_true]%andb_true_iff.
  exists (rev init), jobs. split; [by rewrite <- (rev_involutive acts), E|]. split; [|done].
  apply Forall_rev, Forall_forall. intros a Ha%list_elem_of_In. rewrite forallb_forall in Hall. specialize (Hall a Ha). by destruct a as [[]|].
Qed.
Lemma programs_jobs_last p es acts loaded : (p, es) ∈ programs → plan_steps program wiring_fuel p = Some (acts, loaded) → jobs_last acts.
Proof.
  intros Hp Hplan. apply jobs_lastb_spec.
  assert (Hall : forallb (λ x : provider * list effect, match plan_steps program wiring_fuel x.1 with Some (acts, _) => jobs_lastb acts | None => false end)
    programs = true) by (vm_compute; reflexivity).
  rewrite forallb_forall in Hall. apply list_elem_of_In in Hp. specialize (Hall _ Hp). cbn [fst] in Hall. by rewrite Hplan in Hall.
Qed.

Lemma crash_spec acts s o l s' : jobs_last acts → uncrashed s → run_actions perform acts (∅, s) = (o, (l, s')) →
  uncrashed s' ∨ (o = Blocked ∧ DBLoader ∈ l ∧ p_crashed s'.1 = Some 2%Z ∧
    ∃ jobs msg w1, RunJobs jobs ∈ effects_of acts ∧ Run context_Background jobs w1 = (Panic msg, s'.2)).
Proof.
  intros (init & jobs & -> & Hinit & Hdb) Hs. unfold run_actions. rewrite for_each_app.
  assert (Hrun : steady (λ x : gset node * (process * W), uncrashed x.2) (for_each (run_action perform) init)).
  { clear Hdb. induction Hinit as [|a init Ha _ IH]; [apply steady_ret|]. cbn [for_each]. apply steady_bind; [|intros; exact IH].
    destruct a as [e|n]; [|by intros [l0 s0]]. intros [l0 s0] H0. cbn [run_action]. unfold on_env.
    pose proof (perform_uncrashed e ltac:(by intros js ->) s0 H0) as H1. by destruct (perform e s0). }
  specialize (Hrun (∅, s) Hs). unfold_M. destruct (for_each (run_action perform) init (∅, s)) as [o1 [l1 s1]] eqn:E1. cbn [snd] in Hrun.
  destruct o1 as [[]|msg| |]; [|by intros [= <- <- <-]; left..]. apply run_actions_loaded in E1 as ->.
  cbn [for_each run_action]. unfold_M. unfold on_env. pose proof (perform_jobs_crash jobs s1 Hrun) as Hj.
  destruct (perform (RunJobs jobs) s1) as [o2 s2]. destruct Hj as [Hj|(-> & Hc & msg & w1 & Hr)].
  - destruct o2; intros [= <- <- <-]; by left.
  - intros [= <- <- <-]. right. split; [done|]. split; [done|]. split; [done|]. exists jobs, msg, w1. split; [|done].
    unfold effects_of. rewrite omap_app. apply elem_of_app. right. by left.
Qed.

End effects.

(** ** Witnesses: a task whose job fails after the database was opened *)

Definition idle_driver_DB : DB driverWorld := {|
  ToSql := λ _, None; db_exec := λ _ _ _ w, (Ret (Ok (Ok 1%Z)), w); db_select := λ _ _ _ w, (Ret (Ok []), w);
  db_get := λ _ _ _ w, (Ret (Ok [ABool true]), w); db_connx := λ _ w, (Ret (Ok 0), w); conn_close := λ _ w, (Ret tt, w);
  begin_tx := λ _ _ w, (Ret (Ok 0), w); tx_commit := λ _ w, (Ret None, w); tx_rollback := λ _ w, (Ret None, w) |}.
Definition failing_jobs : Jobs driverWorld := λ _ _ w, (Ret (Some (ErrText "job failed")), w).
Definition no_remote : RemoteUserService driverWorld := λ _ _ w, (Ret (Err ErrSyntax), w).
Definition no_profiles : UserProfileRepository driverWorld := {|
  profile_Store := λ _ _ w, (Ret None, w); profile_FindByID := λ _ _ w, (Ret (Err ErrSyntax), w); profile_DeleteByID := λ _ _ w, (Ret None, w) |}.
Definition no_keys : Idk.IdkService driverWorld := {|
  Idk.Service_Insert := λ _ _ _ w, (Ret None, w); Idk.Service_InsertString := λ _ _ _ w, (Ret None, w) |}.
Definition no_transaction : Persistence.Transaction driverWorld := @Persistence.sql_Transaction _ idle_driver_DB userprofile_transactionProvider.
Definition upper_snake : ScreamingSnake := λ _, "USER".
Definition sample_env : gmap string string := list_to_map
  [("SQL_USER", "u"); ("SQL_PASSWORD", "p"); ("SQL_ADDRESS", "localhost"); ("SQL_DATABASE", "db");
   ("SQL_MAX_OPEN_CONNECTIONS", "10"); ("SQL_MAX_IDLE_CONNECTIONS", "2"); ("SERVICE_ADDRESS", ":80"); ("USER_SERVICE_URL", "http://user")].
Definition sample_process : process := mkProcess sample_env false None None None.

Lemma sample_infra : @SteadyInfra unit driverWorld sample_Sqlx stop_policy idle_driver_DB failing_jobs no_emit
  (λ _ _, mret (Ok tt)) dr_opened dr_limits dr_dollar.
Proof.
  split.
  - exact sample_SqlxSpec.
  - exact stop_policy_laws.
  - exact stop_policy_returns.
  - intros O b. split; intros; by intros w.
  - intros O b ctx jobs. by intros w.
  - intros O b topic subscriber. by intros w.
  - intros level fields msg w. by exists w.
Qed.

Abbreviation on_sample f := (f unit driverWorld two_uuids upper_snake plain_kebab bitsJSON sample_Sqlx stop_policy idle_driver_DB
  (@MessageStorage.messageStorage _ idle_driver_DB) failing_jobs no_emit no_increment no_duration stopped_clock (λ w, (Ret 7%N, w))
  no_remote no_profiles no_keys no_transaction (λ _, "error") (λ _, "uuid") (λ _, "time") (λ _, "") (λ _, Err ErrSyntax)
  (λ _ _, mret (Ok tt))) (only parsing).

(** What starting the task does. *)
Definition sample_start : outcome unit * (process * driverWorld) :=
  for_each (on_sample (@perform)) [ReadLogLevel; OpenDatabase; Migrate IdempotencyKeySource; RunJobs [TermSignalAwaiter; DeleteOutdatedKeys]]
    (sample_process, closed_world).
Lemma sample_start_fails : fst sample_start = Panic "error".
Proof. vm_compute. reflexivity. Qed.

Lemma programs_start_in_order_witness :
  ∃ st w', run_steps program (on_sample (@perform)) wiring_fuel idk_cleaner_task (∅, (sample_process, closed_world)) =
    (Panic "error", (st, w')) ∧ dr_opened (snd w') = {[0]}.
Proof.
  destruct (on_sample (@programs_start_in_order) idk_cleaner_task _ (sample_process, closed_world)
    ltac:(do 3 right; left)) as (st & H).
  change (for_each _ _ _) with sample_start in H. exists st, (snd sample_start).
  rewrite (surjective_pairing sample_start), sample_start_fails in H. split; [exact H|vm_compute; reflexivity].
Defined.

