(* ===== verification/StorageDelivery.v ===== *)
(** The messages of a topic from the storage through the storage consumer
    (pkg/message/storageconsumer.go) into the goroutines of a listener
    (pkg/message/listener.go) with an ack queue (listenerqueue.go), as the
    program of src/cmd/message-handler-worker runs them: one system of the
    consumer's worker, the listener's loop and a goroutine per message. *)
From S2P Require Import Prelude Context Message Queue StorageConsumer Table MessageStorage.
From Stdlib Require Import Sorting.Sorted.

(** ** The positions of the three kinds of goroutines *)

(** The consumer's worker: in the [select] of [Worker]; in
    [consumeStorageMessagesBatch] about to lock and to read the storage; at the
    [select] that hands a message over and after it; about to test
    [processedCount], past the test, asleep in [Wait]; in the deferred release
    with what the batch returns; returned with the channel closed.  [more] is
    the negation of [allProcessed]. *)
Inductive workerAt :=
| WIdle
| WLock
| WFind
| WSend (todo : list Message) (more : bool)
| WAdd (msg : Message) (todo : list Message) (more : bool)
| WCheck (more : bool)
| WWait (more : bool)
| WSleep (more : bool)
| WRelease (more failed : bool)
| WClosed.

(** The loop of [consumerWorker]: waiting for a token, for a message, about to
    add the message it received, returned. *)
Inductive loopAt :=
| LToken
| LMessage
| LAdd (msg : ConsumerMessage)
| LReturned (err : option error).

(** A goroutine of [processMessage]: at the head of its loop, running the
    handlers, acknowledging a success, between the deletion and
    [removeFromProcessing] in [Ack], about to return the token. *)
Inductive taskAt := TTop | TRun | TAck | TRemove | TRelease.

Record system := mkSystem {
  sy_consumer : storageConsumer unit;
  sy_worker : workerAt;
  sy_stored : list (time * Message);
  sy_queue : ackNackQueue;
  sy_loop : loopAt;
  sy_tasks : list (ConsumerMessage * taskAt);
  (** the pointers handed out, the clock *)
  sy_pointers : nat;
  sy_now : time;
  (** what happened: ids whose handlers succeeded, messages acknowledged, and
      whether an acknowledgement met one of the two races of the consumer *)
  sy_handled : list uuid;
  sy_deleted : list Message;
  sy_cancelled : bool;
  sy_raced : bool;
}.

Definition set_consumer c s := mkSystem c (sy_worker s) (sy_stored s) (sy_queue s) (sy_loop s) (sy_tasks s)
  (sy_pointers s) (sy_now s) (sy_handled s) (sy_deleted s) (sy_cancelled s) (sy_raced s).
Definition set_worker p s := mkSystem (sy_consumer s) p (sy_stored s) (sy_queue s) (sy_loop s) (sy_tasks s)
  (sy_pointers s) (sy_now s) (sy_handled s) (sy_deleted s) (sy_cancelled s) (sy_raced s).
Definition set_stored l s := mkSystem (sy_consumer s) (sy_worker s) l (sy_queue s) (sy_loop s) (sy_tasks s)
  (sy_pointers s) (sy_now s) (sy_handled s) (sy_deleted s) (sy_cancelled s) (sy_raced s).
Definition set_queue q s := mkSystem (sy_consumer s) (sy_worker s) (sy_stored s) q (sy_loop s) (sy_tasks s)
  (sy_pointers s) (sy_now s) (sy_handled s) (sy_deleted s) (sy_cancelled s) (sy_raced s).
Definition set_loop l s := mkSystem (sy_consumer s) (sy_worker s) (sy_stored s) (sy_queue s) l (sy_tasks s)
  (sy_pointers s) (sy_now s) (sy_handled s) (sy_deleted s) (sy_cancelled s) (sy_raced s).
Definition set_tasks ts s := mkSystem (sy_consumer s) (sy_worker s) (sy_stored s) (sy_queue s) (sy_loop s) ts
  (sy_pointers s) (sy_now s) (sy_handled s) (sy_deleted s) (sy_cancelled s) (sy_raced s).
Definition next_pointer s := mkSystem (sy_consumer s) (sy_worker s) (sy_stored s) (sy_queue s) (sy_loop s) (sy_tasks s)
  (S (sy_pointers s)) (sy_now s) (sy_handled s) (sy_deleted s) (sy_cancelled s) (sy_raced s).
Definition set_now t s := mkSystem (sy_consumer s) (sy_worker s) (sy_stored s) (sy_queue s) (sy_loop s) (sy_tasks s)
  (sy_pointers s) t (sy_handled s) (sy_deleted s) (sy_cancelled s) (sy_raced s).
Definition note_handled id s := mkSystem (sy_consumer s) (sy_worker s) (sy_stored s) (sy_queue s) (sy_loop s) (sy_tasks s)
  (sy_pointers s) (sy_now s) (id :: sy_handled s) (sy_deleted s) (sy_cancelled s) (sy_raced s).
Definition note_deleted m s := mkSystem (sy_consumer s) (sy_worker s) (sy_stored s) (sy_queue s) (sy_loop s) (sy_tasks s)
  (sy_pointers s) (sy_now s) (sy_handled s) (m :: sy_deleted s) (sy_cancelled s) (sy_raced s).
Definition cancel s := mkSystem (sy_consumer s) (sy_worker s) (sy_stored s) (sy_queue s) (sy_loop s) (sy_tasks s)
  (sy_pointers s) (sy_now s) (sy_handled s) (sy_deleted s) true (sy_raced s).
Definition note_race b s := mkSystem (sy_consumer s) (sy_worker s) (sy_stored s) (sy_queue s) (sy_loop s) (sy_tasks s)
  (sy_pointers s) (sy_now s) (sy_handled s) (sy_deleted s) (sy_cancelled s) (sy_raced s || b).

(** ** The operations of the components on the system *)

#[export] Instance scheduled_le_dec a b : Decision (scheduled_le a b).
Proof. unfold scheduled_le. apply _. Defined.
(** What [Find] may return, as [messageStorage_Find_spec] has it. *)
Definition found_by (spec : StorageSpecification) (stored : list (time * Message)) (ms : list Message) : Prop :=
  ∃ due, due ≡ₚ filter (matches spec) stored ∧ StronglySorted scheduled_le due ∧
    ms = snd <$> (if (0 <? Limit spec)%Z then take (Z.to_nat (Limit spec)) due else due).
(** What [Delete] leaves, as [messageStorage_Store_Delete_spec] has it. *)
Definition delete_stored (m : Message) (stored : list (time * Message)) : list (time * Message) :=
  filter (λ e, ¬ (msg_Topic (snd e) = msg_Topic m ∧ msg_ID (snd e) ∈ [msg_ID m])) stored.

Definition find_spec (s : system) : StorageSpecification :=
  mkSpec (getProcessingMessageIDs (sy_consumer s)) [sc_topic (sy_consumer s)] (sy_now s) (consumingBatchSize (sy_consumer s)).
Definition all_processed (s : system) (ms : list Message) : bool :=
  bool_decide (Z.of_nat (length ms) < consumingBatchSize (sy_consumer s))%Z.

(** [processChan] is received from. *)
Definition take_signal {W} (c : storageConsumer W) : storageConsumer W :=
  mkStorageConsumer (sc_topic c) (consumingBatchSize c) (processingMessages c) (sc_processedCount c) false
    (onMessageProcessing c) (onAcknowledge c) (onMessageBatchProcessed c).

(** [Signal] with the new count: only a worker asleep in [Wait] notices. *)
Definition wake (count : nat) (p : workerAt) : workerAt :=
  match p, count with WSleep more, O => WCheck more | _, _ => p end.

(** The two moments at which an acknowledgement of [id] is lost on the
    worker. *)
Definition race (id : uuid) (p : workerAt) : bool :=
  match p with WAdd m _ _ => bool_decide (msg_ID m = id) | WWait _ => true | _ => false end.

Definition remove_processing (id : uuid) (s : system) : system :=
  let c := removeFromProcessing id (sy_consumer s) in
  note_race (race id (sy_worker s)) (set_worker (wake (sc_processedCount c) (sy_worker s)) (set_consumer c s)).

(** [backoff.Retry] of a failed batch: again, unless the context is done. *)
Definition retry (s : system) : workerAt := if sy_cancelled s then WIdle else WLock.

(** ** Steps: progress, disturbances (errors, time, new messages and signals)
    and what cancellation allows *)

Inductive kind := Work | Fault | Stop.

Inductive worker_step : kind → system → system → Prop :=
| wk_wake s :
    sy_worker s = WIdle → processChan (sy_consumer s) = true →
    worker_step Work s (set_worker WLock (set_consumer (take_signal (sy_consumer s)) s))
| wk_close s : sy_worker s = WIdle → sy_cancelled s = true → worker_step Stop s (set_worker WClosed s)
| wk_lock s : sy_worker s = WLock → worker_step Work s (set_worker WFind s)
| wk_lock_failed s : sy_worker s = WLock → worker_step Fault s (set_worker (retry s) s)
| wk_found_none s :
    sy_worker s = WFind → found_by (find_spec s) (sy_stored s) [] →
    worker_step Work s (set_worker (WRelease false false) s)
| wk_found s m ms :
    sy_worker s = WFind → found_by (find_spec s) (sy_stored s) (m :: ms) →
    worker_step Work s (set_worker (WSend (m :: ms) (negb (all_processed s (m :: ms)))) s)
| wk_find_failed s : sy_worker s = WFind → worker_step Fault s (set_worker (WRelease true true) s)
| wk_abort s m todo more :
    sy_worker s = WSend (m :: todo) more → sy_cancelled s = true →
    worker_step Stop s (set_worker (WRelease false true) s)
| wk_add s m todo more :
    sy_worker s = WAdd m todo more →
    worker_step Work s (set_worker (WSend todo more) (set_consumer (addToProcessing (msg_ID m) (sy_consumer s)) s))
| wk_sent s more : sy_worker s = WSend [] more → worker_step Work s (set_worker (WCheck more) s)
| wk_zero s more :
    sy_worker s = WCheck more → sc_processedCount (sy_consumer s) = 0 →
    worker_step Work s (set_worker (WRelease more false) s)
| wk_nonzero s more :
    sy_worker s = WCheck more → sc_processedCount (sy_consumer s) ≠ 0 →
    worker_step Work s (set_worker (WWait more) s)
| wk_sleep s more : sy_worker s = WWait more → worker_step Work s (set_worker (WSleep more) s)
| wk_next s : sy_worker s = WRelease true false → worker_step Work s (set_worker WLock s)
| wk_finished s : sy_worker s = WRelease false false → worker_step Work s (set_worker WIdle s)
| wk_retry s more : sy_worker s = WRelease more true → worker_step Work s (set_worker (retry s) s)
| wk_release_failed s more failed :
    sy_worker s = WRelease more failed → worker_step Fault s (set_worker (retry s) s).

Inductive loop_step : kind → system → system → Prop :=
| lp_token s t :
    sy_loop s = LToken → anq_tokens (sy_queue s) = S t →
    loop_step Work s (set_loop LMessage
      (set_queue (mkAckNackQueue (anq_maxSize (sy_queue s)) t (anq_cap (sy_queue s)) (anq_queue (sy_queue s))) s))
| lp_add s msg q :
    sy_loop s = LAdd msg → ackNack_AddProcessing msg (sy_queue s, tt) = (Ret None, (q, tt)) →
    loop_step Work s (set_loop LToken (set_tasks ((msg, TTop) :: sy_tasks s) (set_queue q s)))
| lp_add_failed s msg q e :
    sy_loop s = LAdd msg → ackNack_AddProcessing msg (sy_queue s, tt) = (Ret (Some e), (q, tt)) →
    loop_step Work s (set_loop (LReturned (Some (Errorf "add to processing internal error" e))) (set_queue q s))
| lp_done s :
    sy_loop s = LToken ∨ sy_loop s = LMessage → sy_cancelled s = true → loop_step Stop s (set_loop (LReturned None) s)
| lp_closed s :
    sy_loop s = LMessage → sy_worker s = WClosed →
    loop_step Stop s (set_loop (LReturned (Some (ErrText "consumer closed messages channel"))) s).

(** The unbuffered channel between the two. *)
Inductive hand_over : kind → system → system → Prop :=
| hand_over_message s m todo more :
    sy_worker s = WSend (m :: todo) more → sy_loop s = LMessage →
    hand_over Work s (next_pointer (set_worker (WAdd m todo more)
      (set_loop (LAdd (mkConsumerMessage (sy_pointers s) context_Background m)) s))).

Section delivery.
(** The messages the listener cannot decode or has no handlers for. *)
Context (skips : Message → bool).

(** [sy_tasks s ≡ₚ (msg, p) :: ts]: a goroutine at [p], and the others. *)
Inductive task_step : kind → system → system → Prop :=
| tk_run s msg ts :
    sy_tasks s ≡ₚ (msg, TTop) :: ts → sy_cancelled s = false → skips (cm_Message msg) = false →
    task_step Work s (set_tasks ((msg, TRun) :: ts) s)
| tk_skip s msg ts :
    sy_tasks s ≡ₚ (msg, TTop) :: ts → sy_cancelled s = false → skips (cm_Message msg) = true →
    task_step Work s (set_tasks ((msg, TAck) :: ts) s)
| tk_done s msg ts :
    sy_tasks s ≡ₚ (msg, TTop) :: ts → sy_cancelled s = true → task_step Stop s (set_tasks ts s)
| tk_handled s msg ts :
    sy_tasks s ≡ₚ (msg, TRun) :: ts →
    task_step Work s (note_handled (msg_ID (cm_Message msg)) (set_tasks ((msg, TAck) :: ts) s))
| tk_handler_retried s msg ts : sy_tasks s ≡ₚ (msg, TRun) :: ts → task_step Fault s s
| tk_handler_failed s msg ts :
    sy_tasks s ≡ₚ (msg, TRun) :: ts → task_step Fault s (set_tasks ((msg, TTop) :: ts) s)
| tk_delete s msg ts :
    sy_tasks s ≡ₚ (msg, TAck) :: ts →
    task_step Work s (note_deleted (cm_Message msg) (set_stored (delete_stored (cm_Message msg) (sy_stored s))
      (set_tasks ((msg, TRemove) :: ts) s)))
| tk_delete_failed s msg ts : sy_tasks s ≡ₚ (msg, TAck) :: ts → task_step Fault s s
| tk_give_up s msg ts :
    sy_tasks s ≡ₚ (msg, TAck) :: ts → sy_cancelled s = true → task_step Stop s (set_tasks ((msg, TTop) :: ts) s)
| tk_remove s msg ts :
    sy_tasks s ≡ₚ (msg, TRemove) :: ts →
    task_step Work s (remove_processing (msg_ID (cm_Message msg)) (set_tasks ((msg, TRelease) :: ts) s))
| tk_release s msg ts q :
    sy_tasks s ≡ₚ (msg, TRelease) :: ts → ackNack_release msg (sy_queue s, tt) = (Ret tt, (q, tt)) →
    task_step Work s (set_tasks ts (set_queue q s)).

(** Outside: messages are stored under new ids, [Process] is called, time goes
    by, the context is cancelled. *)
Inductive outside_step : kind → system → system → Prop :=
| out_store s at_ m :
    ¬ Exists (same_message m) (sy_deleted s) →
    outside_step Fault s (set_stored (store_one at_ (sy_stored s) m) s)
| out_process s : outside_step Fault s (set_consumer (consumer_Process (sy_consumer s)) s)
| out_time s t : (sy_now s <= t)%Z → outside_step Fault s (set_now t s)
| out_cancel s : outside_step Stop s (cancel s).

Inductive step (k : kind) (s s' : system) : Prop :=
| step_worker : worker_step k s s' → step k s s'
| step_loop : loop_step k s s' → step k s s'
| step_hand_over : hand_over k s s' → step k s s'
| step_task : task_step k s s' → step k s s'
| step_outside : outside_step k s s' → step k s s'.

Definition any_step (s s' : system) : Prop := ∃ k, step k s s'.

(** A run of [n] steps, [k] of them disturbances, without cancellation. *)
Inductive run : nat → nat → system → system → Prop :=
| run_nil s : run 0 0 s s
| run_work n k s s1 s2 : run n k s s1 → step Work s1 s2 → run (S n) k s s2
| run_fault n k s s1 s2 : run n k s s1 → step Fault s1 s2 → run (S n) (S k) s s2.

Definition quiet (s : system) : Prop := ∀ s', ¬ step Work s s'.
End delivery.

(** The program's start: [Consumer] and [Worker], which calls [Process]; the
    listener with its queue; some messages stored. *)
Definition delivery_start (p : StorageConsumerProviderImpl unit) (topic : Topic) (maxSize : Z) (stored : list (time * Message))
    (t : time) : system :=
  mkSystem (consumer_Process (newStorageConsumer topic p)) WIdle stored (NewAckQueue maxSize) LToken [] 0 t [] [] false false.

(** ** What the invariants speak of *)

Definition worker_todo (p : workerAt) : list Message :=
  match p with WSend todo _ | WAdd _ todo _ => todo | _ => [] end.
Definition worker_adding (p : workerAt) : gset uuid :=
  match p with WAdd m _ _ => {[msg_ID m]} | _ => ∅ end.
Definition loop_messages (l : loopAt) : list ConsumerMessage :=
  match l with LAdd m => [m] | _ => [] end.
Definition loop_tokens (l : loopAt) : nat := match l with LMessage | LAdd _ => 1 | _ => 0 end.
Definition loop_runs (l : loopAt) : bool := match l with LReturned _ => false | _ => true end.

(** The messages of the goroutines at some of the positions. *)
Definition at_pos (f : taskAt → bool) (ts : list (ConsumerMessage * taskAt)) : list Message :=
  (λ t : ConsumerMessage * taskAt, cm_Message t.1) <$> filter (λ t : ConsumerMessage * taskAt, f t.2) ts.
Definition before_delete (p : taskAt) : bool := match p with TTop | TRun | TAck => true | _ => false end.
Definition before_remove (p : taskAt) : bool := match p with TRelease => false | _ => true end.
Definition after_delete (p : taskAt) : bool := negb (before_delete p).
Definition acknowledging (p : taskAt) : bool := match p with TAck => true | _ => false end.

(** Found and not deleted yet: still to hand over, and with the listener. *)
Definition held (s : system) : list Message := (cm_Message <$> loop_messages (sy_loop s)) ++ at_pos before_delete (sy_tasks s).
Definition flying (s : system) : list Message := worker_todo (sy_worker s) ++ held s.
Definition unremoved (s : system) : list Message := (cm_Message <$> loop_messages (sy_loop s)) ++ at_pos before_remove (sy_tasks s).
(** In [processingMessages] or about to be. *)
Definition claimed (s : system) : gset uuid := worker_adding (sy_worker s) ∪ processingMessages (sy_consumer s).

Definition of_topic (s : system) (m : Message) : Prop := msg_Topic m = sc_topic (sy_consumer s).
Definition in_stored (s : system) (m : Message) : Prop := m ∈ snd <$> sy_stored s.
Definition key_of (e : time * Message) : uuid * Topic := (msg_ID (snd e), msg_Topic (snd e)).

(** *** A bound of the work left *)

Definition worker_weight (p : workerAt) : nat :=
  match p with
  | WIdle | WClosed => 0
  | WLock => 4
  | WFind => 3
  | WSend todo _ => 20 * length todo + 10
  | WAdd _ todo _ => 20 * length todo + 11
  | WCheck _ => 9
  | WWait _ => 8
  | WSleep _ => 7
  | WRelease more failed => if more || failed then 5 else 1
  end.
Definition loop_weight (l : loopAt) : nat := match l with LToken => 1 | LAdd _ => 10 | _ => 0 end.
Definition task_weight (p : taskAt) : nat :=
  match p with TTop => 8 | TRun => 7 | TAck => 6 | TRemove => 5 | TRelease => 1 end.
Definition tasks_weight (ts : list (ConsumerMessage * taskAt)) : nat :=
  sum_list_with (λ t : ConsumerMessage * taskAt, task_weight t.2) ts.

(** Stored messages of the topic that no batch holds. *)
Definition waits (topic : Topic) (busy : list uuid) (e : time * Message) : Prop :=
  msg_Topic (snd e) = topic ∧ msg_ID (snd e) ∉ busy.
#[export] Instance waits_dec topic busy e : Decision (waits topic busy e).
Proof. apply _. Defined.
Definition fresh (s : system) : list (time * Message) :=
  filter (waits (sc_topic (sy_consumer s)) (msg_ID <$> flying s)) (sy_stored s).

Definition weight (s : system) : nat :=
  40 * length (fresh s) + worker_weight (sy_worker s) + (if processChan (sy_consumer s) then 20 else 0) +
  loop_weight (sy_loop s) + tasks_weight (sy_tasks s).

(** ** Lemmas *)

Lemma at_pos_cons f m p ts : at_pos f ((m, p) :: ts) = if f p then cm_Message m :: at_pos f ts else at_pos f ts.
Proof. unfold at_pos. rewrite filter_cons. simpl. by destruct (f p). Qed.

#[export] Instance at_pos_proper f : Proper ((≡ₚ) ==> (≡ₚ)) (at_pos f).
Proof. intros ts ts' H. unfold at_pos. by rewrite H. Qed.

Lemma at_pos_perm f ts m p ts' :
  ts ≡ₚ (m, p) :: ts' → at_pos f ts ≡ₚ (if f p then [cm_Message m] else []) ++ at_pos f ts'.
Proof. intros ->. rewrite at_pos_cons. by destruct (f p). Qed.

(** *** The queue: a slot per token, per token the loop holds, per entry; the
    entries are the goroutines', and of those cancellation ended *)

Definition task_ptrs (ts : list (ConsumerMessage * taskAt)) : list nat := (λ t : ConsumerMessage * taskAt, cm_ptr t.1) <$> ts.

Record queue_ok (n : nat) (s : system) : Prop := {
  qo_cap : anq_cap (sy_queue s) = n;
  qo_max : anq_maxSize (sy_queue s) = n;
  qo_slots : anq_tokens (sy_queue s) + loop_tokens (sy_loop s) + size (anq_queue (sy_queue s)) ≤ n;
  qo_all : loop_runs (sy_loop s) = true →
    anq_tokens (sy_queue s) + loop_tokens (sy_loop s) + size (anq_queue (sy_queue s)) = n;
  qo_tasks : ∀ p, p ∈ task_ptrs (sy_tasks s) → p ∈ anq_queue (sy_queue s);
  qo_ptrs : NoDup (task_ptrs (sy_tasks s));
  qo_loop : ∀ m, m ∈ loop_messages (sy_loop s) → cm_ptr m ∉ anq_queue (sy_queue s) ∧ cm_ptr m < sy_pointers s;
  qo_fresh : ∀ p, p ∈ anq_queue (sy_queue s) → p < sy_pointers s;
  qo_live : sy_cancelled s = false → ∀ p, p ∈ anq_queue (sy_queue s) → p ∈ task_ptrs (sy_tasks s);
}.

Lemma AddProcessing_run (m : ConsumerMessage) q o q' :
  ackNack_AddProcessing m (q, tt) = (Ret o, (q', tt)) →
  match o with
  | None => size (anq_queue q) ≠ anq_maxSize q ∧ cm_ptr m ∉ anq_queue q ∧
      q' = mkAckNackQueue (anq_maxSize q) (anq_tokens q) (anq_cap q) ({[cm_ptr m]} ∪ anq_queue q)
  | Some _ => size (anq_queue q) = anq_maxSize q ∨ cm_ptr m ∈ anq_queue q
  end.
Proof. unfold ackNack_AddProcessing. repeat case_decide; intros [= <- <-]; auto. Qed.

Lemma release_run (m : ConsumerMessage) q o q' :
  ackNack_release m (q, tt) = (o, (q', tt)) →
  match o with
  | Ret _ => anq_tokens q < anq_cap q ∧
      q' = mkAckNackQueue (anq_maxSize q) (S (anq_tokens q)) (anq_cap q) (anq_queue q ∖ {[cm_ptr m]})
  | _ => anq_cap q ≤ anq_tokens q
  end.
Proof. unfold ackNack_release. case_decide; intros [= <- <-]; [done|lia]. Qed.

Lemma queue_bounds n s : queue_ok n s → length (sy_tasks s) ≤ size (anq_queue (sy_queue s)).
Proof.
  intros [_ _ _ _ Ht Hp _ _ _]. unfold task_ptrs in *.
  rewrite <- (length_fmap (λ t : ConsumerMessage * taskAt, cm_ptr t.1)), <- (size_list_to_set (C := gset nat)) by done.
  apply subseteq_size. intros p. rewrite elem_of_list_to_set. apply Ht.
Qed.

Lemma queue_live n s : queue_ok n s → sy_cancelled s = false → size (anq_queue (sy_queue s)) = length (sy_tasks s).
Proof.
  intros Hok Hc. pose proof (queue_bounds n s Hok). destruct Hok as [_ _ _ _ Ht Hp _ _ Hl]. specialize (Hl Hc).
  assert (size (anq_queue (sy_queue s)) ≤ length (sy_tasks s)); [|lia]. unfold task_ptrs in *.
  rewrite <- (length_fmap (λ t : ConsumerMessage * taskAt, cm_ptr t.1)), <- (size_list_to_set (C := gset nat)) by done.
  apply subseteq_size. intros p. rewrite elem_of_list_to_set. apply Hl.
Qed.

(** The queue never refuses a message: there is a token for it, and its
    pointer is new. *)
Lemma AddProcessing_never_fails n s msg q e :
  queue_ok n s → sy_loop s = LAdd msg → ackNack_AddProcessing msg (sy_queue s, tt) ≠ (Ret (Some e), (q, tt)).
Proof.
  intros [_ Hm _ Hall _ _ Hlp _ _] Hl H. apply AddProcessing_run in H. rewrite Hl in *. simpl in *. destruct H as [H|H].
  - specialize (Hall eq_refl). lia.
  - destruct (Hlp msg); set_solver.
Qed.

Lemma queue_ok_perm n s ts : queue_ok n s → sy_tasks s ≡ₚ ts → queue_ok n (set_tasks ts s).
Proof.
  intros [Hc Hm Hs Ha Ht Hp Hl Hf Hv] E. unfold task_ptrs in *.
  split; simpl; try done; unfold task_ptrs; [by setoid_rewrite <- E|by rewrite <- E|by setoid_rewrite <- E].
Qed.

(** *** The messages: the ones found and not deleted yet are stored, each with
    one goroutine at most; what is claimed is known *)

Record msgs_ok (s : system) : Prop := {
  mo_topic : ∀ m, m ∈ flying s → of_topic s m;
  mo_unique : NoDup (msg_ID <$> flying s);
  mo_stored : ∀ m, m ∈ flying s → in_stored s m;
  mo_keys : NoDup (key_of <$> sy_stored s);
  mo_gone : ∀ m e, m ∈ sy_deleted s → e ∈ sy_stored s → ¬ same_message m (snd e);
  mo_deleted : ∀ m, m ∈ sy_deleted s → of_topic s m;
  mo_once : NoDup (msg_ID <$> sy_deleted s);
  mo_settled : ∀ m, m ∈ at_pos after_delete (sy_tasks s) → m ∈ sy_deleted s;
  mo_claims : ∀ m, m ∈ held s → msg_ID m ∈ claimed s;
  mo_known : ∀ id, id ∈ claimed s → ∃ m, of_topic s m ∧ msg_ID m = id ∧ (in_stored s m ∨ m ∈ sy_deleted s);
}.

Lemma msgs_ok_perm s ts : msgs_ok s → sy_tasks s ≡ₚ ts → msgs_ok (set_tasks ts s).
Proof.
  intros [H1 H2 H3 H4 H5 H6 H7 H8 H9 H10] E.
  assert (Hh : held s ≡ₚ held (set_tasks ts s)) by (unfold held; simpl; by rewrite E).
  assert (Hf : flying s ≡ₚ flying (set_tasks ts s)) by (unfold flying; simpl; by rewrite Hh).
  split; simpl; try done.
  - intros m Hm. apply H1. by rewrite Hf.
  - by rewrite <- Hf.
  - intros m Hm. apply H3. by rewrite Hf.
  - intros m Hm. apply H8. by rewrite E.
  - intros m Hm. apply H9. by rewrite Hh.
Qed.

(** A step that gives up some of the messages and claims what it claimed. *)
Lemma msgs_ok_shrink s s' gone :
  msgs_ok s → sy_stored s' = sy_stored s → sy_deleted s' = sy_deleted s →
  sc_topic (sy_consumer s') = sc_topic (sy_consumer s) → flying s ≡ₚ gone ++ flying s' →
  (∀ m, m ∈ held s' → m ∈ held s) → claimed s' = claimed s →
  (∀ m, m ∈ at_pos after_delete (sy_tasks s') → m ∈ at_pos after_delete (sy_tasks s)) → msgs_ok s'.
Proof.
  intros [H1 H2 H3 H4 H5 H6 H7 H8 H9 H10] Es Ed Et Ef Hh Ec Ha.
  assert (Hf : ∀ m, m ∈ flying s' → m ∈ flying s) by (intros m; rewrite Ef; set_solver).
  split; unfold of_topic, in_stored in *; rewrite ?Es, ?Ed, ?Et, ?Ec; auto.
  rewrite Ef, fmap_app in H2. by apply NoDup_app in H2 as (_ & _ & ?).
Qed.

Lemma keys_filter {A B} (f : A → B) (P : A → Prop) `{!∀ x, Decision (P x)} l : NoDup (f <$> l) → NoDup (f <$> filter P l).
Proof.
  induction l as [|x l IH]; [done|]. rewrite fmap_cons, filter_cons. intros [Hx Hl]%NoDup_cons.
  case_decide; [|by apply IH]. rewrite fmap_cons. constructor; [|by apply IH].
  intros (y & Hy & [_ Hin]%list_elem_of_filter)%list_elem_of_fmap. apply Hx, list_elem_of_fmap. by exists y.
Qed.

Lemma keys_inj {A B} (f : A → B) l x y : NoDup (f <$> l) → x ∈ l → y ∈ l → f x = f y → x = y.
Proof.
  intros Hn [i Hi]%list_elem_of_lookup [j Hj]%list_elem_of_lookup Hf.
  assert (i = j) as ->; [|congruence].
  apply (NoDup_lookup (f <$> l) i j (f x)); [done|by rewrite list_lookup_fmap, Hi|by rewrite list_lookup_fmap, Hj, Hf].
Qed.

Lemma keys_ids t (l : list (time * Message)) :
  (∀ e, e ∈ l → msg_Topic (snd e) = t) → NoDup (key_of <$> l) → NoDup (msg_ID <$> (snd <$> l)).
Proof.
  intros Ht Hn. apply (NoDup_fmap_1 (λ i : uuid, (i, t))).
  assert (((λ i : uuid, (i, t)) <$> (msg_ID <$> (snd <$> l))) = key_of <$> l) as ->; [|done].
  rewrite <- !list_fmap_compose. apply list_fmap_ext. intros i e He. unfold key_of. simpl.
  by rewrite (Ht e) by (by eapply list_elem_of_lookup_2).
Qed.

(** What a batch holds, and that a batch that is empty or not full holds every
    message that is due and not in [processingMessages]. *)
Lemma found_facts s ms :
  NoDup (key_of <$> sy_stored s) → found_by (find_spec s) (sy_stored s) ms →
  (∀ m, m ∈ ms → in_stored s m ∧ of_topic s m ∧ msg_ID m ∉ processingMessages (sy_consumer s)) ∧
  NoDup (msg_ID <$> ms) ∧
  (ms = [] ∨ all_processed s ms = true → ∀ e, e ∈ sy_stored s → of_topic s (snd e) → (fst e <= sy_now s)%Z →
     msg_ID (snd e) ∉ processingMessages (sy_consumer s) → snd e ∈ ms).
Proof.
  intros Hk (due & Hdue & _ & ->). unfold all_processed, find_spec, getProcessingMessageIDs in *. simpl in *.
  set (n := consumingBatchSize (sy_consumer s)) in *.
  assert (Hm : ∀ e, e ∈ due ↔ e ∈ sy_stored s ∧ (fst e <= sy_now s)%Z ∧
    (msg_ID (snd e) ∉ processingMessages (sy_consumer s)) ∧ of_topic s (snd e)).
  { intros e. rewrite Hdue, list_elem_of_filter. unfold matches, of_topic. simpl. rewrite elem_of_elements. set_solver. }
  assert (Hn : NoDup (key_of <$> due)) by (rewrite Hdue; by apply keys_filter).
  assert (Hsub : ∀ e, e ∈ (if (0 <? n)%Z then take (Z.to_nat n) due else due) → e ∈ due).
  { destruct (0 <? n)%Z; [|done]. intros e He. rewrite <- (take_drop (Z.to_nat n) due). set_solver. }
  split_and!.
  - intros m (e & -> & He)%list_elem_of_fmap. apply Hsub, Hm in He as (H1 & H2 & H3 & H4).
    split_and!; [|done|done]. apply list_elem_of_fmap. by exists e.
  - apply (keys_ids (sc_topic (sy_consumer s))); [intros e He; by apply Hsub, Hm in He as (_ & _ & _ & ?)|].
    destruct (0 <? n)%Z; [|done]. rewrite <- (take_drop (Z.to_nat n) due), fmap_app in Hn. by apply NoDup_app in Hn as (? & _).
  - intros Hall e H1 H2 H3 H4. apply list_elem_of_fmap. exists e. split; [done|].
    assert (e ∈ due) as He by (by apply Hm). destruct (Z.ltb_spec 0 n) as [Hpos|]; [|done].
    rewrite take_ge; [done|]. destruct Hall as [Hnil|Hlt%bool_decide_eq_true].
    + apply fmap_nil_inv in Hnil. apply (f_equal length) in Hnil. rewrite length_take in Hnil. simpl in Hnil. lia.
    + rewrite length_fmap, length_take in Hlt. lia.
Qed.

Lemma wake_todo n p : worker_todo (wake n p) = worker_todo p.
Proof. by destruct p, n. Qed.
Lemma wake_closed n p : wake n p = WClosed → p = WClosed.
Proof. by destruct p, n. Qed.
Lemma wake_adding n p : worker_adding (wake n p) = worker_adding p.
Proof. by destruct p, n. Qed.

(** Opens a step by its component. *)
Ltac delivery_cases Hstep :=
  let H := fresh "Hst" in destruct Hstep as [H|H|H|H|H]; destruct H.
Ltac located :=
  repeat match goal with E : sy_worker _ = _ |- _ => rewrite E in *; clear E; simpl in * end;
  repeat match goal with E : sy_loop _ = _ |- _ => rewrite E in *; clear E; simpl in * end.

Local Arguments ackNack_AddProcessing : simpl never.
Local Arguments ackNack_release : simpl never.

Section invariants.
Context (skips : Message → bool).
Local Arguments task_ptrs : simpl never.

Lemma queue_ok_step n k s s' : queue_ok n s → step skips k s s' → queue_ok n s'.
Proof.
  intros Hok Hstep. pose proof (λ msg q e, AddProcessing_never_fails n s msg q e Hok) as Hadd.
  delivery_cases Hstep;
    try match goal with E : sy_tasks _ ≡ₚ _ |- _ => pose proof (queue_ok_perm _ _ _ Hok E) as Hok' end;
    try (destruct Hok' as [Hc Hm Hs Ha Ht Hp Hl Hf Hv]; simpl in *);
    try (destruct Hok as [Hc Hm Hs Ha Ht Hp Hl Hf Hv]; simpl in *; located);
    try done;
    try (split; simpl; auto with lia; fail).
  - apply AddProcessing_run in H0 as (H1 & H2 & ->). destruct (Hl msg) as [_ Hlt]; [set_solver|].
    assert (Hsz : size ({[cm_ptr msg]} ∪ anq_queue (sy_queue s)) = S (size (anq_queue (sy_queue s)))).
    { rewrite size_union by set_solver. by rewrite size_singleton. }
    specialize (Ha eq_refl). unfold task_ptrs in *.
    split; simpl; rewrite ?Hsz; try lia; unfold task_ptrs; rewrite ?fmap_cons; try done.
    + set_solver.
    + constructor; [|done]. intros Hin. by apply H2, Ht.
    + set_solver.
    + set_solver.
    + set_solver.
  - by destruct (Hadd msg q e).
  - clear Hadd. split; simpl; try assumption; try discriminate; [|by intros m Hin%not_elem_of_nil].
    destruct H as [E|E]; rewrite E in Hs; simpl in Hs; lia.
  - clear Hadd. split; simpl; try assumption; try lia.
    + intros m' ->%list_elem_of_singleton. simpl. split; [|lia]. intros Hin. specialize (Hf _ Hin). lia.
    + intros p Hin. specialize (Hf _ Hin). lia.
  - unfold task_ptrs in *. rewrite fmap_cons in Hp. apply NoDup_cons in Hp as [_ Hp].
    clear Hadd. split; simpl; try assumption; try congruence. intros p Hin. apply Ht. set_solver.
  - apply release_run in H0 as [H1 ->]. unfold task_ptrs in *. rewrite fmap_cons in Hp. apply NoDup_cons in Hp as [Hn Hp].
    assert (Hin : cm_ptr msg ∈ anq_queue (sy_queue s)) by (apply Ht; set_solver).
    pose proof (size_remove _ _ Hin) as Hsz.
    clear Hadd. split; simpl; try assumption; try lia.
    + intros Hr. specialize (Ha Hr). lia.
    + intros p Hin'. apply elem_of_difference. split; [set_solver|]. intros ->%elem_of_singleton. done.
    + intros m Hm'. destruct (Hl m Hm'). set_solver.
    + set_solver.
    + set_solver.
Qed.

Ltac shrinks s gone :=
  apply (msgs_ok_shrink s _ gone); try done; unfold flying, held, claimed, retry in *; simpl;
  repeat match goal with E : sy_worker _ = _ |- _ => rewrite E | E : sy_loop _ = _ |- _ => rewrite E end; simpl;
  repeat match goal with |- context [ if sy_cancelled ?s then _ else _ ] => destruct (sy_cancelled s); simpl end;
  try done; try set_solver.

Lemma worker_msgs_ok k s s' : msgs_ok s → worker_step k s s' → msgs_ok s'.
Proof.
  intros Hok H. destruct H as [s H Hs|s H Hc|s H|s H|s H Hf|s m ms H Hf|s H|s m todo more H Hc|s m todo more H|s more H|s more H Hz
    |s more H Hz|s more H|s H|s H|s more H|s more failed H]; try by shrinks s (@nil Message).
  - destruct (found_facts s (m :: ms) (mo_keys _ Hok) Hf) as (Hin & Hu & _).
    destruct Hok as [H1 H2 H3 H4 H5 H6 H7 H8 H9 H10].
    assert (Hh : held s = flying s) by (unfold flying; by rewrite H).
    assert (Hc : claimed s = processingMessages (sy_consumer s)) by (unfold claimed; rewrite H; set_solver).
    split; try done; change (flying _) with ((m :: ms) ++ held s) || change (claimed _) with (∅ ∪ processingMessages (sy_consumer s)).
    + intros x [Hx|Hx]%elem_of_app; [by apply Hin|by apply H1; rewrite <- Hh].
    + rewrite fmap_app. apply NoDup_app. split_and!; [done| |by rewrite Hh].
      intros i (x & -> & Hx)%list_elem_of_fmap (y & Hxy & Hy)%list_elem_of_fmap.
      destruct (Hin x Hx) as (_ & _ & Hn). apply Hn. rewrite Hxy, <- Hc. by apply H9.
    + intros x [Hx|Hx]%elem_of_app; [by apply Hin|by apply H3; rewrite <- Hh].
    + intros x Hx. rewrite union_empty_l_L, <- Hc. by apply H9.
    + intros i Hi. rewrite union_empty_l_L, <- Hc in Hi. by apply H10.
  - shrinks s (m :: todo).
Qed.

Lemma loop_msgs_ok k s s' : msgs_ok s → loop_step k s s' → msgs_ok s'.
Proof.
  intros Hok H. destruct H as [s t H Ht|s msg q H Hq|s msg q e H Hq|s H Hc|s H Hw]; try by shrinks s (@nil Message).
  - shrinks s [cm_Message msg]. simpl. by rewrite Permutation_middle.
  - destruct H as [H|H]; shrinks s (@nil Message).
Qed.

Lemma hand_over_msgs_ok k s s' : msgs_ok s → hand_over k s s' → msgs_ok s'.
Proof.
  intros [H1 H2 H3 H4 H5 H6 H7 H8 H9 H10] H. destruct H as [s m todo more Hw Hl].
  unfold flying, held, claimed in *. rewrite Hw, Hl in *. simpl in *.
  set (old := at_pos before_delete (sy_tasks s)) in *.
  assert (Hp : (m :: todo ++ old) ≡ₚ todo ++ m :: old) by solve_Permutation.
  split; unfold flying, held, claimed; simpl; try done.
  - intros x. fold old. rewrite <- Hp. apply H1.
  - fold old. by rewrite <- Hp.
  - intros x. fold old. rewrite <- Hp. apply H3.
  - intros x [->|Hx]%elem_of_cons; [set_solver|]. specialize (H9 x Hx). set_solver.
  - intros i [Hi%elem_of_singleton|Hi]%elem_of_union; [|apply H10; set_solver].
    exists m. split_and!; [apply H1; set_solver|done|left; apply H3; set_solver].
Qed.
(** Among the found messages only the one with the same id is deleted. *)
Lemma delete_stored_spec m e stored : e ∈ delete_stored m stored ↔ e ∈ stored ∧ ¬ same_message m (snd e).
Proof. unfold delete_stored, same_message. rewrite list_elem_of_filter. set_solver. Qed.

Lemma in_stored_delete m x s :
  in_stored s x → ¬ same_message m x → in_stored (set_stored (delete_stored m (sy_stored s)) s) x.
Proof.
  intros (e & -> & He)%list_elem_of_fmap Hn. apply list_elem_of_fmap. exists e. split; [done|]. by apply delete_stored_spec.
Qed.

Lemma delete_msgs_ok s msg ts :
  msgs_ok s → sy_tasks s = (msg, TAck) :: ts →
  msgs_ok (note_deleted (cm_Message msg) (set_stored (delete_stored (cm_Message msg) (sy_stored s))
    (set_tasks ((msg, TRemove) :: ts) s))).
Proof.
  intros [H1 H2 H3 H4 H5 H6 H7 H8 H9 H10] E. set (m := cm_Message msg) in *.
  set (s' := set_tasks ((msg, TRemove) :: ts) s).
  assert (Hf : flying s ≡ₚ m :: flying s').
  { unfold flying, held. rewrite E. simpl. rewrite !at_pos_cons. simpl. fold m. solve_Permutation. }
  assert (Hh : ∀ x, x ∈ held s' → x ∈ held s).
  { intros x. unfold held. rewrite E. simpl. rewrite !at_pos_cons. simpl. set_solver. }
  assert (Hm : m ∈ flying s) by (rewrite Hf; set_solver).
  rewrite Hf, fmap_cons in H2. apply NoDup_cons in H2 as [Hnew H2].
  assert (Hother : ∀ x, x ∈ flying s' → ¬ same_message m x).
  { intros x Hx [Hid _]. apply Hnew, list_elem_of_fmap. by exists x. }
  assert (Hsame : ∀ x, of_topic s x → msg_ID x = msg_ID m → same_message m x).
  { intros x Hx Hid. split; [done|]. pose proof (H1 m Hm) as Ht. unfold of_topic in Ht, Hx. congruence. }
  assert (Hfl : ∀ x, x ∈ flying s' → x ∈ flying s) by (intros x Hx; rewrite Hf; set_solver).
  split; simpl; try done.
  - intros x Hx. by apply H1, Hfl.
  - intros x Hx. apply (in_stored_delete m x s); [by apply H3, Hfl|by apply Hother].
  - unfold delete_stored. by apply keys_filter.
  - intros x e [->|Hx]%elem_of_cons [He Hne]%delete_stored_spec; [done|by apply H5].
  - intros x [->|Hx]%elem_of_cons; [by apply H1|by apply H6].
  - constructor; [|done]. intros (x & Hid & Hx)%list_elem_of_fmap.
    apply H3, list_elem_of_fmap in Hm as (e & Hme & He). apply (H5 x e Hx He). rewrite <- Hme.
    destruct (Hsame x) as [? ?]; [by apply H6|by rewrite Hid|]. by split.
  - rewrite at_pos_cons. simpl. fold m. intros x Hx. apply elem_of_cons in Hx as [->|Hx]; [set_solver|].
    apply elem_of_cons. right. apply H8. by rewrite E, at_pos_cons.
  - intros x Hx. by apply H9, Hh.
  - intros i Hi. destruct (H10 i Hi) as (x & Hx & Hid & [Hst|Hde]).
    + destruct (decide (same_message m x)) as [[Hi' _]|Hn].
      * exists m. split_and!; [by apply H1|congruence|set_solver].
      * exists x. split_and!; [done|done|]. left. by apply (in_stored_delete m x s).
    + exists x. split_and!; [done|done|set_solver].
Qed.

Lemma remove_msgs_ok s msg ts :
  msgs_ok s → sy_tasks s = (msg, TRemove) :: ts →
  msgs_ok (remove_processing (msg_ID (cm_Message msg)) (set_tasks ((msg, TRelease) :: ts) s)).
Proof.
  intros [H1 H2 H3 H4 H5 H6 H7 H8 H9 H10] E. set (m := cm_Message msg) in *.
  assert (Hm : m ∈ sy_deleted s) by (apply H8; rewrite E, at_pos_cons; set_solver).
  assert (Hh : ∀ p c b, held (note_race b (set_worker p (set_consumer c (set_tasks ((msg, TRelease) :: ts) s)))) = held s).
  { intros. unfold held. simpl. by rewrite E, !at_pos_cons. }
  unfold remove_processing. simpl.
  split; simpl; unfold flying, claimed; rewrite ?Hh; simpl; rewrite ?wake_todo, ?wake_adding; try done.
  - intros x Hx. apply H8. by rewrite E, at_pos_cons.
  - intros x Hx. specialize (H9 x Hx). assert (msg_ID x ≠ msg_ID m) as Hne; [|unfold claimed in H9; set_solver].
    intros Hid. assert (x ∈ flying s) as Hfx by (unfold flying; set_solver).
    pose proof (H3 x Hfx) as (e & -> & He)%list_elem_of_fmap. apply (H5 m e Hm He). split; [done|].
    pose proof (H1 _ Hfx) as Ht. pose proof (H6 m Hm) as Htm. unfold of_topic in Ht, Htm. congruence.
  - intros i Hi. apply H10. unfold claimed. set_solver.
Qed.

Lemma task_msgs_ok k s s' : msgs_ok s → task_step skips k s s' → msgs_ok s'.
Proof.
  intros Hok H.
  assert (Hperm : ∀ t ts, sy_tasks s ≡ₚ t :: ts → ∃ s0, msgs_ok s0 ∧ s0 = set_tasks (t :: ts) s)
    by (intros t ts E; eexists; split; [by apply msgs_ok_perm|done]).
  destruct H as [s msg ts E Hc Hs|s msg ts E Hc Hs|s msg ts E Hc|s msg ts E|s msg ts E|s msg ts E|s msg ts E|s msg ts E
    |s msg ts E Hc|s msg ts E|s msg ts q E Hr]; try done; destruct (Hperm _ _ E) as (s0 & Hok0 & Es0).
  all: try (apply (msgs_ok_shrink s0 _ []); subst s0; try done; unfold flying, held; simpl; rewrite ?at_pos_cons; done).
  - apply (msgs_ok_shrink s0 _ [cm_Message msg]); subst s0; try done; unfold flying, held; simpl; rewrite ?at_pos_cons; simpl;
      try solve_Permutation; set_solver.
  - subst s0. exact (delete_msgs_ok _ _ _ Hok0 eq_refl).
  - subst s0. exact (remove_msgs_ok _ _ _ Hok0 eq_refl).
  - apply (msgs_ok_shrink s0 _ []); subst s0; try done; unfold flying, held; simpl; rewrite ?at_pos_cons; simpl; set_solver.
Qed.
Lemma store_one_cases at_ stored m :
  store_one at_ stored m = stored ∨
  store_one at_ stored m = stored ++ [(at_, m)] ∧ ¬ Exists (λ e, same_message m (snd e)) stored.
Proof. unfold store_one. case_decide; auto. Qed.

Lemma outside_msgs_ok k s s' : msgs_ok s → outside_step k s s' → msgs_ok s'.
Proof.
  intros Hok H. destruct H as [s at_ m Hnew|s|s t Ht|s]; try (by apply (msgs_ok_shrink s _ [])).
  destruct (store_one_cases at_ (sy_stored s) m) as [->|[-> Hn]]; [by apply (msgs_ok_shrink s _ [])|].
  destruct Hok as [H1 H2 H3 H4 H5 H6 H7 H8 H9 H10].
  assert (Hin : ∀ x, in_stored s x → in_stored (set_stored (sy_stored s ++ [(at_, m)]) s) x).
  { intros x. unfold in_stored. simpl. rewrite fmap_app. set_solver. }
  split; simpl; try done.
  - intros x Hx. by apply Hin, H3.
  - rewrite fmap_app. apply NoDup_app. split_and!; [done| |apply NoDup_singleton].
    intros key (e & -> & He)%list_elem_of_fmap Hk%list_elem_of_singleton. apply Hn, Exists_exists. exists e.
    split; [done|]. unfold key_of in Hk. simpl in Hk. injection Hk as Hi Ht. by split.
  - intros x e Hx [He| ->%list_elem_of_singleton]%elem_of_app; [by apply H5|]. intros [Hid Htp]. apply Hnew, Exists_exists.
    exists x. split; [done|by split].
  - intros i Hi. destruct (H10 i Hi) as (x & Hx & Hid & [Hst|Hde]); exists x; auto.
Qed.

Lemma msgs_ok_step k s s' : msgs_ok s → step skips k s s' → msgs_ok s'.
Proof.
  intros Hok [H|H|H|H|H];
    [by eapply worker_msgs_ok|by eapply loop_msgs_ok|by eapply hand_over_msgs_ok|by eapply task_msgs_ok|by eapply outside_msgs_ok].
Qed.

(** *** What was acknowledged was handled, or is one the listener skips *)

Definition settled (s : system) (m : Message) : Prop := skips m = true ∨ msg_ID m ∈ sy_handled s.

Record handled_ok (s : system) : Prop := {
  ho_acknowledging : ∀ m, m ∈ at_pos acknowledging (sy_tasks s) → settled s m;
  ho_deleted : ∀ m, m ∈ sy_deleted s → settled s m;
}.

Lemma handled_ok_step k s s' : handled_ok s → step skips k s s' → handled_ok s'.
Proof.
  intros [H1 H2] Hstep.
  delivery_cases Hstep; try (by split); try match goal with E : sy_tasks _ ≡ₚ _ |- _ =>
    setoid_rewrite (at_pos_perm acknowledging _ _ _ _ E) in H1; simpl in H1 end;
    split; unfold settled in *; simpl; rewrite ?at_pos_cons; simpl; try done; try set_solver.
Qed.

(** *** Only a closed channel ends the loop with an error *)

Definition loop_ok (s : system) : Prop :=
  match sy_loop s with LReturned (Some _) => sy_worker s = WClosed | _ => True end.

Lemma loop_ok_step n k s s' : queue_ok n s → loop_ok s → step skips k s s' → loop_ok s'.
Proof.
  intros Hq Hl Hstep. pose proof (λ msg q e, AddProcessing_never_fails n s msg q e Hq) as Hadd. unfold loop_ok in *.
  delivery_cases Hstep; simpl in *; try done; repeat case_match; simplify_eq/=; try congruence.
  - by edestruct Hadd.
  - rewrite Hl. done.
Qed.
(** *** Until the context is cancelled *)

Definition waiting (p : workerAt) : bool := match p with WWait _ | WSleep _ => true | _ => false end.

Record live_ok (s : system) : Prop := {
  lo_loop : loop_runs (sy_loop s) = true;
  lo_worker : sy_worker s ≠ WClosed;
  (** what is claimed and still stored is with the listener *)
  lo_claimed : ∀ e, e ∈ sy_stored s → of_topic s (snd e) → msg_ID (snd e) ∈ claimed s → msg_ID (snd e) ∈ msg_ID <$> held s;
  (** without a race: what is claimed will be removed, and a worker waits for
      something *)
  lo_removed : sy_raced s = false → ∀ i, i ∈ claimed s → i ∈ msg_ID <$> unremoved s;
  lo_waits : sy_raced s = false → waiting (sy_worker s) = true → processingMessages (sy_consumer s) ≠ ∅;
}.

Lemma live_ok_perm s ts : live_ok s → sy_tasks s ≡ₚ ts → live_ok (set_tasks ts s).
Proof.
  intros [H1 H2 H3 H4 H5] E.
  assert (Hh : held s ≡ₚ held (set_tasks ts s)) by (unfold held; simpl; by rewrite E).
  assert (Hu : unremoved s ≡ₚ unremoved (set_tasks ts s)) by (unfold unremoved; simpl; by rewrite E).
  split; try done.
  - intros e He Ht Hc. rewrite <- Hh. by apply H3.
  - intros Hr i Hi. rewrite <- Hu. by apply H4.
Qed.

Lemma worker_live_ok k s s' :
  sc_processedCount (sy_consumer s) = size (processingMessages (sy_consumer s)) →
  sy_cancelled s = false → live_ok s → worker_step k s s' → live_ok s'.
Proof.
  intros Hcount Hc [H1 H2 H3 H4 H5] H.
  destruct H; unfold claimed, retry in *; try congruence;
    try match goal with E : sy_worker _ = _ |- _ => rewrite E in * end; simpl in *; rewrite ?Hc;
    split; simpl; try done; unfold held, unremoved, claimed in *; simpl; try done.
  all: try (intros; apply H3; set_solver). all: try (intros; apply H4; set_solver).
  intros _ _ Hz. by rewrite Hcount, Hz, size_empty in *.
Qed.

Lemma loop_live_ok n k s s' : queue_ok n s → k ≠ Stop → live_ok s → loop_step k s s' → live_ok s'.
Proof.
  intros Hq Hk [H1 H2 H3 H4 H5] H. pose proof (λ msg q e, AddProcessing_never_fails n s msg q e Hq) as Hadd.
  destruct H as [s t H Ht|s msg q H Ht|s msg q e H Ht|s H Hc|s H Hw]; try done; [| |by destruct (Hadd msg q e)].
  - split; simpl; try done; unfold held, unremoved in *; simpl; by rewrite H in *.
  - clear Hadd. split; simpl; try done; unfold held, unremoved, claimed in *; simpl; rewrite ?at_pos_cons; simpl; by rewrite H in *.
Qed.

Lemma hand_over_live_ok k s s' : live_ok s → hand_over k s s' → live_ok s'.
Proof.
  intros [H1 H2 H3 H4 H5] H. destruct H as [s m todo more Hw Hl].
  unfold held, unremoved, claimed in *. rewrite Hw, Hl in *. simpl in *.
  split; simpl; unfold held, unremoved, claimed; simpl; try done.
  - intros e He Ht [->%elem_of_singleton|Hi]%elem_of_union; [set_solver|].
    apply elem_of_cons. right. apply H3; [done|done|set_solver].
  - intros Hr i [->%elem_of_singleton|Hi]%elem_of_union; [set_solver|]. apply elem_of_cons. right. apply H4; [done|set_solver].
Qed.

Lemma delete_live_ok s msg ts :
  msgs_ok s → live_ok s → sy_tasks s = (msg, TAck) :: ts →
  live_ok (note_deleted (cm_Message msg) (set_stored (delete_stored (cm_Message msg) (sy_stored s))
    (set_tasks ((msg, TRemove) :: ts) s))).
Proof.
  intros Hok [H1 H2 H3 H4 H5] E. set (m := cm_Message msg) in *.
  assert (Hm : m ∈ held s) by (unfold held; rewrite E, at_pos_cons; set_solver).
  assert (Ht : of_topic s m) by (apply (mo_topic _ Hok); unfold flying; set_solver).
  split; simpl; try done.
  - intros e [He Hne]%delete_stored_spec Hte Hi. specialize (H3 e He Hte Hi).
    apply list_elem_of_fmap in H3 as (x & Hx & Hin). apply list_elem_of_fmap. exists x. split; [done|].
    unfold held in *. rewrite E in Hin. simpl. rewrite at_pos_cons in *. simpl in *.
    assert (x ≠ m) as Hxm; [|set_solver]. intros ->. apply Hne. split; [done|]. unfold of_topic in *. simpl in *. congruence.
  - intros Hr i Hi. specialize (H4 Hr i Hi). unfold unremoved in *. rewrite E in H4. simpl. by rewrite at_pos_cons in *.
Qed.

Lemma remove_live_ok s msg ts :
  live_ok s → sy_tasks s = (msg, TRemove) :: ts →
  live_ok (remove_processing (msg_ID (cm_Message msg)) (set_tasks ((msg, TRelease) :: ts) s)).
Proof.
  intros [H1 H2 H3 H4 H5] E. set (i := msg_ID (cm_Message msg)) in *. unfold remove_processing.
  split; simpl; unfold claimed; simpl; rewrite ?wake_adding; try done.
  - by intros ?%wake_closed.
  - intros e He Ht Hi. assert (Hh : msg_ID (snd e) ∈ msg_ID <$> held s) by (apply H3; try done; unfold claimed; set_solver).
    unfold held in *. simpl. rewrite E, at_pos_cons in Hh. by rewrite at_pos_cons.
  - intros [Hr Hrace]%orb_false_iff j Hj.
    assert (j ≠ i) as Hne.
    { intros ->. apply elem_of_union in Hj as [Hj|[_ Hj]%elem_of_difference]; [|by apply Hj, elem_of_singleton].
      destruct (sy_worker s); simpl in Hj; try by apply elem_of_empty in Hj.
      apply bool_decide_eq_false in Hrace. by apply elem_of_singleton in Hj. }
    assert (Hu : j ∈ msg_ID <$> unremoved s).
    { apply H4; [done|]. unfold claimed. apply elem_of_union in Hj as [Hj|[Hj _]%elem_of_difference]; apply elem_of_union; auto. }
    unfold unremoved in *. simpl. rewrite E, at_pos_cons in Hu. rewrite at_pos_cons. simpl in *.
    rewrite fmap_app in *. apply elem_of_app in Hu as [Hu|[Hu|Hu]%elem_of_cons]; apply elem_of_app; auto; done.
  - intros [Hr Hrace]%orb_false_iff Hw Hz. rewrite Hz in Hw. rewrite size_empty in Hw.
    destruct (sy_worker s); simpl in *; congruence.
Qed.

Lemma task_live_ok k s s' : k ≠ Stop → msgs_ok s → live_ok s → task_step skips k s s' → live_ok s'.
Proof.
  intros Hk Hok Hlive H.
  assert (Hperm : ∀ t ts, sy_tasks s ≡ₚ t :: ts → ∃ s0, (msgs_ok s0 ∧ live_ok s0) ∧ s0 = set_tasks (t :: ts) s)
    by (intros t ts E; eexists; split; [split; [by apply msgs_ok_perm|by apply live_ok_perm]|done]).
  destruct H as [s msg ts E Hc Hs|s msg ts E Hc Hs|s msg ts E Hc|s msg ts E|s msg ts E|s msg ts E|s msg ts E|s msg ts E
    |s msg ts E Hc|s msg ts E|s msg ts q E Hr]; try done; destruct (Hperm _ _ E) as (s0 & [Hok0 Hl0] & Es0).
  all: try (destruct Hl0 as [H1 H2 H3 H4 H5]; subst s0; unfold held, unremoved, claimed in *; simpl in *; rewrite ?at_pos_cons in *;
    split; unfold held, unremoved, claimed; simpl; rewrite ?at_pos_cons; done).
  - subst s0. exact (delete_live_ok _ _ _ Hok0 Hl0 eq_refl).
  - subst s0. exact (remove_live_ok _ _ _ Hl0 eq_refl).
Qed.

Lemma outside_live_ok k s s' : k ≠ Stop → msgs_ok s → live_ok s → outside_step k s s' → live_ok s'.
Proof.
  intros Hk Hok [H1 H2 H3 H4 H5] H. destruct H as [s at_ m Hnew|s|s t Ht|s]; try (by split).
  destruct (store_one_cases at_ (sy_stored s) m) as [->|[-> Hn]]; [by split|].
  split; simpl; try done. intros e [He| ->%list_elem_of_singleton]%elem_of_app Ht Hi; [by apply H3|]. exfalso.
  destruct (mo_known _ Hok _ Hi) as (x & Hx & Hid & Hor).
  assert (Hsame : same_message m x) by (split; [done|]; unfold of_topic in *; simpl in *; congruence).
  destruct Hor as [(e & -> & He)%list_elem_of_fmap|Hd].
  - apply Hn, Exists_exists. by exists e.
  - apply Hnew, Exists_exists. by exists x.
Qed.
(** *** All invariants *)

Record delivery_inv (n : nat) (s : system) : Prop := {
  di_slots : n ≠ 0;
  di_queue : queue_ok n s;
  di_msgs : msgs_ok s;
  di_handled : handled_ok s;
  di_loop : loop_ok s;
  di_count : sc_processedCount (sy_consumer s) = size (processingMessages (sy_consumer s));
  di_live : sy_cancelled s = false → live_ok s;
}.

Lemma count_step k s s' :
  sc_processedCount (sy_consumer s) = size (processingMessages (sy_consumer s)) → step skips k s s' →
  sc_processedCount (sy_consumer s') = size (processingMessages (sy_consumer s')).
Proof. intros H Hstep. by delivery_cases Hstep. Qed.

(** Nothing stops unless the context is cancelled. *)
Lemma stop_cancels s s' : live_ok s → step skips Stop s s' → sy_cancelled s' = true.
Proof.
  intros [H1 H2 _ _ _] Hstep. inversion Hstep as [H|H|H|H|H]; inversion H; subst; simpl; done.
Qed.
Lemma goes_on k s s' : k ≠ Stop → step skips k s s' → sy_cancelled s' = sy_cancelled s.
Proof. intros Hk Hstep. by delivery_cases Hstep. Qed.

Lemma live_ok_step n k s s' :
  delivery_inv n s → k ≠ Stop → sy_cancelled s = false → step skips k s s' → live_ok s'.
Proof.
  intros [Hn Hq Hm _ _ Hcnt Hl] Hk Hc Hstep. specialize (Hl Hc). destruct Hstep as [H|H|H|H|H];
    [by eapply worker_live_ok|by eapply loop_live_ok|by eapply hand_over_live_ok|by eapply task_live_ok|by eapply outside_live_ok].
Qed.

Lemma delivery_inv_step n k s s' : delivery_inv n s → step skips k s s' → delivery_inv n s'.
Proof.
  intros Hinv Hstep. pose proof Hinv as [Hn Hq Hm Hh Hl Hcnt Hv].
  split; [done|by eapply queue_ok_step|by eapply msgs_ok_step|by eapply handled_ok_step|by eapply loop_ok_step|by eapply count_step|].
  intros Hc'. destruct (sy_cancelled s) eqn:Hc.
  - destruct k;
      [rewrite (goes_on Work s s') in Hc' by done; congruence|rewrite (goes_on Fault s s') in Hc' by done; congruence|]. exfalso. clear -Hstep Hc Hc'.
    delivery_cases Hstep; simpl in *; congruence.
  - destruct k; [by eapply (live_ok_step n Work)|by eapply (live_ok_step n Fault)|]. by rewrite (stop_cancels s s' (Hv eq_refl) Hstep) in Hc'.
Qed.

Lemma delivery_inv_start p topic maxSize stored t :
  NoDup (key_of <$> stored) → delivery_inv (clampSize maxSize) (delivery_start p topic maxSize stored t).
Proof.
  intros Hk. assert (Hn : clampSize maxSize ≠ 0) by (unfold clampSize; destruct (Z.ltb_spec maxSize 1); lia).
  split; try done.
  - assert (Hz : anq_tokens (NewAckQueue maxSize) + 0 + size (anq_queue (NewAckQueue maxSize)) = clampSize maxSize).
    { unfold NewAckQueue, NewAckNackQueue. cbn [anq_tokens anq_queue]. rewrite size_empty. lia. }
    split; try done; try exact (Nat.eq_le_incl _ _ Hz); try apply NoDup_nil_2; simpl; set_solver.
  - split; simpl; try done; try set_solver; by constructor.
  - split; simpl; try done; set_solver.
Qed.
(** *** Work lightens the system *)

Lemma filter_length_impl {A} (P Q : A → Prop) `{!∀ x, Decision (P x), !∀ x, Decision (Q x)} (l : list A) :
  (∀ x, x ∈ l → P x → Q x) → length (filter P l) ≤ length (filter Q l).
Proof.
  induction l as [|x l IH]; intros Hi; [done|]. rewrite !filter_cons.
  assert (length (filter P l) ≤ length (filter Q l)) by (apply IH; intros y Hy; apply Hi; by apply list_elem_of_further).
  assert (HPQ : P x → Q x) by (apply Hi, list_elem_of_here). destruct (decide (P x)), (decide (Q x)); simpl; try lia. naive_solver.
Qed.

(** Fewer messages are fresh when more are held. *)
Lemma fresh_le s s' :
  sy_stored s' = sy_stored s → sc_topic (sy_consumer s') = sc_topic (sy_consumer s) →
  (∀ i, i ∈ msg_ID <$> flying s → i ∈ msg_ID <$> flying s') → length (fresh s') ≤ length (fresh s).
Proof.
  intros Es Et Hf. unfold fresh. rewrite Es, Et. apply filter_length_impl. intros e _ [Ht Hn]. split; [done|].
  intros Hi. by apply Hn, Hf.
Qed.

Lemma fresh_found s ms :
  msgs_ok s → sy_worker s = WFind → found_by (find_spec s) (sy_stored s) ms →
  length (fresh (set_worker (WSend ms (negb (all_processed s ms))) s)) + length ms ≤ length (fresh s).
Proof.
  intros Hok Hw Hf. destruct (found_facts s ms (mo_keys _ Hok) Hf) as (Hin & Hu & _).
  set (s' := set_worker _ s).
  assert (Hfl : flying s = held s) by (unfold flying; by rewrite Hw).
  assert (Hfl' : flying s' = ms ++ held s) by done.
  assert (Hids : ∀ e, e ∈ fresh s' → e ∈ fresh s ∧ msg_ID (snd e) ∉ msg_ID <$> ms).
  { intros e [[H1 H2] He]%list_elem_of_filter. rewrite Hfl', fmap_app in H2.
    split; [|set_solver]. apply list_elem_of_filter. split; [|done]. split; [done|]. rewrite Hfl. set_solver. }
  assert (Hsub : (msg_ID <$> (snd <$> fresh s')) ++ (msg_ID <$> ms) ⊆+ msg_ID <$> (snd <$> fresh s)).
  { apply NoDup_submseteq.
    - apply NoDup_app. split_and!; [|intros i (m & -> & (e & -> & He)%list_elem_of_fmap)%list_elem_of_fmap; by apply Hids|done].
      apply (keys_ids (sc_topic (sy_consumer s))); [by intros e [[? _] _]%list_elem_of_filter|].
      apply keys_filter, (mo_keys _ Hok).
    - intros i [Hi|(m & -> & Hm)%list_elem_of_fmap]%elem_of_app.
      + rewrite <- list_fmap_compose in *. apply list_elem_of_fmap in Hi as (e & -> & He). apply list_elem_of_fmap.
        exists e. split; [done|]. by apply Hids.
      + destruct (Hin m Hm) as ((e & -> & He)%list_elem_of_fmap & Ht & Hp). rewrite <- list_fmap_compose.
        apply list_elem_of_fmap. exists e. split; [done|]. apply list_elem_of_filter. split; [|done]. split; [done|].
        rewrite Hfl. intros (x & Hx & Hh)%list_elem_of_fmap. apply Hp. rewrite Hx.
        pose proof (mo_claims _ Hok x Hh) as Hc. unfold claimed in Hc. rewrite Hw in Hc. set_solver. }
  apply submseteq_length in Hsub. rewrite length_app, !length_fmap in Hsub. done.
Qed.

Lemma tasks_weight_perm ts ts' : ts ≡ₚ ts' → tasks_weight ts = tasks_weight ts'.
Proof. unfold tasks_weight. induction 1; simpl; lia. Qed.

(** Work takes a unit at least, a disturbance adds forty at most. *)
Definition lighter (k : kind) (s s' : system) : Prop :=
  match k with Work => weight s' < weight s | Fault => weight s' ≤ weight s + 40 | Stop => True end.

Ltac weigh s s' Hfl :=
  let Hf := fresh "Hf" in
  assert (Hf : length (fresh s') ≤ length (fresh s)) by (apply fresh_le; [done|done|]; unfold flying, held in *; simpl; Hfl);
  unfold lighter, weight; simpl in *;
  repeat match goal with E : sy_worker _ = _ |- _ => rewrite E in * | E : sy_loop _ = _ |- _ => rewrite E in * end; simpl in *;
  repeat match goal with E : processChan _ = _ |- _ => rewrite E end; simpl; try lia.

Lemma retry_live s : sy_cancelled s = false → retry s = WLock.
Proof. unfold retry. by intros ->. Qed.
Lemma release_weight more failed : worker_weight (WRelease more failed) ≤ 5.
Proof. by destruct more, failed; simpl; lia. Qed.

Lemma worker_lighter k s s' :
  msgs_ok s → sy_cancelled s = false → worker_step k s s' → lighter k s s'.
Proof.
  intros Hok Hc H. destruct H as [s H Hs|s H Hx|s H|s H|s H Hf|s m ms H Hf|s H|s m todo more H Hx|s m todo more H|s more H|s more H Hz
    |s more H Hz|s more H|s H|s H|s more H|s more failed H]; rewrite ?retry_live by done; try exact I;
    try (match goal with |- lighter _ s ?s' => weigh s s' ltac:(by rewrite ?H) end; done).
  - pose proof (fresh_found s (m :: ms) Hok H Hf) as Hle. unfold lighter, weight. rewrite H. simpl in *. lia.
  - weigh s (set_worker (WRelease more false) s) ltac:(by rewrite ?H). destruct more; simpl; lia.
  - weigh s (set_worker WLock s) ltac:(by rewrite ?H). destruct more; simpl in *; lia.
Qed.

Lemma loop_lighter n k s s' : queue_ok n s → loop_step k s s' → lighter k s s'.
Proof.
  intros Hq H. pose proof (λ msg q e, AddProcessing_never_fails n s msg q e Hq) as Hadd.
  destruct H as [s t H Ht|s msg q H Ht|s msg q e H Ht|s H Hc|s H Hw]; try exact I.
  - match goal with |- lighter _ s ?s' => weigh s s' ltac:(by rewrite ?H) end.
  - clear Hadd. match goal with |- lighter _ s ?s' => weigh s s' ltac:(by rewrite ?H, ?at_pos_cons) end.
  - by destruct (Hadd msg q e).
Qed.

Lemma hand_over_lighter k s s' : hand_over k s s' → lighter k s s'.
Proof.
  intros H. destruct H as [s m todo more Hw Hl].
  match goal with |- lighter _ s ?s' => weigh s s' ltac:(rewrite Hw, Hl; simpl; set_solver) end.
Qed.

Lemma fresh_delete s m s1 :
  sy_stored s1 = delete_stored m (sy_stored s) → sc_topic (sy_consumer s1) = sc_topic (sy_consumer s) → of_topic s m →
  (∀ i, i ∈ msg_ID <$> flying s → i ≠ msg_ID m → i ∈ msg_ID <$> flying s1) → length (fresh s1) ≤ length (fresh s).
Proof.
  intros Es Et Hm Hf. unfold fresh, delete_stored in *. rewrite Es, Et, list_filter_filter. apply filter_length_impl.
  intros e _ [[Ht Hn] Hne]. split; [done|]. intros Hi. apply Hn, Hf; [done|]. intros Hid. apply Hne.
  unfold of_topic in Hm. split; [congruence|set_solver].
Qed.

Lemma task_lighter k s s' : msgs_ok s → task_step skips k s s' → lighter k s s'.
Proof.
  intros Hok H.
  destruct H as [s msg ts E Hc Hs|s msg ts E Hc Hs|s msg ts E Hc|s msg ts E|s msg ts E|s msg ts E|s msg ts E|s msg ts E
    |s msg ts E Hc|s msg ts E|s msg ts q E Hr]; try exact I; try (unfold lighter; lia); pose proof (tasks_weight_perm _ _ E) as Ew;
    pose proof (at_pos_perm before_delete _ _ _ _ E) as Ea.
  all: try (match goal with |- lighter _ ?s0 ?s' => weigh s0 s' ltac:(intros i; rewrite Ea, ?at_pos_cons; simpl; done) end; done).
  - set (s' := note_deleted _ _). assert (Hf : length (fresh s') ≤ length (fresh s)).
    { apply (fresh_delete s (cm_Message msg)); try done.
      - apply (mo_topic _ Hok). unfold flying, held. rewrite Ea. set_solver.
      - intros i. unfold flying, held. rewrite Ea. simpl. rewrite at_pos_cons. set_solver. }
    unfold lighter, weight. simpl in *. lia.
  - weigh s (remove_processing (msg_ID (cm_Message msg)) (set_tasks ((msg, TRelease) :: ts) s))
      ltac:(intros i; rewrite Ea, ?wake_todo, ?at_pos_cons; simpl; done).
    unfold wake. destruct (sy_worker s); simpl; repeat case_match; simpl; lia.
Qed.

Lemma outside_lighter k s s' : outside_step k s s' → lighter k s s'.
Proof.
  intros H. destruct H as [s at_ m Hnew|s|s t Ht|s]; try exact I.
  - unfold lighter, weight. cbn [set_stored sy_worker sy_consumer sy_loop sy_tasks].
    assert (length (fresh (set_stored (store_one at_ (sy_stored s) m) s)) ≤ length (fresh s) + 1); [|lia].
    unfold fresh. change (flying (set_stored _ s)) with (flying s). cbn [set_stored sy_stored sy_consumer].
    destruct (store_one_cases at_ (sy_stored s) m) as [->|[-> _]]; [lia|]. rewrite filter_app, length_app.
    pose proof (length_filter (waits (sc_topic (sy_consumer s)) (msg_ID <$> flying s)) [(at_, m)]). simpl in *. lia.
  - match goal with |- lighter _ s ?s' => weigh s s' ltac:(done) end.
  - match goal with |- lighter _ s ?s' => weigh s s' ltac:(done) end.
Qed.

Lemma step_lighter n k s s' : delivery_inv n s → sy_cancelled s = false → step skips k s s' → lighter k s s'.
Proof.
  intros Hinv Hc [H|H|H|H|H]; pose proof Hinv as [Hn Hq Hm _ _ _ _];
    [by eapply worker_lighter|by eapply loop_lighter|by eapply hand_over_lighter|by eapply task_lighter|by eapply outside_lighter].
Qed.
(** *** Nothing that was stored is lost *)

Definition kept (e : time * Message) (s : system) : Prop := e ∈ sy_stored s ∨ snd e ∈ sy_deleted s.

Lemma kept_step k s s' e : msgs_ok s → of_topic s (snd e) → kept e s → step skips k s s' → kept e s'.
Proof.
  intros Hok Ht [He|He] Hstep; unfold kept; delivery_cases Hstep; simpl; auto; try set_solver.
  - destruct (decide (same_message (cm_Message msg) (snd e))) as [[Hid Htp]|Hn]; [|left; by apply delete_stored_spec].
    right. assert (snd e = cm_Message msg) as ->; [|set_solver].
    assert (Hm : in_stored s (cm_Message msg)).
    { apply (mo_stored _ Hok). unfold flying, held. rewrite H, at_pos_cons. set_solver. }
    apply list_elem_of_fmap in Hm as (e' & Hm & He'). rewrite Hm in *.
    assert (e = e') as ->; [|done]. apply (keys_inj key_of (sy_stored s)); [apply (mo_keys _ Hok)|done|done|].
    unfold key_of. congruence.
  - left. destruct (store_one_cases at_ (sy_stored s) m) as [->|[-> _]]; set_solver.
Qed.

Lemma topic_step k s s' : step skips k s s' → sc_topic (sy_consumer s') = sc_topic (sy_consumer s).
Proof. intros Hstep. by delivery_cases Hstep. Qed.
Lemma now_step k s s' : step skips k s s' → (sy_now s <= sy_now s')%Z.
Proof. intros Hstep. delivery_cases Hstep; simpl; lia. Qed.

(** *** The worker looks for what is due *)

Section targets.
Context (T : list (time * Message)).

Definition covered (s : system) : Prop := ∀ e, e ∈ T → e ∈ sy_stored s → msg_ID (snd e) ∈ msg_ID <$> flying s.

Definition looking (s : system) : Prop :=
  processChan (sy_consumer s) = true ∨
  match sy_worker s with
  | WLock | WFind => True
  | WSend _ more | WAdd _ _ more | WCheck more | WWait more | WSleep more => more = true ∨ covered s
  | WRelease more failed => more = true ∨ failed = true ∨ covered s
  | WIdle => covered s
  | WClosed => False
  end.

Record targets_ok (s : system) : Prop := {
  to_topic : ∀ e, e ∈ T → of_topic s (snd e);
  to_due : ∀ e, e ∈ T → (fst e <= sy_now s)%Z;
  to_kept : ∀ e, e ∈ T → kept e s;
  to_looking : looking s;
}.

(** What is held stays held until it is deleted. *)
Lemma flying_step n k s s' m :
  delivery_inv n s → k ≠ Stop → sy_cancelled s = false → step skips k s s' → m ∈ flying s → m ∈ flying s' ∨ m ∈ sy_deleted s'.
Proof.
  intros Hinv Hk Hc Hstep. pose proof (λ msg q e, AddProcessing_never_fails n s msg q e (di_queue _ _ Hinv)) as Hadd.
  delivery_cases Hstep; try done; unfold flying, held;
    repeat match goal with E : sy_worker _ = _ |- _ => rewrite E | E : sy_loop _ = _ |- _ => rewrite E
      | E : sy_tasks _ ≡ₚ _ |- _ => rewrite E end; simpl; rewrite ?wake_todo, ?at_pos_cons; simpl; try (clear; set_solver).
  by destruct (Hadd msg q e).
Qed.

Lemma covered_step n k s s' :
  delivery_inv n s → k ≠ Stop → sy_cancelled s = false → (∀ e, e ∈ T → of_topic s (snd e) ∧ kept e s) →
  step skips k s s' → covered s → covered s'.
Proof.
  intros Hinv Hk Hc HT Hstep Hcov e HeT He. pose proof (delivery_inv_step n k s s' Hinv Hstep) as Hinv'.
  destruct (HT e HeT) as [Ht [Hst|Hde]].
  - specialize (Hcov e HeT Hst). apply list_elem_of_fmap in Hcov as (m & Hid & Hm).
    destruct (flying_step n k s s' m Hinv Hk Hc Hstep Hm) as [Hf|Hd].
    + apply list_elem_of_fmap. by exists m.
    + exfalso. apply (mo_gone _ (di_msgs _ _ Hinv') m e Hd He). split; [done|].
      pose proof (mo_topic _ (di_msgs _ _ Hinv) m Hm) as Htm. unfold of_topic in *. congruence.
  - exfalso. assert (Hd' : snd e ∈ sy_deleted s') by (clear -Hde Hstep; delivery_cases Hstep; simpl; set_solver).
    by apply (mo_gone _ (di_msgs _ _ Hinv') _ e Hd' He).
Qed.

(** A batch that is empty or not full holds all targets. *)
Lemma batch_covers n s ms more :
  delivery_inv n s → sy_cancelled s = false → targets_ok s → sy_worker s = WFind →
  found_by (find_spec s) (sy_stored s) ms → ms = [] ∨ all_processed s ms = true →
  covered (set_worker (WSend ms more) s).
Proof.
  intros Hinv Hc [Ht Hd _ _] Hw Hf Hall e HeT He.
  destruct (found_facts s ms (mo_keys _ (di_msgs _ _ Hinv)) Hf) as (_ & _ & Hcompl).
  unfold flying. simpl. rewrite fmap_app. apply elem_of_app.
  destruct (decide (msg_ID (snd e) ∈ processingMessages (sy_consumer s))) as [Hp|Hp].
  - right. apply (lo_claimed _ (di_live _ _ Hinv Hc) e He (Ht e HeT)). unfold claimed. set_solver.
  - left. apply list_elem_of_fmap. exists (snd e). split; [done|]. apply Hcompl; auto.
Qed.

Lemma looking_step n k s s' :
  delivery_inv n s → k ≠ Stop → sy_cancelled s = false → targets_ok s → step skips k s s' → looking s'.
Proof.
  intros Hinv Hk Hc HT Hstep.
  assert (Hcov : covered s → covered s').
  { eapply covered_step; try done. intros e He. split; [by apply (to_topic _ HT)|by apply (to_kept _ HT)]. }
  pose proof (to_looking _ HT) as [Hs|Hl]; unfold looking.
  - delivery_cases Hstep; simpl; auto.
  - delivery_cases Hstep; try done; simpl in *;
      repeat match goal with E : sy_worker _ = _ |- _ => rewrite E in * end; unfold retry; rewrite ?Hc; auto;
      try (right; naive_solver).
    1: right; do 2 right; apply (batch_covers n s [] false); auto.
    1: right; destruct (all_processed s (m :: ms)) eqn:Hall; simpl; [right|by left];
       apply (batch_covers n s (m :: ms) _ Hinv Hc HT H H0); by right.
    all: right; destruct (sy_worker s); simpl; try (by repeat case_match); try naive_solver.
    destruct (size _); naive_solver.
Qed.

Lemma targets_ok_step n k s s' :
  delivery_inv n s → k ≠ Stop → sy_cancelled s = false → targets_ok s → step skips k s s' → targets_ok s'.
Proof.
  intros Hinv Hk Hc HT Hstep. pose proof HT as [H1 H2 H3 H4]. split; [..|by eapply looking_step].
  - intros e He. unfold of_topic. rewrite (topic_step _ _ _ Hstep). by apply H1.
  - intros e He. pose proof (now_step _ _ _ Hstep). specialize (H2 e He). lia.
  - intros e He. eapply kept_step; [apply (di_msgs _ _ Hinv)|by apply H1|by apply H3|done].
Qed.
End targets.

(** *** Where work ends *)

Lemma sorted_due (l : list (time * Message)) : ∃ due, due ≡ₚ l ∧ StronglySorted scheduled_le due.
Proof.
  exists (merge_sort scheduled_le l). split; [apply merge_sort_Permutation|].
  apply StronglySorted_merge_sort; unfold scheduled_le; [intros x y z|intros x y]; lia.
Qed.

Lemma find_returns s : ∃ ms, found_by (find_spec s) (sy_stored s) ms.
Proof. destruct (sorted_due (filter (matches (find_spec s)) (sy_stored s))) as (due & Hp & Hs). eexists. by exists due. Qed.

(** With nothing to do, no goroutine holds a message; the worker is in its
    [select] without a signal, or asleep. *)
Lemma quiet_idle n s :
  delivery_inv n s → sy_cancelled s = false → quiet skips s →
  sy_tasks s = [] ∧ sy_loop s = LMessage ∧
  ((sy_worker s = WIdle ∧ processChan (sy_consumer s) = false) ∨ ∃ more, sy_worker s = WSleep more).
Proof.
  intros [Hn Hq Hm _ _ _ Hl] Hc Hquiet. specialize (Hl Hc).
  assert (Htasks : sy_tasks s = []).
  { destruct (sy_tasks s) as [|[msg p] ts] eqn:E; [done|]. exfalso.
    assert (Hp : sy_tasks s ≡ₚ (msg, p) :: ts) by by rewrite E.
    destruct p.
    - destruct (skips (cm_Message msg)) eqn:Hsk; eapply Hquiet, step_task; [by eapply tk_skip|by eapply tk_run].
    - eapply Hquiet, step_task. by eapply tk_handled.
    - eapply Hquiet, step_task. by eapply tk_delete.
    - eapply Hquiet, step_task. by eapply tk_remove.
    - destruct (ackNack_release msg (sy_queue s, tt)) as [o [q []]] eqn:Hr. pose proof (release_run _ _ _ _ Hr) as Hcase.
      assert (anq_tokens (sy_queue s) < anq_cap (sy_queue s)) as Hlt.
      { pose proof (queue_bounds n s Hq) as Hb. rewrite E in Hb. destruct Hq as [-> _ Hsl _ _ _ _ _ _]. simpl in Hb. lia. }
      destruct o as [[]| | |]; try lia. eapply Hquiet, step_task. by eapply tk_release. }
  assert (Hloop : sy_loop s = LMessage).
  { pose proof (lo_loop _ Hl) as Hr. destruct (sy_loop s) as [| |msg|] eqn:E; try done; exfalso.
    - pose proof (queue_live n s Hq Hc) as Hsz. rewrite Htasks in Hsz. destruct Hq as [_ _ _ Hall _ _ _ _ _].
      rewrite E, Hsz in Hall. simpl in Hall. specialize (Hall eq_refl). destruct (anq_tokens (sy_queue s)) as [|t] eqn:Ht; [lia|].
      eapply Hquiet, step_loop. by eapply lp_token.
    - destruct (ackNack_AddProcessing msg (sy_queue s, tt)) as [o [q []]] eqn:Ha. pose proof Ha as Ha'.
      unfold ackNack_AddProcessing in Ha'. assert (∃ r, o = Ret r) as [[e|] ->] by (repeat case_decide; simplify_eq/=; eauto).
      + eapply Hquiet, step_loop. by eapply lp_add_failed.
      + eapply Hquiet, step_loop. by eapply lp_add. }
  split_and!; [done|done|]. pose proof (lo_worker _ Hl) as Hw.
  destruct (sy_worker s) as [| | |[|m todo] more|m todo more|more|more|more|more failed|] eqn:E; try done; try by eauto;
    try (exfalso; eapply Hquiet, step_worker; by constructor).
  - left. split; [done|]. destruct (processChan (sy_consumer s)) eqn:Hs; [|done]. exfalso. eapply Hquiet, step_worker. by apply wk_wake.
  - exfalso. destruct (find_returns s) as [[|m ms] Hf]; eapply Hquiet, step_worker; [by apply wk_found_none|by eapply wk_found].
  - exfalso. eapply Hquiet, step_hand_over. by econstructor.
  - exfalso. destruct (decide (sc_processedCount (sy_consumer s) = 0)); eapply Hquiet, step_worker;
      [by eapply wk_zero|by eapply wk_nonzero].
  - exfalso. destruct failed; [eapply Hquiet, step_worker; by eapply wk_retry|].
    destruct more; eapply Hquiet, step_worker; [by eapply wk_next|by eapply wk_finished].
Qed.
End invariants.

(** ** Theorems *)

Section theorems.
Context (skips : Message → bool) (p : StorageConsumerProviderImpl unit) (topic : Topic) (maxSize : Z)
  (stored : list (time * Message)) (t : time).
Abbreviation reachable := (rtc (any_step skips) (delivery_start p topic maxSize stored t)).

Lemma reachable_inv s : NoDup (key_of <$> stored) → reachable s → delivery_inv skips (clampSize maxSize) s.
Proof.
  intros Hk Hr. eapply (inv_rtc (any_step skips)); [|by apply delivery_inv_start|exact Hr].
  intros a b Ha [k Hab]. by eapply delivery_inv_step.
Qed.

Lemma reachable_topic s s' : rtc (any_step skips) s s' → sc_topic (sy_consumer s') = sc_topic (sy_consumer s).
Proof. induction 1 as [|s s1 s' [k Hst] _ IH]; [done|]. by rewrite IH, (topic_step _ _ _ _ Hst). Qed.

Lemma kept_run s s' e :
  delivery_inv skips (clampSize maxSize) s → of_topic s (snd e) → kept e s → rtc (any_step skips) s s' → kept e s'.
Proof.
  intros Hi Ht Hk Hr. induction Hr as [|s s1 s' [k Hst] _ IH]; [done|]. apply IH.
  - by eapply delivery_inv_step.
  - unfold of_topic. by rewrite (topic_step _ _ _ _ Hst).
  - eapply kept_step; [apply (di_msgs _ _ _ Hi)|done..].
Qed.

Lemma run_steps n k s s' : run skips n k s s' → rtc (any_step skips) s s'.
Proof. induction 1 as [|n k s s1 s2 _ IH Hst|n k s s1 s2 _ IH Hst]; [done|..]; eapply rtc_r; [exact IH|by eexists|exact IH|by eexists]. Qed.

(** A run keeps what the liveness argument needs, and its length is paid by the
    weight it starts with and by its disturbances. *)
Lemma run_ok T n k s s' m :
  delivery_inv skips m s → sy_cancelled s = false → targets_ok T s → run skips n k s s' →
  delivery_inv skips m s' ∧ sy_cancelled s' = false ∧ targets_ok T s' ∧ n + weight s' ≤ weight s + 41 * k.
Proof.
  intros Hi Hc HT Hr. induction Hr as [s|n k s s1 s2 Hr IH Hst|n k s s1 s2 Hr IH Hst]; [split_and!; [done..|lia]| |];
    destruct (IH Hi Hc HT) as (Hi1 & Hc1 & HT1 & Hw); pose proof (step_lighter _ _ _ _ _ Hi1 Hc1 Hst) as Hl; simpl in Hl;
    (split_and!; [by eapply delivery_inv_step|by (rewrite <- Hc1; eapply goes_on; [|exact Hst]; done)|eapply targets_ok_step; [exact Hi1| |exact Hc1|exact HT1|exact Hst]; done|lia]).
Qed.

(** C6. At least once, and never by two at a time.  In every run of the consumer
    and the listener, with any interleaving, failures of the storage, of the
    handlers, and cancellation at any moment: there are at most [maxSize]
    goroutines and no message has two; a message is never lost - at any later
    moment it is stored, or it was deleted; it is deleted once, after its
    handlers succeeded (or when the listener has none for it); the queue never
    refuses a message, so only the closed channel of a consumer that stopped
    ends the listener with an error. *)
Theorem delivery_at_least_once s1 s
    (Hkeys : NoDup (key_of <$> stored)) (Hs1 : reachable s1) (Hs : rtc (any_step skips) s1 s) :
  length (sy_tasks s) ≤ clampSize maxSize ∧
  NoDup (msg_ID <$> at_pos before_delete (sy_tasks s)) ∧
  (∀ e, e ∈ sy_stored s1 → msg_Topic (snd e) = topic → e ∈ sy_stored s ∨ snd e ∈ sy_deleted s) ∧
  NoDup (msg_ID <$> sy_deleted s) ∧
  (∀ m, m ∈ sy_deleted s → m ∉ snd <$> sy_stored s ∧ (skips m = true ∨ msg_ID m ∈ sy_handled s)) ∧
  (∀ e, sy_loop s = LReturned (Some e) → sy_worker s = WClosed).
Proof.
  pose proof (reachable_inv s1 Hkeys Hs1) as Hi1.
  pose proof (reachable_inv s Hkeys (transitivity (R := rtc _) Hs1 Hs)) as [_ Hq Hm Hh Hl _ _].
  split_and!.
  - pose proof (queue_bounds _ _ Hq). pose proof (qo_slots _ _ Hq). lia.
  - pose proof (mo_unique _ Hm) as Hu. unfold flying, held in Hu. rewrite !fmap_app in Hu.
    apply NoDup_app in Hu as (_ & _ & Hu). by apply NoDup_app in Hu as (_ & _ & ?).
  - intros e He Ht. eapply (kept_run s1); [done| |by left|done]. unfold of_topic. rewrite Ht.
    by rewrite (reachable_topic _ _ Hs1).
  - apply (mo_once _ Hm).
  - intros m Hd. split; [|by apply (ho_deleted _ _ Hh)]. intros (e & -> & He)%list_elem_of_fmap. by apply (mo_gone _ Hm _ e Hd He).
  - intros e He. unfold loop_ok in Hl. by rewrite He in Hl.
Qed.

(** C5. Every due message is delivered.  Take any moment of such a run at which the
    context is not cancelled and the worker was just signalled ([Process], the
    periodic job calls it).  From there a run with [k] disturbances - failures,
    new messages, signals, the clock - has at most [weight s0 + 41 * k] steps,
    so with finitely many failures it ends; and where nothing is left to do,
    every message that was stored and due at that moment was handled and
    deleted, unless an acknowledgement met one of the two races of
    [consumer_ack_race] and [consumer_lost_wakeup]: then the worker sleeps for
    ever, and still what it handed over was handled and deleted. *)
Theorem due_messages_delivered s0 n k s
    (Hkeys : NoDup (key_of <$> stored)) (Hs0 : reachable s0)
    (Hlive : sy_cancelled s0 = false) (Hsignal : processChan (sy_consumer s0) = true) (Hrun : run skips n k s0 s) :
  n ≤ weight s0 + 41 * k ∧
  (quiet skips s →
   (∀ e, e ∈ sy_stored s0 → msg_Topic (snd e) = topic → (fst e <= sy_now s0)%Z →
      e ∉ sy_stored s ∧ snd e ∈ sy_deleted s ∧ (skips (snd e) = true ∨ msg_ID (snd e) ∈ sy_handled s)) ∨
   (sy_raced s = true ∧ (∃ more, sy_worker s = WSleep more) ∧ flying s = [] ∧ sy_tasks s = [])).
Proof.
  set (T := filter (λ e, msg_Topic (snd e) = topic ∧ (fst e <= sy_now s0)%Z) (sy_stored s0)).
  pose proof (reachable_inv s0 Hkeys Hs0) as Hi0.
  assert (HT0 : targets_ok T s0).
  { split.
    - intros e [[Ht _] _]%list_elem_of_filter. unfold of_topic. by rewrite (reachable_topic _ _ Hs0).
    - by intros e [[_ ?] _]%list_elem_of_filter.
    - intros e [_ He]%list_elem_of_filter. by left.
    - by left. }
  destruct (run_ok T n k s0 s _ Hi0 Hlive HT0 Hrun) as (Hi & Hc & HT & Hw). split; [lia|]. intros Hquiet.
  destruct (quiet_idle skips _ _ Hi Hc Hquiet) as (Htasks & Hloop & Hworker).
  assert (Hheld : held s = []) by (unfold held; by rewrite Htasks, Hloop).
  destruct Hworker as [[Hidle Hsig]|[more Hsleep]]; [left|right].
  - pose proof (to_looking _ _ HT) as Hl. unfold looking in Hl. rewrite Hidle, Hsig in Hl. destruct Hl as [Hl|Hcov]; [done|].
    intros e He Ht Hdue. assert (HeT : e ∈ T) by (by apply list_elem_of_filter).
    assert (Hout : e ∉ sy_stored s).
    { intros Hin. specialize (Hcov e HeT Hin). unfold flying in Hcov. rewrite Hidle, Hheld in Hcov. by apply elem_of_nil in Hcov. }
    destruct (to_kept _ _ HT e HeT) as [?|Hdel]; [done|]. split_and!; [done..|]. by apply (ho_deleted _ _ (di_handled _ _ _ Hi)).
  - split_and!; [|by eexists|unfold flying; by rewrite Hsleep, Hheld|done].
    destruct (sy_raced s) eqn:Hr; [done|]. exfalso. pose proof (di_live _ _ _ Hi Hc) as Hl.
    apply (lo_waits _ Hl Hr); [by rewrite Hsleep|]. apply set_eq. intros i. split; [|set_solver].
    intros Hi'. assert (Hcl : i ∈ claimed s) by (unfold claimed; set_solver).
    apply (lo_removed _ Hl Hr) in Hcl. unfold unremoved in Hcl. rewrite Htasks, Hloop in Hcl. set_solver.
Qed.
End theorems.

(** ** The steps are the code's

    [AcknowledgeResult] of the listener's ack queue around the storage
    consumer's [Ack], run without interruption, is a run of the system. *)

Section code.
Context {W : Type} `{!Storage W} (rows : W → list (time * Message)).
(** [Delete], as [messageStorage_Store_Delete_spec] has it. *)
Context (Delete_rows : ∀ ctx topic id w, ∃ err w', Delete ctx topic [id] w = (Ret err, w') ∧
  rows w' = match err with
            | None => filter (λ e, ¬ (msg_Topic (snd e) = topic ∧ msg_ID (snd e) ∈ [id])) (rows w)
            | Some _ => rows w
            end).
Context (skips : Message → bool).

#[local] Instance storage_acks : AckStrategy (storageConsumer W * W) := consumer_Ack.

(** The system is in the state of the queue, the consumer and the storage. *)
Record represents (q : ackNackQueue) (c : storageConsumer W) (w : W) (s : system) : Prop := {
  rp_queue : sy_queue s = q;
  rp_stored : sy_stored s = rows w;
  rp_topic : sc_topic (sy_consumer s) = sc_topic c;
  rp_batch : consumingBatchSize (sy_consumer s) = consumingBatchSize c;
  rp_processing : processingMessages (sy_consumer s) = processingMessages c;
  rp_count : sc_processedCount (sy_consumer s) = sc_processedCount c;
  rp_signal : processChan (sy_consumer s) = processChan c;
}.

Theorem acknowledge_is_steps ctx msg ts q c w err q' c' w' s
    (Hhooks : onAcknowledge c = []) (Hrep : represents q c w s) (Htask : sy_tasks s ≡ₚ (msg, TAck) :: ts)
    (Hrun : ackQueue_AcknowledgeResult ctx msg None (q, (c, w)) = (Ret err, (q', (c', w')))) :
  ∃ s', rtc (any_step skips) s s' ∧ represents q' c' w' s' ∧
    match err with
    | None => sy_tasks s' = ts ∧ sy_deleted s' = cm_Message msg :: sy_deleted s
    | Some _ => sy_tasks s' = sy_tasks s ∧ sy_deleted s' = sy_deleted s
    end.
Proof.
  destruct (Delete_rows ctx (msg_Topic (cm_Message msg)) (msg_ID (cm_Message msg)) w) as (derr & wd & Hd & Hrows).
  destruct Hrep as [Rq Rs Rt Rb Rp Rc Rg]. subst q.
  assert (Hack : consumer_Ack ctx msg (c, w) = match derr with
    | Some e => (Ret (Some (Errorf "delete message from storage" e)), (c, wd))
    | None => (Ret None, (removeFromProcessing (msg_ID (cm_Message msg)) c, wd))
    end).
  { unfold consumer_Ack. unfold_M. unfold on_env. rewrite Hd, Hhooks. by destruct derr. }
  unfold ackQueue_AcknowledgeResult, ackNack_AcknowledgeResult in Hrun.
  unfold_M. unfold on_env, nackNotSupportedAdapter, AckNack_Ack, Ack, storage_acks in Hrun. rewrite Hack in Hrun.
  destruct derr as [e|]; cbn in Hrun.
  - simplify_eq. exists s. split_and!; [apply rtc_once; eexists; apply step_task; by eapply tk_delete_failed| |done|done].
    by split; rewrite ?Hrows.
  - destruct (ackNack_release msg (sy_queue s, (removeFromProcessing (msg_ID (cm_Message msg)) c, wd))) as [[[]| | |] [q1 s1]] eqn:Hr;
      simplify_eq.
    assert (Hr' : ackNack_release msg (sy_queue s, tt) = (Ret tt, (q', tt)) ∧ (c', w') = (removeFromProcessing (msg_ID (cm_Message msg)) c, wd)).
    { unfold ackNack_release in *. case_decide; by simplify_eq. }
    destruct Hr' as [Hr' [= -> ->]]. set (m := cm_Message msg) in *.
    set (s2 := note_deleted m (set_stored (delete_stored m (sy_stored s)) (set_tasks ((msg, TRemove) :: ts) s))).
    set (s3 := remove_processing (msg_ID m) (set_tasks ((msg, TRelease) :: ts) s2)).
    exists (set_tasks ts (set_queue q' s3)). split_and!.
    + eapply rtc_l; [eexists; apply step_task; by apply tk_delete|fold s2].
      eapply rtc_l; [eexists; apply step_task; by apply (tk_remove _ s2 msg ts)|fold s3].
      eapply rtc_l; [eexists; apply step_task; by apply (tk_release _ s3 msg ts q')|done].
    + split; try done; simpl; rewrite ?Rp; try done. by rewrite Hrows, Rs.
    + done.
    + done.
Qed.
End code.
(** ** A scheduler: the next step of a chosen goroutine *)

Inductive who := TheWorker | TheLoop | TheChannel | TheTask (i : nat).

Definition find_stored (spec : StorageSpecification) (stored : list (time * Message)) : list Message :=
  let due := merge_sort scheduled_le (filter (matches spec) stored) in
  snd <$> (if (0 <? Limit spec)%Z then take (Z.to_nat (Limit spec)) due else due).

Definition work_by (skips : Message → bool) (w : who) (s : system) : option system :=
  match w with
  | TheWorker =>
      match sy_worker s with
      | WIdle => if processChan (sy_consumer s) then Some (set_worker WLock (set_consumer (take_signal (sy_consumer s)) s)) else None
      | WLock => Some (set_worker WFind s)
      | WFind =>
          match find_stored (find_spec s) (sy_stored s) with
          | [] => Some (set_worker (WRelease false false) s)
          | m :: ms => Some (set_worker (WSend (m :: ms) (negb (all_processed s (m :: ms)))) s)
          end
      | WSend [] more => Some (set_worker (WCheck more) s)
      | WAdd m todo more =>
          Some (set_worker (WSend todo more) (set_consumer (addToProcessing (msg_ID m) (sy_consumer s)) s))
      | WCheck more =>
          Some (set_worker (if decide (sc_processedCount (sy_consumer s) = 0) then WRelease more false else WWait more) s)
      | WWait more => Some (set_worker (WSleep more) s)
      | WRelease more failed => Some (set_worker (if failed then retry s else if more then WLock else WIdle) s)
      | _ => None
      end
  | TheLoop =>
      match sy_loop s with
      | LToken =>
          match anq_tokens (sy_queue s) with
          | S t => Some (set_loop LMessage
              (set_queue (mkAckNackQueue (anq_maxSize (sy_queue s)) t (anq_cap (sy_queue s)) (anq_queue (sy_queue s))) s))
          | O => None
          end
      | LAdd msg =>
          match ackNack_AddProcessing msg (sy_queue s, tt) with
          | (Ret None, (q, _)) => Some (set_loop LToken (set_tasks ((msg, TTop) :: sy_tasks s) (set_queue q s)))
          | _ => None
          end
      | _ => None
      end
  | TheChannel =>
      match sy_worker s, sy_loop s with
      | WSend (m :: todo) more, LMessage => Some (next_pointer (set_worker (WAdd m todo more)
          (set_loop (LAdd (mkConsumerMessage (sy_pointers s) context_Background m)) s)))
      | _, _ => None
      end
  | TheTask i =>
      match sy_tasks s !! i with
      | None => None
      | Some (msg, p) =>
          let ts := delete i (sy_tasks s) in
          match p with
          | TTop =>
              if sy_cancelled s then None
              else Some (set_tasks ((msg, if skips (cm_Message msg) then TAck else TRun) :: ts) s)
          | TRun => Some (note_handled (msg_ID (cm_Message msg)) (set_tasks ((msg, TAck) :: ts) s))
          | TAck => Some (note_deleted (cm_Message msg) (set_stored (delete_stored (cm_Message msg) (sy_stored s))
                      (set_tasks ((msg, TRemove) :: ts) s)))
          | TRemove => Some (remove_processing (msg_ID (cm_Message msg)) (set_tasks ((msg, TRelease) :: ts) s))
          | TRelease =>
              match ackNack_release msg (sy_queue s, tt) with
              | (Ret _, (q, _)) => Some (set_tasks ts (set_queue q s))
              | _ => None
              end
          end
      end
  end.

Fixpoint schedule (skips : Message → bool) (ws : list who) (s : system) : option system :=
  match ws with
  | [] => Some s
  | w :: ws' => s1 ← work_by skips w s; schedule skips ws' s1
  end.

Lemma find_stored_spec spec stored : found_by spec stored (find_stored spec stored).
Proof.
  exists (merge_sort scheduled_le (filter (matches spec) stored)).
  split; [apply merge_sort_Permutation|]. split; [|done].
  apply StronglySorted_merge_sort; unfold scheduled_le; [intros x y z|intros x y]; lia.
Qed.

Lemma work_by_step skips w s s' : work_by skips w s = Some s' → step skips Work s s'.
Proof.
  destruct w as [| | |i]; simpl; intros H.
  - apply step_worker. destruct (sy_worker s) as [| | |[|m todo] more|m todo more|more|more|more|more failed|] eqn:E; simplify_eq.
    + destruct (processChan (sy_consumer s)) eqn:Hs; simplify_eq. by apply wk_wake.
    + by apply wk_lock.
    + pose proof (find_stored_spec (find_spec s) (sy_stored s)) as Hf.
      destruct (find_stored (find_spec s) (sy_stored s)) as [|m ms]; simplify_eq; [by apply wk_found_none|by apply wk_found].
    + by apply wk_sent.
    + by apply wk_add.
    + case_decide; [by apply wk_zero|by apply wk_nonzero].
    + by apply wk_sleep.
    + destruct failed; [by eapply wk_retry|]. destruct more; [by apply wk_next|by apply wk_finished].
  - apply step_loop. destruct (sy_loop s) as [| |msg|] eqn:E; simplify_eq.
    + destruct (anq_tokens (sy_queue s)) as [|t] eqn:Ht; simplify_eq. by apply lp_token.
    + destruct (ackNack_AddProcessing msg (sy_queue s, tt)) as [[[e|]| | |] [q []]] eqn:Ha; simplify_eq. by apply lp_add.
  - apply step_hand_over. destruct (sy_worker s) as [| | |[|m todo] more|m todo more|more|more|more|more failed|] eqn:E; simplify_eq.
    destruct (sy_loop s) eqn:El; simplify_eq. by apply hand_over_message.
  - apply step_task. destruct (sy_tasks s !! i) as [[msg p]|] eqn:E; simplify_eq.
    pose proof (delete_Permutation _ _ _ E) as Hp. destruct p; simplify_eq.
    + destruct (sy_cancelled s) eqn:Hc; simplify_eq. destruct (skips (cm_Message msg)) eqn:Hs; [by apply tk_skip|by apply tk_run].
    + by apply tk_handled.
    + by apply tk_delete.
    + by apply tk_remove.
    + destruct (ackNack_release msg (sy_queue s, tt)) as [[[]| | |] [q []]] eqn:Hr; simplify_eq. by eapply tk_release.
Qed.

Lemma schedule_run skips ws s s' : schedule skips ws s = Some s' → run skips (length ws) 0 s s'.
Proof.
  revert s'. induction ws as [|w ws IH] using rev_ind; intros s' H; [injection H as <-; apply run_nil|].
  rewrite length_app, Nat.add_comm. simpl.
  assert (∃ s1, schedule skips ws s = Some s1 ∧ work_by skips w s1 = Some s') as (s1 & H1 & H2).
  { clear IH. revert s H. induction ws as [|w0 ws IH]; intros s H; simpl in *.
    - apply bind_Some in H as (s1 & H & [= <-]). by exists s.
    - destruct (work_by skips w0 s); [|done]. by apply IH. }
  eapply run_work; [by apply IH|by eapply work_by_step].
Qed.

(** Where all goroutines wait there is no step. *)
Lemma idle_quiet skips s :
  sy_tasks s = [] → sy_loop s = LMessage →
  (sy_worker s = WIdle ∧ processChan (sy_consumer s) = false ∨ ∃ more, sy_worker s = WSleep more) → quiet skips s.
Proof.
  intros Ht Hl Hw s' Hst. inversion Hst as [H|H|H|H|H]; inversion H; subst; destruct Hw as [[Hw Hs]|[more0 Hw]]; try congruence;
    try (rewrite Ht in *; by match goal with E : [] ≡ₚ _ |- _ => apply Permutation_nil_cons in E end).
Qed.

(** ** Concrete runs *)

Definition m1 : Message := mkMessage 1 "user" "k" "{}".
Definition m2 : Message := mkMessage 2 "user" "k" "{}".
Definition none_skipped (m : Message) : bool := false.
Definition one_by_one : StorageConsumerProviderImpl unit := NewStorageConsumerProvider [WithStorageConsumerBatchSize 1].
Definition sample_start : system := delivery_start one_by_one "user" 1 [(0%Z, m1); (1%Z, m2)] 5.
(** A message is handed over and noted, and the worker falls asleep before the
    listener handles it. *)
Definition deliver_one : list who :=
  [TheLoop; TheWorker; TheWorker; TheChannel; TheWorker; TheWorker; TheWorker; TheWorker; TheLoop;
   TheTask 0; TheTask 0; TheTask 0; TheTask 0; TheTask 0; TheWorker; TheWorker].
Definition sample_schedule : list who :=
  TheWorker :: deliver_one ++ deliver_one ++ [TheWorker; TheWorker; TheWorker; TheLoop].
Definition sample_end : system := default sample_start (schedule none_skipped sample_schedule sample_start).

Example sample_runs : schedule none_skipped sample_schedule sample_start = Some sample_end ∧
  sy_worker sample_end = WIdle ∧ sy_deleted sample_end = [m2; m1] ∧ sy_handled sample_end = [2%N; 1%N].
Proof. vm_compute. done. Qed.

Lemma sample_keys : NoDup (key_of <$> sy_stored sample_start).
Proof. apply (bool_decide_unpack _). vm_compute. done. Qed.

Lemma sample_quiet : quiet none_skipped sample_end.
Proof. apply idle_quiet; [vm_compute; done|vm_compute; done|left; vm_compute; done]. Qed.

(** The two races in this system: the worker stops for ever with a message due.
    The acknowledgement that comes before [addToProcessing], and the one
    between the test of [processedCount] and [Wait]. *)
Definition early_ack : list who :=
  [TheWorker; TheWorker; TheWorker; TheLoop; TheChannel; TheLoop;
   TheTask 0; TheTask 0; TheTask 0; TheTask 0; TheTask 0; TheWorker; TheWorker; TheWorker; TheWorker; TheLoop].
Definition lost_wakeup : list who :=
  [TheWorker; TheWorker; TheWorker; TheLoop; TheChannel; TheWorker; TheWorker; TheWorker; TheLoop;
   TheTask 0; TheTask 0; TheTask 0; TheTask 0; TheTask 0; TheWorker; TheLoop].

Theorem races_stop_delivery ws :
  ws ∈ [early_ack; lost_wakeup] →
  ∃ s, run none_skipped (length ws) 0 sample_start s ∧ quiet none_skipped s ∧ sy_raced s = true ∧
    sy_deleted s = [m1] ∧ (1%Z, m2) ∈ sy_stored s ∧ (1 <= sy_now s)%Z.
Proof.
  intros Hws. destruct (schedule none_skipped ws sample_start) as [s|] eqn:E.
  - exists s. split; [by apply schedule_run|].
    assert (Hall : sy_tasks s = [] ∧ sy_loop s = LMessage ∧ sy_worker s = WSleep true ∧ sy_raced s = true ∧
      sy_deleted s = [m1] ∧ sy_stored s = [(1%Z, m2)] ∧ sy_now s = 5%Z).
    { apply (f_equal (default sample_start)) in E. simpl in E. subst s.
      repeat (apply elem_of_cons in Hws as [->|Hws]; [vm_compute; done|]). by apply elem_of_nil in Hws. }
    destruct Hall as (H1 & H2 & H3 & H4 & H5 & H6 & H7).
    split_and!; [apply idle_quiet; eauto|done|done|rewrite H6; set_solver|lia].
  - exfalso. apply (f_equal (λ o : option system, match o with Some _ => true | None => false end)) in E.
    repeat (apply elem_of_cons in Hws as [->|Hws]; [vm_compute in E; done|]). by apply elem_of_nil in Hws.
Qed.

(** ** Witnesses *)

Lemma due_messages_delivered_witness :
  length sample_schedule ≤ weight sample_start + 41 * 0 ∧ m2 ∈ sy_deleted sample_end.
Proof.
  destruct (due_messages_delivered none_skipped one_by_one "user" 1 [(0%Z, m1); (1%Z, m2)] 5 sample_start
    (length sample_schedule) 0 sample_end sample_keys (rtc_refl _ _) eq_refl eq_refl
    (schedule_run _ _ _ _ (proj1 sample_runs))) as [Hn Hq].
  split; [exact Hn|]. destruct (Hq sample_quiet) as [H|[Hr _]].
  - assert (Hin : (1%Z, m2) ∈ sy_stored sample_start) by (apply (bool_decide_unpack _); vm_compute; done).
    assert (Hnow : (1 <= sy_now sample_start)%Z) by (vm_compute; done).
    destruct (H (1%Z, m2) Hin eq_refl Hnow) as (_ & Hd & _). exact Hd.
  - exfalso. vm_compute in Hr. discriminate.
Defined.

Lemma delivery_at_least_once_witness :
  length (sy_tasks sample_end) ≤ 1 ∧ NoDup (msg_ID <$> sy_deleted sample_end).
Proof.
  destruct (delivery_at_least_once none_skipped one_by_one "user" 1 [(0%Z, m1); (1%Z, m2)] 5 sample_start sample_end sample_keys
    (rtc_refl _ _) (run_steps _ _ _ _ _ (schedule_run _ _ _ _ (proj1 sample_runs)))) as (H1 & _ & _ & H4 & _).
  split; [exact H1|exact H4].
Defined.
